(* ===== verification/_CoqProject ===== *)
-Q . S2P
Prelude.v
Words.v
Text.v
NetBuffer.v
Tcp.v
TcpClaims.v
Protocol.v
WebSocket.v
MessageId.v
Rpc.v
Db.v
MessageStore.v
ConversationStore.v
OutboxStore.v
Directory.v
DbLogic.v
MessageService.v
MessageSend.v
Sample.v
SendHistory.v
MessageReceipts.v
Progress.v
MessageClaims.v
History.v
Outbox.v
RelationService.v
Relations.v
Breaker.v
Redis.v
Push.v
PushSafety.v
PushClaims.v
Devices.v
Passwords.v
RedisLogic.v
UserService.v
Sessions.v
SessionClaims.v
DeviceService.v
DeviceClaims.v
Connections.v
Handshake.v
Gateway.v
GatewayServer.v
Streams.v
GatewayLogic.v
GatewaySteps.v
GatewayClaims.v
ConversationService.v
Admin.v
AdminClaims.v
Timers.v
TimerClaims.v
EventLoop.v
Workers.v
WorkerClaims.v
DbPool.v
TcpServer.v
Config.v
Kafka.v
RateLimit.v
Lifecycle.v
Spans.v
Otlp.v
Tracing.v
SpanTrees.v
RedisConn.v
Results.v
Credentials.v
Startup.v
Contexts.v
Services.v
Monitor.v
