(* ===== verification/Prelude.v ===== *)
(** * NebulaIM: a verification development

    NebulaIM is the backend of an instant messenger: a gateway that clients
    connect to over TCP or WebSocket, and the services behind it (users,
    devices, relations, messages, conversations, push, administration), which
    share MySQL, Redis and Kafka.  This library translates the C++ sources under
    src/ into executable definitions and proves what makes them correct.  A
    definition has the name of the function it translates wherever that is
    free, and sits in the file named below.

    ** How a message travels

    A client's bytes arrive in a [Buffer] of its [TcpConnection]; the gateway
    cuts them into packets or WebSocket frames and hands each to the router,
    which checks limits and the session and gives the call to an executor; a
    worker calls the backend and queues the answer to the connection's event
    loop.  The message service stores a message, its receipts and an outbox
    event in one transaction; the outbox worker publishes the event to Kafka;
    the push worker consumes it, looks the recipients up in Redis and asks
    their gateways to deliver, or leaves the message in the offline table, on
    the retry topic or among the dead letters.

    ** How code is modelled

    - Code that changes state is a function [SM S A]: from a state to a result
      and a state; [None] is a call that does not return (an assertion, an
      exception nobody catches, a dangling pointer, exhausted fuel).  [wp] is
      its total-correctness predicate: [None] satisfies no postcondition.
    - C++ integers are [Z] with their wrap-around written out ([u64], [s32], ...
      in Words); octets are [byte]; text is [string]; maps are [gmap].  Doubles
      (RateLimit, Monitor) are the binary64 numbers of the standard library.
    - What is not under src/ is a parameter: the clock, random numbers, sockets,
      files, OpenSSL, gRPC, hiredis, librdkafka, the MySQL client, protocol
      buffers.  Its answers are
      arbitrary sequences, numbered by the call; where code relies on more, a
      named record of laws says so ([RedisLaws], [lawful], [time_passes], ...)
      and an instance shows that the laws can hold.
    - Every SQL statement is the function on tables that it denotes.  Each
      database call ends [Done], [Refused], or [Lost]: it took effect and the
      caller was told that it failed.  Safety theorems about services hold for
      every sequence of outcomes.
    - Threads are steps of a transition relation.  A step is a critical section,
      or a handler that runs in one event loop; between steps anything may
      happen.  SQL transactions are atomic at their commit.

    ** The network library (common/net, common/async, common/thread)

    - NetBuffer: Buffer.cpp as a vector with two indices, which refines a queue
      of bytes.
    - Tcp, TcpClaims: TcpConnection.cpp with Channel.cpp and the registration in
      EpollPoller.cpp, plain and over TLS.  The bytes written are the messages
      taken over, whole and in order; a plain connection is announced once and
      closed once; every event, functor and request returns.
    - TcpServer: TcpServer.cpp and EventLoopThreadPool.cpp.  The table has the
      connections that are open, and epoll never has one that is gone.
    - EventLoop: EventLoop.cpp with its wake-ups: functors of any thread run
      once and in order, and the loop does not sleep while it has any.
    - Timers, TimerClaims: Timer.cpp and TimerQueue.cpp: what is due fires, in
      order, and nothing else is lost.
    - Workers, WorkerClaims: ThreadPool and RpcExecutor: every call is answered
      once, and [stop] returns.
    - Lifecycle: EventLoopThread.cpp, ShutdownSignal.cpp and the end of the
      gateway's main: threads end when their loop sees the [quit], which a [quit]
      before [loop] does not achieve.

    ** Formats (common/protocol, common/websocket, common/message, common/config)

    - Words, Text: machine words, big-endian numbers, decimal text, parts of
      texts.
    - Protocol: PacketHeader.cpp and PacketCodec.cpp: decoding agrees with the
      definition of the format on every input, and encoding is its inverse.
    - WebSocket, Handshake: WebSocketFrame.cpp, WebSocketCodec.cpp and
      WebSocketHandshake.cpp: every frame form decodes to itself.
    - MessageId: MessageIdGenerator.cpp and ConversationId.cpp: identifiers grow
      strictly, whatever the clock does.
    - Config: Config.cpp, StorageConfig.cpp and StaticServiceResolver.cpp: a file
      of settings reads as it is written, and services take turns.

    ** Storage and messaging (common/db, common/dao, common/redis, common/kafka)

    - Db: the tables, sessions, transactions and the world of a handler;
      MessageStore, ConversationStore, OutboxStore, Directory, Devices: the DAOs;
      DbLogic: how to reason about them.
    - DbPool: MySqlConnection.cpp and MySqlConnectionPool.cpp: no connection is
      lent twice or lost.  Results: MySqlResult.cpp: rows come once and in order,
      and numbers are read as they were written.
    - Redis, RedisLogic: the server as an interface with laws, RedisClient.cpp on
      top of it, and invariants along commands.  RedisConn: the connection under
      the client: it authenticates, and once lost it stays lost.
    - Kafka: KafkaProducer.cpp and the lag query of KafkaConsumer.cpp: [produce]
      confirms only what the broker has.  The services use the abstraction
      [Db.produce]: true means stored, false leaves it open; there a record
      that is stored after the call gave up counts as stored during it.
    - Rpc, Breaker, RateLimit: error codes, metadata and the internal token;
      CircuitBreaker.cpp, which refines a test on the history of its calls;
      TokenBucket.cpp and RateLimiter.cpp, whose limits are per client.

    ** Tracing and monitoring (common/trace, common/monitor, common/log)

    - Spans: TraceId.cpp and TraceContext.cpp: generated ids are valid, and what
      scopes restore.  SpanTrees: TraceSpan.cpp: the spans of nested blocks are
      recorded as the tree of the blocks.
    - Tracing: TraceManager.cpp with its worker, [flush] and [shutdown] in any
      order: every span is in one place, and [shutdown] returns.
    - Otlp: OtlpTraceExporter.cpp against the grammar of JSON: the body of an
      export is a document with two brackets too many.
    - Monitor: Metrics.cpp, MetricsRegistry.cpp, the answer of
      MetricsHttpServer.cpp, Logger.cpp and the admin service's probe of an
      address: histograms are cumulative and exact.

    ** From the configuration to a process

    - Credentials: GrpcTlsCredentials.cpp, GrpcServer.cpp, TlsConfig.cpp,
      TlsContext.cpp, the channels of GatewayBackendClients.cpp and
      GatewayClientManager.cpp, and the tokens of internal calls: with TLS on
      nothing falls back to plaintext.
    - Startup: KafkaConsumer::init and subscribe, and the workers of
      PushServiceContext.cpp, which start all or none.
    - Contexts, Services: the *Context classes and the main functions: a process
      that serves does so as its configuration says.

    ** Services

    - MessageService: the handlers of MessageServiceImpl.cpp.  MessageSend,
      SendHistory: a send is all or nothing, only between friends or by members,
      and retries store once.  MessageReceipts, Progress, MessageClaims:
      acknowledging, reading and recalling; the service only moves its tables
      forward.  History: following the cursors yields the whole conversation.
      Sample: a small deployment on which witnesses are evaluated.
    - Outbox: OutboxWorker.cpp, any number of them, restarted at any point: no
      event is lost, and only what the broker has is marked published.
    - Push, PushSafety, PushClaims: PushWorker.cpp, PushServiceImpl.cpp and
      common/push: what is below the committed offset has reached its
      recipients; retries are bounded while Redis answers.
    - RelationService, Relations: friendship is mutual and only by consent;
      groups appear with their owner.
    - Passwords, UserService, Sessions, SessionClaims: password hashes, and
      tokens that are accepted only after a login proved the password.
    - DeviceService, DeviceClaims: a revoked device is out.
    - Connections, Gateway, GatewayServer: ConnectionManager.cpp,
      GatewayOnlineManager.cpp, GatewayRouter.cpp, GatewayServer.cpp and
      GatewayServiceImpl.cpp; Streams, GatewayLogic, GatewaySteps, GatewayClaims:
      input is served in order, tables agree, and a connection acts and receives
      only for a user it was confirmed as.  The gateway files have their
      own, coarser view of a connection (connected or not, with what was sent),
      whose network steps come in any order; and they hold for every sequence of
      decisions of the rate limits.
    - ConversationService; Admin, AdminClaims: settings of the caller's own
      entries; administration only with a granted scope, and a cleanup that
      spares live rows.

    ** Fuel and bounds

    Loops that wait for the clock ([nextId], [Kafka.wait_delivery]) have fuel; the
    theorems say that enough fuel exists when the clock advances.  Loops over input ([onMessage], frames, TLS) have the
    length of the input, or a bound that the laws of the environment give, as
    fuel, and are shown not to run out.  Capacities (queues, pages, batches,
    buckets) are parameters or the constants of the source.

    ** Not modelled

    - Wrappers of system calls and libraries: Acceptor, Socket, InetAddress,
      GrpcServer::wait and shutdown, the accept loop of MetricsHttpServer;
      TimeUtil is the clock.
    - The part of each service's main function after its server is up, which
      waits inside of gRPC.  Metrics and log lines in the services are left
      out, or kept as counters.
    - MySqlResult::getDouble and MessageOutboxWorkerContext, which nothing uses.
    - Serialization by protocol buffers (a parameter) and escaping of text for
      SQL (statements are functions on tables).
    - Benchmarks, examples and tests.

    A theorem whose comment begins with C and a number is one of the properties
    of the project's manifest. *)

From stdpp Require Export base option list strings gmap pretty.
From Stdlib Require Export ZArith Lia Sorting.Sorted.

Declare Scope nebula_scope.
Delimit Scope nebula_scope with nebula.
Open Scope nebula_scope.
Open Scope Z_scope.

(** ** State passing *)

(** Code that changes shared state is a function from the state to its result
    and the new state; [None] means that the call does not return. *)
Definition SM (S A : Type) : Type := S -> option (A * S).

Section SM.
Context {S : Type}.

#[global] Instance SM_ret : MRet (SM S) := fun A a s => Some (a, s).
#[global] Instance SM_bind : MBind (SM S) :=
  fun A B k m s => match m s with Some (a, s') => k a s' | None => None end.

Definition get_state : SM S S := fun s => Some (s, s).
Definition modify (f : S -> S) : SM S unit := fun s => Some (tt, f s).

Lemma run_ret {A} (a : A) (s : S) : (mret a : SM S A) s = Some (a, s).
Proof. reflexivity. Qed.

Lemma run_bind {A B} (m : SM S A) (k : A -> SM S B) (s : S) :
  (m ≫= k) s = match m s with Some (a, s') => k a s' | None => None end.
Proof. reflexivity. Qed.

(** Inversion of a run that returns. *)
Lemma run_bind_Some {A B} (m : SM S A) (k : A -> SM S B) s r :
  (m ≫= k) s = Some r -> exists a s', m s = Some (a, s') /\ k a s' = Some r.
Proof. rewrite run_bind. destruct (m s) as [[a s']|]; [eauto|done]. Qed.

End SM.

(** ** Running to the end *)

Section WP.
Context {S : Type}.

(** The operation returns, with a result and a state that satisfy [Q]. *)
Definition wp {A} (m : SM S A) (Q : A -> S -> Prop) (c : S) : Prop :=
  match m c with Some (x, c') => Q x c' | None => False end.

Lemma wp_bind {A B} (m : SM S A) (k : A -> SM S B) Q c : wp m (fun x => wp (k x) Q) c -> wp (m ≫= k) Q c.
Proof. unfold wp. unfold mbind, SM_bind. by destruct (m c) as [[x c']|]. Qed.
Lemma wp_assoc {A B C} (m : SM S A) (f : A -> SM S B) (g : B -> SM S C) Q c :
  wp ((m ≫= f) ≫= g) Q c -> wp (m ≫= fun x => f x ≫= g) Q c.
Proof. unfold wp, mbind, SM_bind. by destruct (m c) as [[]|]. Qed.
Lemma wp_ret {A} (x : A) (Q : A -> S -> Prop) c : Q x c -> wp (mret x) Q c.
Proof. done. Qed.
Lemma wp_modify g (Q : unit -> S -> Prop) c : Q tt (g c) -> wp (modify g) Q c.
Proof. done. Qed.
Lemma wp_get (Q : S -> S -> Prop) c : Q c c -> wp get_state Q c.
Proof. done. Qed.
Lemma wp_mono {A} (m : SM S A) (P Q : A -> S -> Prop) c :
  wp m P c -> (forall x c', P x c' -> Q x c') -> wp m Q c.
Proof. unfold wp. destruct (m c) as [[x c']|]; auto. Qed.
Lemma wp_if {A} (b : bool) (m1 m2 : SM S A) Q c :
  (b = true -> wp m1 Q c) -> (b = false -> wp m2 Q c) -> wp (if b then m1 else m2) Q c.
Proof. destruct b; auto. Qed.
Lemma wp_exact {A} (m : SM S A) (Q : A -> S -> Prop) c x c' : m c = Some (x, c') -> Q x c' -> wp m Q c.
Proof. unfold wp. by intros ->. Qed.
Lemma wp_run {A} (m : SM S A) Q c : wp m Q c -> exists x c', m c = Some (x, c') /\ Q x c'.
Proof. unfold wp. destruct (m c) as [[x c']|]; [eauto|done]. Qed.

End WP.
#[global] Arguments wp {_ _} _ _ _ : simpl never.

(** The operators [&&] and [||] of the language on effectful conditions: the
    right operand runs only when it is needed. *)
Definition and_then {S} (m : SM S bool) (k : SM S bool) : SM S bool :=
  b ← m; if (b : bool) then k else mret false.
Definition or_else {S} (m : SM S bool) (k : SM S bool) : SM S bool :=
  b ← m; if (b : bool) then mret true else k.
Notation "m &&& k" := (and_then m k) (at level 40, left associativity) : nebula_scope.
Notation "m ||| k" := (or_else m k) (at level 50, left associativity) : nebula_scope.

Definition is_some {A} (o : option A) : bool := if o is Some _ then true else false.

(** ** Tactics *)

(** Case analysis on every [if]/[match] of the goal or of a hypothesis, each
    branch simplified by [simplify_eq]. *)
Ltac split_ifs :=
  repeat (case_match; simplify_eq/=; try congruence).

Ltac split_ifs_in H :=
  repeat match type of H with
         | context [match ?x with _ => _ end] =>
             let E := fresh "E" in destruct x eqn:E; simplify_eq/=
         end.

(** Turns boolean tests into propositions that [lia] reads. *)
Ltac bools :=
  repeat match goal with
         | H : _ && _ = true |- _ => apply andb_prop in H; destruct H
         | H : _ || _ = false |- _ => apply orb_false_elim in H; destruct H
         | H : negb _ = true |- _ => apply negb_true_iff in H
         | H : negb _ = false |- _ => apply negb_false_iff in H
         | H : bool_decide _ = true |- _ => apply bool_decide_eq_true in H
         | H : bool_decide _ = false |- _ => apply bool_decide_eq_false in H
         | H : (_ <? _)%Z = true |- _ => apply Z.ltb_lt in H
         | H : (_ <? _)%Z = false |- _ => apply Z.ltb_ge in H
         | H : (_ <=? _)%Z = true |- _ => apply Z.leb_le in H
         | H : (_ <=? _)%Z = false |- _ => apply Z.leb_gt in H
         | H : (_ =? _)%Z = true |- _ => apply Z.eqb_eq in H
         | H : (_ =? _)%Z = false |- _ => apply Z.eqb_neq in H
         end.

(** ** Lists as memory *)

(** [write_at i xs m]: the memory [m] with [xs] copied to position [i], as
    [std::copy] does; the caller checks that the range is inside [m]. *)
Definition write_at {A} (i : nat) (xs m : list A) : list A :=
  take i m ++ xs ++ drop (i + length xs) m.

(** [slice i n m]: [n] elements of [m] from position [i]. *)
Definition slice {A} (i n : nat) (m : list A) : list A := take n (drop i m).

Section ListMemory.
Context {A : Type}.
Implicit Types (xs m : list A).

Lemma length_write_at i xs m :
  (i + length xs <= length m)%nat -> length (write_at i xs m) = length m.
Proof. intros. unfold write_at. rewrite !length_app, length_take, length_drop. lia. Qed.

Lemma slice_write_at_same i xs m :
  (i + length xs <= length m)%nat -> slice i (length xs) (write_at i xs m) = xs.
Proof.
  intros. unfold slice, write_at.
  rewrite drop_app_length' by (rewrite length_take; lia).
  by rewrite take_app_length.
Qed.

Lemma slice_write_at_before i j n xs m :
  (j + n <= i)%nat -> (i <= length m)%nat ->
  slice j n (write_at i xs m) = slice j n m.
Proof.
  intros. unfold slice, write_at.
  rewrite drop_app_le by (rewrite length_take; lia).
  rewrite take_app_le by (rewrite length_drop, length_take; lia).
  rewrite skipn_firstn_comm, take_take. f_equal. lia.
Qed.

Lemma slice_app i n k m :
  slice i (n + k) m = slice i n m ++ slice (i + n) k m.
Proof. unfold slice. by rewrite <- drop_drop, take_take_drop. Qed.

Lemma length_slice i n m :
  (i + n <= length m)%nat -> length (slice i n m) = n.
Proof. intros. unfold slice. rewrite length_take, length_drop. lia. Qed.

Lemma slice_app_l i n m m' :
  (i + n <= length m)%nat -> slice i n (m ++ m') = slice i n m.
Proof.
  intros. unfold slice. rewrite drop_app_le by lia.
  rewrite take_app_le; [done|]. rewrite length_drop. lia.
Qed.

Lemma take_slice k i n m : (k <= n)%nat -> take k (slice i n m) = slice i k m.
Proof. intros. unfold slice. rewrite take_take. f_equal. lia. Qed.

Lemma drop_slice k i n m : (k <= n)%nat -> drop k (slice i n m) = slice (i + k) (n - k) m.
Proof.
  intros. unfold slice. by rewrite skipn_firstn_comm, drop_drop.
Qed.

Lemma slice_0 i m : slice i 0 m = [].
Proof. done. Qed.

End ListMemory.

(** ** ORDER BY *)

(** Stable sorting: an element goes behind those it does not precede. *)
Section SortBy.
Context {A : Type} (le : A -> A -> bool).

Fixpoint insert_by (x : A) (l : list A) : list A :=
  match l with
  | [] => [x]
  | y :: l' => if le y x then y :: insert_by x l' else x :: l
  end.

Definition sort_by (l : list A) : list A := fold_left (fun acc x => insert_by x acc) l [].

Lemma insert_by_perm x l : insert_by x l ≡ₚ x :: l.
Proof.
  induction l as [|y l IH]; simpl; [done|]. case_match; [|done].
  rewrite IH. constructor.
Qed.

Lemma sort_by_perm l : sort_by l ≡ₚ l.
Proof.
  unfold sort_by. assert (forall acc, fold_left (fun acc x => insert_by x acc) l acc ≡ₚ acc ++ l) as H.
  { induction l as [|x l IH]; intros acc; simpl; [by rewrite app_nil_r|].
    rewrite IH, insert_by_perm. by rewrite <- Permutation_middle. }
  by rewrite H.
Qed.

Context (le_total : forall x y, le x y = false -> le y x = true).
Context (le_trans : forall x y z, le x y = true -> le y z = true -> le x z = true).

Lemma insert_by_sorted x l :
  StronglySorted (fun a b => le a b = true) l ->
  StronglySorted (fun a b => le a b = true) (insert_by x l).
Proof.
  induction 1 as [|y l HS IH HF]; simpl; [repeat constructor|].
  case_match.
  - constructor; [done|]. rewrite Forall_forall in *. intros z Hz.
    rewrite insert_by_perm in Hz. apply elem_of_cons in Hz as [->|Hz]; auto.
  - assert (le x y = true) by auto. constructor; [by constructor|].
    constructor; [done|]. eapply Forall_impl; [exact HF|]. simpl. eauto.
Qed.

Lemma sort_by_sorted l : StronglySorted (fun a b => le a b = true) (sort_by l).
Proof.
  unfold sort_by. assert (forall acc, StronglySorted (fun a b => le a b = true) acc ->
    StronglySorted (fun a b => le a b = true) (fold_left (fun acc x => insert_by x acc) l acc)) as H.
  { induction l as [|x l IH]; intros acc Hacc; simpl; [done|]. by apply IH, insert_by_sorted. }
  apply H. constructor.
Qed.

End SortBy.

Create HintDb nebula.
Create Rewrite HintDb nebula.
#[export] Hint Rewrite @run_ret @run_bind : nebula.
#[export] Hint Resolve length_write_at slice_write_at_same : nebula.

(** ** Parts of a state *)

(** A computation on a part of a larger state. *)
Definition zoom {S T A} (get : S -> T) (put : T -> S -> S) (m : SM T A) : SM S A :=
  fun s => match m (get s) with Some (a, t) => Some (a, put t s) | None => None end.

Lemma run_zoom {S T A} (get : S -> T) put (m : SM T A) s a s' :
  zoom get put m s = Some (a, s') -> exists t, m (get s) = Some (a, t) /\ s' = put t s.
Proof. unfold zoom. destruct (m (get s)) as [[x t]|]; intros [= <- <-]. eauto. Qed.
