(* ===== verification/Words.v ===== *)
(** * Bytes and machine words

    Octets, fixed-width unsigned integers and their big-endian byte strings,
    as [common/protocol/PacketHeader.cpp] and the WebSocket frame codec use
    them, with the inverse lemmas the codecs need. *)

From S2P Require Import Prelude.
From Stdlib Require Export Strings.Byte.

(** ** Unsigned integers of a given width *)

Definition u8 (x : Z) : Z := x mod 256.
Definition u16 (x : Z) : Z := x mod 65536.
Definition u32 (x : Z) : Z := x mod 4294967296.
Definition u64 (x : Z) : Z := x mod 18446744073709551616.

(** A value converted to a signed 32-bit [int]. *)
Definition s32 (x : Z) : Z := (x + 2147483648) mod 4294967296 - 2147483648.

Definition is_u16 (x : Z) : Prop := 0 <= x < 65536.
Definition is_u32 (x : Z) : Prop := 0 <= x < 4294967296.
Definition is_u64 (x : Z) : Prop := 0 <= x < 18446744073709551616.

(** ** Octets *)

Definition Z_of_byte (b : byte) : Z := Z.of_N (Byte.to_N b).

(** Conversion to [char] keeps the low eight bits. *)
Definition byte_of_Z (x : Z) : byte :=
  match Byte.of_N (Z.to_N (u8 x)) with Some b => b | None => x00 end.

Lemma Z_of_byte_range (b : byte) : 0 <= Z_of_byte b < 256.
Proof. unfold Z_of_byte. pose proof (Byte.to_N_bounded b). lia. Qed.

Lemma byte_of_Z_of_byte (b : byte) : byte_of_Z (Z_of_byte b) = b.
Proof. by destruct b. Qed.

Lemma Z_of_byte_of_Z (x : Z) : Z_of_byte (byte_of_Z x) = x mod 256.
Proof.
  unfold byte_of_Z, Z_of_byte, u8.
  pose proof (Z.mod_pos_bound x 256 ltac:(lia)) as Hr.
  destruct (Byte.of_N (Z.to_N (x mod 256))) as [b|] eqn:E.
  - apply Byte.to_of_N in E. rewrite E. lia.
  - apply Byte.of_N_None_iff in E. lia.
Qed.

#[global] Instance Z_of_byte_inj : Inj (=) (=) Z_of_byte.
Proof. intros a b E. by rewrite <- (byte_of_Z_of_byte a), E, byte_of_Z_of_byte. Qed.

(** Exclusive or of two octets. *)
Definition byte_xor (a b : byte) : byte := byte_of_Z (Z.lxor (Z_of_byte a) (Z_of_byte b)).

Lemma byte_xor_range (a b : byte) : 0 <= Z.lxor (Z_of_byte a) (Z_of_byte b) < 256.
Proof.
  pose proof (Z_of_byte_range a). pose proof (Z_of_byte_range b).
  assert (0 <= Z.lxor (Z_of_byte a) (Z_of_byte b)) as H1 by (apply Z.lxor_nonneg; lia).
  split; [done|].
  destruct (decide (Z.lxor (Z_of_byte a) (Z_of_byte b) = 0)) as [->|Hne]; [lia|].
  change 256 with (2 ^ 8). apply Z.log2_lt_pow2; [lia|].
  pose proof (Z.log2_lxor (Z_of_byte a) (Z_of_byte b) ltac:(lia) ltac:(lia)).
  assert (forall x, 0 <= x < 256 -> Z.log2 x < 8) as Hlog.
  { intros x Hx. destruct (decide (x = 0)) as [->|]; [done|].
    apply Z.log2_lt_pow2; lia. }
  pose proof (Hlog (Z_of_byte a) ltac:(lia)). pose proof (Hlog (Z_of_byte b) ltac:(lia)). lia.
Qed.

Lemma byte_xor_involutive (a k : byte) : byte_xor (byte_xor a k) k = a.
Proof.
  unfold byte_xor. rewrite Z_of_byte_of_Z, Z.mod_small by apply byte_xor_range.
  by rewrite Z.lxor_assoc, Z.lxor_nilpotent, Z.lxor_0_r, byte_of_Z_of_byte.
Qed.

(** ** Big-endian byte strings *)

(** The [n] low octets of [x], the most significant first. *)
Fixpoint be_encode (n : nat) (x : Z) : list byte :=
  match n with
  | O => []
  | S n' => byte_of_Z (Z.shiftr x (8 * Z.of_nat n')) :: be_encode n' x
  end.

(** The value of a byte string read from its most significant octet on:
    [value = (value << 8) | byte]. *)
Definition be_decode (bs : list byte) : Z :=
  fold_left (fun v b => Z.lor (Z.shiftl v 8) (Z_of_byte b)) bs 0.

Lemma length_be_encode n x : length (be_encode n x) = n.
Proof. induction n; simpl; congruence. Qed.

(** A shifted value and one that fits below it share no bit. *)
Lemma lor_shiftl_small v k b :
  0 <= k -> 0 <= b < 2 ^ k -> Z.lor (Z.shiftl v k) b = v * 2 ^ k + b.
Proof.
  intros Hk Hb. rewrite Z.shiftl_mul_pow2 by lia.
  pose proof (Z.add_lor_land (v * 2 ^ k) b).
  enough (Z.land (v * 2 ^ k) b = 0) by lia.
  apply Z.bits_inj'. intros i Hi. rewrite Z.land_spec, Z.bits_0.
  destruct (decide (i < k)).
  - by rewrite Z.mul_pow2_bits_low by lia.
  - destruct (decide (b = 0)) as [->|]; [by rewrite Z.bits_0, andb_comm|].
    rewrite andb_comm, (Z.bits_above_log2 b); [done|lia|].
    apply Z.log2_lt_pow2; [lia|].
    assert (2 ^ k <= 2 ^ i) by (apply Z.pow_le_mono_r; lia). lia.
Qed.

Lemma lor_shiftl_byte v b : Z.lor (Z.shiftl v 8) (Z_of_byte b) = v * 256 + Z_of_byte b.
Proof. pose proof (Z_of_byte_range b). by rewrite lor_shiftl_small by lia. Qed.

Lemma be_decode_fold bs v :
  fold_left (fun v b => Z.lor (Z.shiftl v 8) (Z_of_byte b)) bs v
  = v * 256 ^ Z.of_nat (length bs) + be_decode bs.
Proof.
  unfold be_decode. revert v. induction bs as [|b bs IH]; intros v.
  - simpl. lia.
  - cbn [fold_left length]. rewrite IH, (IH (Z.lor (Z.shiftl 0 8) _)), !lor_shiftl_byte.
    rewrite Nat2Z.inj_succ, Z.pow_succ_r by lia. lia.
Qed.

Lemma be_decode_cons b bs :
  be_decode (b :: bs) = 256 ^ Z.of_nat (length bs) * Z_of_byte b + be_decode bs.
Proof.
  unfold be_decode at 1. cbn [fold_left]. rewrite be_decode_fold, lor_shiftl_byte. lia.
Qed.

Lemma be_decode_range bs : 0 <= be_decode bs < 256 ^ Z.of_nat (length bs).
Proof.
  induction bs as [|b bs IH]; [done|].
  rewrite be_decode_cons. cbn [length]. rewrite Nat2Z.inj_succ, Z.pow_succ_r by lia.
  pose proof (Z_of_byte_range b). nia.
Qed.

Lemma be_decode_encode n x :
  be_decode (be_encode n x) = x mod 256 ^ Z.of_nat n.
Proof.
  induction n as [|n IH].
  - simpl. by rewrite Z.mod_1_r.
  - cbn [be_encode]. rewrite be_decode_cons, IH, length_be_encode, Z_of_byte_of_Z.
    rewrite Z.shiftr_div_pow2, Nat2Z.inj_succ, Z.pow_succ_r by lia.
    replace (2 ^ (8 * Z.of_nat n)) with (256 ^ Z.of_nat n)
      by (rewrite Z.pow_mul_r by lia; done).
    assert (0 < 256 ^ Z.of_nat n) by (apply Z.pow_pos_nonneg; lia).
    rewrite (Z.mul_comm 256), Z.rem_mul_r by lia. lia.
Qed.

Lemma be_decode_inj bs bs' :
  length bs = length bs' -> be_decode bs = be_decode bs' -> bs = bs'.
Proof.
  revert bs'. induction bs as [|b bs IH]; intros [|b' bs'] HL HD; try done.
  simpl in HL. injection HL as HL. rewrite !be_decode_cons, <- HL in HD.
  pose proof (be_decode_range bs). pose proof (be_decode_range bs') as Hr'.
  rewrite <- HL in Hr'.
  apply Z.div_mod_unique in HD as [HD1 HD2]; [|lia..].
  f_equal; [by apply (inj Z_of_byte)|by apply IH].
Qed.

Lemma be_encode_decode bs : be_encode (length bs) (be_decode bs) = bs.
Proof.
  apply be_decode_inj; [apply length_be_encode|].
  rewrite be_decode_encode. apply Z.mod_small, be_decode_range.
Qed.

#[export] Hint Rewrite length_be_encode be_decode_encode : nebula.
