(* ===== verification/Text.v ===== *)
(** * Text: decimal numbers and keys built from parts

    [std::to_string], [std::stoull] and their like, the parts of a text, and
    the facts that let a key such as ["nebula:msg:dedup:" + user + ":" + seq] be
    taken apart again. *)

From S2P Require Import Prelude Words.
From Stdlib Require Export Ascii.

(** [std::to_string] on integers. *)
Definition to_string (x : Z) : string := pretty x.

(** [std::isspace] and [std::tolower] in the C locale. *)
Definition isspace (c : ascii) : bool :=
  let n := N_of_ascii c in ((9 <=? n)%N && (n <=? 13)%N) || (n =? 32)%N.

Definition tolower (c : ascii) : ascii :=
  let n := N_of_ascii c in
  if (65 <=? n)%N && (n <=? 90)%N then ascii_of_N (n + 32) else c.

Definition digit_value (c : ascii) : option Z :=
  let n := Z.of_N (N_of_ascii c) in
  if (48 <=? n) && (n <=? 57) then Some (n - 48) else None.

Definition is_digit (c : ascii) : bool := if digit_value c is Some _ then true else false.

Fixpoint string_all (P : ascii -> bool) (s : string) : bool :=
  match s with EmptyString => true | String c s' => P c && string_all P s' end.

(** The value of the digits at the front of [s], continuing from [acc]. *)
Fixpoint dec_value (acc : Z) (s : string) : Z :=
  match s with
  | EmptyString => acc
  | String c s' => match digit_value c with
                   | Some d => dec_value (acc * 10 + d) s'
                   | None => acc
                   end
  end.

Fixpoint skip_spaces (s : string) : string :=
  match s with
  | String c s' => if isspace c then skip_spaces s' else s
  | EmptyString => s
  end.

(** [std::stoull]: leading space, an optional sign, digits; anything may
    follow.  [None] is the exception (no digits, or the value exceeds
    [unsigned long long]); a minus sign negates in 64 bits. *)
Definition stoull (s : string) : option Z :=
  let s := skip_spaces s in
  let '(neg, s) := match s with
                   | String "-" s' => (true, s')
                   | String "+" s' => (false, s')
                   | _ => (false, s)
                   end in
  match s with
  | String c _ =>
      if is_digit c then
        let v := dec_value 0 s in
        if v <? 18446744073709551616 then Some (if (neg : bool) then u64 (- v) else v) else None
      else None
  | EmptyString => None
  end.

(** ** Decimal numbers *)

Lemma digit_value_pretty x : (x < 10)%N -> digit_value (pretty_N_char x) = Some (Z.of_N x).
Proof.
  intros. assert (x = 0 \/ x = 1 \/ x = 2 \/ x = 3 \/ x = 4 \/ x = 5 \/ x = 6 \/ x = 7 \/
    x = 8 \/ x = 9)%N as Hx by lia.
  by destruct_or! Hx; subst.
Qed.

(** Induction over the digits of a number. *)
Lemma pretty_N_go_ind (P : N -> string -> Prop) :
  (forall s, P 0%N s) ->
  (forall x s, (0 < x)%N ->
     P (x `div` 10)%N (String (pretty_N_char (x `mod` 10)) s) -> P x s) ->
  forall x s, P x s.
Proof.
  intros H0 HS x. induction (N.lt_wf_0 x) as [x _ IH]. intros s.
  destruct (decide (x = 0%N)) as [->|]; [apply H0|].
  apply HS; [lia|]. apply IH. apply N.div_lt; lia.
Qed.

Lemma dec_value_pretty_go x s : dec_value 0 (pretty_N_go x s) = dec_value (Z.of_N x) s.
Proof.
  revert x s. apply pretty_N_go_ind; [done|]. intros x s Hx IH.
  rewrite pretty_N_go_step by done. rewrite IH. cbn [dec_value].
  rewrite digit_value_pretty by (apply N.mod_lt; done).
  f_equal. pose proof (N.div_mod x 10). lia.
Qed.

Lemma digits_pretty_go x s :
  string_all is_digit s = true -> string_all is_digit (pretty_N_go x s) = true.
Proof.
  revert x s. apply (pretty_N_go_ind (fun x s =>
    string_all is_digit s = true -> string_all is_digit (pretty_N_go x s) = true)); [done|].
  intros x s Hx IH Hs. rewrite pretty_N_go_step by done. apply IH. cbn [string_all].
  unfold is_digit at 1. by rewrite digit_value_pretty by (apply N.mod_lt; done).
Qed.

Lemma to_string_N x : 0 <= x -> to_string x = pretty (Z.to_N x).
Proof. destruct x; done || lia. Qed.

Lemma to_string_digits x : 0 <= x -> string_all is_digit (to_string x) = true.
Proof.
  intros. rewrite to_string_N by done. unfold pretty, pretty_N. case_decide; [done|].
  by apply digits_pretty_go.
Qed.

Lemma dec_value_to_string x : 0 <= x -> dec_value 0 (to_string x) = x.
Proof.
  intros. rewrite to_string_N by done. unfold pretty, pretty_N. case_decide; [simpl; lia|].
  rewrite dec_value_pretty_go. simpl. lia.
Qed.

Lemma to_string_inj x y : to_string x = to_string y -> x = y.
Proof. apply pretty_Z_inj. Qed.

Lemma to_string_nonempty x : to_string x <> EmptyString.
Proof.
  intros E. destruct (decide (0 <= x)).
  - pose proof (dec_value_to_string x). pose proof (to_string_inj x 0).
    rewrite E in *. simpl in *. assert (x = 0) as -> by lia. done.
  - destruct x; [lia..|]. done.
Qed.

Lemma is_digit_cases c :
  is_digit c = true -> isspace c = false /\ c <> "-"%char /\ c <> "+"%char /\ c <> ":"%char.
Proof. destruct c as [[] [] [] [] [] [] [] []]; done. Qed.

Lemma stoull_digits s :
  s <> EmptyString -> string_all is_digit s = true -> dec_value 0 s < 18446744073709551616 ->
  stoull s = Some (dec_value 0 s).
Proof.
  destruct s as [|c s]; [done|]. intros _ Hall Hlt. pose proof Hall as Hall'.
  cbn [string_all] in Hall'. apply andb_prop in Hall' as [Hc _].
  destruct (is_digit_cases c Hc) as (Hsp&Hm&Hp&_).
  unfold stoull. cbn [skip_spaces]. rewrite Hsp.
  assert (match String c s with
          | String "-" s' => (true, s') | String "+" s' => (false, s') | _ => (false, String c s)
          end = (false, String c s)) as ->.
  { destruct c as [[] [] [] [] [] [] [] []]; done. }
  rewrite Hc. by rewrite (proj2 (Z.ltb_lt _ _)).
Qed.

(** A number printed and read again is the number. *)
Lemma dec_value_nonneg acc s : 0 <= acc -> 0 <= dec_value acc s.
Proof.
  revert acc. induction s as [|c s IH]; intros acc Ha; cbn; [done|].
  destruct (digit_value c) as [d|] eqn:Hd; [|done]. apply IH.
  assert (0 <= d); [|lia]. revert Hd. unfold digit_value. destruct (_ && _) eqn:Hc; [intros [= <-]; bools; lia|done].
Qed.

Lemma stoull_u64 s x : stoull s = Some x -> is_u64 x.
Proof.
  unfold stoull, is_u64. intros H. destruct (match skip_spaces s with String _ _ => _ | _ => _ end) as [neg s'].
  destruct s' as [|c s']; [done|]. destruct (is_digit c); [|done].
  pose proof (dec_value_nonneg 0 (String c s')). destruct (Z.ltb_spec (dec_value 0 (String c s')) 18446744073709551616); [|done].
  destruct neg; simplify_eq; [|lia]. unfold u64. apply Z.mod_pos_bound. lia.
Qed.

Lemma stoull_to_string x : is_u64 x -> stoull (to_string x) = Some x.
Proof.
  intros [H0 H1]. rewrite stoull_digits.
  - by rewrite dec_value_to_string.
  - apply to_string_nonempty.
  - by apply to_string_digits.
  - by rewrite dec_value_to_string.
Qed.

(** ** Keys built from parts *)

Lemma string_all_impl (P Q : ascii -> bool) s :
  (forall c, P c = true -> Q c = true) -> string_all P s = true -> string_all Q s = true.
Proof. intros HPQ. induction s; simpl; [done|]. rewrite !andb_true_iff. intros [? ?]; auto. Qed.

(** Parts free of the separator are recovered from their concatenation. *)
Lemma app_sep_inj (c : ascii) a b a' b' :
  string_all (fun x => negb (Ascii.eqb x c)) a = true ->
  string_all (fun x => negb (Ascii.eqb x c)) a' = true ->
  a +:+ String c b = a' +:+ String c b' -> a = a' /\ b = b'.
Proof.
  revert a'. induction a as [|x a IH]; intros [|x' a'] Ha Ha' E; simpl in *; simplify_eq.
  - done.
  - by rewrite Ascii.eqb_refl in Ha'.
  - by rewrite Ascii.eqb_refl in Ha.
  - apply andb_prop in Ha as [_ Ha], Ha' as [_ Ha'].
    destruct (IH a' Ha Ha') as [-> ->]; [done|done].
Qed.

Lemma digits_no_colon s :
  string_all is_digit s = true -> string_all (fun x => negb (Ascii.eqb x ":"%char)) s = true.
Proof.
  apply string_all_impl. intros c Hc. destruct (is_digit_cases c Hc) as (_&_&_&Hne).
  by rewrite (proj2 (Ascii.eqb_neq _ _) Hne).
Qed.

Lemma app_inj_l (p a b : string) : p +:+ a = p +:+ b -> a = b.
Proof. induction p; simpl; [done|]. intros [= E]. auto. Qed.

Lemma string_app_assoc (a b c : string) : (a +:+ b) +:+ c = a +:+ (b +:+ c).
Proof. induction a as [|x a IH]; [done|]. exact (f_equal (String x) IH). Qed.

(** The common shape of the store's keys: a number, a colon, the rest. *)
Lemma number_colon_inj x y b b' :
  0 <= x -> 0 <= y ->
  to_string x +:+ String ":" b = to_string y +:+ String ":" b' -> x = y /\ b = b'.
Proof.
  intros Hx Hy E. apply app_sep_inj in E as [E ->]; [|by apply digits_no_colon, to_string_digits..].
  split; [by apply to_string_inj|done].
Qed.

(** ** Parts of a text *)

(** The parts between separators, the empty ones included. *)
Fixpoint split_on (sep : ascii) (s : string) : list string :=
  match s with
  | EmptyString => [EmptyString]
  | String c rest =>
      if bool_decide (c = sep) then EmptyString :: split_on sep rest
      else match split_on sep rest with
           | part :: parts => String c part :: parts
           | [] => [String c EmptyString]
           end
  end.

(** What repeated [std::getline] reads: the parts between separators, without
    an empty last one. *)
Definition getlines (sep : ascii) (s : string) : list string :=
  let parts := split_on sep s in
  match last parts with
  | Some EmptyString => removelast parts
  | _ => parts
  end.

Fixpoint string_map (f : ascii -> ascii) (s : string) : string :=
  match s with EmptyString => EmptyString | String c s => String (f c) (string_map f s) end.

(** The text without the white space at its end. *)
Fixpoint rtrim (s : string) : string :=
  match s with
  | EmptyString => EmptyString
  | String c s' => match rtrim s' with
                   | EmptyString => if isspace c then EmptyString else String c EmptyString
                   | t => String c t
                   end
  end.

(** The text before and after the first [sep]. *)
Fixpoint cut (sep : ascii) (s : string) : option (string * string) :=
  match s with
  | EmptyString => None
  | String c rest =>
      if bool_decide (c = sep) then Some (EmptyString, rest)
      else '(before, after) ← cut sep rest; Some (String c before, after)
  end.

Fixpoint skip_digits (s : string) : string :=
  match s with
  | String c s' => if is_digit c then skip_digits s' else s
  | EmptyString => s
  end.

(** What follows the number that [std::stoull] reads. *)
Definition after_number (s : string) : string :=
  match skip_spaces s with
  | String "-" s' => skip_digits s'
  | String "+" s' => skip_digits s'
  | s' => skip_digits s'
  end.

(** [std::stoi] and [std::stoll]: as [std::stoull], for the range of a signed
    type; with what follows the number. *)
Definition sto (lo hi : Z) (s : string) : option (Z * string) :=
  let s := skip_spaces s in
  let '(neg, s) := match s with
                   | String "-" s' => (true, s')
                   | String "+" s' => (false, s')
                   | _ => (false, s)
                   end in
  match s with
  | String c _ =>
      if is_digit c then
        let v := if (neg : bool) then - dec_value 0 s else dec_value 0 s in
        if (lo <=? v) && (v <=? hi) then Some (v, skip_digits s) else None
      else None
  | EmptyString => None
  end.
Definition stoi : string -> option (Z * string) := sto (-2147483648) 2147483647.
Definition stoll : string -> option (Z * string) := sto (-9223372036854775808) 9223372036854775807.

(** Text without the separator is one part. *)
Fixpoint free_of (sep : ascii) (s : string) : bool :=
  match s with EmptyString => true | String c s => negb (bool_decide (c = sep)) && free_of sep s end.

Lemma split_on_free sep s : free_of sep s = true -> split_on sep s = [s].
Proof.
  induction s as [|c s IH]; cbn; [done|]. intros [Hc Hs]%andb_prop. apply negb_true_iff in Hc.
  by rewrite Hc, (IH Hs).
Qed.

Lemma split_on_app sep a b :
  free_of sep a = true -> split_on sep (a +:+ String sep EmptyString +:+ b) = a :: split_on sep b.
Proof.
  induction a as [|c a IH]; [intros _; simpl; by case_bool_decide|]. cbn [free_of].
  intros [Hc Ha]%andb_prop. apply negb_true_iff in Hc. simpl. by rewrite Hc, (IH Ha).
Qed.
