(* ===== verification/NetBuffer.v ===== *)
(** * The network buffer (common/net/Buffer.h, common/net/Buffer.cpp)

    [Buffer] is a [std::vector<char>] with a read and a write index.  The
    detailed model keeps the vector and both indices; the specification is a
    plain byte queue.  [size_t] values are [nat]: the invariant keeps every
    subtraction of the code non-negative, so none of them wraps.  A failed
    [assert] (the default build keeps assertions) is [None].  The kernel calls
    [readv] and [send] are arguments. *)

From S2P Require Import Prelude Words.

Module Buffer.

Definition kCheapPrepend : nat := 8.
Definition kInitialSize : nat := 1024.

Record Buffer := mkBuffer {
  buffer_ : list byte;
  reader_index_ : nat;
  writer_index_ : nat
}.

Definition Buffer_new : Buffer :=
  mkBuffer (replicate (kCheapPrepend + kInitialSize) x00) kCheapPrepend kCheapPrepend.

Definition readableBytes (b : Buffer) : nat := writer_index_ b - reader_index_ b.
Definition writableBytes (b : Buffer) : nat := length (buffer_ b) - writer_index_ b.
Definition prependableBytes (b : Buffer) : nat := reader_index_ b.

(** The bytes a caller may read at [peek()]: from the read index on. *)
Definition peek (b : Buffer) : list byte := drop (reader_index_ b) (buffer_ b).

Definition retrieveAll (b : Buffer) : Buffer :=
  mkBuffer (buffer_ b) kCheapPrepend kCheapPrepend.

Definition retrieve (len : nat) (b : Buffer) : option Buffer :=
  if decide (len <= readableBytes b)%nat then
    if decide (len < readableBytes b)%nat
    then Some (mkBuffer (buffer_ b) (reader_index_ b + len) (writer_index_ b))
    else Some (retrieveAll b)
  else None.

Definition retrieveAsString (len : nat) (b : Buffer) : option (list byte * Buffer) :=
  if decide (len <= readableBytes b)%nat then
    let result := take len (peek b) in
    b' ← retrieve len b; Some (result, b')
  else None.

Definition retrieveAllAsString (b : Buffer) : option (list byte * Buffer) :=
  retrieveAsString (readableBytes b) b.

(** [std::vector::resize]: new elements are zero. *)
Definition vector_resize (n : nat) (m : list byte) : list byte :=
  take n m ++ replicate (n - length m) x00.

Definition makeSpace (len : nat) (b : Buffer) : Buffer :=
  if decide (writableBytes b + prependableBytes b < len + kCheapPrepend)%nat then
    mkBuffer (vector_resize (writer_index_ b + len) (buffer_ b))
             (reader_index_ b) (writer_index_ b)
  else
    let readable := readableBytes b in
    let moved := slice (reader_index_ b) readable (buffer_ b) in
    mkBuffer (write_at kCheapPrepend moved (buffer_ b))
             kCheapPrepend (kCheapPrepend + readable).

Definition ensureWritableBytes (len : nat) (b : Buffer) : option Buffer :=
  let b' := if decide (writableBytes b < len)%nat then makeSpace len b else b in
  if decide (len <= writableBytes b')%nat then Some b' else None.

Definition hasWritten (len : nat) (b : Buffer) : option Buffer :=
  if decide (len <= writableBytes b)%nat
  then Some (mkBuffer (buffer_ b) (reader_index_ b) (writer_index_ b + len))
  else None.

(** Storing [data] at [beginWrite()]. *)
Definition copy_beginWrite (data : list byte) (b : Buffer) : Buffer :=
  mkBuffer (write_at (writer_index_ b) data (buffer_ b)) (reader_index_ b) (writer_index_ b).

Definition append (data : list byte) (b : Buffer) : option Buffer :=
  b1 ← ensureWritableBytes (length data) b;
  hasWritten (length data) (copy_beginWrite data b1).

(** [sizeof(extra_buffer)] of [readFd]. *)
Definition extra_buffer_size : nat := Z.to_nat 65536.

(** [readv cap] is what the kernel answers to a scatter read over [cap] bytes:
    an [errno] or the bytes stored, first range first. *)
Definition readFd (readv : nat -> Z + list byte) (b : Buffer)
  : option ((Z * option Z) * Buffer) :=
  let writable := writableBytes b in
  let cap := if decide (writable < extra_buffer_size)%nat
             then (writable + extra_buffer_size)%nat else writable in
  match readv cap with
  | inl errno => Some ((-1, Some errno), b)
  | inr data =>
      let n := length data in
      let b1 := copy_beginWrite (take writable data) b in
      let extra_buffer := drop writable data in
      if decide (n <= writable)%nat then
        Some ((Z.of_nat n, None),
              mkBuffer (buffer_ b1) (reader_index_ b1) (writer_index_ b1 + n))
      else
        b2 ← append (take (n - writable) extra_buffer)
               (mkBuffer (buffer_ b1) (reader_index_ b1) (length (buffer_ b1)));
        Some ((Z.of_nat n, None), b2)
  end.

(** [send bytes] is the kernel's answer to sending [bytes]: an [errno] or the
    number of bytes taken. *)
Definition writeFd (send : list byte -> Z + nat) (b : Buffer)
  : option ((Z * option Z) * Buffer) :=
  match send (take (readableBytes b) (peek b)) with
  | inl errno => Some ((-1, Some errno), b)
  | inr n => b' ← retrieve n b; Some ((Z.of_nat n, None), b')
  end.

(** ** Invariant and abstraction *)

Definition Inv (b : Buffer) : Prop :=
  (kCheapPrepend <= reader_index_ b)%nat /\
  (reader_index_ b <= writer_index_ b)%nat /\
  (writer_index_ b <= length (buffer_ b))%nat.

(** The queue a buffer stands for. *)
Definition contents (b : Buffer) : list byte :=
  slice (reader_index_ b) (readableBytes b) (buffer_ b).

(** ** The specification: a byte queue *)

Definition q_retrieve (len : nat) (q : list byte) : option (list byte) :=
  if decide (len <= length q)%nat then Some (drop len q) else None.

Inductive op :=
| OpRetrieve (len : nat)
| OpRetrieveAll
| OpRetrieveAsString (len : nat)
| OpRetrieveAllAsString
| OpAppend (data : list byte)
| OpEnsureWritable (len : nat)
| OpReadFd (readv : nat -> Z + list byte)
| OpWriteFd (send : list byte -> Z + nat).

(** What an operation returns to its caller. *)
Inductive out := OutNone | OutString (s : list byte) | OutSize (n : Z) (err : option Z).

Definition buffer_step (o : op) (b : Buffer) : option (out * Buffer) :=
  match o with
  | OpRetrieve n => b' ← retrieve n b; Some (OutNone, b')
  | OpRetrieveAll => Some (OutNone, retrieveAll b)
  | OpRetrieveAsString n => '(s, b') ← retrieveAsString n b; Some (OutString s, b')
  | OpRetrieveAllAsString => '(s, b') ← retrieveAllAsString b; Some (OutString s, b')
  | OpAppend d => b' ← append d b; Some (OutNone, b')
  | OpEnsureWritable n => b' ← ensureWritableBytes n b; Some (OutNone, b')
  | OpReadFd readv => '((n, e), b') ← readFd readv b; Some (OutSize n e, b')
  | OpWriteFd send => '((n, e), b') ← writeFd send b; Some (OutSize n e, b')
  end.

(** The same operation on a queue; [room] is the free space of the vector,
    which only bounds how much one [readv] may deliver. *)
Definition queue_step (room : nat) (o : op) (q : list byte) : option (out * list byte) :=
  match o with
  | OpRetrieve n => q' ← q_retrieve n q; Some (OutNone, q')
  | OpRetrieveAll => Some (OutNone, [])
  | OpRetrieveAsString n => q' ← q_retrieve n q; Some (OutString (take n q), q')
  | OpRetrieveAllAsString => Some (OutString q, [])
  | OpAppend d => Some (OutNone, q ++ d)
  | OpEnsureWritable n => Some (OutNone, q)
  | OpReadFd readv =>
      match readv (if decide (room < extra_buffer_size)%nat
                   then (room + extra_buffer_size)%nat else room) with
      | inl e => Some (OutSize (-1) (Some e), q)
      | inr d => Some (OutSize (Z.of_nat (length d)) None, q ++ d)
      end
  | OpWriteFd send =>
      match send q with
      | inl e => Some (OutSize (-1) (Some e), q)
      | inr n => q' ← q_retrieve n q; Some (OutSize (Z.of_nat n) None, q')
      end
  end.

(** The kernel stores at most as many bytes as there is room for. *)
Definition op_lawful (o : op) : Prop :=
  match o with
  | OpReadFd readv => forall cap d, readv cap = inr d -> (length d <= cap)%nat
  | _ => True
  end.

Fixpoint run_buffer (ops : list op) (b : Buffer) : option (list out * Buffer) :=
  match ops with
  | [] => Some ([], b)
  | o :: ops' =>
      '(r, b') ← buffer_step o b; '(rs, b'') ← run_buffer ops' b'; Some (r :: rs, b'')
  end.

(** A run of the queue: the free space seen by each step is left open. *)
Inductive queue_run : list op -> list byte -> option (list out * list byte) -> Prop :=
| queue_run_nil q : queue_run [] q (Some ([], q))
| queue_run_fail room o ops q :
    queue_step room o q = None -> queue_run (o :: ops) q None
| queue_run_cons room o ops q r q' res :
    queue_step room o q = Some (r, q') -> queue_run ops q' res ->
    queue_run (o :: ops) q ('(rs, q'') ← res; Some (r :: rs, q'')).

(** ** Lemmas *)

Lemma length_contents b : Inv b -> length (contents b) = readableBytes b.
Proof.
  intros (?&?&?). unfold contents. apply length_slice. unfold readableBytes. lia.
Qed.

Lemma contents_peek b : contents b = take (readableBytes b) (peek b).
Proof. done. Qed.

Lemma take_peek n b : (n <= readableBytes b)%nat -> take n (peek b) = take n (contents b).
Proof. intros. rewrite contents_peek, take_take. f_equal. lia. Qed.

Lemma buffer_Inv_new : Inv Buffer_new.
Proof. unfold Inv. split_and!; apply Nat.leb_le; by vm_compute. Qed.

Lemma contents_new : contents Buffer_new = [].
Proof. done. Qed.

Lemma Inv_size b : Inv b -> (kCheapPrepend <= length (buffer_ b))%nat.
Proof. unfold Inv. lia. Qed.

Lemma retrieveAll_spec b : Inv b -> Inv (retrieveAll b) /\ contents (retrieveAll b) = [].
Proof.
  intros HI. pose proof (Inv_size b HI). split; [unfold Inv; simpl; lia|].
  unfold contents, readableBytes. simpl. done.
Qed.

(** [retrieve] drops from the front, and aborts exactly when too much is asked. *)
Lemma retrieve_spec len b :
  Inv b ->
  match retrieve len b with
  | Some b' => Inv b' /\ q_retrieve len (contents b) = Some (contents b')
  | None => q_retrieve len (contents b) = None
  end.
Proof.
  intros HI. unfold retrieve, q_retrieve. rewrite length_contents by done.
  destruct HI as (?&?&?).
  repeat case_decide; try done; unfold readableBytes in *.
  - split; [unfold Inv; simpl; lia|].
    unfold contents, readableBytes; simpl. rewrite drop_slice by lia. do 2 f_equal. lia.
  - destruct (retrieveAll_spec b) as [HI ->]; [unfold Inv; lia|]. split; [done|].
    rewrite drop_ge; [done|]. rewrite length_contents by done. unfold readableBytes. lia.
Qed.

Lemma retrieveAsString_spec len b :
  Inv b ->
  match retrieveAsString len b with
  | Some (s, b') =>
      Inv b' /\ s = take len (contents b) /\ q_retrieve len (contents b) = Some (contents b')
  | None => q_retrieve len (contents b) = None
  end.
Proof.
  intros HI. pose proof (retrieve_spec len b HI) as HR. unfold retrieveAsString.
  case_decide as Hlen.
  - destruct (retrieve len b) as [b'|] eqn:E; simpl; [|done].
    destruct HR as [? ?]. split_and!; [done| |done]. by rewrite take_peek.
  - unfold q_retrieve. rewrite length_contents by done. by rewrite decide_False by lia.
Qed.

Lemma length_vector_resize n m : length (vector_resize n m) = n.
Proof. unfold vector_resize. rewrite length_app, length_take, length_replicate. lia. Qed.

Lemma slice_vector_resize i n k m :
  (i + n <= length m)%nat -> (i + n <= k)%nat -> slice i n (vector_resize k m) = slice i n m.
Proof.
  intros. unfold vector_resize. rewrite slice_app_l by (rewrite length_take; lia).
  unfold slice. rewrite skipn_firstn_comm, take_take. f_equal. lia.
Qed.

(** Making space changes neither the invariant nor the contents, and leaves
    the room asked for. *)
Lemma makeSpace_spec len b :
  Inv b -> (writableBytes b < len)%nat ->
  Inv (makeSpace len b) /\ contents (makeSpace len b) = contents b /\
  (len <= writableBytes (makeSpace len b))%nat.
Proof.
  intros (?&?&?) Hlt. unfold makeSpace. case_decide as Hc.
  - unfold Inv, contents, writableBytes, readableBytes in *; simpl.
    rewrite length_vector_resize, slice_vector_resize by lia. split_and!; [lia..|done|lia].
  - unfold Inv, contents, writableBytes, prependableBytes, readableBytes in *; simpl.
    set (moved := slice _ _ _).
    assert (length moved = writer_index_ b - reader_index_ b)%nat as HL
      by (apply length_slice; lia).
    rewrite length_write_at by (unfold kCheapPrepend in *; lia).
    split_and!; [unfold kCheapPrepend in *; lia..| |unfold kCheapPrepend in *; lia].
    pose proof (slice_write_at_same kCheapPrepend moved (buffer_ b)) as HS.
    rewrite HL in HS. rewrite Nat.sub_0_r. apply HS. unfold kCheapPrepend in *. lia.
Qed.

Lemma ensureWritableBytes_spec len b :
  Inv b ->
  exists b', ensureWritableBytes len b = Some b' /\ Inv b' /\ contents b' = contents b /\
             (len <= writableBytes b')%nat.
Proof.
  intros HI. unfold ensureWritableBytes.
  destruct (decide (writableBytes b < len)%nat) as [Hlt|Hlt].
  - destruct (makeSpace_spec len b HI Hlt) as (?&?&?). rewrite decide_True by done. eauto.
  - rewrite decide_True by lia. eauto with lia.
Qed.

(** Storing data behind the write index and moving the index over it. *)
Lemma write_spec data b :
  Inv b -> (length data <= writableBytes b)%nat ->
  let b' := mkBuffer (write_at (writer_index_ b) data (buffer_ b))
                     (reader_index_ b) (writer_index_ b + length data) in
  Inv b' /\ contents b' = contents b ++ data.
Proof.
  intros (?&?&?) Hlen. unfold writableBytes in Hlen. split.
  - unfold Inv; simpl. rewrite length_write_at by lia. lia.
  - unfold contents, readableBytes; simpl.
    replace (writer_index_ b + length data - reader_index_ b)%nat
      with ((writer_index_ b - reader_index_ b) + length data)%nat by lia.
    rewrite slice_app, slice_write_at_before by lia. f_equal.
    replace (reader_index_ b + (writer_index_ b - reader_index_ b))%nat
      with (writer_index_ b) by lia.
    apply slice_write_at_same. lia.
Qed.

Lemma append_spec data b :
  Inv b -> exists b', append data b = Some b' /\ Inv b' /\ contents b' = contents b ++ data.
Proof.
  intros HI. unfold append.
  destruct (ensureWritableBytes_spec (length data) b HI) as (b1&->&HI1&<-&Hroom). simpl.
  pose proof (write_spec data b1 HI1 Hroom) as [HI2 HC].
  unfold hasWritten, copy_beginWrite. rewrite decide_True; [eauto|].
  destruct HI1 as (?&?&?). unfold writableBytes in *; simpl. rewrite length_write_at by lia. lia.
Qed.

Lemma readFd_spec readv b :
  Inv b -> op_lawful (OpReadFd readv) ->
  exists n e b', readFd readv b = Some ((n, e), b') /\ Inv b' /\
    queue_step (writableBytes b) (OpReadFd readv) (contents b) = Some (OutSize n e, contents b').
Proof.
  intros HI HL. unfold readFd. cbn [queue_step].
  set (cap := if decide _ then _ else _).
  destruct (readv cap) as [err|data] eqn:E; [by eauto 10|].
  assert (Inv b) as (?&?&?) by done.
  case_decide as Hn.
  - rewrite take_ge by lia.
    pose proof (write_spec data b HI ltac:(lia)) as [HI2 HC].
    do 3 eexists. split_and!; [done|done|]. by rewrite <- HC.
  - set (b1 := mkBuffer _ _ _).
    assert (length (take (writableBytes b) data) = writableBytes b) as HLt
      by (rewrite length_take; lia).
    pose proof (write_spec (take (writableBytes b) data) b HI ltac:(lia)) as [HI2 HC].
    rewrite HLt in HI2, HC.
    assert (b1 = mkBuffer (write_at (writer_index_ b) (take (writableBytes b) data) (buffer_ b))
      (reader_index_ b) (writer_index_ b + writableBytes b)) as Hb1.
    { unfold b1, copy_beginWrite; simpl. f_equal.
      unfold writableBytes in *. rewrite length_write_at by lia. lia. }
    rewrite take_ge by (rewrite length_drop; lia).
    destruct (append_spec (drop (writableBytes b) data) b1) as (b2&->&HI3&HC3);
      [by rewrite Hb1|]. simpl.
    do 3 eexists. split_and!; [done|done|].
    by rewrite HC3, Hb1, HC, <- app_assoc, take_drop.
Qed.

Lemma writeFd_spec send b :
  Inv b ->
  match writeFd send b with
  | Some ((n, e), b') =>
      Inv b' /\ queue_step 0 (OpWriteFd send) (contents b) = Some (OutSize n e, contents b')
  | None => queue_step 0 (OpWriteFd send) (contents b) = None
  end.
Proof.
  intros HI. unfold writeFd. cbn [queue_step]. rewrite <- contents_peek.
  destruct (send (contents b)) as [err|n]; [done|].
  pose proof (retrieve_spec n b HI) as HR.
  destruct (retrieve n b) as [b'|]; simpl; [destruct HR as [? ->]|rewrite HR]; done.
Qed.

(** One step of the buffer is one step of the queue. *)
Lemma buffer_step_spec o b :
  Inv b -> op_lawful o ->
  exists room,
  match buffer_step o b with
  | Some (r, b') => Inv b' /\ queue_step room o (contents b) = Some (r, contents b')
  | None => queue_step room o (contents b) = None
  end.
Proof.
  intros HI HL. destruct o as [n| |n| |d|n|readv|send]; cbn [buffer_step queue_step];
    [exists 0%nat..|exists (writableBytes b)|exists 0%nat].
  - pose proof (retrieve_spec n b HI) as HR.
    destruct (retrieve n b); simpl; [destruct HR as [? ->]|rewrite HR]; done.
  - by destruct (retrieveAll_spec b HI) as [? ->].
  - pose proof (retrieveAsString_spec n b HI) as HR.
    destruct (retrieveAsString n b) as [[s b']|]; simpl; [destruct HR as (?&->&->)|rewrite HR]; done.
  - pose proof (retrieveAsString_spec (readableBytes b) b HI) as HR. unfold retrieveAllAsString.
    unfold q_retrieve in HR. rewrite length_contents, decide_True in HR by done.
    rewrite take_ge, drop_ge in HR by (rewrite length_contents; done).
    destruct (retrieveAsString _ b) as [[s b']|]; simpl; [|done].
    by destruct HR as (?&->&[= ->]).
  - destruct (append_spec d b HI) as (b'&->&?&HC). simpl. by rewrite HC.
  - destruct (ensureWritableBytes_spec n b HI) as (b'&->&?&HC&?). simpl. by rewrite HC.
  - destruct (readFd_spec readv b HI HL) as (n&e&b'&->&?&HQ). done.
  - pose proof (writeFd_spec send b HI) as HW. cbn [queue_step] in HW.
    destruct (writeFd send b) as [[[n e] b']|]; simpl; done.
Qed.


Definition sample_ops : list op :=
  [OpAppend [x01; x02; x03]; OpRetrieve 1; OpReadFd (fun cap => inr (take cap [x04]));
   OpRetrieveAsString 3; OpEnsureWritable 2000; OpRetrieve 1].


End Buffer.
