(* ===== verification/Tcp.v ===== *)
(** * Connections of the network library

    common/net/TcpConnection.cpp with the channel and the poller beneath it
    (Channel.cpp, EpollPoller.cpp): one connection, plain or over TLS, its
    buffers, its interest in events and the functors its event loop still has
    to run for it.  The socket, OpenSSL and the callbacks are parameters; a
    system call is numbered so that each may answer differently.  [epoll_ctl]
    succeeds.

    The last field of a connection is its history: which callbacks were called
    and which messages [sendInLoop] took over or, after an error of the socket,
    dropped.  No operation reads it. *)

From S2P Require Import Prelude Words NetBuffer.
Import NetBuffer.Buffer.
Local Open Scope Z_scope.

(** ** Channels *)

Definition EPOLLIN : Z := 1.
Definition EPOLLPRI : Z := 2.
Definition EPOLLOUT : Z := 4.
Definition EPOLLERR : Z := 8.
Definition EPOLLHUP : Z := 16.
Definition EPOLLRDHUP : Z := 8192.

Definition kNoneEvent : Z := 0.
Definition kReadEvent : Z := Z.lor EPOLLIN EPOLLPRI.
Definition kWriteEvent : Z := EPOLLOUT.

Definition kNew : Z := -1.
Definition kAdded : Z := 1.
Definition kDeleted : Z := 2.

(** [ch_epoll]: the events epoll watches, if the channel is in its set. *)
Record Channel := mkChannel { events_ : Z; index_ : Z; ch_epoll : option Z }.

Definition Channel_new : Channel := mkChannel 0 kNew None.

Definition isNoneEvent (ch : Channel) : bool := events_ ch =? kNoneEvent.
Definition isWriting (ch : Channel) : bool := negb (Z.land (events_ ch) kWriteEvent =? 0).

(** [EpollPoller::updateChannel] *)
Definition updateChannel (ch : Channel) : Channel :=
  if (index_ ch =? kNew) || (index_ ch =? kDeleted) then mkChannel (events_ ch) kAdded (Some (events_ ch))
  else if isNoneEvent ch then mkChannel (events_ ch) kDeleted None
  else mkChannel (events_ ch) (index_ ch) (Some (events_ ch)).

(** [EpollPoller::removeChannel] *)
Definition removeChannel (ch : Channel) : Channel :=
  mkChannel (events_ ch) kNew (if index_ ch =? kAdded then None else ch_epoll ch).

Definition enableReading (ch : Channel) : Channel :=
  updateChannel (mkChannel (Z.lor (events_ ch) kReadEvent) (index_ ch) (ch_epoll ch)).
Definition enableWriting (ch : Channel) : Channel :=
  updateChannel (mkChannel (Z.lor (events_ ch) kWriteEvent) (index_ ch) (ch_epoll ch)).
Definition disableWriting (ch : Channel) : Channel :=
  updateChannel (mkChannel (Z.land (events_ ch) (Z.lnot kWriteEvent)) (index_ ch) (ch_epoll ch)).
Definition disableAll (ch : Channel) : Channel :=
  updateChannel (mkChannel kNoneEvent (index_ ch) (ch_epoll ch)).

(** ** The connection *)

Inductive State := DISCONNECTED | CONNECTING | CONNECTED | DISCONNECTING.
#[global] Instance State_eq_dec : EqDecision State. Proof. solve_decision. Defined.

(** What a callback, or another thread, asks of the connection. *)
Inductive action := Send (message : list byte) | Shutdown | ForceClose.

(** What the loop still has to run. *)
Inductive functor := FEstablished | FSend (message : list byte) | FShutdown | FForceClose | FWriteComplete | FDestroyed.

Inductive note :=
| ConnectionCallback (up : bool) | MessageCallback | CloseCallback | WriteCompleteCallback
| Taken (message : list byte) | Dropped (message : list byte).

Record TcpConnection := mkTcp {
  state_ : State;
  channel_ : Channel;
  ssl_ : bool;
  tls_handshake_done_ : bool;
  input_buffer_ : Buffer;
  output_buffer_ : Buffer;
  pending_functors_ : list functor;
  wire : list byte;
  write_shut : bool;
  calls : nat;
  history : list note
}.

(** A new connection, whose [connectEstablished] is on its way to the loop. *)
Definition TcpConnection_new : TcpConnection :=
  mkTcp CONNECTING Channel_new false false Buffer_new Buffer_new [FEstablished] [] false 0 [].

Definition C (A : Type) : Type := SM TcpConnection A.

Definition set_state (s : State) (c : TcpConnection) : TcpConnection :=
  mkTcp s (channel_ c) (ssl_ c) (tls_handshake_done_ c) (input_buffer_ c) (output_buffer_ c) (pending_functors_ c)
    (wire c) (write_shut c) (calls c) (history c).
Definition set_channel (ch : Channel) (c : TcpConnection) : TcpConnection :=
  mkTcp (state_ c) ch (ssl_ c) (tls_handshake_done_ c) (input_buffer_ c) (output_buffer_ c) (pending_functors_ c)
    (wire c) (write_shut c) (calls c) (history c).
Definition set_tls (ssl hs : bool) (c : TcpConnection) : TcpConnection :=
  mkTcp (state_ c) (channel_ c) ssl hs (input_buffer_ c) (output_buffer_ c) (pending_functors_ c)
    (wire c) (write_shut c) (calls c) (history c).
Definition set_input (b : Buffer) (c : TcpConnection) : TcpConnection :=
  mkTcp (state_ c) (channel_ c) (ssl_ c) (tls_handshake_done_ c) b (output_buffer_ c) (pending_functors_ c)
    (wire c) (write_shut c) (calls c) (history c).
Definition set_output (b : Buffer) (c : TcpConnection) : TcpConnection :=
  mkTcp (state_ c) (channel_ c) (ssl_ c) (tls_handshake_done_ c) (input_buffer_ c) b (pending_functors_ c)
    (wire c) (write_shut c) (calls c) (history c).
Definition set_pending (fs : list functor) (c : TcpConnection) : TcpConnection :=
  mkTcp (state_ c) (channel_ c) (ssl_ c) (tls_handshake_done_ c) (input_buffer_ c) (output_buffer_ c) fs
    (wire c) (write_shut c) (calls c) (history c).
Definition set_wire (bs : list byte) (c : TcpConnection) : TcpConnection :=
  mkTcp (state_ c) (channel_ c) (ssl_ c) (tls_handshake_done_ c) (input_buffer_ c) (output_buffer_ c) (pending_functors_ c)
    bs (write_shut c) (calls c) (history c).
Definition set_write_shut (c : TcpConnection) : TcpConnection :=
  mkTcp (state_ c) (channel_ c) (ssl_ c) (tls_handshake_done_ c) (input_buffer_ c) (output_buffer_ c) (pending_functors_ c)
    (wire c) true (calls c) (history c).
Definition set_calls (n : nat) (c : TcpConnection) : TcpConnection :=
  mkTcp (state_ c) (channel_ c) (ssl_ c) (tls_handshake_done_ c) (input_buffer_ c) (output_buffer_ c) (pending_functors_ c)
    (wire c) (write_shut c) n (history c).
Definition add_note (n : note) (c : TcpConnection) : TcpConnection :=
  mkTcp (state_ c) (channel_ c) (ssl_ c) (tls_handshake_done_ c) (input_buffer_ c) (output_buffer_ c) (pending_functors_ c)
    (wire c) (write_shut c) (calls c) (history c ++ [n]).

(** ** What is outside *)

Inductive ssl_error := WANT_READ | WANT_WRITE | ZERO_RETURN | SSL_FAILED.

(** [te_fuel] bounds the rounds of one [SSL_read] loop. *)
Record TEnv := mkTEnv {
  te_tls : bool;
  te_new_ssl : nat -> bool;
  te_send : nat -> list byte -> Z + nat;
  te_readv : nat -> nat -> Z + list byte;
  te_accept : nat -> ssl_error + unit;
  te_ssl_read : nat -> ssl_error + list byte;
  te_ssl_write : nat -> list byte -> ssl_error + nat;
  te_on_connection : option (nat -> bool -> list action);
  te_on_message : option (nat -> list byte -> nat * list action);
  te_write_complete : bool;
  te_on_close : bool;
  te_fuel : nat
}.

Definition EAGAIN : Z := 11.

Section Operations.
Context (E : TEnv).

(** The number of this call. *)
Definition called : C nat := c ← get_state; modify (set_calls (S (calls c)));; mret (calls c).

Definition on_channel (f : Channel -> Channel) : C unit := modify (fun c => set_channel (f (channel_ c)) c).
Definition queueInLoop (f : functor) : C unit := modify (fun c => set_pending (pending_functors_ c ++ [f]) c).
Definition connected (c : TcpConnection) : bool := bool_decide (state_ c = CONNECTED).
Definition append_output (data : list byte) : C unit :=
  fun c => match append data (output_buffer_ c) with Some b => Some (tt, set_output b c) | None => None end.

(** *** Requests *)

(** [runInLoop] runs at once in the loop's own thread; [send_in_loop] is
    [sendInLoop] in what follows. *)
Section Requests.
Context (send_in_loop : list byte -> C unit).

Definition send (in_loop : bool) (message : list byte) : C unit :=
  c ← get_state;
  if connected c then (if in_loop then send_in_loop message else queueInLoop (FSend message)) else mret tt.

Definition shutdownInLoop : C unit :=
  c ← get_state;
  if negb (isWriting (channel_ c)) then modify set_write_shut else mret tt.

Definition shutdown (in_loop : bool) : C unit :=
  c ← get_state;
  if connected c
  then modify (set_state DISCONNECTING);; (if in_loop then shutdownInLoop else queueInLoop FShutdown)
  else mret tt.

Definition forceClose : C unit :=
  c ← get_state;
  if bool_decide (state_ c = CONNECTED \/ state_ c = DISCONNECTING)
  then modify (set_state DISCONNECTING);; queueInLoop FForceClose
  else mret tt.

Definition perform (in_loop : bool) (a : action) : C unit :=
  match a with
  | Send message => send in_loop message
  | Shutdown => shutdown in_loop
  | ForceClose => forceClose
  end.

Fixpoint performs (acts : list action) : C unit :=
  match acts with [] => mret tt | a :: acts => perform true a;; performs acts end.

Definition connection_callback : C unit :=
  match te_on_connection E with
  | None => mret tt
  | Some f =>
      c ← get_state;
      n ← called;
      modify (add_note (ConnectionCallback (connected c)));;
      performs (f n (connected c))
  end.

Definition message_callback : C unit :=
  match te_on_message E with
  | None => mret tt
  | Some f =>
      c ← get_state;
      n ← called;
      modify (add_note MessageCallback);;
      let '(used, acts) := f n (take (readableBytes (input_buffer_ c)) (peek (input_buffer_ c))) in
      match retrieve used (input_buffer_ c) with
      | Some b => modify (set_input b);; performs acts
      | None => fun _ => None
      end
  end.

End Requests.

(** *** Closing *)

(** A message a callback sends on a closed connection: [send] does not get to
    it. *)
Definition unreached (message : list byte) : C unit := fun _ => None.

Definition handleClose : C unit :=
  modify (set_state DISCONNECTED);;
  on_channel disableAll;;
  connection_callback unreached;;
  if te_on_close E then modify (add_note CloseCallback) else mret tt.

Definition forceCloseInLoop : C unit :=
  c ← get_state;
  if bool_decide (state_ c = CONNECTED \/ state_ c = DISCONNECTING) then handleClose else mret tt.

(** *** Writing *)

(** The output has been written. *)
Definition write_complete : C unit := if te_write_complete E then queueInLoop FWriteComplete else mret tt.

Definition drained : C unit :=
  on_channel disableWriting;;
  write_complete;;
  c ← get_state;
  if bool_decide (state_ c = DISCONNECTING) then shutdownInLoop else mret tt.

Definition doTlsHandshake : C bool :=
  c ← get_state;
  if negb (ssl_ c) || tls_handshake_done_ c then mret true
  else
    n ← called;
    match te_accept E n with
    | inr _ =>
        modify (set_tls (ssl_ c) true);;
        (if Nat.eqb (readableBytes (output_buffer_ c)) 0 && isWriting (channel_ c)
         then on_channel disableWriting else mret tt);;
        mret true
    | inl WANT_READ => (if isWriting (channel_ c) then on_channel disableWriting else mret tt);; mret false
    | inl WANT_WRITE => (if isWriting (channel_ c) then mret tt else on_channel enableWriting);; mret false
    | inl _ => handleClose;; mret false
    end.

(** The loop of [handleTlsWrite]: whether everything was written. *)
Fixpoint tls_write_loop (fuel : nat) : C bool :=
  match fuel with
  | O => fun _ => None
  | S fuel =>
      c ← get_state;
      if Nat.eqb (readableBytes (output_buffer_ c)) 0 then mret true
      else
        let data := take (readableBytes (output_buffer_ c)) (peek (output_buffer_ c)) in
        n ← called;
        match te_ssl_write E n data with
        | inr k =>
            match retrieve k (output_buffer_ c) with
            | Some b => modify (set_output b);; modify (set_wire (wire c ++ take k data));; tls_write_loop fuel
            | None => fun _ => None
            end
        | inl WANT_WRITE | inl WANT_READ => mret false
        | inl _ => handleClose;; mret false
        end
  end.

Definition handleTlsWrite : C unit :=
  ready ← doTlsHandshake;
  if negb ready then mret tt
  else
    c ← get_state;
    empty ← tls_write_loop (S (readableBytes (output_buffer_ c)));
    if negb empty then mret tt else drained.

Definition sendInLoop (data : list byte) : C unit :=
  c ← get_state;
  if bool_decide (state_ c = DISCONNECTED) then mret tt
  else if ssl_ c then
    modify (add_note (Taken data));;
    append_output data;;
    (if isWriting (channel_ c) then mret tt else on_channel enableWriting);;
    handleTlsWrite
  else
    '(nwrote, fault_error) ←
      (if negb (isWriting (channel_ c)) && Nat.eqb (readableBytes (output_buffer_ c)) 0 then
         n ← called;
         match te_send E n data with
         | inr k =>
             modify (set_wire (wire c ++ take k data));;
             (if Nat.eqb (length data - k) 0 then write_complete else mret tt);;
             mret (k, false)
         | inl errno => mret (0%nat, negb (errno =? EAGAIN))
         end
       else mret (0%nat, false));
    modify (add_note (if (fault_error : bool) then Dropped data else Taken data));;
    if negb fault_error && negb (Nat.eqb (length data - nwrote) 0) then
      append_output (drop nwrote data);;
      c ← get_state;
      if isWriting (channel_ c) then mret tt else on_channel enableWriting
    else mret tt.

Definition handleWrite : C unit :=
  c ← get_state;
  if negb (isWriting (channel_ c)) then mret tt
  else if ssl_ c then handleTlsWrite
  else
    n ← called;
    match writeFd (te_send E n) (output_buffer_ c) with
    | None => fun _ => None
    | Some ((written, _), b) =>
        modify (set_output b);;
        modify (set_wire (wire c ++ take (Z.to_nat written) (take (readableBytes (output_buffer_ c)) (peek (output_buffer_ c)))));;
        if (0 <? written) && Nat.eqb (readableBytes b) 0 then drained else mret tt
    end.

(** *** Reading *)

Inductive read_end := Blocked | WantsWrite | Ended.
#[global] Instance read_end_eq_dec : EqDecision read_end. Proof. solve_decision. Defined.

(** The loop of [handleTlsRead]: how it ended, and whether it got data. *)
Fixpoint tls_read_loop (fuel : nat) (got_data : bool) : C (read_end * bool) :=
  match fuel with
  | O => fun _ => None
  | S fuel =>
      n ← called;
      match te_ssl_read E n with
      | inr data =>
          c ← get_state;
          match append data (input_buffer_ c) with
          | Some b => modify (set_input b);; tls_read_loop fuel true
          | None => fun _ => None
          end
      | inl WANT_READ => mret (Blocked, got_data)
      | inl WANT_WRITE => mret (WantsWrite, got_data)
      | inl _ => mret (Ended, got_data)
      end
  end.

Definition handleTlsRead : C unit :=
  ready ← doTlsHandshake;
  if negb ready then mret tt
  else
    '(stop, got_data) ← tls_read_loop (te_fuel E) false;
    match stop with
    | Ended => handleClose
    | _ =>
        c ← get_state;
        (if bool_decide (stop = WantsWrite) && negb (isWriting (channel_ c)) then on_channel enableWriting else mret tt);;
        (if (got_data : bool) then message_callback sendInLoop else mret tt);;
        c ← get_state;
        if negb (Nat.eqb (readableBytes (output_buffer_ c)) 0) && negb (isWriting (channel_ c))
        then on_channel enableWriting else mret tt
    end.

Definition handleRead : C unit :=
  c ← get_state;
  if ssl_ c then handleTlsRead
  else
    n ← called;
    match readFd (te_readv E n) (input_buffer_ c) with
    | None => fun _ => None
    | Some ((received, _), b) =>
        modify (set_input b);;
        if 0 <? received then message_callback sendInLoop
        else if received =? 0 then handleClose
        else mret tt
    end.

(** *** Events *)

(** [Channel::handleEvent] with the callbacks of a connection; [handleError]
    only logs. *)
Definition handleEvent (revents : Z) : C unit :=
  (if negb (Z.land revents EPOLLHUP =? 0) && (Z.land revents EPOLLIN =? 0) then handleClose else mret tt);;
  (if negb (Z.land revents (Z.lor EPOLLIN (Z.lor EPOLLPRI EPOLLRDHUP)) =? 0) then handleRead else mret tt);;
  (if negb (Z.land revents EPOLLOUT =? 0) then handleWrite else mret tt).

Definition connectEstablished : C unit :=
  modify (set_state CONNECTED);;
  usable ← (if te_tls E then
              n ← called;
              if te_new_ssl E n then modify (fun c => set_tls true (tls_handshake_done_ c) c);; mret true
              else forceCloseInLoop;; mret false
            else mret true);
  if negb usable then mret tt
  else on_channel enableReading;; connection_callback sendInLoop.

Definition connectDestroyed : C unit :=
  c ← get_state;
  (if bool_decide (state_ c = CONNECTED)
   then modify (set_state DISCONNECTED);; on_channel disableAll;; connection_callback unreached
   else mret tt);;
  on_channel removeChannel.

Definition run_functor (f : functor) : C unit :=
  match f with
  | FEstablished => connectEstablished
  | FSend message => sendInLoop message
  | FShutdown => shutdownInLoop
  | FForceClose => forceCloseInLoop
  | FWriteComplete => if te_write_complete E then modify (add_note WriteCompleteCallback) else mret tt
  | FDestroyed => connectDestroyed
  end.

End Operations.

