(* ===== verification/TcpClaims.v ===== *)
(** * What a connection of the network library promises

    Whatever the socket, OpenSSL and the callbacks do: the bytes on the wire
    are whole messages in the order they were sent, no output is forgotten, and
    a plain connection is announced once, reports its messages and is closed
    once. *)

From S2P Require Import Prelude Words NetBuffer Tcp.
Import NetBuffer.Buffer.
Local Open Scope Z_scope.

(** ** The steps of a connection *)

(** epoll reports what is watched, errors and hang-ups. *)
Definition reported (watched revents : Z) : bool :=
  Z.land revents (Z.lnot (Z.lor watched (Z.lor EPOLLERR EPOLLHUP))) =? 0.

(** The kernel reports a connection that is closed in both directions as
    readable, and without urgent data otherwise. *)
Definition hang_up_readable (revents : Z) : bool :=
  (Z.land revents EPOLLHUP =? 0) || negb (Z.land revents EPOLLIN =? 0) ||
  (Z.land revents (Z.lor EPOLLPRI EPOLLRDHUP) =? 0).

Section Steps.
Context (E : TEnv).

(** An event, the next functor, a request of code in the loop's thread or in
    another one, or the server that destroys what its callback was told about:
    in any order. *)
Inductive tstep : TcpConnection -> TcpConnection -> Prop :=
| step_event c c' watched revents :
    ch_epoll (channel_ c) = Some watched -> reported watched revents = true -> hang_up_readable revents = true ->
    handleEvent E revents c = Some (tt, c') -> tstep c c'
| step_functor c c' f fs :
    pending_functors_ c = f :: fs -> run_functor E f (set_pending fs c) = Some (tt, c') -> tstep c c'
| step_request c c' in_loop a :
    perform (sendInLoop E) in_loop a c = Some (tt, c') -> tstep c c'
| step_destroy c c' :
    CloseCallback ∈ history c -> queueInLoop FDestroyed c = Some (tt, c') -> tstep c c'.

Inductive treachable : TcpConnection -> Prop :=
| treach_new : treachable TcpConnection_new
| treach_step c c' : treachable c -> tstep c c' -> treachable c'.

(** What the socket, OpenSSL and the callbacks keep to. *)
Record lawful : Prop := {
  l_send : forall n d k, te_send E n d = inr k -> (k <= length d)%nat;
  l_readv : forall n cap d, te_readv E n cap = inr d -> (length d <= cap)%nat;
  l_ssl_write : forall n d k, te_ssl_write E n d = inr k -> (0 < k <= length d)%nat;
  l_ssl_read : forall n, exists k e, (k < te_fuel E)%nat /\ te_ssl_read E (n + k)%nat = inl e;
  l_message : forall f n d, te_on_message E = Some f -> (fst (f n d) <= length d)%nat
}.

(** ** The invariant *)

Definition live (c : TcpConnection) : Prop := state_ c = CONNECTED \/ state_ c = DISCONNECTING.

(** The messages taken over, and the callbacks a session consists of. *)
Definition taken (h : list note) : list (list byte) :=
  omap (fun n => if n is Taken d then Some d else None) h.
Definition session_calls (h : list note) : list note :=
  omap (fun n => match n with ConnectionCallback _ | MessageCallback | CloseCallback => Some n | _ => None end) h.

(** The channel of a live connection. *)
Definition watch (w : bool) : Channel :=
  let ev := if w then Z.lor kReadEvent kWriteEvent else kReadEvent in mkChannel ev kAdded (Some ev).

(** Output waits only while epoll watches for room, or for the handshake. *)
Definition flowing (c : TcpConnection) : Prop :=
  live c -> contents (output_buffer_ c) <> [] ->
  isWriting (channel_ c) = true \/ (ssl_ c = true /\ tls_handshake_done_ c = false).

(** The callbacks so far of a plain connection. *)
Definition in_session (c : TcpConnection) : Prop :=
  exists n, let opened := ConnectionCallback true :: replicate n MessageCallback in
  (live c /\ session_calls (history c) = opened) \/
  (state_ c = DISCONNECTED /\ session_calls (history c) = opened ++ [ConnectionCallback false; CloseCallback]).

(** A channel that epoll does not know. *)
Definition asleep (ch : Channel) : Prop := ch_epoll ch = None /\ index_ ch <> kAdded /\ isWriting ch = false.

(** It is established once, and destroyed when it is closed. *)
Definition pending_ok (c : TcpConnection) : Prop :=
  (FEstablished ∉ pending_functors_ c) /\ (FDestroyed ∈ pending_functors_ c -> state_ c = DISCONNECTED).

Record base (c : TcpConnection) : Prop := {
  b_state : state_ c <> CONNECTING;
  b_pending : pending_ok c;
  b_over : CloseCallback ∈ session_calls (history c) -> state_ c = DISCONNECTED;
  b_in : Inv (input_buffer_ c);
  b_out : Inv (output_buffer_ c);
  b_stream : wire c ++ contents (output_buffer_ c) = concat (taken (history c));
  b_channel : live c -> exists w, channel_ c = watch w;
  b_closed : te_tls E = false -> state_ c = DISCONNECTED -> asleep (channel_ c);
  b_tls : te_tls E = false -> ssl_ c = false
}.

(** The invariant of every step; inside [handleTlsRead], where [f] is [false],
    output may wait. *)
Definition good (f : bool) (c : TcpConnection) : Prop :=
  base c /\ (f = true -> flowing c) /\
  (te_tls E = false -> is_Some (te_on_connection E) -> te_on_close E = true -> in_session c).

(** *** Updates that leave it alone *)

Lemma taken_app h n : taken (h ++ [n]) = taken h ++ taken [n].
Proof. apply omap_app. Qed.
Lemma session_calls_app h n : session_calls (h ++ [n]) = session_calls h ++ session_calls [n].
Proof. apply omap_app. Qed.

(** States that agree on everything the invariant is about. *)
Definition alike (c c' : TcpConnection) : Prop :=
  state_ c' = state_ c /\ channel_ c' = channel_ c /\ ssl_ c' = ssl_ c /\ tls_handshake_done_ c' = tls_handshake_done_ c /\
  output_buffer_ c' = output_buffer_ c /\ wire c' = wire c /\ taken (history c') = taken (history c) /\
  session_calls (history c') = session_calls (history c).

Lemma good_alike f c c' :
  alike c c' -> Inv (input_buffer_ c') -> pending_ok c' -> good f c -> good f c'.
Proof.
  intros (H1&H2&H3&H4&H5&H6&H7&H8) Hi Hp (Hb&Hf&Hs). destruct Hb. split_and!.
  - split; unfold live in *; rewrite ?H1, ?H2, ?H3, ?H5, ?H6, ?H7, ?H8; auto.
  - intros Ht. specialize (Hf Ht). unfold flowing, live in *. by rewrite H1, H2, H3, H4, H5.
  - intros Ht Hc Ho. destruct (Hs Ht Hc Ho) as (n&Hn). exists n. unfold live in *. by rewrite H1, H8.
Qed.

(** Operations that always return and keep the invariant. *)
Definition keeps (f : bool) {A} (m : C A) : Prop := forall c, good f c -> wp m (fun _ => good f) c.

Lemma keeps_bind f {A B} (m : C A) (k : A -> C B) : keeps f m -> (forall x, keeps f (k x)) -> keeps f (m ≫= k).
Proof. intros Hm Hk c Hc. apply wp_bind. eapply wp_mono; [by apply Hm|]. intros x c'. apply Hk. Qed.
Lemma keeps_ret f {A} (x : A) : keeps f (mret x).
Proof. by intros c Hc. Qed.
Lemma keeps_if f {A} (b : bool) (m1 m2 : C A) : keeps f m1 -> keeps f m2 -> keeps f (if b then m1 else m2).
Proof. by destruct b. Qed.
Lemma keeps_get f {A} (k : TcpConnection -> C A) : (forall c, good f c -> wp (k c) (fun _ => good f) c) -> keeps f (c ← get_state; k c).
Proof. intros Hk c Hc. apply wp_bind. by apply Hk. Qed.

Lemma keeps_called f : keeps f called.
Proof. intros c Hc. eapply (good_alike f c); [|apply Hc|apply Hc|done]. done. Qed.

Lemma good_queue f fn c :
  fn <> FEstablished -> (fn = FDestroyed -> state_ c = DISCONNECTED) -> good f c ->
  good f (set_pending (pending_functors_ c ++ [fn]) c).
Proof.
  intros Hn Hd Hc. eapply (good_alike f c); [done|apply Hc| |done]. destruct (b_pending c (proj1 Hc)) as [He Hdd].
  split; cbn; (intros [Hin|Hin%list_elem_of_singleton]%elem_of_app; [by auto|subst; auto]).
Qed.

Lemma keeps_queue f fn : fn <> FEstablished -> fn <> FDestroyed -> keeps f (queueInLoop fn).
Proof. intros Hn Hd c Hc. by apply good_queue. Qed.

(** *** Requests *)

Lemma good_disconnecting f c : live c -> good f c -> good f (set_state DISCONNECTING c).
Proof.
  intros Hl (Hb&Hf&Hs). destruct Hb. assert (live (set_state DISCONNECTING c)) by (by right).
  assert (state_ c <> DISCONNECTED) by (destruct Hl; congruence). split_and!.
  - split; cbn; auto; try done; [|by intros ?%b_over0]. destruct b_pending0 as [? Hp]. split; [done|]. by intros ?%Hp.
  - intros Ht _. by apply Hf.
  - intros Ht Hc Ho. destruct (Hs Ht Hc Ho) as (n&[[_ Hn]|[Hd _]]); [exists n; by left|]. destruct Hl; congruence.
Qed.

Lemma keeps_shutdownInLoop f : keeps f shutdownInLoop.
Proof.
  apply keeps_get. intros c Hc. apply wp_if; intros _; [|done].
  eapply (good_alike f c); [done|apply Hc|apply Hc|done].
Qed.

Section Perform.
Context (f : bool) (send_in_loop : list byte -> C unit) (Hsend : forall d, keeps f (send_in_loop d)).

Lemma keeps_perform in_loop a : keeps f (perform send_in_loop in_loop a).
Proof.
  destruct a; cbn [perform]; apply keeps_get; intros c Hc; apply wp_if; intros Hb; try done.
  - destruct in_loop; [by apply Hsend|by apply keeps_queue].
  - apply bool_decide_eq_true in Hb. apply wp_bind, wp_modify.
    destruct in_loop; [apply keeps_shutdownInLoop|apply keeps_queue; [done..|]]; (apply good_disconnecting; [by left|done]).
  - apply bool_decide_eq_true in Hb. apply wp_bind, wp_modify. apply keeps_queue; [done..|]. by apply good_disconnecting.
Qed.

Lemma keeps_performs acts : keeps f (performs send_in_loop acts).
Proof. induction acts as [|a acts IH]; cbn [performs]; [apply keeps_ret|]. apply keeps_bind; [apply keeps_perform|done]. Qed.

End Perform.

(** *** Closing *)

(** Nobody can send on, shut down or close a connection that is closed. *)
Lemma performs_closed send_in_loop acts c :
  state_ c = DISCONNECTED -> performs send_in_loop acts c = Some (tt, c).
Proof.
  intros Hc. induction acts as [|a acts IH]; [done|]. cbn [performs]. unfold mbind, SM_bind.
  assert (perform send_in_loop true a c = Some (tt, c)) as ->; [|done].
  destruct a; cbn [perform]; unfold send, shutdown, forceClose, connected, mbind, SM_bind, get_state;
    rewrite bool_decide_false by (rewrite Hc; intuition congruence); done.
Qed.

Lemma connection_callback_closed send_in_loop c :
  state_ c = DISCONNECTED ->
  exists c', connection_callback E send_in_loop c = Some (tt, c') /\
    state_ c' = DISCONNECTED /\ channel_ c' = channel_ c /\ ssl_ c' = ssl_ c /\ input_buffer_ c' = input_buffer_ c /\
    output_buffer_ c' = output_buffer_ c /\ pending_functors_ c' = pending_functors_ c /\ wire c' = wire c /\
    history c' = history c ++ (if te_on_connection E is Some _ then [ConnectionCallback false] else []).
Proof.
  intros Hc. unfold connection_callback. destruct (te_on_connection E) as [g|].
  - cbv beta iota zeta delta [mbind SM_bind get_state called modify mret SM_ret]. assert (connected c = false) as Hf by (unfold connected; by rewrite Hc).
    eexists. rewrite performs_closed by done. split; [reflexivity|]. cbn. by rewrite Hf.
  - exists c. by rewrite app_nil_r.
Qed.

Lemma disableAll_watch w : disableAll (watch w) = mkChannel 0 kDeleted None.
Proof. by destruct w. Qed.

(** What [handleClose] needs. *)
Record closable (c : TcpConnection) : Prop := {
  cl_pending : FEstablished ∉ pending_functors_ c;
  cl_in : Inv (input_buffer_ c);
  cl_out : Inv (output_buffer_ c);
  cl_stream : wire c ++ contents (output_buffer_ c) = concat (taken (history c));
  cl_plain : te_tls E = false -> ssl_ c = false /\ exists w, channel_ c = watch w;
  cl_session : te_tls E = false -> is_Some (te_on_connection E) -> te_on_close E = true ->
    exists n, session_calls (history c) = ConnectionCallback true :: replicate n MessageCallback
}.

(** It ends the session. *)
Lemma handleClose_closes c :
  closable c -> wp (handleClose E) (fun _ c' => good true c' /\ state_ c' = DISCONNECTED) c.
Proof.
  intros Hcl. unfold handleClose, on_channel. apply wp_bind, wp_modify, wp_bind, wp_modify, wp_bind.
  destruct (connection_callback_closed unreached (set_channel (disableAll (channel_ c)) (set_state DISCONNECTED c)) eq_refl)
    as (c1&Hr&H1&H2&H3&H4&H5&H6&H7&H8). eapply wp_exact; [exact Hr|]. clear Hr. cbn in H2, H3, H4, H5, H6, H7, H8.
  assert (taken (history c1) = taken (history c)) as Ht.
  { rewrite H8. destruct (te_on_connection E); [by rewrite taken_app, app_nil_r|by rewrite app_nil_r]. }
  assert (forall c2, state_ c2 = DISCONNECTED -> channel_ c2 = channel_ c1 -> ssl_ c2 = ssl_ c1 -> input_buffer_ c2 = input_buffer_ c1 ->
    output_buffer_ c2 = output_buffer_ c1 -> pending_functors_ c2 = pending_functors_ c1 -> wire c2 = wire c1 ->
    history c2 = history c1 ++ (if te_on_close E then [CloseCallback] else []) -> good true c2 /\ state_ c2 = DISCONNECTED) as Hend.
  { intros c2 E1 E2 E3 E4 E5 E6 E7 E8. split; [|done]. destruct Hcl. split_and!.
    - split; rewrite ?E1, ?E3, ?E4, ?E5, ?E7, ?H3, ?H4, ?H5, ?H7; auto; try done.
      + unfold pending_ok. rewrite E6, H6. done.
      + rewrite cl_stream0, E8, <- Ht. destruct (te_on_close E); [by rewrite taken_app, app_nil_r|by rewrite app_nil_r].
      + intros [?|?]; congruence.
      + intros Htls _. destruct (cl_plain0 Htls) as (_&w&Hw). by rewrite E2, H2, Hw, disableAll_watch.
      + intros Htls. by apply cl_plain0.
    - intros _ [?|?]; congruence.
    - intros Htls Hc Ho. destruct (cl_session0 Htls Hc Ho) as (n&Hn).
      exists n. right. split; [done|]. destruct Hc as [g Hg]. by rewrite E8, Ho, H8, Hg, !session_calls_app, Hn, <- app_assoc. }
  destruct (te_on_close E); apply Hend; try done. by rewrite app_nil_r.
Qed.

Lemma handleClose_good f c :
  good f c -> (te_tls E = false -> live c) ->
  wp (handleClose E) (fun _ c' => good true c' /\ state_ c' = DISCONNECTED) c.
Proof.
  intros (Hb&_&Hs) Hl. apply handleClose_closes. destruct Hb. split; auto.
  - apply b_pending0.
  - intros Htls Hc Ho. destruct (Hs Htls Hc Ho) as (n&[[_ Hn]|[Hd _]]); [eauto|destruct (Hl Htls); congruence].
Qed.

(** *** Writing *)

Lemma isWriting_watch w : isWriting (watch w) = w.
Proof. by destruct w. Qed.
Lemma enableWriting_watch w : enableWriting (watch w) = watch true.
Proof. by destruct w. Qed.
Lemma disableWriting_watch w : disableWriting (watch w) = watch false.
Proof. by destruct w. Qed.

(** The interest of a live connection in writing changes. *)
Lemma good_watch f f' w (g : Channel -> Channel) c :
  (forall w0, g (watch w0) = watch w) -> good f c -> (te_tls E = false -> live c) ->
  (f' = true -> live c -> contents (output_buffer_ c) <> [] -> w = true \/ (ssl_ c = true /\ tls_handshake_done_ c = false)) ->
  good f' (set_channel (g (channel_ c)) c).
Proof.
  intros Hg (Hb&_&Hs) Hl Hf. destruct Hb. split_and!.
  - split; cbn; auto.
    + intros Hlive. destruct (b_channel0 Hlive) as (w0&->). eauto.
    + intros Ht Hd. destruct (Hl Ht); congruence.
  - intros Ht Hlive Ho. destruct (b_channel0 Hlive) as (w0&Hw0). cbn. rewrite Hw0, Hg, isWriting_watch. by apply Hf.
  - done.
Qed.

Lemma enable_good f c :
  good f c -> (te_tls E = false -> live c) -> good true (set_channel (enableWriting (channel_ c)) c).
Proof. intros Hc Hl. apply (good_watch f true true); auto using enableWriting_watch. Qed.

Lemma contents_empty b : Inv b -> Nat.eqb (readableBytes b) 0 = bool_decide (contents b = []).
Proof.
  intros Hb. rewrite <- (length_contents b Hb). case_bool_decide as He; [by rewrite He|].
  apply Nat.eqb_neq. by destruct (contents b).
Qed.

Lemma keeps_write_complete f : keeps f (write_complete E).
Proof. unfold write_complete. apply keeps_if; [by apply keeps_queue|apply keeps_ret]. Qed.

Lemma drained_good f c :
  good f c -> (te_tls E = false -> live c) -> contents (output_buffer_ c) = [] -> wp (drained E) (fun _ => good true) c.
Proof.
  intros Hc Hl He. unfold drained, on_channel. apply wp_bind, wp_modify, wp_bind.
  eapply wp_mono; [apply (keeps_write_complete true)|].
  - apply (good_watch f true false); auto using disableWriting_watch.
  - intros [] c1 H1. apply wp_bind, wp_get, wp_if; intros _; [by apply keeps_shutdownInLoop|done].
Qed.

(** Over TLS nothing is promised about the session. *)
Lemma tls_live c : base c -> ssl_ c = true -> te_tls E = false -> live c.
Proof. intros Hb Hs Ht. by rewrite (b_tls c Hb Ht) in Hs. Qed.

(** The handshake: when it is not done, output may wait; when it is, a channel
    that waits for room still does. *)
Lemma handshake_good f c :
  good f c -> ssl_ c = true ->
  wp (doTlsHandshake E) (fun done c' =>
    if (done : bool) then good false c' /\ ssl_ c' = true /\ state_ c' = state_ c /\ output_buffer_ c' = output_buffer_ c /\
      (contents (output_buffer_ c) <> [] -> isWriting (channel_ c) = true -> isWriting (channel_ c') = true)
    else good true c') c.
Proof.
  intros Hc Hs. pose proof (tls_live c (proj1 Hc) Hs) as Hl. unfold doTlsHandshake, on_channel. apply wp_bind, wp_get. rewrite Hs. cbn [negb orb].
  assert (forall c', good f c' -> good false c') as Hweak by (intros c' (?&_&?); done).
  apply wp_if; intros Hd; [apply wp_ret; auto|]. apply wp_bind.
  unfold called. apply wp_bind, wp_get, wp_bind, wp_modify, wp_ret.
  set (c1 := set_calls (S (calls c)) c).
  assert (good f c1) as H1 by (eapply (good_alike f c); [done|apply Hc|apply Hc|done]).
  destruct (te_accept E (calls c)) as [[]|].
  - apply wp_bind, wp_if; intros Hw; apply wp_modify || apply wp_ret; apply wp_ret; cbn beta iota.
    + apply (good_watch f true false); auto using disableWriting_watch.
    + destruct H1 as (Hb1&_&Hs1). split_and!; [done| |done]. intros _ _ _. by right.
  - apply wp_bind, wp_if; intros Hw; apply wp_modify || apply wp_ret; apply wp_ret; cbn beta iota.
    + destruct H1 as (Hb1&_&Hs1). split_and!; [done| |done]. intros _ _ _. by right.
    + apply (enable_good f); auto.
  - apply wp_bind. eapply wp_mono; [by apply (handleClose_good f)|]. intros [] c' [Hg _]. by apply wp_ret.
  - apply wp_bind. eapply wp_mono; [by apply (handleClose_good f)|]. intros [] c' [Hg _]. by apply wp_ret.
  - apply wp_bind, wp_modify. set (c2 := set_tls true true c1).
    assert (good false c2) as H2.
    { destruct H1 as ([]&_&Hs1). split_and!; [split; try done; intros Ht; specialize (b_tls0 Ht); cbn in *; congruence|done|done]. }
    apply wp_bind, wp_if; intros Hw; apply wp_modify || apply wp_ret; apply wp_ret; cbn beta iota.
    + apply andb_prop in Hw as [He _]. rewrite contents_empty in He by apply (b_out c (proj1 Hc)). apply bool_decide_eq_true in He.
      split_and!; [|done..]. apply (good_watch false false false); auto using disableWriting_watch.
    + by split_and!.
Qed.

Lemma tls_write_loop_good fuel f c :
  good f c -> lawful -> ssl_ c = true -> (length (contents (output_buffer_ c)) < fuel)%nat ->
  (contents (output_buffer_ c) <> [] -> live c -> isWriting (channel_ c) = true) ->
  wp (tls_write_loop E fuel) (fun empty c' =>
    if (empty : bool) then good false c' /\ ssl_ c' = true /\ contents (output_buffer_ c') = [] else good true c') c.
Proof.
  intros Hc HL. revert c Hc. induction fuel as [|fuel IH]; intros c Hc Hs Hlen Hw; [lia|]. cbn [tls_write_loop].
  pose proof (b_out c (proj1 Hc)) as Ho. apply wp_bind, wp_get. rewrite contents_empty by done. apply wp_if; intros He.
  { apply bool_decide_eq_true in He. apply wp_ret. split_and!; [|done..]. destruct Hc as (?&_&?). done. }
  apply bool_decide_eq_false in He. cbv zeta. rewrite <- contents_peek. apply wp_bind.
  unfold called. apply wp_bind, wp_get, wp_bind, wp_modify, wp_ret.
  set (c1 := set_calls (S (calls c)) c).
  assert (good f c1) as H1 by (eapply (good_alike f c); [done|apply Hc|apply Hc|done]).
  assert (good true c1) as H1'. { destruct H1 as (?&_&?). split_and!; [done| |done]. intros _ Hlv _. left. by apply Hw. }
  destruct (te_ssl_write E (calls c) _) as [[]|k] eqn:Hk; [by apply wp_ret..| | |].
  1-2: apply wp_bind; (eapply wp_mono; [apply (handleClose_good f); [done|by apply tls_live; [apply H1|]]|]);
    intros [] c' [Hg _]; by apply wp_ret.
  apply (l_ssl_write HL) in Hk. pose proof (retrieve_spec k (output_buffer_ c) Ho) as Hr. unfold q_retrieve in Hr.
  rewrite decide_True in Hr by lia. destruct (retrieve k (output_buffer_ c)) as [b|]; [|done].
  destruct Hr as [Hb [= Hcb]]. apply wp_bind, wp_modify, wp_bind, wp_modify. apply IH; cbn; [|done| |].
  - destruct H1 as ([]&Hf1&Hs1). split_and!; [split; cbn in *; auto| |done].
    + rewrite <- b_stream0, <- Hcb, <- app_assoc, take_drop. done.
    + intros _ Hlv _. left. by apply Hw.
  - rewrite <- Hcb, length_drop. lia.
  - intros _. by apply Hw.
Qed.

Lemma handleTlsWrite_good f c :
  good f c -> lawful -> ssl_ c = true ->
  (contents (output_buffer_ c) <> [] -> live c -> isWriting (channel_ c) = true) ->
  wp (handleTlsWrite E) (fun _ => good true) c.
Proof.
  intros Hc HL Hs Hw. unfold handleTlsWrite. apply wp_bind. eapply wp_mono; [by apply (handshake_good f)|].
  intros [] c1 H1; cbn [negb]; [|by apply wp_ret]. destruct H1 as (H1&Hs1&Hst&Ho&Hw1).
  apply wp_bind, wp_get, wp_bind. eapply wp_mono.
  - apply (tls_write_loop_good _ false); [done..| |].
    + rewrite length_contents by apply (b_out c1 (proj1 H1)). lia.
    + rewrite Ho. unfold live. rewrite Hst. auto.
  - intros [] c2 H2; cbn [negb]; [|by apply wp_ret]. destruct H2 as (H2&Hs2&He).
    apply (drained_good false); [done|apply tls_live; [apply H2|done]|done].
Qed.

(** A message is taken over: some of it is on the wire, the rest is output. *)
Lemma good_taken f c data k b :
  good f c -> (k <= length data)%nat -> Inv b -> contents b = contents (output_buffer_ c) ++ drop k data ->
  (k = 0%nat \/ contents (output_buffer_ c) = []) ->
  good false (set_output b (add_note (Taken data) (set_wire (wire c ++ take k data) c))).
Proof.
  intros (Hb&_&Hs) Hk HI Hcb Hor. destruct Hb. split_and!; [split; cbn; auto|done|].
  - by rewrite session_calls_app, app_nil_r.
  - rewrite Hcb, taken_app, concat_app, <- b_stream0, <- !app_assoc. cbn. rewrite app_nil_r.
    destruct Hor as [->| ->]; cbn; [by rewrite drop_0|]. by rewrite take_drop.
  - intros Ht Hc Ho. destruct (Hs Ht Hc Ho) as (n&Hn). exists n. unfold live in *. cbn [history state_ set_output add_note set_wire].
    rewrite session_calls_app, app_nil_r. exact Hn.
Qed.

Lemma append_output_good (P : TcpConnection -> Prop) data c :
  Inv (output_buffer_ c) ->
  (forall b, Inv b -> contents b = contents (output_buffer_ c) ++ data -> P (set_output b c)) ->
  wp (append_output data) (fun _ => P) c.
Proof.
  intros HI HP. unfold wp, append_output. destruct (append_spec data (output_buffer_ c) HI) as (b&->&Hb&Hcb). by apply HP.
Qed.

Lemma good_flow f c : good false c -> (f = true -> flowing c) -> good f c.
Proof. by intros (?&_&?). Qed.
Lemma good_weaken f c : good f c -> good false c.
Proof. by intros (?&_&?). Qed.
Lemma good_strengthen f c : good true c -> good f c.
Proof. intros (?&Hf&?). split_and!; auto. Qed.

Lemma live_not_closed c : base c -> state_ c <> DISCONNECTED -> live c.
Proof. intros [] Hd. unfold live. destruct (state_ c); auto; done. Qed.

(** The end of the plain branch: what is left of a message is queued. *)
Lemma rest_good f c data k :
  good f c -> live c -> (k <= length data)%nat -> (k = 0%nat \/ contents (output_buffer_ c) = []) ->
  wp (modify (add_note (Taken data));;
      if negb (Nat.eqb (length data - k) 0) then
        append_output (drop k data);;
        c ← get_state;
        if isWriting (channel_ c) then mret tt else on_channel enableWriting
      else mret tt) (fun _ => good f) (set_wire (wire c ++ take k data) c).
Proof.
  intros Hc Hl Hk Hor. pose proof (b_out c (proj1 Hc)) as Ho. apply wp_bind, wp_modify, wp_if; intros Hlen.
  - apply wp_bind, append_output_good; [done|]. intros b Hb Hcb.
    pose proof (good_taken f c data k b Hc Hk Hb Hcb Hor) as Hg. apply wp_bind, wp_get, wp_if; intros Hw.
    + apply wp_ret, good_flow; [exact Hg|]. intros _ _ _. by left.
    + apply wp_modify, good_strengthen. apply (enable_good false); [exact Hg|]. done.
  - apply negb_false_iff, Nat.eqb_eq in Hlen. apply wp_ret, good_flow.
    + apply (good_alike false (set_output (output_buffer_ c) (add_note (Taken data) (set_wire (wire c ++ take k data) c))));
        [done|apply Hc|apply Hc|]. apply (good_taken f); try done. rewrite drop_ge by lia. by rewrite app_nil_r.
    + intros Hf. exact (proj1 (proj2 Hc) Hf).
Qed.

Lemma good_called f c : good f c -> good f (set_calls (S (calls c)) c).
Proof. intros Hc. eapply (good_alike f c); [done|apply Hc|apply Hc|done]. Qed.

Lemma sendInLoop_good f data : lawful -> keeps f (sendInLoop E data).
Proof.
  intros HL. apply keeps_get. intros c Hc. apply wp_if; intros Hst; [done|]. apply bool_decide_eq_false in Hst.
  pose proof (live_not_closed c (proj1 Hc) Hst) as Hl. pose proof (b_out c (proj1 Hc)) as Ho. apply wp_if; intros Hs.
  - apply wp_bind, wp_modify, wp_bind, append_output_good; [done|]. intros b Hb Hcb. set (c1 := set_output _ _).
    assert (good false c1) as H1.
    { apply (good_alike false (set_output b (add_note (Taken data) (set_wire (wire c ++ take 0 data) c)))).
      - unfold alike. cbn. by rewrite app_nil_r.
      - apply Hc.
      - apply Hc.
      - apply (good_taken f); [done|lia|done|by rewrite drop_0|by left]. }
    apply wp_bind, wp_if; intros Hw; apply wp_ret || apply wp_modify;
      (eapply wp_mono; [apply (handleTlsWrite_good false)|intros [] c'; apply good_strengthen]); try done.
    + apply (good_weaken true), (enable_good false); [done|]. by intros ?.
    + intros _ _. destruct (b_channel c (proj1 Hc) Hl) as (w&Hcw). cbn. by rewrite Hcw, enableWriting_watch.
  - apply wp_bind, wp_if; intros Hidle.
    + apply andb_prop in Hidle as [_ He]. rewrite contents_empty in He by done. apply bool_decide_eq_true in He.
      apply wp_bind. unfold called. apply wp_bind, wp_get, wp_bind, wp_modify, wp_ret.
      destruct (te_send E (calls c) data) as [errno|k] eqn:Hk.
      * apply wp_ret. destruct (negb (errno =? EAGAIN)); cbn [negb andb].
        -- apply wp_bind, wp_modify, wp_ret. eapply (good_alike f c); [|apply Hc|apply Hc|done].
           unfold alike. cbn. by rewrite taken_app, session_calls_app, !app_nil_r.
        -- pose proof (rest_good f (set_calls (S (calls c)) c) data 0 (good_called f c Hc) Hl ltac:(lia) (or_introl eq_refl)) as HR.
           revert HR. cbn [take]. by rewrite app_nil_r.
      * apply (l_send HL) in Hk. apply wp_bind, wp_modify, wp_bind. set (c1 := set_wire _ _).
        apply wp_if; intros Hd; [unfold write_complete; apply wp_if; intros _|];
          [apply wp_modify|apply wp_ret..]; apply wp_ret; cbn [negb andb].
        1: set (c0 := set_pending (pending_functors_ c ++ [FWriteComplete]) (set_calls (S (calls c)) c)).
        1: assert (good f c0) as H0 by exact (keeps_queue f FWriteComplete ltac:(discriminate) ltac:(discriminate) _ (good_called f c Hc)).
        1: exact (rest_good f c0 data k H0 Hl Hk (or_intror He)).
        all: exact (rest_good f (set_calls (S (calls c)) c) data k (good_called f c Hc) Hl Hk (or_intror He)).
    + apply wp_ret. cbn [negb andb]. pose proof (rest_good f c data 0 Hc Hl ltac:(lia) (or_introl eq_refl)) as HR.
      revert HR. cbn [take]. rewrite app_nil_r. by destruct c.
Qed.

Lemma writing_live c : base c -> isWriting (channel_ c) = true -> te_tls E = false -> live c.
Proof.
  intros Hb Hw Ht. apply live_not_closed; [done|]. intros Hd. destruct (b_closed c Hb Ht Hd) as (_&_&Ha). congruence.
Qed.

Lemma handleWrite_good : lawful -> keeps true (handleWrite E).
Proof.
  intros HL. apply keeps_get. intros c Hc. apply wp_if; intros Hw; [done|]. apply negb_false_iff in Hw.
  pose proof (b_out c (proj1 Hc)) as Ho. pose proof (writing_live c (proj1 Hc) Hw) as Hl.
  apply wp_if; intros Hs; [by apply (handleTlsWrite_good true)|].
  apply wp_bind. unfold called. apply wp_bind, wp_get, wp_bind, wp_modify, wp_ret.
  pose proof (writeFd_spec (te_send E (calls c)) (output_buffer_ c) Ho) as Hwr. cbn [queue_step] in Hwr.
  destruct (te_send E (calls c) (contents (output_buffer_ c))) as [errno|k] eqn:Hk.
  - destruct (writeFd _ _) as [[[n e] b]|]; [|done]. destruct Hwr as [HI [= <- <- Hcb]].
    apply wp_bind, wp_modify, wp_bind, wp_modify. cbn [Z.ltb Z.compare andb]. apply wp_ret.
    eapply (good_alike true (set_output b c)); [unfold alike; cbn; by rewrite app_nil_r|apply Hc|apply Hc|].
    destruct Hc as ([]&Hf&?). split_and!; [split; cbn; auto; by rewrite <- Hcb| |done].
    intros Ht Hlv Hne. by apply Hf; [| |rewrite Hcb].
  - apply (l_send HL) in Hk. unfold q_retrieve in Hwr. rewrite decide_True in Hwr by done. cbn in Hwr.
    destruct (writeFd _ _) as [[[n e] b]|]; [|done]. destruct Hwr as [HI [= <- <- Hcb]].
    apply wp_bind, wp_modify, wp_bind, wp_modify. rewrite <- contents_peek, Nat2Z.id.
    assert (good true (set_wire (wire c ++ take k (contents (output_buffer_ c))) (set_output b (set_calls (S (calls c)) c)))) as H1.
    { destruct (good_called true c Hc) as ([]&?&?). split_and!; [split; cbn; auto| |done].
      - cbn in b_stream0. by rewrite <- b_stream0, <- Hcb, <- app_assoc, take_drop.
      - intros _ _ _. by left. }
    apply wp_if; intros He; [|by apply wp_ret]. apply andb_prop in He as [_ He]. rewrite contents_empty in He by done.
    apply bool_decide_eq_true in He. apply (drained_good true); [exact H1|done|done].
Qed.

(** *** Reading *)

Lemma good_note f c n :
  good f c -> taken [n] = [] -> (te_tls E = false -> live c) -> n = MessageCallback \/ session_calls [n] = [] ->
  good f (add_note n c).
Proof.
  intros (Hb&Hf&Hs) Hn Hl Hor. destruct Hb. split_and!; [split; cbn; auto|done|].
  - rewrite session_calls_app. intros [?|Hin]%elem_of_app; [auto|]. destruct Hor as [->|Hnil].
    + by apply list_elem_of_singleton in Hin.
    + by rewrite Hnil in Hin; apply elem_of_nil in Hin.
  - by rewrite taken_app, Hn, app_nil_r.
  - intros Ht Hc Ho. destruct (Hs Ht Hc Ho) as (k&[[_ Hk]|[Hd _]]); [|destruct (Hl Ht); congruence].
    unfold in_session. cbn [history add_note state_]. rewrite session_calls_app, Hk. destruct Hor as [->| ->].
    + exists (S k). left. split; [by apply Hl|]. cbn. by rewrite replicate_cons_app.
    + exists k. left. split; [by apply Hl|]. by rewrite app_nil_r.
Qed.

Lemma message_callback_good f c :
  lawful -> good f c -> (te_tls E = false -> live c) -> wp (message_callback E (sendInLoop E)) (fun _ => good f) c.
Proof.
  intros HL Hc Hl. unfold message_callback. destruct (te_on_message E) as [g|] eqn:Hg; [|done].
  pose proof (b_in c (proj1 Hc)) as Hi.
  apply wp_bind, wp_get, wp_bind. unfold called. apply wp_bind, wp_get, wp_bind, wp_modify, wp_ret, wp_bind, wp_modify.
  rewrite <- contents_peek. pose proof (l_message HL g (calls c) (contents (input_buffer_ c)) Hg) as Hu.
  destruct (g (calls c) (contents (input_buffer_ c))) as [used acts]. cbn [fst] in Hu.
  pose proof (retrieve_spec used (input_buffer_ c) Hi) as Hr. unfold q_retrieve in Hr. rewrite decide_True in Hr by done.
  destruct (retrieve used (input_buffer_ c)) as [b|]; [|done]. destruct Hr as [Hb _]. apply wp_bind, wp_modify.
  apply keeps_performs; [intros d; by apply sendInLoop_good|].
  apply (good_alike f (add_note MessageCallback (set_calls (S (calls c)) c))); [done|done|apply Hc|].
  apply good_note; [by apply good_called|done|done|by left].
Qed.

Lemma tls_read_loop_good f fuel got_data c :
  good f c -> ssl_ c = true -> (exists k e, (k < fuel)%nat /\ te_ssl_read E (calls c + k)%nat = inl e) ->
  wp (tls_read_loop E fuel got_data) (fun _ c' => good f c' /\ ssl_ c' = true) c.
Proof.
  revert got_data c. induction fuel as [|fuel IH]; intros got c Hc Hs (k&e&Hk&He); [lia|]. cbn [tls_read_loop].
  apply wp_bind. unfold called. apply wp_bind, wp_get, wp_bind, wp_modify, wp_ret. pose proof (good_called f c Hc) as H1.
  destruct (te_ssl_read E (calls c)) as [err|data] eqn:Hd; [by destruct err; apply wp_ret|].
  apply wp_bind, wp_get. destruct (append_spec data (input_buffer_ c) (b_in c (proj1 Hc))) as (b&Hb&HI&_).
  change (input_buffer_ (set_calls (S (calls c)) c)) with (input_buffer_ c). rewrite Hb. apply wp_bind, wp_modify.
  apply IH; [|done|].
  - eapply (good_alike f (set_calls (S (calls c)) c)); [done|done|apply Hc|done].
  - destruct k as [|k]; [rewrite Nat.add_0_r in He; congruence|]. exists k, e. split; [lia|]. cbn.
    by replace (S (calls c + k)) with (calls c + S k)%nat by lia.
Qed.

Lemma handleTlsRead_good c : lawful -> good true c -> ssl_ c = true -> wp (handleTlsRead E) (fun _ => good true) c.
Proof.
  intros HL Hc Hs. assert (te_tls E = true) as Ht.
  { destruct (te_tls E) eqn:Ht; [done|]. by rewrite (b_tls c (proj1 Hc) Ht) in Hs. }
  assert (forall c', te_tls E = false -> live c') as Hl by congruence.
  unfold handleTlsRead, on_channel. apply wp_bind. eapply wp_mono; [by apply (handshake_good true)|].
  intros [] c1 H1; cbn [negb]; [|by apply wp_ret]. destruct H1 as (H1&Hs1&_). apply wp_bind.
  eapply wp_mono; [apply (tls_read_loop_good false); [done..|apply (l_ssl_read HL)]|].
  intros [stop got] c2 [H2 Hs2]. cbn beta iota.
  assert (forall c3, good false c3 -> wp (
    (if (got : bool) then message_callback E (sendInLoop E) else mret tt);;
    c ← get_state;
    if negb (Nat.eqb (readableBytes (output_buffer_ c)) 0) && negb (isWriting (channel_ c))
    then modify (fun c => set_channel (enableWriting (channel_ c)) c) else mret tt) (fun _ => good true) c3) as Hend.
  { intros c3 H3. apply wp_bind. eapply (wp_mono _ (fun _ => good false)).
    - destruct got; [apply message_callback_good; auto|by apply wp_ret].
    - intros [] c4 H4. apply wp_bind, wp_get, wp_if; intros Hw; [apply wp_modify, (enable_good false); auto|].
      apply wp_ret, good_flow; [done|]. intros _ _ Hne. rewrite contents_empty in Hw by apply (b_out c4 (proj1 H4)).
      rewrite bool_decide_false in Hw by done. left. by destruct (isWriting (channel_ c4)). }
  destruct stop.
  - apply wp_bind, wp_get, wp_bind, wp_ret. by apply Hend.
  - apply wp_bind, wp_get, wp_bind, wp_if; intros _; [apply wp_modify|apply wp_ret]; apply Hend; [|done].
    apply (good_weaken true), (enable_good false); auto.
  - eapply wp_mono; [apply (handleClose_good false); auto|]. by intros [] c' [? _].
Qed.

Lemma handleRead_good c :
  lawful -> good true c -> (te_tls E = false -> live c) -> wp (handleRead E) (fun _ => good true) c.
Proof.
  intros HL Hc Hl. unfold handleRead. apply wp_bind, wp_get, wp_if; intros Hs; [by apply handleTlsRead_good|].
  apply wp_bind. unfold called. apply wp_bind, wp_get, wp_bind, wp_modify, wp_ret.
  destruct (readFd_spec (te_readv E (calls c)) (input_buffer_ c) (b_in c (proj1 Hc))) as (n&e&b&->&HI&_).
  { intros cap d. apply (l_readv HL). }
  apply wp_bind, wp_modify. set (c1 := set_input b _).
  assert (good true c1) as H1 by (eapply (good_alike true c); [done|done|apply Hc|done]).
  apply wp_if; intros _; [apply message_callback_good; auto|]. apply wp_if; intros _; [|by apply wp_ret].
  eapply wp_mono; [by apply (handleClose_good true)|]. by intros [] c' [? _].
Qed.

(** *** Events and functors *)

Lemma watched_live c watched : base c -> ch_epoll (channel_ c) = Some watched -> te_tls E = false -> live c.
Proof.
  intros Hb Hw Ht. apply live_not_closed; [done|]. intros Hd. destruct (b_closed c Hb Ht Hd) as (He&_). congruence.
Qed.

Lemma handleEvent_good c watched revents :
  lawful -> good true c -> ch_epoll (channel_ c) = Some watched -> hang_up_readable revents = true ->
  wp (handleEvent E revents) (fun _ => good true) c.
Proof.
  intros HL Hc Hw Hh. pose proof (watched_live c watched (proj1 Hc) Hw) as Hl. unfold handleEvent.
  apply wp_bind. eapply (wp_mono _ (fun _ c1 => good true c1 /\
    (negb (Z.land revents (Z.lor EPOLLIN (Z.lor EPOLLPRI EPOLLRDHUP)) =? 0) = true -> te_tls E = false -> live c1))).
  - apply wp_if; intros Hb; [|by apply wp_ret]. eapply wp_mono; [by apply (handleClose_good true)|].
    intros [] c1 [H1 _]. split; [done|]. intros Hr. exfalso. apply andb_prop in Hb as [Hb1 Hb2].
    unfold hang_up_readable in Hh. apply negb_true_iff in Hb1. rewrite Hb1, Hb2 in Hh. cbn [negb orb] in Hh.
    apply Z.eqb_eq in Hb2, Hh. rewrite Z.land_lor_distr_r, Hb2, Hh in Hr. done.
  - intros [] c1 [H1 Hr]. apply wp_bind. eapply (wp_mono _ (fun _ => good true)).
    + apply wp_if; intros Hb; [|by apply wp_ret]. apply handleRead_good; auto.
    + intros [] c2 H2. apply wp_if; intros _; [by apply handleWrite_good|by apply wp_ret].
Qed.

Lemma forceCloseInLoop_good : keeps true (forceCloseInLoop E).
Proof.
  apply keeps_get. intros c Hc. apply wp_if; intros Hl; [|by apply wp_ret]. apply bool_decide_eq_true in Hl.
  eapply wp_mono; [by apply (handleClose_good true)|]. by intros [] c' [? _].
Qed.

Lemma connectDestroyed_good c : good true c -> state_ c = DISCONNECTED -> wp (connectDestroyed E) (fun _ => good true) c.
Proof.
  intros (Hb&_&Hs) Hd. unfold connectDestroyed. apply wp_bind, wp_get, wp_bind. rewrite bool_decide_false by congruence.
  apply wp_ret, wp_modify. destruct Hb. split_and!; [split; cbn; auto| |done].
  - intros [?|?]; cbn in *; congruence.
  - intros Ht _. destruct (b_closed0 Ht Hd) as (He&Hi&Hw). unfold removeChannel. split_and!; cbn; [|done|done].
    by rewrite (proj2 (Z.eqb_neq _ _) Hi).
  - intros _ [?|?]; cbn in *; congruence.
Qed.

(** The first functor announces the connection. *)
Lemma connectEstablished_good :
  lawful -> wp (connectEstablished E) (fun _ => good true) (set_pending [] TcpConnection_new).
Proof.
  intros HL. unfold connectEstablished. apply wp_bind, wp_modify, wp_bind.
  assert (forall n ssl, (te_tls E = false -> ssl = false) -> wp (on_channel enableReading;; connection_callback E (sendInLoop E)) (fun _ => good true)
    (set_calls n (set_tls ssl false (set_state CONNECTED (set_pending [] TcpConnection_new))))) as Hup.
  { intros n ssl Hssl. apply wp_bind, wp_modify.
    assert (forall n h, (h = [] \/ h = [ConnectionCallback true]) -> (is_Some (te_on_connection E) -> h = [ConnectionCallback true]) ->
      good true (mkTcp CONNECTED (watch false) ssl false Buffer_new Buffer_new [] [] false n h)) as Hg.
    { intros n' h Hh Hc. split_and!; [split; cbn; auto using buffer_Inv_new|intros _ _ Hne; destruct Hne; apply contents_new|].
      - split; cbn; by intros ?%elem_of_nil.
      - intros Hin. destruct Hh as [-> | ->]; cbn in Hin; [by apply elem_of_nil in Hin|by apply list_elem_of_singleton in Hin].
      - by destruct Hh as [-> | ->].
      - by exists false.
      - by intros _ ?.
      - intros _ Hs Ho. exists 0%nat. left. split; [by left|]. cbn. by rewrite (Hc Hs). }
    unfold connection_callback. destruct (te_on_connection E) as [g|] eqn:Hg'.
    - apply wp_bind, wp_get, wp_bind. unfold called. apply wp_bind, wp_get, wp_bind, wp_modify, wp_ret, wp_bind, wp_modify.
      apply keeps_performs; [intros d; by apply sendInLoop_good|]. apply Hg; [by right|done].
    - apply Hg; [by left|]. intros [? ?]; done. }
  apply wp_if; intros Ht; [|apply wp_ret; by apply (Hup 0%nat false)].
  apply wp_bind. unfold called. apply wp_bind, wp_get, wp_bind, wp_modify, wp_ret, wp_if; intros _.
  - apply wp_bind, wp_modify, wp_ret. apply (Hup 1%nat true). congruence.
  - apply wp_bind. unfold forceCloseInLoop. apply wp_bind, wp_get. rewrite bool_decide_true by (by left).
    eapply wp_mono; [apply handleClose_closes|intros [] c' [? _]; by apply wp_ret].
    split; cbn; auto using buffer_Inv_new; try congruence; try (by intros ?%elem_of_nil).
Qed.

Lemma run_functor_good f fs c :
  lawful -> good true c -> pending_functors_ c = f :: fs -> wp (run_functor E f) (fun _ => good true) (set_pending fs c).
Proof.
  intros HL Hc Hp. destruct (b_pending c (proj1 Hc)) as [He Hd]. rewrite Hp in He, Hd.
  assert (good true (set_pending fs c)) as H1.
  { eapply (good_alike true c); [done|apply Hc| |done]. split; cbn; intros Hin; [|apply Hd]; [destruct He|]; by apply list_elem_of_further. }
  destruct f; cbn [run_functor].
  - destruct He. apply list_elem_of_here.
  - by apply sendInLoop_good.
  - by apply keeps_shutdownInLoop.
  - by apply forceCloseInLoop_good.
  - apply wp_if; intros _; [|by apply wp_ret]. apply wp_modify. eapply (good_alike true (set_pending fs c)); [|apply Hc|apply H1|done].
    unfold alike. cbn. by rewrite taken_app, session_calls_app, !app_nil_r.
  - apply connectDestroyed_good; [done|]. apply Hd, list_elem_of_here.
Qed.

Lemma close_called c : CloseCallback ∈ history c -> CloseCallback ∈ session_calls (history c).
Proof. intros Hin. apply list_elem_of_omap. by exists CloseCallback. Qed.

Lemma request_new in_loop a send_in_loop : perform send_in_loop in_loop a TcpConnection_new = Some (tt, TcpConnection_new).
Proof. by destruct a. Qed.

Lemma reachable_good c : lawful -> treachable c -> c = TcpConnection_new \/ good true c.
Proof.
  intros HL. induction 1 as [|c c' _ IH Hs]; [by left|]. destruct Hs as [c c' ev rv Hw Hr Hh Hrun|c c' f fs Hp Hrun|c c' b a Hrun|c c' Hin Hrun].
  - right. destruct IH as [->|Hc]; [done|]. pose proof (handleEvent_good c ev rv HL Hc Hw Hh) as H. unfold wp in H. by rewrite Hrun in H.
  - right. destruct IH as [->|Hc].
    + injection Hp as <- <-. pose proof (connectEstablished_good HL) as H. unfold wp in H. cbn [run_functor] in Hrun. by rewrite Hrun in H.
    + pose proof (run_functor_good f fs c HL Hc Hp) as H. unfold wp in H. by rewrite Hrun in H.
  - destruct IH as [->|Hc]; [rewrite request_new in Hrun; injection Hrun as <-; by left|]. right.
    pose proof (keeps_perform true (sendInLoop E) (fun d => sendInLoop_good true d HL) b a c Hc) as H. unfold wp in H. by rewrite Hrun in H.
  - right. injection Hrun as <-. destruct IH as [->|Hc]; [by apply elem_of_nil in Hin|].
    apply good_queue; [done| |done]. intros _. by apply (b_over c (proj1 Hc)), close_called.
Qed.

(** C25: in every reachable state of a connection, plain or over TLS, whatever
    the socket and the callbacks do: what is on the wire, followed by what is in
    the output buffer, is the messages [sendInLoop] took over, whole and in
    order; output that waits is watched for by epoll, unless the TLS handshake
    is still going on; and whatever comes next, event, functor or request,
    returns. *)
Theorem output_in_order (c : TcpConnection) :
  lawful -> treachable c ->
  wire c ++ contents (output_buffer_ c) = concat (taken (history c)) /\
  (live c -> contents (output_buffer_ c) <> [] ->
   (exists watched, ch_epoll (channel_ c) = Some watched /\ Z.land watched EPOLLOUT = EPOLLOUT) \/
   (ssl_ c = true /\ tls_handshake_done_ c = false)) /\
  (forall watched revents, ch_epoll (channel_ c) = Some watched -> hang_up_readable revents = true ->
     exists c', handleEvent E revents c = Some (tt, c')) /\
  (forall f fs, pending_functors_ c = f :: fs -> exists c', run_functor E f (set_pending fs c) = Some (tt, c')) /\
  (forall in_loop a, exists c', perform (sendInLoop E) in_loop a c = Some (tt, c')).
Proof.
  intros HL [->|Hc]%reachable_good; [..|done].
  - split_and!; [done|by intros [?|?]|done| |].
    + intros f fs [= <- <-]. destruct (wp_run _ _ _ (connectEstablished_good HL)) as ([]&c'&Hr&_). eauto.
    + intros b a. rewrite request_new. eauto.
  - split_and!.
    + apply (b_stream c (proj1 Hc)).
    + intros Hl Hne. destruct (b_channel c (proj1 Hc) Hl) as (w&Hw).
      destruct (proj1 (proj2 Hc) eq_refl Hl Hne) as [Hwr|?]; [|by right]. left. rewrite Hw in Hwr |- *.
      rewrite isWriting_watch in Hwr. subst w. by eexists.
    + intros ev rv Hw Hh. destruct (wp_run _ _ _ (handleEvent_good c ev rv HL Hc Hw Hh)) as ([]&c'&Hr&_). eauto.
    + intros f fs Hp. destruct (wp_run _ _ _ (run_functor_good f fs c HL Hc Hp)) as ([]&c'&Hr&_). eauto.
    + intros b a. destruct (wp_run _ _ _ (keeps_perform true _ (fun d => sendInLoop_good true d HL) b a c Hc)) as ([]&c'&Hr&_). eauto.
Qed.

(** C26: the session of a plain connection: the callbacks are the announcement,
    then messages, then, once, the end of the connection and the close callback;
    nothing is reported before the first or after the last. *)
Theorem session_opens_and_closes_once (c : TcpConnection) :
  lawful -> te_tls E = false -> is_Some (te_on_connection E) -> te_on_close E = true -> treachable c ->
  (state_ c = CONNECTING /\ session_calls (history c) = []) \/
  exists n, let opened := ConnectionCallback true :: replicate n MessageCallback in
  (live c /\ session_calls (history c) = opened) \/
  (state_ c = DISCONNECTED /\ session_calls (history c) = opened ++ [ConnectionCallback false; CloseCallback]).
Proof. intros HL Ht Hc Ho [->|Hg]%reachable_good; [by left| |done]. right. by apply Hg. Qed.

End Steps.

(** ** Evaluations *)

(** A peer that takes three bytes at a time, and a callback that echoes. *)
Definition echo_env (tls : bool) (ssl_read : nat -> ssl_error + list byte) (ssl_write : nat -> list byte -> ssl_error + nat) : TEnv :=
  mkTEnv tls (fun _ => true) (fun _ d => inr (Nat.min 3 (length d))) (fun _ cap => inr (take cap (replicate 5 Byte.x41)))
    (fun _ => inr tt) ssl_read ssl_write (Some (fun _ _ => [])) (Some (fun _ d => (length d, [Send d]))) false true 2.

Definition plain_env : TEnv := echo_env false (fun _ => inl WANT_READ) (fun _ _ => inl WANT_WRITE).

Lemma plain_env_lawful : lawful plain_env.
Proof.
  split.
  - intros n d k Hk. injection Hk as <-. destruct (length d) as [|[|[|[|]]]]; lia.
  - intros n cap d [= <-]. rewrite length_take. lia.
  - done.
  - intros n. exists 0%nat, WANT_READ. split; [cbn; lia|done].
  - by intros f n d [= <-].
Qed.

Definition reached (o : option (unit * TcpConnection)) : TcpConnection :=
  match o with Some (_, c) => c | None => TcpConnection_new end.

Definition established (E : TEnv) : TcpConnection := reached (run_functor E FEstablished (set_pending [] TcpConnection_new)).
Definition echoed (E : TEnv) : TcpConnection := reached (handleEvent E EPOLLIN (established E)).

Lemma echoed_reachable E :
  is_some (run_functor E FEstablished (set_pending [] TcpConnection_new)) = true ->
  match ch_epoll (channel_ (established E)) with Some ev => reported ev EPOLLIN | None => false end = true ->
  is_some (handleEvent E EPOLLIN (established E)) = true -> treachable E (echoed E).
Proof.
  unfold echoed, established. intros H1 H2 H3.
  destruct (run_functor _ _ _) as [[[] c1]|] eqn:Hr1; [|done]. cbn [reached] in *.
  destruct (ch_epoll (channel_ c1)) as [ev|] eqn:Hev; [|done].
  destruct (handleEvent _ _ _) as [[[] c2]|] eqn:Hr2; [|done].
  eapply treach_step; [|by eapply step_event]. eapply treach_step; [apply treach_new|by eapply step_functor].
Qed.

(** Three of the five bytes are written, epoll watches for room for the rest. *)
Lemma output_in_order_witness :
  lawful plain_env /\ treachable plain_env (echoed plain_env) /\
  length (wire (echoed plain_env)) = 3%nat /\ length (contents (output_buffer_ (echoed plain_env))) = 2%nat /\
  wire (echoed plain_env) ++ contents (output_buffer_ (echoed plain_env)) = concat (taken (history (echoed plain_env))).
Proof.
  assert (treachable plain_env (echoed plain_env)) as Hr by (apply echoed_reachable; vm_compute; reflexivity).
  split_and!; [exact plain_env_lawful|exact Hr|vm_compute; reflexivity..|].
  exact (proj1 (output_in_order plain_env (echoed plain_env) plain_env_lawful Hr)).
Defined.

Lemma session_opens_and_closes_once_witness :
  treachable plain_env (echoed plain_env) /\
  ((state_ (echoed plain_env) = CONNECTING /\ session_calls (history (echoed plain_env)) = []) \/
   exists n, let opened := ConnectionCallback true :: replicate n MessageCallback in
   (live (echoed plain_env) /\ session_calls (history (echoed plain_env)) = opened) \/
   (state_ (echoed plain_env) = DISCONNECTED /\
    session_calls (history (echoed plain_env)) = opened ++ [ConnectionCallback false; CloseCallback])).
Proof.
  assert (treachable plain_env (echoed plain_env)) as Hr by (apply echoed_reachable; vm_compute; reflexivity).
  split; [exact Hr|].
  exact (session_opens_and_closes_once plain_env (echoed plain_env) plain_env_lawful eq_refl ltac:(by eexists) eq_refl Hr).
Defined.

(** Over TLS the end can be reported twice: the answer to a message cannot be
    written, the connection is closed inside the message callback, and
    [handleTlsRead] then has epoll watch for room again. *)
Definition broken_tls : TEnv :=
  echo_env true (fun n => if Nat.eqb n 3 then inr [Byte.x41] else inl WANT_READ) (fun _ _ => inl SSL_FAILED).

Example tls_session_closes_twice :
  exists c, treachable broken_tls c /\
    session_calls (history c) =
      [ConnectionCallback true; MessageCallback; ConnectionCallback false; CloseCallback;
       ConnectionCallback false; CloseCallback].
Proof.
  set (c1 := echoed broken_tls). assert (treachable broken_tls c1) as Hr by (apply echoed_reachable; vm_compute; reflexivity).
  exists (reached (handleEvent broken_tls EPOLLOUT c1)). split; [|vm_compute; reflexivity].
  eapply treach_step; [exact Hr|]. apply (step_event _ _ _ EPOLLOUT EPOLLOUT); vm_compute; reflexivity.
Qed.
