(* ===== verification/Protocol.v ===== *)
(** * The packet protocol (common/protocol)

    Message types, the 16-byte header and [PacketCodec].  Packets are read out
    of a [Buffer]; bodies are byte strings.  [encode] throws
    [std::invalid_argument] with the given text ([inl]); [decode] returns a
    [ProtocolError] and leaves its results in the buffer and packet it was
    given. *)

From S2P Require Import Prelude Words NetBuffer.
Import Buffer.

Module MessageType.

Inductive MessageType :=
| UNKNOWN
| LOGIN_REQ | LOGIN_RESP | REGISTER_REQ | REGISTER_RESP
| RESUME_SESSION_REQ | RESUME_SESSION_RESP
| HEARTBEAT_REQ | HEARTBEAT_RESP
| SEND_SINGLE_MSG_REQ | SEND_SINGLE_MSG_RESP
| SEND_GROUP_MSG_REQ | SEND_GROUP_MSG_RESP
| PUSH_MSG
| ACK_REQ | ACK_RESP
| PULL_OFFLINE_MSG_REQ | PULL_OFFLINE_MSG_RESP
| ERROR_RESP.

#[global] Instance MessageType_eq_dec : EqDecision MessageType.
Proof. solve_decision. Defined.

(** [static_cast<uint16_t>(type)]. *)
Definition to_uint16 (t : MessageType) : Z :=
  match t with
  | UNKNOWN => 0
  | LOGIN_REQ => 1001 | LOGIN_RESP => 1002
  | REGISTER_REQ => 1003 | REGISTER_RESP => 1004
  | RESUME_SESSION_REQ => 1005 | RESUME_SESSION_RESP => 1006
  | HEARTBEAT_REQ => 1101 | HEARTBEAT_RESP => 1102
  | SEND_SINGLE_MSG_REQ => 2001 | SEND_SINGLE_MSG_RESP => 2002
  | SEND_GROUP_MSG_REQ => 2101 | SEND_GROUP_MSG_RESP => 2102
  | PUSH_MSG => 3001
  | ACK_REQ => 4001 | ACK_RESP => 4002
  | PULL_OFFLINE_MSG_REQ => 5001 | PULL_OFFLINE_MSG_RESP => 5002
  | ERROR_RESP => 9001
  end.

Definition messageTypeToString (t : MessageType) : string :=
  match t with
  | UNKNOWN => "UNKNOWN"
  | LOGIN_REQ => "LOGIN_REQ" | LOGIN_RESP => "LOGIN_RESP"
  | REGISTER_REQ => "REGISTER_REQ" | REGISTER_RESP => "REGISTER_RESP"
  | RESUME_SESSION_REQ => "RESUME_SESSION_REQ"
  | RESUME_SESSION_RESP => "RESUME_SESSION_RESP"
  | HEARTBEAT_REQ => "HEARTBEAT_REQ" | HEARTBEAT_RESP => "HEARTBEAT_RESP"
  | SEND_SINGLE_MSG_REQ => "SEND_SINGLE_MSG_REQ"
  | SEND_SINGLE_MSG_RESP => "SEND_SINGLE_MSG_RESP"
  | SEND_GROUP_MSG_REQ => "SEND_GROUP_MSG_REQ"
  | SEND_GROUP_MSG_RESP => "SEND_GROUP_MSG_RESP"
  | PUSH_MSG => "PUSH_MSG"
  | ACK_REQ => "ACK_REQ" | ACK_RESP => "ACK_RESP"
  | PULL_OFFLINE_MSG_REQ => "PULL_OFFLINE_MSG_REQ"
  | PULL_OFFLINE_MSG_RESP => "PULL_OFFLINE_MSG_RESP"
  | ERROR_RESP => "ERROR_RESP"
  end.

Definition messageTypeFromUint16 (x : Z) : MessageType :=
  match x with
  | 1001 => LOGIN_REQ | 1002 => LOGIN_RESP
  | 1003 => REGISTER_REQ | 1004 => REGISTER_RESP
  | 1005 => RESUME_SESSION_REQ | 1006 => RESUME_SESSION_RESP
  | 1101 => HEARTBEAT_REQ | 1102 => HEARTBEAT_RESP
  | 2001 => SEND_SINGLE_MSG_REQ | 2002 => SEND_SINGLE_MSG_RESP
  | 2101 => SEND_GROUP_MSG_REQ | 2102 => SEND_GROUP_MSG_RESP
  | 3001 => PUSH_MSG
  | 4001 => ACK_REQ | 4002 => ACK_RESP
  | 5001 => PULL_OFFLINE_MSG_REQ | 5002 => PULL_OFFLINE_MSG_RESP
  | 9001 => ERROR_RESP
  | _ => UNKNOWN
  end.

Definition isValidMessageType (x : Z) : bool :=
  negb (bool_decide (messageTypeFromUint16 x = UNKNOWN)).

Lemma messageTypeFromUint16_to t : messageTypeFromUint16 (to_uint16 t) = t.
Proof. by destruct t. Qed.

Lemma to_uint16_from x :
  messageTypeFromUint16 x <> UNKNOWN -> to_uint16 (messageTypeFromUint16 x) = x.
Proof. unfold messageTypeFromUint16. intros H. repeat (case_match; try done). Qed.

Lemma to_uint16_range t : is_u16 (to_uint16 t).
Proof. unfold is_u16. destruct t; simpl; lia. Qed.

End MessageType.
Export MessageType.

Inductive ProtocolError :=
| OK | INCOMPLETE_PACKET | INVALID_MAGIC | INVALID_VERSION
| INVALID_MESSAGE_TYPE | BODY_TOO_LARGE | INVALID_HEADER | INTERNAL_ERROR.

#[global] Instance ProtocolError_eq_dec : EqDecision ProtocolError.
Proof. solve_decision. Defined.

Definition protocolErrorToString (e : ProtocolError) : string :=
  match e with
  | OK => "OK"
  | INCOMPLETE_PACKET => "INCOMPLETE_PACKET"
  | INVALID_MAGIC => "INVALID_MAGIC"
  | INVALID_VERSION => "INVALID_VERSION"
  | INVALID_MESSAGE_TYPE => "INVALID_MESSAGE_TYPE"
  | BODY_TOO_LARGE => "BODY_TOO_LARGE"
  | INVALID_HEADER => "INVALID_HEADER"
  | INTERNAL_ERROR => "INTERNAL_ERROR"
  end.

Module PacketHeader.

Definition kProtocolMagic : Z := 0x4E494D42.
Definition kProtocolVersion : Z := 1.
Definition kMaxBodyLength : Z := 1024 * 1024.
Definition kPacketHeaderLength : nat := 16.

Record PacketHeader := mkHeader {
  magic : Z;
  version : Z;
  type : Z;
  sequence_id : Z;
  body_length : Z
}.

(** [htons]/[htonl] followed by a raw copy: network byte order. *)
Definition appendUint16 (out : list byte) (value : Z) : list byte := out ++ be_encode 2 value.
Definition appendUint32 (out : list byte) (value : Z) : list byte := out ++ be_encode 4 value.
Definition readUint16 (data : list byte) : Z := be_decode (take 2 data).
Definition readUint32 (data : list byte) : Z := be_decode (take 4 data).

Definition encodeHeader (h : PacketHeader) : list byte :=
  let out := appendUint32 [] (magic h) in
  let out := appendUint16 out (version h) in
  let out := appendUint16 out (type h) in
  let out := appendUint32 out (sequence_id h) in
  appendUint32 out (body_length h).

(** [data] is the memory at the pointer, [len] the length passed with it. *)
Definition decodeHeader (data : list byte) (len : nat) : option PacketHeader :=
  if decide (len < kPacketHeaderLength)%nat then None
  else Some (mkHeader (readUint32 data) (readUint16 (drop 4 data)) (readUint16 (drop 6 data))
                      (readUint32 (drop 8 data)) (readUint32 (drop 12 data))).

Definition header_ok (h : PacketHeader) : Prop :=
  is_u32 (magic h) /\ is_u16 (version h) /\ is_u16 (type h) /\
  is_u32 (sequence_id h) /\ is_u32 (body_length h).

Lemma length_encodeHeader h : length (encodeHeader h) = kPacketHeaderLength.
Proof. done. Qed.

Lemma readUint16_encode x rest : is_u16 x -> readUint16 (be_encode 2 x ++ rest) = x.
Proof.
  intros. unfold readUint16. rewrite take_app_length' by done.
  rewrite be_decode_encode. apply Z.mod_small. done.
Qed.

Lemma readUint32_encode x rest : is_u32 x -> readUint32 (be_encode 4 x ++ rest) = x.
Proof.
  intros. unfold readUint32. rewrite take_app_length' by done.
  rewrite be_decode_encode. apply Z.mod_small. done.
Qed.

Lemma decode_encodeHeader h rest len :
  header_ok h -> (kPacketHeaderLength <= len)%nat ->
  decodeHeader (encodeHeader h ++ rest) len = Some h.
Proof.
  intros (?&?&?&?&?) Hlen. unfold decodeHeader. rewrite decide_False by lia.
  unfold encodeHeader, appendUint16, appendUint32. rewrite <- !app_assoc. cbn [app].
  set (t4 := be_encode 4 (body_length h) ++ rest).
  set (t3 := be_encode 4 (sequence_id h) ++ t4).
  set (t2 := be_encode 2 (type h) ++ t3).
  set (t1 := be_encode 2 (version h) ++ t2).
  change (drop 4 (be_encode 4 (magic h) ++ t1)) with t1.
  change (drop 6 (be_encode 4 (magic h) ++ t1)) with t2.
  change (drop 8 (be_encode 4 (magic h) ++ t1)) with t3.
  change (drop 12 (be_encode 4 (magic h) ++ t1)) with t4.
  unfold t1, t2, t3, t4. rewrite !readUint32_encode, !readUint16_encode by done.
  by destruct h.
Qed.

(** Re-encoding a header that was read gives back its 16 bytes. *)
Lemma encode_decodeHeader data len h :
  (kPacketHeaderLength <= length data)%nat ->
  decodeHeader data len = Some h -> encodeHeader h = take kPacketHeaderLength data.
Proof.
  unfold decodeHeader, kPacketHeaderLength. intros Hlen HD.
  case_decide; simplify_eq.
  assert (forall i n, (i + n <= 16)%nat -> be_encode n (be_decode (take n (drop i data)))
            = take n (drop i data)) as Hb.
  { intros i n Hi. rewrite <- (be_encode_decode (take n (drop i data))) at 2.
    f_equal. rewrite length_take, length_drop. lia. }
  unfold encodeHeader, appendUint16, appendUint32, readUint32, readUint16.
  cbn [magic version type sequence_id body_length].
  pose proof (Hb 0%nat 4%nat ltac:(lia)) as H0. rewrite drop_0 in H0.
  rewrite H0, (Hb 4%nat 2%nat), (Hb 6%nat 2%nat), (Hb 8%nat 4%nat), (Hb 12%nat 4%nat) by lia.
  change 16%nat with (4 + (2 + (2 + (4 + 4))))%nat.
  rewrite <- !take_take_drop, !drop_drop, <- !app_assoc. done.
Qed.

Lemma decodeHeader_ok data len h : decodeHeader data len = Some h -> header_ok h.
Proof.
  unfold decodeHeader. case_decide; [done|]. intros [= <-].
  unfold header_ok, is_u16, is_u32, readUint16, readUint32; simpl.
  assert (forall k l, 0 <= be_decode (take k l) < 256 ^ Z.of_nat k) as Hr.
  { intros k l. pose proof (be_decode_range (take k l)) as Hd.
    assert (256 ^ Z.of_nat (length (take k l)) <= 256 ^ Z.of_nat k).
    { apply Z.pow_le_mono_r; [lia|]. rewrite length_take. lia. }
    lia. }
  split_and!; apply Hr.
Qed.

End PacketHeader.
Export PacketHeader.

Record Packet := mkPacket {
  p_type : MessageType;
  p_sequence_id : Z;
  p_body : list byte
}.

Module PacketCodec.

Definition encode (packet : Packet) : string + list byte :=
  if bool_decide (p_type packet = UNKNOWN)
     || negb (isValidMessageType (to_uint16 (p_type packet)))
  then inl "invalid message type"
  else if kMaxBodyLength <? Z.of_nat (length (p_body packet))
  then inl "packet body too large"
  else
    let header := mkHeader kProtocolMagic kProtocolVersion (to_uint16 (p_type packet))
                    (p_sequence_id packet) (u32 (Z.of_nat (length (p_body packet)))) in
    inr (encodeHeader header ++ p_body packet).

Definition validateHeader (h : PacketHeader) : ProtocolError :=
  if negb (magic h =? kProtocolMagic) then INVALID_MAGIC
  else if negb (version h =? kProtocolVersion) then INVALID_VERSION
  else if kMaxBodyLength <? body_length h then BODY_TOO_LARGE
  else if negb (isValidMessageType (type h)) then INVALID_MESSAGE_TYPE
  else OK.

(** [decode] behind its pointer checks: the packet is written only on
    success, the buffer is consumed on success and emptied on a bad header.
    [None] would be a failed assertion of the buffer. *)
Definition decode_checked (buffer : Buffer) (packet : Packet)
  : option (ProtocolError * Buffer * Packet) :=
  if decide (readableBytes buffer < kPacketHeaderLength)%nat
  then Some (INCOMPLETE_PACKET, buffer, packet)
  else match decodeHeader (peek buffer) (readableBytes buffer) with
  | None => Some (INVALID_HEADER, buffer, packet)
  | Some header =>
      let validation := validateHeader header in
      if negb (bool_decide (validation = OK))
      then Some (validation, retrieveAll buffer, packet)
      else
        let packet_length := (kPacketHeaderLength + Z.to_nat (body_length header))%nat in
        if decide (readableBytes buffer < packet_length)%nat
        then Some (INCOMPLETE_PACKET, buffer, packet)
        else
          b1 ← retrieve kPacketHeaderLength buffer;
          '(body, b2) ← retrieveAsString (Z.to_nat (body_length header)) b1;
          Some (OK, b2,
                mkPacket (messageTypeFromUint16 (type header)) (sequence_id header) body)
  end.

(** The pointers may be null. *)
Definition decode (buffer : option Buffer) (packet : option Packet)
  : option (ProtocolError * option Buffer * option Packet) :=
  match buffer, packet with
  | Some b, Some p =>
      '(e, b', p') ← decode_checked b p; Some (e, Some b', Some p')
  | _, _ => Some (INTERNAL_ERROR, buffer, packet)
  end.

(** ** Reference: one packet at the front of a byte string *)

(** What a byte string [q] holds at its front, by the protocol's definition. *)
Inductive front :=
| Short                       (** not yet a whole packet *)
| Bad (e : ProtocolError)     (** a header no packet has *)
| Whole (p : Packet) (rest : list byte).

Definition parse_front (q : list byte) : front :=
  if decide (length q < 16)%nat then Short
  else
    let field i n := be_decode (slice i n q) in
    if negb (field 0%nat 4%nat =? 0x4E494D42) then Bad INVALID_MAGIC
    else if negb (field 4%nat 2%nat =? 1) then Bad INVALID_VERSION
    else if 1048576 <? field 12%nat 4%nat then Bad BODY_TOO_LARGE
    else if negb (isValidMessageType (field 6%nat 2%nat)) then Bad INVALID_MESSAGE_TYPE
    else
      let n := Z.to_nat (field 12%nat 4%nat) in
      if decide (length q < 16 + n)%nat then Short
      else Whole (mkPacket (messageTypeFromUint16 (field 6%nat 2%nat))
                           (field 8%nat 4%nat) (slice 16 n q)) (drop (16 + n) q).

(** A packet [encode] accepts. *)
Definition packet_ok (p : Packet) : Prop :=
  p_type p <> UNKNOWN /\ is_u32 (p_sequence_id p) /\
  Z.of_nat (length (p_body p)) <= kMaxBodyLength.

(** ** Lemmas *)

Lemma isValid_to t : isValidMessageType (to_uint16 t) = negb (bool_decide (t = UNKNOWN)).
Proof. unfold isValidMessageType. by rewrite messageTypeFromUint16_to. Qed.

Lemma encode_ok p :
  packet_ok p ->
  encode p = inr (encodeHeader (mkHeader kProtocolMagic kProtocolVersion (to_uint16 (p_type p))
                    (p_sequence_id p) (Z.of_nat (length (p_body p)))) ++ p_body p).
Proof.
  intros (HT&_&HB). unfold encode. rewrite isValid_to, negb_involutive.
  rewrite (bool_decide_eq_false_2 _ HT). simpl.
  rewrite (proj2 (Z.ltb_ge _ _)) by lia. do 3 f_equal.
  unfold u32, kMaxBodyLength in *. rewrite Z.mod_small by lia. done.
Qed.

Lemma encode_inr p bytes :
  encode p = inr bytes ->
  p_type p <> UNKNOWN /\ Z.of_nat (length (p_body p)) <= kMaxBodyLength.
Proof.
  unfold encode. rewrite isValid_to, negb_involutive, orb_diag.
  repeat case_match; intros; simplify_eq. bools. done.
Qed.

Lemma encoded_header_ok p :
  packet_ok p ->
  header_ok (mkHeader kProtocolMagic kProtocolVersion (to_uint16 (p_type p))
               (p_sequence_id p) (Z.of_nat (length (p_body p)))).
Proof.
  intros (?&?&?). pose proof (to_uint16_range (p_type p)).
  unfold header_ok, is_u16, is_u32, kProtocolMagic, kProtocolVersion, kMaxBodyLength in *.
  simpl. lia.
Qed.

(** The reference parser reads the header fields [decodeHeader] reads. *)
Lemma parse_front_header q h :
  decodeHeader q (length q) = Some h ->
  parse_front q =
    match validateHeader h with
    | OK => let n := Z.to_nat (body_length h) in
            if decide (length q < 16 + n)%nat then Short
            else Whole (mkPacket (messageTypeFromUint16 (type h)) (sequence_id h)
                          (slice 16 n q)) (drop (16 + n) q)
    | e => Bad e
    end.
Proof.
  unfold decodeHeader, parse_front, kPacketHeaderLength. case_decide; [done|].
  intros [= <-]. unfold validateHeader, slice.
  cbn [magic version type sequence_id body_length].
  unfold readUint32, readUint16, kProtocolMagic, kProtocolVersion, kMaxBodyLength.
  rewrite drop_0. change (1024 * 1024) with 1048576. repeat (case_match; try done).
Qed.

Lemma decodeHeader_peek b :
  Inv b -> decodeHeader (peek b) (readableBytes b) = decodeHeader (contents b) (length (contents b)).
Proof.
  intros HI. rewrite length_contents by done. unfold decodeHeader. case_decide as Hlen; [done|].
  unfold kPacketHeaderLength in Hlen.
  assert (forall i n, (i + n <= 16)%nat ->
    take n (drop i (peek b)) = take n (drop i (contents b))) as Hf.
  { intros i n Hi. rewrite contents_peek, skipn_firstn_comm, take_take. f_equal. lia. }
  unfold readUint32, readUint16. do 2 f_equal; try (f_equal; apply Hf; lia).
  f_equal. apply (Hf 0%nat 4%nat). lia.
Qed.

Lemma decode_checked_front b p :
  Inv b ->
  match parse_front (contents b) with
  | Short => decode_checked b p = Some (INCOMPLETE_PACKET, b, p)
  | Bad e => decode_checked b p = Some (e, retrieveAll b, p) /\ e <> OK
  | Whole q rest =>
      exists b', decode_checked b p = Some (OK, b', q) /\ Inv b' /\ contents b' = rest
  end.
Proof.
  intros HI. unfold decode_checked. rewrite decodeHeader_peek, <- length_contents by done.
  case_decide as Hlen.
  { unfold parse_front. by rewrite decide_True. }
  destruct (decodeHeader (contents b) (length (contents b))) as [h|] eqn:HD.
  2:{ unfold decodeHeader in HD. by case_decide. }
  rewrite (parse_front_header _ _ HD). pose proof (decodeHeader_ok _ _ _ HD) as (_&_&_&_&Hb).
  destruct (validateHeader h) eqn:HV; cbn [negb bool_decide]; try done.
  rewrite bool_decide_eq_true_2 by done. cbn [negb].
  unfold kPacketHeaderLength. case_decide as Hn; [done|].
  pose proof (retrieve_spec 16 b HI) as HR. unfold q_retrieve in HR.
  rewrite decide_True in HR by lia.
  destruct (retrieve 16 b) as [b1|]; [|done]. destruct HR as [HI1 [= HC1]]. cbn [mbind option_bind].
  pose proof (retrieveAsString_spec (Z.to_nat (body_length h)) b1 HI1) as HS.
  unfold q_retrieve in HS. rewrite <- HC1, length_drop, decide_True in HS by lia.
  destruct (retrieveAsString _ b1) as [[s b2]|]; [|done]. destruct HS as (HI2&->&[= HC2]).
  exists b2. split_and!; [done|done|]. by rewrite <- HC2, drop_drop.
Qed.

Lemma parse_front_encode p bytes rest :
  packet_ok p -> encode p = inr bytes -> parse_front (bytes ++ rest) = Whole p rest.
Proof.
  intros Hok HE. rewrite encode_ok in HE by done. apply (inj inr) in HE as <-.
  rewrite <- app_assoc. set (h := mkHeader _ _ _ _ _).
  erewrite (parse_front_header _ h);
    [|apply decode_encodeHeader; [by apply encoded_header_ok|rewrite length_app, length_encodeHeader; lia]].
  destruct Hok as (HT&_&HB).
  assert (validateHeader h = OK) as ->.
  { unfold validateHeader, h; simpl. rewrite isValid_to, (bool_decide_eq_false_2 _ HT).
    rewrite (proj2 (Z.ltb_ge _ _)) by done. done. }
  unfold h; cbn [body_length type sequence_id]. rewrite Nat2Z.id, messageTypeFromUint16_to.
  rewrite decide_False by (rewrite !length_app, length_encodeHeader; unfold kPacketHeaderLength; lia).
  unfold slice. rewrite <- drop_drop, drop_app_length' by done.
  rewrite take_app_length, drop_app_length. by destruct p.
Qed.

Lemma parse_front_whole q p rest :
  parse_front q = Whole p rest ->
  packet_ok p /\ exists bytes, encode p = inr bytes /\ q = bytes ++ rest.
Proof.
  intros HP. destruct (decodeHeader q (length q)) as [h|] eqn:HD.
  2:{ unfold decodeHeader, parse_front, kPacketHeaderLength in *. repeat case_decide; simplify_eq. }
  rewrite (parse_front_header _ _ HD) in HP.
  assert (16 <= length q)%nat as Hlen
    by (unfold decodeHeader, kPacketHeaderLength in HD; case_decide; [done|lia]).
  pose proof (decodeHeader_ok _ _ _ HD) as (_&_&_&Hs&Hb).
  unfold validateHeader in HP. cbv zeta in HP. repeat case_match; simplify_eq; bools.
  assert (messageTypeFromUint16 (type h) <> UNKNOWN) as HT.
  { unfold isValidMessageType in *. bools. done. }
  assert (length (slice 16 (Z.to_nat (body_length h)) q) = Z.to_nat (body_length h)) as HL
    by (apply length_slice; lia).
  assert (packet_ok (mkPacket (messageTypeFromUint16 (type h)) (sequence_id h)
    (slice 16 (Z.to_nat (body_length h)) q))) as Hok.
  { split_and!; simpl; [done..|]. rewrite HL. unfold is_u32 in Hb. lia. }
  split; [done|]. eexists. split; [by apply encode_ok|]. cbn [p_type p_sequence_id p_body].
  rewrite HL, (to_uint16_from _ HT), Z2Nat.id by (unfold is_u32 in *; lia).
  replace (mkHeader _ _ _ _ _) with h by (destruct h; simpl in *; congruence).
  rewrite (encode_decodeHeader q (length q) h Hlen HD).
  replace (drop _ q) with (drop (Z.to_nat (body_length h)) (drop 16 q)) by (by rewrite drop_drop).
  unfold slice, kPacketHeaderLength. by rewrite <- app_assoc, take_drop, take_drop.
Qed.

(** More input changes neither a packet nor an error that was recognised. *)
Lemma parse_front_app q x :
  match parse_front q with
  | Short => True
  | Bad e => parse_front (q ++ x) = Bad e
  | Whole p rest => parse_front (q ++ x) = Whole p (rest ++ x)
  end.
Proof.
  destruct (parse_front q) as [|e|p rest] eqn:HP; [done| |].
  - revert HP. unfold parse_front. case_decide as Hlen; [done|]. cbv zeta.
    assert (forall i n, (i + n <= 16)%nat -> slice i n (q ++ x) = slice i n q) as Hf
      by (intros; apply slice_app_l; lia).
    rewrite (decide_False (P := (length (q ++ x) < 16)%nat)), (Hf 0%nat 4%nat), (Hf 4%nat 2%nat), (Hf 12%nat 4%nat), (Hf 6%nat 2%nat)
      by (rewrite ?length_app; lia).
    repeat case_match; by intros.
  - destruct (parse_front_whole _ _ _ HP) as (Hok&bytes&HE&->).
    rewrite <- app_assoc. by apply parse_front_encode.
Qed.

(** ** Properties *)

(** C37: on every input [decode] does what the protocol's definition says: it
    asks for more on a short input and touches nothing; it reports the first
    bad header field and empties the buffer; it takes exactly one packet off
    the front otherwise.  No assertion of the buffer can fail. *)
Theorem decode_matches_reference (b : Buffer) (p : Packet) :
  Inv b ->
  match parse_front (contents b) with
  | Short => decode (Some b) (Some p) = Some (INCOMPLETE_PACKET, Some b, Some p)
  | Bad e => decode (Some b) (Some p) = Some (e, Some (retrieveAll b), Some p) /\
             e <> OK /\ contents (retrieveAll b) = []
  | Whole q rest =>
      exists b', decode (Some b) (Some p) = Some (OK, Some b', Some q) /\
                 Inv b' /\ contents b' = rest
  end.
Proof.
  intros HI. pose proof (decode_checked_front b p HI) as HF.
  destruct (parse_front (contents b)); unfold decode.
  - by rewrite HF.
  - destruct HF as [-> ?]. split_and!; [done..|]. by apply retrieveAll_spec.
  - destruct HF as (b'&->&?&?). eauto.
Qed.

Definition sample_packet : Packet := mkPacket SEND_SINGLE_MSG_REQ 7 [x68; x69].
Definition sample_buffer : Buffer :=
  default Buffer_new
    (append (from_option id [] (match encode sample_packet with inr l => Some l | _ => None end)
             ++ [x00; x00]) Buffer_new).

Lemma decode_matches_reference_witness :
  Inv sample_buffer /\
  exists b', decode (Some sample_buffer) (Some (mkPacket UNKNOWN 0 [])) =
               Some (OK, Some b', Some sample_packet) /\ Inv b' /\ contents b' = [x00; x00].
Proof.
  assert (Inv sample_buffer) as HI.
  { unfold Inv. split_and!; apply Nat.leb_le; by vm_compute. }
  split; [exact HI|].
  pose proof (decode_matches_reference sample_buffer (mkPacket UNKNOWN 0 []) HI) as H.
  assert (parse_front (contents sample_buffer) = Whole sample_packet [x00; x00]) as E
    by (by vm_compute).
  rewrite E in H. exact H.
Defined.

(** C38: an encoded packet at the front of the readable bytes is decoded to the
    packet that was encoded, and what follows it stays in the buffer. *)
Theorem decode_encode_roundtrip (p p0 : Packet) (b : Buffer) (rest : list byte) :
  packet_ok p -> Inv b ->
  exists bytes, encode p = inr bytes /\
    (contents b = bytes ++ rest ->
     exists b', decode (Some b) (Some p0) = Some (OK, Some b', Some p) /\
                Inv b' /\ contents b' = rest).
Proof.
  intros Hok HI. eexists. split; [by apply encode_ok|]. intros HC.
  pose proof (decode_checked_front b p0 HI) as HF.
  rewrite HC, (parse_front_encode p _ rest Hok (encode_ok p Hok)) in HF.
  destruct HF as (b'&HD&?&?). exists b'. split_and!; [|done..]. unfold decode. by rewrite HD.
Qed.

Lemma decode_encode_roundtrip_witness :
  exists bytes, encode sample_packet = inr bytes /\
    (contents sample_buffer = bytes ++ [x00; x00] ->
     exists b', decode (Some sample_buffer) (Some (mkPacket UNKNOWN 0 [])) =
                  Some (OK, Some b', Some sample_packet) /\
                Inv b' /\ contents b' = [x00; x00]).
Proof.
  apply decode_encode_roundtrip.
  - split; [done|]. split; [unfold is_u32; simpl; lia|by vm_compute].
  - unfold Inv. split_and!; apply Nat.leb_le; by vm_compute.
Defined.

(** Whatever [decode] accepts is the encoding of the packet it returns:
    the bytes consumed are those [encode] writes for it, so no two byte
    strings decode to the same packet and no field is lost. *)
Theorem decode_accepts_only_encodings (b b' : Buffer) (p0 p : Packet) :
  Inv b -> decode (Some b) (Some p0) = Some (OK, Some b', Some p) ->
  packet_ok p /\ Inv b' /\
  exists bytes, encode p = inr bytes /\ contents b = bytes ++ contents b'.
Proof.
  intros HI HD. pose proof (decode_checked_front b p0 HI) as HF.
  unfold decode in HD. destruct (parse_front (contents b)) as [|e|q rest] eqn:HP.
  - by rewrite HF in HD.
  - destruct HF as [HF ?]. rewrite HF in HD. by simplify_eq/=.
  - destruct HF as (b1&HF&HI1&HC). rewrite HF in HD. simplify_eq/=.
    destruct (parse_front_whole _ _ _ HP) as (?&bytes&?&?). eauto 10.
Qed.

Lemma decode_accepts_only_encodings_witness :
  exists b', decode (Some sample_buffer) (Some sample_packet) = Some (OK, Some b', Some sample_packet) /\
  packet_ok sample_packet /\ Inv b' /\
  exists bytes, encode sample_packet = inr bytes /\ contents sample_buffer = bytes ++ contents b'.
Proof.
  exists (mkBuffer (buffer_ sample_buffer) (reader_index_ sample_buffer + 18)
            (writer_index_ sample_buffer)).
  assert (decode (Some sample_buffer) (Some sample_packet) =
    Some (OK, Some (mkBuffer (buffer_ sample_buffer) (reader_index_ sample_buffer + 18)
            (writer_index_ sample_buffer)), Some sample_packet)) as E by (by vm_compute).
  split; [exact E|].
  refine (decode_accepts_only_encodings sample_buffer _ sample_packet sample_packet _ E).
  unfold Inv. split_and!; apply Nat.leb_le; by vm_compute.
Defined.

End PacketCodec.
