(* ===== verification/WebSocket.v ===== *)
(** * WebSocket frames (common/websocket)

    The frame codec of RFC 6455 as the gateway uses it (no fragmentation) and
    the codec over a [Buffer].  The random mask is an argument of [encode].  The
    HTTP upgrade is in Handshake. *)

From S2P Require Import Prelude Words NetBuffer.
Import Buffer.

Module WebSocketFrame.

Inductive WebSocketOpCode := CONTINUATION | TEXT | BINARY | CLOSE | PING | PONG.

#[global] Instance WebSocketOpCode_eq_dec : EqDecision WebSocketOpCode.
Proof. solve_decision. Defined.

Definition opcode_to_uint8 (o : WebSocketOpCode) : Z :=
  match o with
  | CONTINUATION => 0x0 | TEXT => 0x1 | BINARY => 0x2
  | CLOSE => 0x8 | PING => 0x9 | PONG => 0xA
  end.

Inductive WebSocketFrameStatus := WS_OK | WS_INCOMPLETE | WS_PROTOCOL_ERROR.

#[global] Instance WebSocketFrameStatus_eq_dec : EqDecision WebSocketFrameStatus.
Proof. solve_decision. Defined.

Record WebSocketFrame := mkFrame {
  fin : bool;
  opcode : WebSocketOpCode;
  masked : bool;
  payload : list byte
}.

Definition isControlOpCode (o : WebSocketOpCode) : bool :=
  match o with CLOSE | PING | PONG => true | _ => false end.

(** [isKnownOpCode] and the cast that follows it: [None] when unknown. *)
Definition knownOpCode (x : Z) : option WebSocketOpCode :=
  match x with
  | 0x0 => Some CONTINUATION | 0x1 => Some TEXT | 0x2 => Some BINARY
  | 0x8 => Some CLOSE | 0x9 => Some PING | 0xA => Some PONG
  | _ => None
  end.

(** Callers pass [len <= 8], so the 64-bit accumulator does not overflow. *)
Definition readBigEndian (data : list byte) (len : nat) : Z := be_decode (take len data).

Definition appendBigEndian (out : list byte) (value : Z) (len : nat) : list byte :=
  out ++ be_encode len value.

(** The loop [payload[i] ^= mask_key[i % 4]]. *)
Definition apply_mask (mask_key : list byte) (payload : list byte) : list byte :=
  imap (fun i c => byte_xor c (nth (i mod 4) mask_key x00)) payload.

(** The payload length and the offset after it; [inl] is an early return. *)
Definition read_payload_len (data : list byte) (b1 : Z) : WebSocketFrameStatus + (Z * nat) :=
  let len := length data in
  let payload_len := Z.land b1 0x7F in
  if payload_len =? 126 then
    if decide (len < 2 + 2)%nat then inl WS_INCOMPLETE
    else inr (readBigEndian (drop 2 data) 2, 4%nat)
  else if payload_len =? 127 then
    if decide (len < 2 + 8)%nat then inl WS_INCOMPLETE
    else
      let payload_len := readBigEndian (drop 2 data) 8 in
      if negb (Z.shiftr payload_len 63 =? 0) then inl WS_PROTOCOL_ERROR
      else inr (payload_len, 10%nat)
  else inr (payload_len, 2%nat).

(** The part of [decode] after the length: mask key, payload, results. *)
Definition decode_payload (data : list byte) (fin : bool) (opcode : WebSocketOpCode)
    (masked : bool) (payload_len : Z) (offset : nat)
  : WebSocketFrameStatus * option (WebSocketFrame * nat) :=
  let len := length data in
  if masked && bool_decide (len < offset + 4)%nat then (WS_INCOMPLETE, None)
  else
    let mask_key := if masked then slice offset 4 data else [x00; x00; x00; x00] in
    let offset := if masked then (offset + 4)%nat else offset in
    if Z.of_nat (len - offset) <? payload_len then (WS_INCOMPLETE, None)
    else if 18446744073709551615 <? payload_len then (WS_PROTOCOL_ERROR, None)
    else
      let payload := slice offset (Z.to_nat payload_len) data in
      let payload := if masked then apply_mask mask_key payload else payload in
      (WS_OK, Some (mkFrame fin opcode masked payload, (offset + Z.to_nat payload_len)%nat)).

(** [decode] on the [length data] bytes at a non-null pointer; the frame and
    the number of bytes consumed are given only with [WS_OK]. *)
Definition decode (data : list byte) (require_mask : bool)
  : WebSocketFrameStatus * option (WebSocketFrame * nat) :=
  match data with
  | c0 :: c1 :: _ =>
      let b0 := Z_of_byte c0 in
      let b1 := Z_of_byte c1 in
      let fin := negb (Z.land b0 0x80 =? 0) in
      let rsv := negb (Z.land b0 0x70 =? 0) in
      match knownOpCode (Z.land b0 0x0F) with
      | None => (WS_PROTOCOL_ERROR, None)
      | Some opcode =>
          if rsv then (WS_PROTOCOL_ERROR, None)
          else if negb fin || bool_decide (opcode = CONTINUATION)
          then (WS_PROTOCOL_ERROR, None)
          else
            let masked := negb (Z.land b1 0x80 =? 0) in
            if require_mask && negb masked then (WS_PROTOCOL_ERROR, None)
            else match read_payload_len data b1 with
            | inl status => (status, None)
            | inr (payload_len, offset) =>
                if isControlOpCode opcode && (125 <? payload_len)
                then (WS_PROTOCOL_ERROR, None)
                else decode_payload data fin opcode masked payload_len offset
            end
      end
  | _ => (WS_INCOMPLETE, None)
  end.

(** [mask_key] is [Some] of the four random octets when [mask_payload]. *)
Definition encode (opcode : WebSocketOpCode) (payload : list byte) (mask_key : option (list byte))
  : list byte :=
  let out := [byte_of_Z (Z.lor 0x80 (opcode_to_uint8 opcode))] in
  let mask_bit := if mask_key is Some _ then 0x80 else 0x00 in
  let size := Z.of_nat (length payload) in
  let out :=
    if size <=? 125 then out ++ [byte_of_Z (Z.lor mask_bit size)]
    else if size <=? 0xFFFF
    then appendBigEndian (out ++ [byte_of_Z (Z.lor mask_bit 126)]) size 2
    else appendBigEndian (out ++ [byte_of_Z (Z.lor mask_bit 127)]) size 8 in
  match mask_key with
  | None => out ++ payload
  | Some key => out ++ key ++ apply_mask key payload
  end.

(** ** Lemmas *)

Lemma length_apply_mask key p : length (apply_mask key p) = length p.
Proof. unfold apply_mask. by rewrite length_imap. Qed.

Lemma apply_mask_involutive key p : apply_mask key (apply_mask key p) = p.
Proof.
  unfold apply_mask. apply list_eq. intros i. rewrite !list_lookup_imap.
  destruct (p !! i); simpl; [by rewrite byte_xor_involutive|done].
Qed.

(** The octets before the mask key, as [encode] writes them. *)
Definition frame_header (o : WebSocketOpCode) (m : bool) (size : Z) : list byte :=
  let mask_bit := if m then 0x80 else 0x00 in
  byte_of_Z (Z.lor 0x80 (opcode_to_uint8 o)) ::
  if size <=? 125 then [byte_of_Z (Z.lor mask_bit size)]
  else if size <=? 0xFFFF then byte_of_Z (Z.lor mask_bit 126) :: be_encode 2 size
  else byte_of_Z (Z.lor mask_bit 127) :: be_encode 8 size.

Lemma encode_header o p key :
  encode o p key =
  frame_header o (if key is Some _ then true else false) (Z.of_nat (length p)) ++
  match key with None => p | Some k => k ++ apply_mask k p end.
Proof.
  unfold encode, frame_header, appendBigEndian.
  destruct key; repeat case_match; simpl; done.
Qed.

(** The second octet holds seven bits of length and the mask bit. *)
Lemma second_octet (m : bool) (n : Z) :
  0 <= n < 128 ->
  let b := Z_of_byte (byte_of_Z (Z.lor (if m then 0x80 else 0x00) n)) in
  Z.land b 0x7F = n /\ negb (Z.land b 0x80 =? 0) = m.
Proof.
  intros Hn.
  assert (forallb (fun n => forallb (fun m : bool =>
    let b := Z_of_byte (byte_of_Z (Z.lor (if m then 0x80 else 0x00) n)) in
    (Z.land b 0x7F =? n) && Bool.eqb (negb (Z.land b 0x80 =? 0)) m) [true; false]) (seqZ 0 128) = true)
    as HF by (by vm_compute).
  rewrite forallb_forall in HF. specialize (HF n ltac:(apply list_elem_of_In, elem_of_seqZ; lia)).
  rewrite forallb_forall in HF. specialize (HF m ltac:(destruct m; simpl; auto)).
  cbv zeta in HF. bools. split; [done|]. by apply Bool.eqb_prop.
Qed.

Lemma first_octet (o : WebSocketOpCode) :
  let b := Z_of_byte (byte_of_Z (Z.lor 0x80 (opcode_to_uint8 o))) in
  knownOpCode (Z.land b 0x0F) = Some o /\ Z.land b 0x70 = 0 /\ Z.land b 0x80 = 128.
Proof. by destruct o. Qed.

Lemma read_payload_len_header o m size tl :
  0 <= size < 2 ^ 63 ->
  exists c1 tl', frame_header o m size ++ tl =
      byte_of_Z (Z.lor 0x80 (opcode_to_uint8 o)) :: c1 :: tl' /\
    negb (Z.land (Z_of_byte c1) 0x80 =? 0) = m /\
    read_payload_len (frame_header o m size ++ tl) (Z_of_byte c1) =
      inr (size, length (frame_header o m size)).
Proof.
  intros Hs. unfold frame_header.
  destruct (size <=? 125) eqn:?; [|destruct (size <=? 0xFFFF) eqn:?]; bools; cbn [app].
  - destruct (second_octet m size) as [H1 H2]; [lia|]. do 2 eexists. split_and!; [done|done|].
    unfold read_payload_len. cbv zeta in *. rewrite H1.
    rewrite (proj2 (Z.eqb_neq _ _)), (proj2 (Z.eqb_neq _ _)) by lia. done.
  - destruct (second_octet m 126) as [H1 H2]; [lia|].
    eexists _, (be_encode 2 size ++ tl). split_and!; [done|done|].
    unfold read_payload_len. cbv zeta in *. rewrite H1. cbn [Z.eqb Pos.eqb].
    rewrite decide_False by (simpl; lia). unfold readBigEndian. cbn [drop].
    rewrite drop_0, take_app_length' by done.
    rewrite be_decode_encode, Z.mod_small by lia. done.
  - destruct (second_octet m 127) as [H1 H2]; [lia|].
    eexists _, (be_encode 8 size ++ tl). split_and!; [done|done|].
    unfold read_payload_len. cbv zeta in *. rewrite H1. cbn [Z.eqb Pos.eqb].
    rewrite decide_False by (simpl; lia). unfold readBigEndian. cbn [drop].
    rewrite drop_0, take_app_length' by done.
    rewrite be_decode_encode, Z.mod_small by lia.
    rewrite Z.shiftr_div_pow2, Z.div_small by lia. done.
Qed.

Lemma decode_payload_masked hdr key p rest f o :
  length key = 4%nat -> Z.of_nat (length p) < 2 ^ 63 ->
  decode_payload (hdr ++ key ++ apply_mask key p ++ rest) f o true (Z.of_nat (length p)) (length hdr)
  = (WS_OK, Some (mkFrame f o true p, (length hdr + 4 + length p)%nat)).
Proof.
  intros Hk Hp. unfold decode_payload.
  assert (length (hdr ++ key ++ apply_mask key p ++ rest)
          = length hdr + 4 + length p + length rest)%nat as HL
    by (rewrite !length_app, length_apply_mask; lia).
  rewrite HL, bool_decide_eq_false_2 by lia. cbn [andb].
  rewrite !(proj2 (Z.ltb_ge _ _)) by lia. rewrite Nat2Z.id.
  unfold slice. rewrite drop_app_length, <- drop_drop, drop_app_length.
  rewrite (take_app_length' key) by done. rewrite (drop_app_length' key) by done.
  rewrite take_app_length' by (by rewrite length_apply_mask).
  by rewrite apply_mask_involutive.
Qed.

Lemma decode_payload_unmasked hdr p rest f o :
  Z.of_nat (length p) < 2 ^ 63 ->
  decode_payload (hdr ++ p ++ rest) f o false (Z.of_nat (length p)) (length hdr)
  = (WS_OK, Some (mkFrame f o false p, (length hdr + length p)%nat)).
Proof.
  intros Hp. unfold decode_payload. cbn [andb].
  rewrite !(proj2 (Z.ltb_ge _ _)) by (rewrite ?length_app; lia). rewrite Nat2Z.id.
  unfold slice. by rewrite drop_app_length, take_app_length.
Qed.

(** A payload a frame of this opcode may carry. *)
Definition frame_ok (o : WebSocketOpCode) (p : list byte) : Prop :=
  o <> CONTINUATION /\ Z.of_nat (length p) < 2 ^ 63 /\
  (isControlOpCode o = true -> Z.of_nat (length p) <= 125).

Definition mask_ok (key : option (list byte)) : Prop :=
  match key with Some k => length k = 4%nat | None => True end.

Lemma decode_encode o p key req rest :
  frame_ok o p -> mask_ok key -> (req = true -> key <> None) ->
  WebSocketFrame.decode (encode o p key ++ rest) req =
    (WS_OK, Some (mkFrame true o (if key is Some _ then true else false) p,
                  length (encode o p key))).
Proof.
  intros (Ho&Hlen&Hctl) Hkey Hreq. rewrite encode_header, <- app_assoc.
  set (m := if key is Some _ then true else false).
  set (tl := (match key with None => p | Some k => k ++ apply_mask k p end) ++ rest).
  destruct (read_payload_len_header o m (Z.of_nat (length p)) tl) as (c1&tl'&E1&E2&E3); [lia|].
  assert (WebSocketFrame.decode (frame_header o m (Z.of_nat (length p)) ++ tl) req =
    decode_payload (frame_header o m (Z.of_nat (length p)) ++ tl) true o m
      (Z.of_nat (length p)) (length (frame_header o m (Z.of_nat (length p))))) as ->.
  { rewrite E1 in E3 |- *. unfold WebSocketFrame.decode.
    destruct (first_octet o) as (->&->&->). cbn [Z.eqb negb orb].
    rewrite (bool_decide_eq_false_2 _ Ho), E2, E3.
    replace (req && negb m) with false by (destruct req, key; naive_solver).
    replace (isControlOpCode o && _) with false; [done|].
    destruct (isControlOpCode o); [|done]. simpl. symmetry. apply Z.ltb_ge. auto. }
  unfold tl. destruct key as [k|]; rewrite !length_app.
  - rewrite <- app_assoc. unfold m. rewrite decode_payload_masked by done.
    rewrite length_apply_mask. simpl in Hkey. rewrite Hkey. do 3 f_equal. lia.
  - unfold m. by rewrite decode_payload_unmasked by done.
Qed.

Lemma decode_payload_consumed data fin o m len off f n :
  decode_payload data fin o m len off = (WS_OK, Some (f, n)) ->
  (off <= length data)%nat -> (off <= n <= length data)%nat.
Proof.
  unfold decode_payload. intros HD Hoff.
  destruct m; cbn [andb] in HD; repeat case_match; simplify_eq; bools; lia.
Qed.

Lemma read_payload_len_offset data b1 len off :
  read_payload_len data b1 = inr (len, off) -> (2 <= length data)%nat ->
  (2 <= off <= length data)%nat.
Proof.
  unfold read_payload_len. cbv zeta. intros HR Hd.
  repeat (case_match; try discriminate HR); injection HR as <- <-; lia.
Qed.

Lemma decode_inv c0 c1 data req r :
  WebSocketFrame.decode (c0 :: c1 :: data) req = (WS_OK, r) ->
  exists o len off,
    (2 <= off <= length (c0 :: c1 :: data))%nat /\
    decode_payload (c0 :: c1 :: data) true o (negb (Z.land (Z_of_byte c1) 0x80 =? 0)) len off
    = (WS_OK, r).
Proof.
  unfold WebSocketFrame.decode. cbv zeta. intros HD.
  destruct (knownOpCode _) as [o|]; [|discriminate HD].
  destruct (negb (Z.land (Z_of_byte c0) 0x70 =? 0)); [discriminate HD|].
  destruct (negb (Z.land (Z_of_byte c0) 0x80 =? 0)) eqn:Hfin; [|discriminate HD].
  destruct (negb true || _); [discriminate HD|].
  destruct (req && _); [discriminate HD|].
  destruct (read_payload_len _ _) as [st|[len off]] eqn:HR.
  { exfalso. revert HR HD. unfold read_payload_len. cbv zeta.
    intros HR HD. injection HD as -> <-. repeat (case_match; try discriminate HR). }
  destruct (isControlOpCode o && _); [discriminate HD|].
  exists o, len, off. split; [|exact HD].
  eapply read_payload_len_offset; [exact HR|]. simpl. lia.
Qed.

(** A decoded frame takes at least two octets and no more than there are. *)
Lemma decode_consumed data req f n :
  WebSocketFrame.decode data req = (WS_OK, Some (f, n)) -> (2 <= n <= length data)%nat.
Proof.
  destruct data as [|c0 [|c1 data]]; [done..|]. intros HD.
  apply decode_inv in HD as (o&len&off&Hoff&HD).
  destruct (decode_payload_consumed _ _ _ _ _ _ _ _ HD); lia.
Qed.

Lemma decode_payload_some data fin o m len off :
  decode_payload data fin o m len off <> (WS_OK, None).
Proof. unfold decode_payload. cbv zeta. repeat case_match; discriminate. Qed.

Lemma decode_payload_mask data fin o m len off f n :
  decode_payload data fin o m len off = (WS_OK, Some (f, n)) -> masked f = m.
Proof.
  unfold decode_payload. cbv zeta. intros HD.
  destruct (m && _); [discriminate HD|]. destruct (_ <? len); [discriminate HD|].
  destruct (_ <? len); [discriminate HD|]. by injection HD as <- <-.
Qed.

Lemma decode_ok_some data req : WebSocketFrame.decode data req <> (WS_OK, None).
Proof.
  destruct data as [|c0 [|c1 data]]; [done..|]. intros HD.
  apply decode_inv in HD as (o&len&off&Hoff&HD). by apply decode_payload_some in HD.
Qed.

(** With a mask required, an accepted frame was masked. *)
Lemma decode_masked data f n :
  WebSocketFrame.decode data true = (WS_OK, Some (f, n)) -> masked f = true.
Proof.
  destruct data as [|c0 [|c1 data]]; [done..|]. intros HD.
  pose proof (decode_inv _ _ _ _ _ HD) as (o&len&off&_&HP).
  rewrite (decode_payload_mask _ _ _ _ _ _ _ _ HP).
  revert HD. unfold WebSocketFrame.decode. cbv zeta.
  destruct (negb (Z.land (Z_of_byte c1) 0x80 =? 0)); [done|].
  intros HD. destruct (knownOpCode _); [|discriminate HD]. do 2 (case_match; try discriminate HD).
Qed.

End WebSocketFrame.
Export WebSocketFrame.

Module WebSocketCodec.

(** [decodeFrame] with non-null pointers; [None] would be a failed assertion. *)
Definition decodeFrame (buffer : Buffer)
  : option (WebSocketFrameStatus * Buffer * option WebSocketFrame) :=
  match WebSocketFrame.decode (take (readableBytes buffer) (peek buffer)) true with
  | (WS_OK, Some (frame, consumed)) =>
      b' ← retrieve consumed buffer; Some (WS_OK, b', Some frame)
  | (WS_INCOMPLETE, _) => Some (WS_INCOMPLETE, buffer, None)
  | (_, _) => Some (WS_PROTOCOL_ERROR, retrieveAll buffer, None)
  end.

Definition encodeBinary (packet_bytes : list byte) : list byte := encode BINARY packet_bytes None.
Definition encodeText (text : list byte) : list byte := encode TEXT text None.
Definition encodePong (payload : list byte) : list byte := encode PONG payload None.
Definition encodeClose (reason : list byte) : list byte := encode CLOSE reason None.

(** ** Properties *)

(** A frame of any opcode the gateway accepts, with any payload the opcode
    may carry (all three length encodings), masked with any key or sent
    unmasked, is decoded to itself, and exactly its octets are consumed. *)
Theorem frame_roundtrip (o : WebSocketOpCode) (p : list byte) (key : option (list byte))
    (require_mask : bool) (rest : list byte) :
  frame_ok o p -> mask_ok key -> (require_mask = true -> key <> None) ->
  WebSocketFrame.decode (encode o p key ++ rest) require_mask =
    (WS_OK, Some (mkFrame true o (if key is Some _ then true else false) p,
                  length (encode o p key))).
Proof. apply decode_encode. Qed.

Lemma frame_roundtrip_witness :
  WebSocketFrame.decode
    (encode BINARY (replicate 300 x41) (Some [x01; x02; x03; x04]) ++ [xff]) true =
  (WS_OK, Some (mkFrame true BINARY true (replicate 300 x41),
                length (encode BINARY (replicate 300 x41) (Some [x01; x02; x03; x04])))).
Proof.
  refine (frame_roundtrip BINARY (replicate 300 x41) (Some [x01; x02; x03; x04]) true [xff] _ _ _).
  - unfold frame_ok. split_and!; [done| |done]. rewrite length_replicate. lia.
  - reflexivity.
  - done.
Defined.

(** On every buffer [decodeFrame] ends without a failed assertion: an
    incomplete frame leaves the buffer alone, an invalid one empties it, a
    complete one removes between two octets and all of them, so the gateway's
    read loop makes progress. *)
Theorem decodeFrame_total (b : Buffer) :
  Inv b ->
  (decodeFrame b = Some (WS_INCOMPLETE, b, None)) \/
  (decodeFrame b = Some (WS_PROTOCOL_ERROR, retrieveAll b, None) /\ contents (retrieveAll b) = []) \/
  (exists frame n b',
     decodeFrame b = Some (WS_OK, b', Some frame) /\ Inv b' /\ masked frame = true /\
     (2 <= n <= length (contents b))%nat /\ contents b' = drop n (contents b)).
Proof.
  intros HI. unfold decodeFrame. rewrite <- contents_peek.
  destruct (WebSocketFrame.decode (contents b) true) as [st r] eqn:HD.
  destruct st.
  - right; right. destruct r as [[f n]|]; [|exfalso].
    + pose proof (decode_consumed _ _ _ _ HD) as Hn.
      pose proof (retrieve_spec n b HI) as HR. unfold q_retrieve in HR.
      rewrite decide_True in HR by lia. destruct (retrieve n b) as [b'|]; [|done].
      destruct HR as [HI' [= HC]]. exists f, n, b'. split_and!; try done; try lia.
      eapply decode_masked. exact HD.
    + by apply decode_ok_some in HD.
  - by left.
  - right; left. split; [done|]. by apply retrieveAll_spec.
Qed.

Lemma decodeFrame_total_witness :
  Inv Buffer_new /\
  ((decodeFrame Buffer_new = Some (WS_INCOMPLETE, Buffer_new, None)) \/
   (decodeFrame Buffer_new = Some (WS_PROTOCOL_ERROR, retrieveAll Buffer_new, None) /\
    contents (retrieveAll Buffer_new) = []) \/
   (exists frame n b',
     decodeFrame Buffer_new = Some (WS_OK, b', Some frame) /\ Inv b' /\ masked frame = true /\
     (2 <= n <= length (contents Buffer_new))%nat /\
     contents b' = drop n (contents Buffer_new))).
Proof. split; [apply buffer_Inv_new|]. apply decodeFrame_total. apply buffer_Inv_new. Defined.

End WebSocketCodec.
