(* ===== verification/MessageId.v ===== *)
(** * Message and conversation identifiers (common/message)

    [MessageIdGenerator] packs a millisecond timestamp, a node number and a
    sequence number into 64 bits; [ConversationId] hashes the participants.
    The system clock is an arbitrary sequence of readings, [clock i] being the
    [i]-th one: it may stand still or go backwards. *)

From S2P Require Import Prelude Words Text.
From Stdlib Require Import Sorting.Sorted.

Module MessageIdGenerator.

Definition kEpochMs : Z := 1767225600000.
Definition kMaxNodeId : Z := 1023.
Definition kSequenceMask : Z := 4095.

Record MessageIdGenerator := mkGen {
  node_id_ : Z;
  last_timestamp_ms_ : Z;
  sequence_ : Z
}.

Definition MessageIdGenerator_new (node_id : Z) : MessageIdGenerator :=
  mkGen (if kMaxNodeId <? node_id then kMaxNodeId else node_id) 0 0.

Section Clock.
Context (clock : nat -> Z).

(** [i] is the number of readings taken so far. *)
Fixpoint waitNextMs (fuel : nat) (i : nat) (last_ms : Z) : option nat :=
  match fuel with
  | O => None
  | S fuel' =>
      let now := clock i in
      if (now <? kEpochMs) || (last_ms <? now) then Some (S i)
      else waitNextMs fuel' (S i) last_ms
  end.

Definition clampEpoch (now : Z) : Z := if now <? kEpochMs then kEpochMs else now.

(** The block both branches of [nextId] share: wait, read the clock, force the
    time past [last]. *)
Definition waitPast (fuel i : nat) (last : Z) : option (Z * nat) :=
  i1 ← waitNextMs fuel i last;
  let now := clampEpoch (clock i1) in
  Some (if now <=? last then u64 (last + 1) else now, S i1).

Definition nextId (fuel i : nat) (g : MessageIdGenerator)
  : option (Z * nat * MessageIdGenerator) :=
  let last := last_timestamp_ms_ g in
  let now := clampEpoch (clock i) in
  '(now, i) ← (if now <? last then waitPast fuel (S i) last else Some (now, S i));
  '(now, i, seq) ←
    (if now =? last then
       let seq := Z.land (sequence_ g + 1) kSequenceMask in
       if seq =? 0 then '(now, i) ← waitPast fuel i last; Some (now, i, seq)
       else Some (now, i, seq)
     else Some (now, i, 0));
  Some (Z.lor (Z.lor (u64 (Z.shiftl (u64 (now - kEpochMs)) 22)) (Z.shiftl (node_id_ g) 12)) seq,
        i, mkGen (node_id_ g) now seq).

(** [n] calls in a row. *)
Fixpoint nextIds (n fuel i : nat) (g : MessageIdGenerator)
  : option (list Z * nat * MessageIdGenerator) :=
  match n with
  | O => Some ([], i, g)
  | S n' =>
      '(id, i1, g1) ← nextId fuel i g;
      '(ids, i2, g2) ← nextIds n' fuel i1 g1;
      Some (id :: ids, i2, g2)
  end.

(** ** Invariant *)

Definition Inv (g : MessageIdGenerator) : Prop :=
  0 <= node_id_ g <= kMaxNodeId /\ 0 <= sequence_ g <= kSequenceMask /\
  (last_timestamp_ms_ g = 0 \/ kEpochMs <= last_timestamp_ms_ g).

(** The identifier a generator state stands for. *)
Definition id_of (g : MessageIdGenerator) : Z :=
  (last_timestamp_ms_ g - kEpochMs) * 2 ^ 22 + node_id_ g * 2 ^ 12 + sequence_ g.

(** The last millisecond whose identifiers fit in 64 bits. *)
Definition kLastMs : Z := 6165272111103.

Lemma kLastMs_eq : kLastMs = kEpochMs + 2 ^ 42 - 1.
Proof. done. Qed.

Lemma gen_Inv_new n : 0 <= n -> Inv (MessageIdGenerator_new n).
Proof.
  intros. unfold Inv, MessageIdGenerator_new; simpl. unfold kMaxNodeId, kSequenceMask.
  case_match; bools; lia.
Qed.

Lemma clampEpoch_ge x : kEpochMs <= clampEpoch x.
Proof. unfold clampEpoch. case_match; bools; lia. Qed.

Lemma waitPast_gt fuel i last now i' :
  0 <= last <= kLastMs -> waitPast fuel i last = Some (now, i') ->
  last < now /\ kEpochMs <= now.
Proof.
  unfold waitPast, u64, kLastMs, kEpochMs. intros Hl HW.
  destruct (waitNextMs fuel i last) as [i1|]; [|done]. simplify_eq/=.
  pose proof (clampEpoch_ge (clock i1)) as Hc. unfold kEpochMs in Hc.
  case_match; bools; [|lia].
  rewrite Z.mod_small by lia. lia.
Qed.

Lemma pack_id t n s :
  0 <= t < 2 ^ 42 -> 0 <= n <= kMaxNodeId -> 0 <= s <= kSequenceMask ->
  Z.lor (Z.lor (u64 (Z.shiftl (u64 t) 22)) (Z.shiftl n 12)) s = t * 2 ^ 22 + n * 2 ^ 12 + s.
Proof.
  unfold kMaxNodeId, kSequenceMask, u64. intros. rewrite (Z.mod_small t) by lia.
  rewrite Z.mod_small by (rewrite Z.shiftl_mul_pow2; lia).
  rewrite <- Z.lor_assoc, (lor_shiftl_small n 12 s), lor_shiftl_small by lia. lia.
Qed.

Lemma land_mask x : Z.land x kSequenceMask = x mod 4096.
Proof. exact (Z.land_ones x 12 ltac:(lia)). Qed.

(** What one call stores and returns. *)
Lemma nextId_shape fuel i g id i' g' :
  Inv g -> last_timestamp_ms_ g <= kLastMs -> nextId fuel i g = Some (id, i', g') ->
  exists now seq, g' = mkGen (node_id_ g) now seq /\ kEpochMs <= now /\
    id = Z.lor (Z.lor (u64 (Z.shiftl (u64 (now - kEpochMs)) 22)) (Z.shiftl (node_id_ g) 12)) seq /\
    0 <= seq <= kSequenceMask /\
    (last_timestamp_ms_ g < now \/ (now = last_timestamp_ms_ g /\ seq = sequence_ g + 1)).
Proof.
  intros (Hn&Hs&Hl) Hmax HN. unfold nextId in HN. cbv zeta in HN.
  assert (0 <= last_timestamp_ms_ g) as Hl0 by (unfold kEpochMs in Hl; lia).
  pose proof (clampEpoch_ge (clock i)).
  destruct (clampEpoch (clock i) <? last_timestamp_ms_ g) eqn:E1; bools.
  - destruct (waitPast fuel (S i) _) as [[now1 i1]|] eqn:E2; [|discriminate HN].
    cbn [mbind option_bind] in HN. apply waitPast_gt in E2; [|lia].
    rewrite (proj2 (Z.eqb_neq _ _)) in HN by lia. injection HN as <- <- <-.
    exists now1, 0. unfold kSequenceMask. split_and!; done || lia.
  - cbn [mbind option_bind] in HN. destruct (_ =? _) eqn:E3; bools.
    + destruct (Z.land _ _ =? 0) eqn:E4; bools.
      * destruct (waitPast fuel (S i) _) as [[now1 i1]|] eqn:E2; [|discriminate HN].
        rewrite E4 in HN. apply waitPast_gt in E2; [|lia]. injection HN as <- <- <-.
        exists now1, 0. unfold kSequenceMask. split_and!; done || lia.
      * injection HN as <- <- <-. do 2 eexists. split_and!; [done..| | |].
        -- rewrite land_mask. apply Z.mod_pos_bound. lia.
        -- rewrite land_mask. unfold kSequenceMask.
           pose proof (Z.mod_pos_bound (sequence_ g + 1) 4096 ltac:(lia)). lia.
        -- right. split; [lia|]. rewrite land_mask in *. unfold kSequenceMask in *.
           destruct (decide (sequence_ g = 4095)) as [HE|]; [by rewrite HE in E4|].
           apply Z.mod_small. lia.
    + injection HN as <- <- <-. eexists _, 0. unfold kSequenceMask. split_and!; done || lia.
Qed.

Lemma id_order g now seq :
  Inv g -> kEpochMs <= now -> 0 <= seq <= kSequenceMask ->
  (last_timestamp_ms_ g < now \/ (now = last_timestamp_ms_ g /\ seq = sequence_ g + 1)) ->
  let g' := mkGen (node_id_ g) now seq in
  let id := (now - kEpochMs) * 2 ^ 22 + node_id_ g * 2 ^ 12 + seq in
  Inv g' /\ node_id_ g' = node_id_ g /\ kEpochMs <= last_timestamp_ms_ g' /\ id = id_of g' /\
  (kEpochMs <= last_timestamp_ms_ g -> id_of g < id).
Proof.
  intros (Hn&Hs&Hl) Hnow Hseq Hord. cbv zeta. unfold Inv, id_of.
  cbn [last_timestamp_ms_ node_id_ sequence_].
  unfold kMaxNodeId, kSequenceMask in *. split_and!; lia.
Qed.

(** One call: the invariant is kept, the node is unchanged, time never goes
    back, and the result is the packed state, larger than the last one. *)
Lemma nextId_spec fuel i g id i' g' :
  Inv g -> last_timestamp_ms_ g <= kLastMs ->
  nextId fuel i g = Some (id, i', g') -> last_timestamp_ms_ g' <= kLastMs ->
  Inv g' /\ node_id_ g' = node_id_ g /\ kEpochMs <= last_timestamp_ms_ g' /\ id = id_of g' /\
  (kEpochMs <= last_timestamp_ms_ g -> id_of g < id).
Proof.
  intros HI Hmax HN Hmax'. pose proof HI as (Hn&Hs&Hl).
  destruct (nextId_shape _ _ _ _ _ _ HI Hmax HN) as (now&seq&Hg&Hnow&Hid&Hseq&Hord).
  rewrite pack_id in Hid; [|subst g'; rewrite kLastMs_eq in Hmax'; cbn [last_timestamp_ms_] in Hmax'; lia|done..].
  subst g' id. by apply id_order.
Qed.

Lemma waitNextMs_fuel fuel fuel' i last i' :
  (fuel <= fuel')%nat -> waitNextMs fuel i last = Some i' -> waitNextMs fuel' i last = Some i'.
Proof.
  revert fuel' i. induction fuel as [|fuel IH]; intros [|fuel'] i Hf HW; try done; [lia|].
  cbn [waitNextMs] in *. case_match; [done|]. apply IH; [lia|done].
Qed.

Lemma waitNextMs_ends k i last :
  last < clock (i + k)%nat -> exists i', waitNextMs (S k) i last = Some i'.
Proof.
  revert i. induction k as [|k IH]; intros i Hk; cbn [waitNextMs].
  - rewrite Nat.add_0_r in Hk. rewrite (proj2 (Z.ltb_lt last _)), orb_true_r by done. eauto.
  - case_match; [eauto|]. destruct (IH (S i)) as [i' E]; [by rewrite Nat.add_succ_comm|].
    exists i'. exact E.
Qed.

Lemma waitPast_le fuel i last now i' C :
  (forall k, clock k <= C) -> kEpochMs <= C -> 0 <= last <= kLastMs ->
  waitPast fuel i last = Some (now, i') -> now <= Z.max C (last + 1).
Proof.
  unfold waitPast, u64, kLastMs, clampEpoch. intros HC HE Hl HW.
  destruct (waitNextMs fuel i last) as [i1|]; [|discriminate HW]. injection HW as <- _.
  specialize (HC i1). pose proof (Z.mod_le (last + 1) 18446744073709551616 ltac:(lia) ltac:(lia)).
  repeat case_match; lia.
Qed.

(** The stored time stays below the clock's largest reading, or moves on by
    one millisecond. *)
Lemma nextId_le fuel i g id i' g' C :
  (forall k, clock k <= C) -> kEpochMs <= C -> 0 <= last_timestamp_ms_ g <= kLastMs ->
  nextId fuel i g = Some (id, i', g') ->
  last_timestamp_ms_ g' <= Z.max C (last_timestamp_ms_ g + 1).
Proof.
  intros HC HE Hl HN. unfold nextId in HN. cbv zeta in HN.
  assert (clampEpoch (clock i) <= C) by (unfold clampEpoch; specialize (HC i); destruct (_ <? kEpochMs); lia).
  destruct (if _ <? _ then _ else _) as [[now1 i1]|] eqn:E1; [|discriminate HN].
  assert (now1 <= Z.max C (last_timestamp_ms_ g + 1)) as H1.
  { destruct (_ <? last_timestamp_ms_ g); [by eapply waitPast_le|].
    injection E1 as <- <-. lia. }
  cbn [mbind option_bind] in HN. destruct (_ =? _).
  - destruct (Z.land _ _ =? 0); [|by injection HN as _ _ <-].
    destruct (waitPast fuel i1 _) as [[now2 i2]|] eqn:E2; [|discriminate HN].
    injection HN as _ _ <-. by eapply waitPast_le.
  - by injection HN as _ _ <-.
Qed.

Lemma nextIds_spec n fuel i g ids i' g' C :
  (forall k, clock k <= C) -> kEpochMs <= C -> C + Z.of_nat n <= kLastMs ->
  Inv g -> last_timestamp_ms_ g + Z.of_nat n <= kLastMs ->
  nextIds n fuel i g = Some (ids, i', g') ->
  StronglySorted Z.lt ids /\
  Forall (fun id => exists t q, id = t * 2 ^ 22 + node_id_ g * 2 ^ 12 + q /\
            0 <= t < 2 ^ 42 /\ 0 <= q < 2 ^ 12) ids /\
  (kEpochMs <= last_timestamp_ms_ g -> Forall (Z.lt (id_of g)) ids).
Proof.
  revert i g ids. induction n as [|n IH]; intros i g ids HC HE HCn HI Hmax HN; cbn [nextIds] in HN.
  { injection HN as <- <- <-. split_and!; try done; constructor. }
  destruct (nextId fuel i g) as [[[id i1] g1]|] eqn:E1; [|discriminate HN].
  cbn [mbind option_bind] in HN.
  destruct (nextIds n fuel i1 g1) as [[[ids1 i2] g2]|] eqn:E2; [|discriminate HN].
  injection HN as <- <- <-.
  assert (0 <= last_timestamp_ms_ g) as H0
    by (destruct HI as (_&_&[->|?]); unfold kEpochMs in *; lia).
  pose proof (nextId_le fuel i g id i1 g1 C HC HE ltac:(lia) E1) as Hle.
  destruct (nextId_spec fuel i g id i1 g1 HI ltac:(lia) E1 ltac:(lia)) as (HI1&Hnode&Hep&->&Hlt).
  destruct (IH i1 g1 ids1 HC HE ltac:(lia) HI1 ltac:(lia) E2) as (HS&HF&HG).
  rewrite Hnode in HF. split_and!; try done; try lia.
  - constructor; auto.
  - constructor; [|done]. unfold id_of. rewrite Hnode.
    destruct HI1 as (_&Hs&_). unfold kSequenceMask in Hs.
    exists (last_timestamp_ms_ g1 - kEpochMs), (sequence_ g1).
    rewrite kLastMs_eq in *. split_and!; lia.
  - intros Hep0. constructor; [auto|]. eapply Forall_impl; [by apply HG|].
    intros x Hx. simpl in *. specialize (Hlt Hep0). lia.
Qed.

Lemma waitPast_ends i last :
  (forall i t, exists k, t < clock (i + k)%nat) ->
  exists fuel now i', forall fuel', (fuel <= fuel')%nat -> waitPast fuel' i last = Some (now, i').
Proof.
  intros HL. destruct (HL i last) as [k Hk].
  destruct (waitNextMs_ends k i last Hk) as [i1 E]. exists (S k).
  do 2 eexists. intros fuel' Hf. unfold waitPast.
  rewrite (waitNextMs_fuel _ _ _ _ _ Hf E). reflexivity.
Qed.

End Clock.

(** ** Properties *)


(** A clock that goes back three milliseconds, stands still, and recovers. *)
Definition sample_clock (k : nat) : Z :=
  if decide (k = 2)%nat then 1767225600002
  else if decide (k < 5)%nat then 1767225600005 else 1767225600007.


(** Generators with different node numbers never hand out the same
    identifier, whatever their clocks show. *)
Theorem nodes_never_collide (clock clock' : nat -> Z) (n n' fuel fuel' i i' : nat) (a b : Z)
    ids j g ids' j' g' :
  0 <= a <= kMaxNodeId -> 0 <= b <= kMaxNodeId -> a <> b ->
  Z.of_nat n < 2 ^ 42 -> (forall k, clock k + Z.of_nat n <= kLastMs) ->
  Z.of_nat n' < 2 ^ 42 -> (forall k, clock' k + Z.of_nat n' <= kLastMs) ->
  nextIds clock n fuel i (MessageIdGenerator_new a) = Some (ids, j, g) ->
  nextIds clock' n' fuel' i' (MessageIdGenerator_new b) = Some (ids', j', g') ->
  forall id, id ∈ ids -> id ∉ ids'.
Proof.
  intros Ha Hb Hne Hn HC Hn' HC' HN HN' id Hin Hin'.
  assert (forall m clk f k x l k' y, 0 <= x <= kMaxNodeId -> Z.of_nat m < 2 ^ 42 ->
    (forall k, clk k + Z.of_nat m <= kLastMs) ->
    nextIds clk m f k (MessageIdGenerator_new x) = Some (l, k', y) -> id ∈ l ->
    exists t q, id = t * 2 ^ 22 + x * 2 ^ 12 + q /\ 0 <= t < 2 ^ 42 /\ 0 <= q < 2 ^ 12) as Hshape.
  { clear. intros m clk f k x l k' y Hx Hm HC HN Hin.
    assert (node_id_ (MessageIdGenerator_new x) = x) as Hid.
    { simpl. destruct (kMaxNodeId <? x) eqn:E; bools; lia. }
    assert (forall k, clk k <= kLastMs - Z.of_nat m) as HC1 by (intros j; specialize (HC j); lia).
    destruct (nextIds_spec clk m f k _ l k' y (kLastMs - Z.of_nat m) HC1
      ltac:(rewrite kLastMs_eq; lia) ltac:(lia) (gen_Inv_new x ltac:(lia))
      ltac:(simpl; rewrite kLastMs_eq; unfold kEpochMs; lia) HN) as (_&HF&_).
    rewrite Hid in HF. rewrite Forall_forall in HF. by apply HF. }
  destruct (Hshape _ _ _ _ _ _ _ _ Ha Hn HC HN Hin) as (t&q&E1&?&?).
  destruct (Hshape _ _ _ _ _ _ _ _ Hb Hn' HC' HN' Hin') as (t'&q'&E2&?&?).
  unfold kMaxNodeId in *. lia.
Qed.

Lemma nodes_never_collide_witness : 29396992 ∉ [21004288; 21004289; 29392896; 29392897].
Proof.
  assert (nextIds sample_clock 4 5 0 (MessageIdGenerator_new 9) =
    Some ([21008384; 21008385; 29396992; 29396993], 8%nat, mkGen 9 1767225600007 1)) as E
    by (by vm_compute).
  assert (nextIds sample_clock 4 5 0 (MessageIdGenerator_new 8) =
    Some ([21004288; 21004289; 29392896; 29392897], 8%nat, mkGen 8 1767225600007 1)) as E'
    by (by vm_compute).
  assert (forall k, sample_clock k + Z.of_nat 4 <= kLastMs) as HC
    by (intros k; unfold sample_clock, kLastMs; repeat case_decide; lia).
  refine (nodes_never_collide _ _ _ _ _ _ _ _ 9 8 _ _ _ _ _ _ _ _ _ _ HC _ HC E E' 29396992 _);
    try (unfold kMaxNodeId; lia). apply list_elem_of_In. cbn. auto.
Defined.

(** [nextId] returns: if the clock keeps passing every point in time, the
    waits end and every call yields an identifier. *)
Theorem nextId_returns (clock : nat -> Z) (i : nat) (g : MessageIdGenerator) :
  (forall i t, exists k, t < clock (i + k)%nat) ->
  exists fuel r, nextId clock fuel i g = Some r.
Proof.
  intros HL. set (last := last_timestamp_ms_ g).
  destruct (waitPast_ends clock (S i) last HL) as (f1&now1&i1&E1).
  destruct (waitPast_ends clock i1 last HL) as (f2&now2&i2&E2).
  exists (f1 + f2)%nat. unfold nextId. fold last.
  specialize (E1 (f1 + f2)%nat ltac:(lia)). specialize (E2 (f1 + f2)%nat ltac:(lia)).
  destruct (_ <? last); [rewrite E1|]; cbn [mbind option_bind];
    (destruct (_ =? last); [|eauto]); (destruct (Z.land _ _ =? 0); [|eauto]).
  - rewrite E2. eauto.
  - rewrite E1. eauto.
Qed.

Lemma nextId_returns_witness :
  exists fuel r, nextId (fun k => 1767225600000 + Z.of_nat k / 5000) fuel 0
                   (mkGen 3 1767225600000 4095) = Some r.
Proof.
  apply nextId_returns. intros i t.
  exists (Z.to_nat (5000 * Z.max 0 (t - 1767225600000 + 1))).
  rewrite Nat2Z.inj_add, Z2Nat.id by lia.
  assert (Z.max 0 (t - 1767225600000 + 1) <=
    (Z.of_nat i + 5000 * Z.max 0 (t - 1767225600000 + 1)) / 5000); [|lia].
  apply Z.div_le_lower_bound; lia.
Defined.

End MessageIdGenerator.

Module ConversationId.

Definition fnv1a64 (input : string) : Z :=
  fold_left (fun hash c => u64 (Z.lxor hash (Z.of_N (N_of_ascii c)) * 1099511628211))
    (String.list_ascii_of_string input) 1469598103934665603.

(** The text that is hashed, for a pair of users and for a group. *)
Definition single_key (user_a user_b : Z) : string :=
  let a := Z.min user_a user_b in
  let b := Z.max user_a user_b in
  "single:" +:+ to_string a +:+ ":" +:+ to_string b.

Definition group_key (group_id : Z) : string := "group:" +:+ to_string group_id.

Definition single (user_a user_b : Z) : Z := fnv1a64 (single_key user_a user_b).
Definition group (group_id : Z) : Z := fnv1a64 (group_key group_id).

Lemma fnv1a64_range s : is_u64 (fnv1a64 s).
Proof.
  unfold fnv1a64. assert (is_u64 1469598103934665603) as Hh by (unfold is_u64; lia).
  revert Hh. generalize 1469598103934665603.
  induction (String.list_ascii_of_string s) as [|c l IH]; intros h Hh; [done|].
  simpl. apply IH. unfold is_u64, u64. apply Z.mod_pos_bound. lia.
Qed.

(** A conversation's identifier is 64 bits wide and does not depend on
    who writes first; the hashed text is different for different pairs of
    users and never that of a group, so conversations can share an identifier
    only through a collision of the hash. *)
Theorem conversation_ids (a b c d g : Z) :
  0 <= a -> 0 <= b -> 0 <= c -> 0 <= d ->
  single a b = single b a /\ is_u64 (single a b) /\ is_u64 (group g) /\
  (single_key a b = single_key c d <-> (a = c /\ b = d) \/ (a = d /\ b = c)) /\
  single_key a b <> group_key g.
Proof.
  intros Ha Hb Hc Hd. split_and!; try apply fnv1a64_range.
  - unfold single, single_key. by rewrite Z.min_comm, Z.max_comm.
  - split.
    + unfold single_key. intros E. cbv zeta in E. apply app_inj_l in E.
      apply number_colon_inj in E as [E1 E2]; [|lia..]. apply to_string_inj in E2. lia.
    + intros [[-> ->]|[-> ->]]; [done|]. unfold single_key. by rewrite Z.min_comm, Z.max_comm.
  - discriminate.
Qed.

Lemma conversation_ids_witness :
  single 7 3 = single 3 7 /\ single_key 7 3 <> group_key 3.
Proof.
  split; [apply (conversation_ids 7 3 0 0 0); lia|apply (conversation_ids 7 3 0 0 3); lia].
Defined.

End ConversationId.
