(* ===== verification/Rpc.v ===== *)
(** * What every service shares: error codes, responses, caller checks, traces

    [common/error/ErrorCode], the [CommonResponse] every handler fills,
    [common/rpc/InternalRpcAuth], [common/rpc/RpcMetadata] and
    [common/trace/TraceContext].  SHA-256 (OpenSSL) and the random trace id
    are parameters. *)

From S2P Require Import Prelude Words Text.

Module ErrorCode.

Inductive ErrorCode :=
| EC_OK | UNKNOWN_ERROR | INVALID_ARGUMENT | CONFIG_LOAD_FAILED
| EC_INTERNAL_ERROR | NETWORK_ERROR | CONNECTION_CLOSED | PACKET_INVALID
| PACKET_TOO_LARGE | AUTH_FAILED | TOKEN_INVALID | USER_NOT_FOUND
| USER_ALREADY_EXISTS | PASSWORD_TOO_SHORT | USERNAME_EMPTY | PASSWORD_EMPTY
| TOKEN_EXPIRED | DB_ERROR | REDIS_ERROR | KAFKA_ERROR
| FRIEND_ALREADY_EXISTS | FRIEND_NOT_FOUND | CANNOT_ADD_SELF | GROUP_NOT_FOUND
| GROUP_ALREADY_JOINED | GROUP_NOT_MEMBER | GROUP_OWNER_CANNOT_LEAVE | GROUP_PERMISSION_DENIED
| MESSAGE_EMPTY | MESSAGE_TOO_LARGE | MESSAGE_NOT_FOUND | MESSAGE_DUPLICATED
| MESSAGE_PERSIST_FAILED | MESSAGE_KAFKA_FAILED | MESSAGE_ACK_FAILED | MESSAGE_PERMISSION_DENIED
| INVALID_CONVERSATION | PUSH_FAILED | PUSH_GATEWAY_NOT_FOUND | PUSH_GATEWAY_RPC_FAILED
| PUSH_OFFLINE_SAVE_FAILED | PUSH_RETRY_FAILED | PUSH_DLQ_FAILED | PUSH_INVALID_MESSAGE
| GATEWAY_NOT_AUTHENTICATED | GATEWAY_ALREADY_AUTHENTICATED | GATEWAY_INVALID_PACKET | GATEWAY_BACKEND_RPC_FAILED
| GATEWAY_CONNECTION_NOT_FOUND | GATEWAY_ONLINE_STATE_FAILED | GATEWAY_PERMISSION_DENIED | GATEWAY_HEARTBEAT_TIMEOUT
| RATE_LIMITED | SERVICE_UNAVAILABLE | CIRCUIT_OPEN | FRIEND_REQUEST_NOT_FOUND
| FRIEND_REQUEST_ALREADY_EXISTS | FRIEND_REQUEST_ALREADY_HANDLED | CONVERSATION_NOT_FOUND | MESSAGE_RECALL_TIMEOUT
| MESSAGE_RECALL_PERMISSION_DENIED | MESSAGE_ALREADY_RECALLED | DEVICE_NOT_FOUND | TOKEN_REFRESH_FAILED
| OUTBOX_EVENT_NOT_FOUND | OUTBOX_PUBLISH_FAILED.

Definition error_value (c : ErrorCode) : Z :=
  match c with
  | EC_OK => 0 | UNKNOWN_ERROR => 1000 | INVALID_ARGUMENT => 1001
  | CONFIG_LOAD_FAILED => 1002 | EC_INTERNAL_ERROR => 1003 | NETWORK_ERROR => 2000
  | CONNECTION_CLOSED => 2001 | PACKET_INVALID => 2002 | PACKET_TOO_LARGE => 2003
  | AUTH_FAILED => 3000 | TOKEN_INVALID => 3001 | USER_NOT_FOUND => 3002
  | USER_ALREADY_EXISTS => 3003 | PASSWORD_TOO_SHORT => 3004 | USERNAME_EMPTY => 3005
  | PASSWORD_EMPTY => 3006 | TOKEN_EXPIRED => 3007 | DB_ERROR => 4000
  | REDIS_ERROR => 5000 | KAFKA_ERROR => 6000 | FRIEND_ALREADY_EXISTS => 7001
  | FRIEND_NOT_FOUND => 7002 | CANNOT_ADD_SELF => 7003 | GROUP_NOT_FOUND => 7101
  | GROUP_ALREADY_JOINED => 7102 | GROUP_NOT_MEMBER => 7103 | GROUP_OWNER_CANNOT_LEAVE => 7104
  | GROUP_PERMISSION_DENIED => 7105 | MESSAGE_EMPTY => 8001 | MESSAGE_TOO_LARGE => 8002
  | MESSAGE_NOT_FOUND => 8003 | MESSAGE_DUPLICATED => 8004 | MESSAGE_PERSIST_FAILED => 8005
  | MESSAGE_KAFKA_FAILED => 8006 | MESSAGE_ACK_FAILED => 8007 | MESSAGE_PERMISSION_DENIED => 8008
  | INVALID_CONVERSATION => 8009 | PUSH_FAILED => 9001 | PUSH_GATEWAY_NOT_FOUND => 9002
  | PUSH_GATEWAY_RPC_FAILED => 9003 | PUSH_OFFLINE_SAVE_FAILED => 9004 | PUSH_RETRY_FAILED => 9005
  | PUSH_DLQ_FAILED => 9006 | PUSH_INVALID_MESSAGE => 9007 | GATEWAY_NOT_AUTHENTICATED => 10001
  | GATEWAY_ALREADY_AUTHENTICATED => 10002 | GATEWAY_INVALID_PACKET => 10003 | GATEWAY_BACKEND_RPC_FAILED => 10004
  | GATEWAY_CONNECTION_NOT_FOUND => 10005 | GATEWAY_ONLINE_STATE_FAILED => 10006 | GATEWAY_PERMISSION_DENIED => 10007
  | GATEWAY_HEARTBEAT_TIMEOUT => 10008 | RATE_LIMITED => 11001 | SERVICE_UNAVAILABLE => 11002
  | CIRCUIT_OPEN => 11003 | FRIEND_REQUEST_NOT_FOUND => 12001 | FRIEND_REQUEST_ALREADY_EXISTS => 12002
  | FRIEND_REQUEST_ALREADY_HANDLED => 12003 | CONVERSATION_NOT_FOUND => 13001 | MESSAGE_RECALL_TIMEOUT => 14001
  | MESSAGE_RECALL_PERMISSION_DENIED => 14002 | MESSAGE_ALREADY_RECALLED => 14003 | DEVICE_NOT_FOUND => 15001
  | TOKEN_REFRESH_FAILED => 15002 | OUTBOX_EVENT_NOT_FOUND => 16001 | OUTBOX_PUBLISH_FAILED => 16002
  end.

Definition errorCodeToString (c : ErrorCode) : string :=
  match c with
  | EC_OK => "OK"
  | UNKNOWN_ERROR => "UNKNOWN_ERROR"
  | INVALID_ARGUMENT => "INVALID_ARGUMENT"
  | CONFIG_LOAD_FAILED => "CONFIG_LOAD_FAILED"
  | EC_INTERNAL_ERROR => "INTERNAL_ERROR"
  | NETWORK_ERROR => "NETWORK_ERROR"
  | CONNECTION_CLOSED => "CONNECTION_CLOSED"
  | PACKET_INVALID => "PACKET_INVALID"
  | PACKET_TOO_LARGE => "PACKET_TOO_LARGE"
  | AUTH_FAILED => "AUTH_FAILED"
  | TOKEN_INVALID => "TOKEN_INVALID"
  | USER_NOT_FOUND => "USER_NOT_FOUND"
  | USER_ALREADY_EXISTS => "USER_ALREADY_EXISTS"
  | PASSWORD_TOO_SHORT => "PASSWORD_TOO_SHORT"
  | USERNAME_EMPTY => "USERNAME_EMPTY"
  | PASSWORD_EMPTY => "PASSWORD_EMPTY"
  | TOKEN_EXPIRED => "TOKEN_EXPIRED"
  | DB_ERROR => "DB_ERROR"
  | REDIS_ERROR => "REDIS_ERROR"
  | KAFKA_ERROR => "KAFKA_ERROR"
  | FRIEND_ALREADY_EXISTS => "FRIEND_ALREADY_EXISTS"
  | FRIEND_NOT_FOUND => "FRIEND_NOT_FOUND"
  | CANNOT_ADD_SELF => "CANNOT_ADD_SELF"
  | GROUP_NOT_FOUND => "GROUP_NOT_FOUND"
  | GROUP_ALREADY_JOINED => "GROUP_ALREADY_JOINED"
  | GROUP_NOT_MEMBER => "GROUP_NOT_MEMBER"
  | GROUP_OWNER_CANNOT_LEAVE => "GROUP_OWNER_CANNOT_LEAVE"
  | GROUP_PERMISSION_DENIED => "GROUP_PERMISSION_DENIED"
  | MESSAGE_EMPTY => "MESSAGE_EMPTY"
  | MESSAGE_TOO_LARGE => "MESSAGE_TOO_LARGE"
  | MESSAGE_NOT_FOUND => "MESSAGE_NOT_FOUND"
  | MESSAGE_DUPLICATED => "MESSAGE_DUPLICATED"
  | MESSAGE_PERSIST_FAILED => "MESSAGE_PERSIST_FAILED"
  | MESSAGE_KAFKA_FAILED => "MESSAGE_KAFKA_FAILED"
  | MESSAGE_ACK_FAILED => "MESSAGE_ACK_FAILED"
  | MESSAGE_PERMISSION_DENIED => "MESSAGE_PERMISSION_DENIED"
  | INVALID_CONVERSATION => "INVALID_CONVERSATION"
  | PUSH_FAILED => "PUSH_FAILED"
  | PUSH_GATEWAY_NOT_FOUND => "PUSH_GATEWAY_NOT_FOUND"
  | PUSH_GATEWAY_RPC_FAILED => "PUSH_GATEWAY_RPC_FAILED"
  | PUSH_OFFLINE_SAVE_FAILED => "PUSH_OFFLINE_SAVE_FAILED"
  | PUSH_RETRY_FAILED => "PUSH_RETRY_FAILED"
  | PUSH_DLQ_FAILED => "PUSH_DLQ_FAILED"
  | PUSH_INVALID_MESSAGE => "PUSH_INVALID_MESSAGE"
  | GATEWAY_NOT_AUTHENTICATED => "GATEWAY_NOT_AUTHENTICATED"
  | GATEWAY_ALREADY_AUTHENTICATED => "GATEWAY_ALREADY_AUTHENTICATED"
  | GATEWAY_INVALID_PACKET => "GATEWAY_INVALID_PACKET"
  | GATEWAY_BACKEND_RPC_FAILED => "GATEWAY_BACKEND_RPC_FAILED"
  | GATEWAY_CONNECTION_NOT_FOUND => "GATEWAY_CONNECTION_NOT_FOUND"
  | GATEWAY_ONLINE_STATE_FAILED => "GATEWAY_ONLINE_STATE_FAILED"
  | GATEWAY_PERMISSION_DENIED => "GATEWAY_PERMISSION_DENIED"
  | GATEWAY_HEARTBEAT_TIMEOUT => "GATEWAY_HEARTBEAT_TIMEOUT"
  | RATE_LIMITED => "RATE_LIMITED"
  | SERVICE_UNAVAILABLE => "SERVICE_UNAVAILABLE"
  | CIRCUIT_OPEN => "CIRCUIT_OPEN"
  | FRIEND_REQUEST_NOT_FOUND => "FRIEND_REQUEST_NOT_FOUND"
  | FRIEND_REQUEST_ALREADY_EXISTS => "FRIEND_REQUEST_ALREADY_EXISTS"
  | FRIEND_REQUEST_ALREADY_HANDLED => "FRIEND_REQUEST_ALREADY_HANDLED"
  | CONVERSATION_NOT_FOUND => "CONVERSATION_NOT_FOUND"
  | MESSAGE_RECALL_TIMEOUT => "MESSAGE_RECALL_TIMEOUT"
  | MESSAGE_RECALL_PERMISSION_DENIED => "MESSAGE_RECALL_PERMISSION_DENIED"
  | MESSAGE_ALREADY_RECALLED => "MESSAGE_ALREADY_RECALLED"
  | DEVICE_NOT_FOUND => "DEVICE_NOT_FOUND"
  | TOKEN_REFRESH_FAILED => "TOKEN_REFRESH_FAILED"
  | OUTBOX_EVENT_NOT_FOUND => "OUTBOX_EVENT_NOT_FOUND"
  | OUTBOX_PUBLISH_FAILED => "OUTBOX_PUBLISH_FAILED"
  end.

#[global] Instance ErrorCode_eq_dec : EqDecision ErrorCode.
Proof. solve_decision. Defined.

Lemma error_value_inj a b : error_value a = error_value b -> a = b.
Proof. destruct a, b; intros; by simplify_eq. Qed.

Lemma error_value_ok c : error_value c = 0 -> c = EC_OK.
Proof. by destruct c. Qed.

End ErrorCode.
Export ErrorCode.

(** ** Responses *)

Record CommonResponse := mkResponse {
  r_code : Z;
  r_message : string;
  r_request_id : string
}.

(** A response nobody has filled: the protobuf defaults. *)
Definition empty_response : CommonResponse := mkResponse 0 EmptyString EmptyString.

Definition fillResponse (request_id : string) (code : ErrorCode) (message : string) : CommonResponse :=
  mkResponse (error_value code)
    (if bool_decide (message = EmptyString) then errorCodeToString code else message)
    (if bool_decide (request_id = EmptyString) then "request-id-empty" else request_id).

(** ** Caller metadata and the internal token *)

(** The metadata of a call: keys may repeat, the first value counts. *)
Record ServerContext := mkContext { client_metadata : list (string * string) }.

Definition getMetadata (context : ServerContext) (key : string) : string :=
  match list_find (fun kv => kv.1 = key) (client_metadata context) with
  | Some (_, (_, v)) => v
  | None => EmptyString
  end.

Definition extractTraceId (context : ServerContext) : string :=
  getMetadata context "x-nebula-trace-id".
Definition extractAdminToken (context : ServerContext) : string :=
  getMetadata context "x-nebula-admin-token".
Definition extractInternalToken (context : ServerContext) : string :=
  getMetadata context "x-nebula-internal-token".

Record InternalRpcAuth := mkInternalRpcAuth {
  ira_enabled : bool;
  ira_token : string;
  ira_token_sha256_hex : string
}.

Definition authorize (sha256Hex : string -> string) (auth : InternalRpcAuth)
    (context : ServerContext) : bool :=
  if negb (ira_enabled auth) then true
  else
    let incoming := extractInternalToken context in
    if bool_decide (incoming = EmptyString) then false
    else if negb (bool_decide (ira_token_sha256_hex auth = EmptyString))
    then bool_decide (sha256Hex incoming = ira_token_sha256_hex auth)
    else negb (bool_decide (ira_token auth = EmptyString)) && bool_decide (incoming = ira_token auth).

(** ** Trace identifiers *)

Definition trace_char (c : ascii) : bool :=
  let n := N_of_ascii c in
  ((48 <=? n) && (n <=? 57))%N || ((97 <=? n) && (n <=? 102))%N ||
  ((65 <=? n) && (n <=? 70))%N || (n =? 45)%N.

Definition isValid (trace_id : string) : bool :=
  let size := Z.of_nat (String.length trace_id) in
  if (size <? 16) || (64 <? size) then false else string_all trace_char trace_id.

(** [ensureTraceId]: the new content of the thread's trace id, which is also
    the result; [generated] is what [TraceId::generate] would give. *)
Definition ensureTraceId (generated candidate tls_trace_id : string) : string :=
  if isValid candidate then candidate
  else if bool_decide (tls_trace_id = EmptyString) then generated
  else tls_trace_id.
