(* ===== verification/Db.v ===== *)
(** * The relational store, the clock and the caller's thread

    The tables of deploy/mysql/migration as lists of rows in insertion order,
    a session with at most one open transaction
    (common/db/MySqlTransaction.cpp) and the world a service handler runs in.

    SQL is a language of the source: every statement is translated to the
    function on tables it denotes.  What the server decides is left open: each
    call has an [outcome] taken from an arbitrary sequence.  [Done] is a
    statement that ran, [Refused] one that did not, [Lost] one that ran while
    its caller was told that it failed (a lost answer); statements of a
    transaction that is not committed change nothing.  A transaction left
    without COMMIT is discarded: the destructor sends ROLLBACK, and a ROLLBACK
    that fails comes with the end of the session. *)

From S2P Require Import Prelude Words Text MessageId.
Import MessageIdGenerator.

Record User := mkUser {
  u_id : Z; u_username : string; u_password_hash : string; u_nickname : string;
  u_avatar : string; u_created_at : Z; u_updated_at : Z
}.

Record Friendship := mkFriendship {
  fs_user_id : Z; fs_friend_id : Z; fs_status : Z; fs_created_at : Z; fs_updated_at : Z
}.

Record GroupRow := mkGroupRow {
  g_id : Z; g_group_name : string; g_owner_id : Z; g_created_at : Z; g_updated_at : Z
}.

Record GroupMember := mkGroupMember {
  gm_group_id : Z; gm_user_id : Z; gm_role : Z; gm_created_at : Z; gm_updated_at : Z
}.

(** [client_sequence_id] is NULL in the table where it is 0 here. *)
Record MessageRecord := mkMessage {
  m_message_id : Z; m_conversation_id : Z; m_from_user_id : Z; m_client_sequence_id : Z;
  m_to_user_id : Z; m_group_id : Z; m_message_type : Z; m_content : string; m_status : Z;
  m_recalled : bool; m_recalled_at : Z; m_created_at : Z; m_updated_at : Z
}.

Record OfflineMessage := mkOffline {
  om_user_id : Z; om_message_id : Z; om_payload : string; om_status : Z;
  om_created_at : Z; om_updated_at : Z
}.

Record Conversation := mkConversation {
  c_conversation_id : Z; c_conversation_type : Z; c_owner_user_id : Z; c_peer_user_id : Z;
  c_group_id : Z; c_last_message_id : Z; c_last_message_preview : string;
  c_last_message_at : Z; c_unread_count : Z; c_pinned : bool; c_muted : bool;
  c_deleted : bool; c_created_at : Z; c_updated_at : Z
}.

Record MessageReceipt := mkReceipt {
  rc_message_id : Z; rc_user_id : Z; rc_delivered_at : Z; rc_read_at : Z;
  rc_created_at : Z; rc_updated_at : Z
}.

Record OutboxEvent := mkEvent {
  e_event_id : Z; e_aggregate_type : string; e_aggregate_id : Z; e_topic : string;
  e_event_key : string; e_payload : string; e_status : Z; e_retry_count : Z;
  e_next_retry_at : Z; e_created_at : Z; e_updated_at : Z; e_trace_id : string;
  e_claim_token : string
}.

Record FriendRequest := mkFriendRequest {
  fr_id : Z; fr_from_user_id : Z; fr_to_user_id : Z; fr_message : string; fr_status : Z;
  fr_created_at : Z; fr_updated_at : Z
}.

Record UserDevice := mkDevice {
  ud_user_id : Z; ud_device_id : string; ud_platform : string; ud_device_name : string;
  ud_token_hash : string; ud_last_login_at : Z; ud_last_active_at : Z;
  ud_created_at : Z; ud_updated_at : Z
}.

#[global] Instance User_eq_dec : EqDecision User. Proof. solve_decision. Defined.
#[global] Instance Friendship_eq_dec : EqDecision Friendship. Proof. solve_decision. Defined.
#[global] Instance GroupRow_eq_dec : EqDecision GroupRow. Proof. solve_decision. Defined.
#[global] Instance GroupMember_eq_dec : EqDecision GroupMember. Proof. solve_decision. Defined.
#[global] Instance MessageRecord_eq_dec : EqDecision MessageRecord. Proof. solve_decision. Defined.
#[global] Instance OfflineMessage_eq_dec : EqDecision OfflineMessage. Proof. solve_decision. Defined.
#[global] Instance Conversation_eq_dec : EqDecision Conversation. Proof. solve_decision. Defined.
#[global] Instance MessageReceipt_eq_dec : EqDecision MessageReceipt. Proof. solve_decision. Defined.
#[global] Instance OutboxEvent_eq_dec : EqDecision OutboxEvent. Proof. solve_decision. Defined.
#[global] Instance FriendRequest_eq_dec : EqDecision FriendRequest. Proof. solve_decision. Defined.
#[global] Instance UserDevice_eq_dec : EqDecision UserDevice. Proof. solve_decision. Defined.

(** The tables; the last three fields are the AUTO_INCREMENT counters the code
    reads back with [lastInsertId]. *)
Record Db := mkDb {
  users : list User;
  friendships : list Friendship;
  groups : list GroupRow;
  group_members : list GroupMember;
  messages : list MessageRecord;
  offline_messages : list OfflineMessage;
  conversations : list Conversation;
  message_receipts : list MessageReceipt;
  outbox_events : list OutboxEvent;
  friend_requests : list FriendRequest;
  user_devices : list UserDevice;
  next_user_id : Z;
  next_group_id : Z;
  next_request_id : Z
}.

Definition empty_db : Db := mkDb [] [] [] [] [] [] [] [] [] [] [] 1 1 1.

Definition set_users (t : list User) (d : Db) : Db :=
  mkDb t (friendships d) (groups d) (group_members d) (messages d) (offline_messages d)
    (conversations d) (message_receipts d) (outbox_events d) (friend_requests d)
    (user_devices d) (next_user_id d) (next_group_id d) (next_request_id d).
Definition set_friendships (t : list Friendship) (d : Db) : Db :=
  mkDb (users d) t (groups d) (group_members d) (messages d) (offline_messages d)
    (conversations d) (message_receipts d) (outbox_events d) (friend_requests d)
    (user_devices d) (next_user_id d) (next_group_id d) (next_request_id d).
Definition set_groups (t : list GroupRow) (d : Db) : Db :=
  mkDb (users d) (friendships d) t (group_members d) (messages d) (offline_messages d)
    (conversations d) (message_receipts d) (outbox_events d) (friend_requests d)
    (user_devices d) (next_user_id d) (next_group_id d) (next_request_id d).
Definition set_group_members (t : list GroupMember) (d : Db) : Db :=
  mkDb (users d) (friendships d) (groups d) t (messages d) (offline_messages d)
    (conversations d) (message_receipts d) (outbox_events d) (friend_requests d)
    (user_devices d) (next_user_id d) (next_group_id d) (next_request_id d).
Definition set_messages (t : list MessageRecord) (d : Db) : Db :=
  mkDb (users d) (friendships d) (groups d) (group_members d) t (offline_messages d)
    (conversations d) (message_receipts d) (outbox_events d) (friend_requests d)
    (user_devices d) (next_user_id d) (next_group_id d) (next_request_id d).
Definition set_offline_messages (t : list OfflineMessage) (d : Db) : Db :=
  mkDb (users d) (friendships d) (groups d) (group_members d) (messages d) t
    (conversations d) (message_receipts d) (outbox_events d) (friend_requests d)
    (user_devices d) (next_user_id d) (next_group_id d) (next_request_id d).
Definition set_conversations (t : list Conversation) (d : Db) : Db :=
  mkDb (users d) (friendships d) (groups d) (group_members d) (messages d) (offline_messages d)
    t (message_receipts d) (outbox_events d) (friend_requests d)
    (user_devices d) (next_user_id d) (next_group_id d) (next_request_id d).
Definition set_message_receipts (t : list MessageReceipt) (d : Db) : Db :=
  mkDb (users d) (friendships d) (groups d) (group_members d) (messages d) (offline_messages d)
    (conversations d) t (outbox_events d) (friend_requests d)
    (user_devices d) (next_user_id d) (next_group_id d) (next_request_id d).
Definition set_outbox_events (t : list OutboxEvent) (d : Db) : Db :=
  mkDb (users d) (friendships d) (groups d) (group_members d) (messages d) (offline_messages d)
    (conversations d) (message_receipts d) t (friend_requests d)
    (user_devices d) (next_user_id d) (next_group_id d) (next_request_id d).
Definition set_friend_requests (t : list FriendRequest) (d : Db) : Db :=
  mkDb (users d) (friendships d) (groups d) (group_members d) (messages d) (offline_messages d)
    (conversations d) (message_receipts d) (outbox_events d) t
    (user_devices d) (next_user_id d) (next_group_id d) (next_request_id d).
Definition set_user_devices (t : list UserDevice) (d : Db) : Db :=
  mkDb (users d) (friendships d) (groups d) (group_members d) (messages d) (offline_messages d)
    (conversations d) (message_receipts d) (outbox_events d) (friend_requests d)
    t (next_user_id d) (next_group_id d) (next_request_id d).
Definition set_counters (u g r : Z) (d : Db) : Db :=
  mkDb (users d) (friendships d) (groups d) (group_members d) (messages d) (offline_messages d)
    (conversations d) (message_receipts d) (outbox_events d) (friend_requests d)
    (user_devices d) u g r.

(** ** Statements on one table *)

Section Sql.
Context {A : Type} `{!EqDecision A}.
Implicit Types (P : A -> bool) (f : A -> A) (t : list A).

(** UPDATE t SET f WHERE P *)
Definition sql_update P f t : list A := map (fun r => if P r then f r else r) t.

(** The rows an UPDATE changes: the server counts rows whose values differ. *)
Definition sql_affected P f t : Z :=
  Z.of_nat (length (filter (fun r => P r = true /\ f r <> r) t)).

(** INSERT ... ON DUPLICATE KEY UPDATE: [same] finds the row with the key. *)
Definition sql_upsert (same : A -> bool) (row : A) f t : list A :=
  if existsb same t then sql_update same f t else t ++ [row].

(** SELECT ... WHERE P, and COUNT of it. *)
Definition sql_select P t : list A := filter (fun r => P r = true) t.
Definition sql_count P t : Z := Z.of_nat (length (sql_select P t)).

(** SELECT ... WHERE P LIMIT 1. *)
Definition sql_first P t : option A := List.find P t.

End Sql.

(** ** The world of a handler *)

Inductive outcome := Done | Refused | Lost.

Inductive redis_cmd := SetEx (key : string) (ttl : Z) (value : string).

Record world := mkWorld {
  w_db : Db;                      (** what is committed *)
  w_tx : option Db;               (** the open transaction of the handler's connection *)
  w_ops : nat;                    (** calls made to the server so far *)
  w_clk : nat;                    (** readings of the system clock so far *)
  w_gen : MessageIdGenerator;     (** the service's identifier generator *)
  w_trace : string;               (** the thread's trace id *)
  w_traces : nat;                 (** trace ids generated so far *)
  w_redis : list redis_cmd;       (** what was written to Redis, latest first *)
  w_metrics : list string;        (** counters incremented, latest first *)
  w_kafka : list (string * string * string)
                                  (** topic, key and payload of what Kafka holds, latest first *)
}.

Definition set_db (d : Db) (w : world) : world :=
  mkWorld d (w_tx w) (w_ops w) (w_clk w) (w_gen w) (w_trace w) (w_traces w) (w_redis w) (w_metrics w)
    (w_kafka w).
Definition set_tx (t : option Db) (w : world) : world :=
  mkWorld (w_db w) t (w_ops w) (w_clk w) (w_gen w) (w_trace w) (w_traces w) (w_redis w) (w_metrics w)
    (w_kafka w).
Definition set_ops (n : nat) (w : world) : world :=
  mkWorld (w_db w) (w_tx w) n (w_clk w) (w_gen w) (w_trace w) (w_traces w) (w_redis w) (w_metrics w)
    (w_kafka w).
Definition set_clk (n : nat) (w : world) : world :=
  mkWorld (w_db w) (w_tx w) (w_ops w) n (w_gen w) (w_trace w) (w_traces w) (w_redis w) (w_metrics w)
    (w_kafka w).
Definition set_gen (g : MessageIdGenerator) (w : world) : world :=
  mkWorld (w_db w) (w_tx w) (w_ops w) (w_clk w) g (w_trace w) (w_traces w) (w_redis w) (w_metrics w)
    (w_kafka w).
Definition set_trace (t : string) (n : nat) (w : world) : world :=
  mkWorld (w_db w) (w_tx w) (w_ops w) (w_clk w) (w_gen w) t n (w_redis w) (w_metrics w)
    (w_kafka w).
Definition set_redis (l : list redis_cmd) (w : world) : world :=
  mkWorld (w_db w) (w_tx w) (w_ops w) (w_clk w) (w_gen w) (w_trace w) (w_traces w) l (w_metrics w)
    (w_kafka w).
Definition set_metrics (l : list string) (w : world) : world :=
  mkWorld (w_db w) (w_tx w) (w_ops w) (w_clk w) (w_gen w) (w_trace w) (w_traces w) (w_redis w) l
    (w_kafka w).
Definition set_kafka (l : list (string * string * string)) (w : world) : world :=
  mkWorld (w_db w) (w_tx w) (w_ops w) (w_clk w) (w_gen w) (w_trace w) (w_traces w) (w_redis w) (w_metrics w) l.

Definition M (A : Type) : Type := SM world A.

(** What is outside the program, as far as the store and the clock go: the
    outcome of the [n]-th call to the server, the [n]-th reading of the clock,
    the fuel for the generator's waiting loop, the [n]-th random trace id, the
    canonical form under which the server's collation compares text, and what
    Redis answers: any value for a key at any time, success or failure of a
    write, and the outcome of the delivery of a record to Kafka. *)
Record Env := mkEnv {
  env_fault : nat -> outcome;
  env_clock : nat -> Z;
  env_fuel : nat;
  env_trace : nat -> string;
  env_collate : string -> string;
  env_redis_get : nat -> string -> option string;
  env_redis_set : nat -> bool;
  env_kafka : nat -> outcome
}.

Section Session.
Context (E : Env).

(** One call to the server. *)
Definition call : M outcome :=
  fun w => Some (env_fault E (w_ops w), set_ops (S (w_ops w)) w).

(** [pool.acquire()]: true when a connection is handed out. *)
Definition acquire : M bool :=
  o ← call; mret (match o with Done => true | _ => false end).

(** [executeUpdate] on a connection in autocommit mode: the number of affected
    rows, or [None] when it returns false.  A statement that violates a
    constraint is [None] too and changes nothing. *)
Definition auto_update (stmt : Db -> option (Db * Z)) : M (option Z) :=
  o ← call;
  w ← get_state;
  match o, stmt (w_db w) with
  | Done, Some (d, n) => modify (set_db d);; mret (Some n)
  | Lost, Some (d, _) => modify (set_db d);; mret None
  | _, _ => mret None
  end.

(** [executeQuery] outside a transaction: [None] when it returns null. *)
Definition auto_query {A} (q : Db -> A) : M (option A) :=
  o ← call; w ← get_state;
  mret (match o with Done => Some (q (w_db w)) | _ => None end).

(** [executeUpdate] on the connection of the open transaction. *)
Definition tx_update (stmt : Db -> option (Db * Z)) : M (option Z) :=
  o ← call;
  w ← get_state;
  match o, w_tx w with
  | Done, Some t =>
      match stmt t with
      | Some (d, n) => modify (set_tx (Some d));; mret (Some n)
      | None => mret None
      end
  | _, _ => mret None
  end.

Definition tx_query {A} (q : Db -> A) : M (option A) :=
  o ← call; w ← get_state;
  mret (match o, w_tx w with Done, Some t => Some (q t) | _, _ => None end).

(** The constructor of [MySqlTransaction]: true when it is active. *)
Definition tx_begin : M bool :=
  o ← call; w ← get_state;
  match o with
  | Done => modify (set_tx (Some (w_db w)));; mret true
  | _ => mret false
  end.

Definition tx_commit : M bool :=
  w ← get_state;
  match w_tx w with
  | None => mret false
  | Some d =>
      o ← call;
      match o with
      | Done => modify (fun w => set_tx None (set_db d w));; mret true
      | Lost => modify (fun w => set_tx None (set_db d w));; mret false
      | Refused => mret false
      end
  end.

Definition tx_rollback : M bool :=
  w ← get_state;
  match w_tx w with
  | None => mret false
  | Some _ =>
      o ← call; modify (set_tx None);;
      mret (match o with Done => true | _ => false end)
  end.

(** A block with a [MySqlTransaction]: the destructor runs on every exit. *)
Definition tx_scope {A} (body : M A) : M A :=
  a ← body; tx_rollback;; mret a.

(** [TimeUtil::nowMs()]. *)
Definition nowMs : M Z :=
  fun w => Some (env_clock E (w_clk w), set_clk (S (w_clk w)) w).

(** [UNIX_TIMESTAMP()*1000] in a statement: the server's time, in whole
    seconds. *)
Definition unix_ms : M Z :=
  fun w => Some (env_clock E (w_clk w) / 1000 * 1000, set_clk (S (w_clk w)) w).

Definition generate_trace : M string :=
  fun w => Some (env_trace E (w_traces w), set_trace (w_trace w) (S (w_traces w)) w).

Definition inc_metric (name : string) : M unit :=
  modify (fun w => set_metrics (name :: w_metrics w) w).

(** [RedisClient::get] and [RedisClient::setEx]. *)
Definition redis_get (key : string) : M (option string) :=
  fun w => Some (env_redis_get E (w_ops w) key, set_ops (S (w_ops w)) w).

Definition redis_setEx (key : string) (ttl : Z) (value : string) : M bool :=
  fun w => let w' := set_ops (S (w_ops w)) w in
           if env_redis_set E (w_ops w)
           then Some (true, set_redis (SetEx key ttl value :: w_redis w) w')
           else Some (false, w').

(** [KafkaProducer::produce]: true when the broker acknowledged the record;
    when it reports failure the record may have been stored or not. *)
Definition produce (topic key payload : string) : M bool :=
  fun w => let w' := set_ops (S (w_ops w)) w in
           let stored := set_kafka ((topic, key, payload) :: w_kafka w) w' in
           match env_kafka E (w_ops w) with
           | Done => Some (true, stored)
           | Lost => Some (false, stored)
           | Refused => Some (false, w')
           end.

(** [message_id_generator_->nextId()]; it does not return when the clock
    stands still for longer than the fuel. *)
Definition next_message_id : M Z :=
  fun w => match nextId (env_clock E) (env_fuel E) (w_clk w) (w_gen w) with
           | Some (id, i, g) => Some (id, set_gen g (set_clk i w))
           | None => None
           end.

End Session.
