(* ===== verification/MessageStore.v ===== *)
(** * The message store (common/dao, common/conversation, common/outbox)

    The DAOs the message service works with: each method runs the SQL of the
    source on the tables.  A method that is given a connection ([_conn])
    works inside the caller's transaction; the others take a connection from
    the pool and commit on their own. *)

From S2P Require Import Prelude Words Text MessageId Db.

(** A DAO method that takes a connection from the pool: [dflt] is what it
    returns when there is none. *)
Definition with_conn (E : Env) {A} (dflt : A) (body : M A) : M A :=
  ok ← acquire E; if (ok : bool) then body else mret dflt.

(** [return conn.executeUpdate(sql)] *)
Definition update_ok (m : M (option Z)) : M bool := r ← m; mret (is_some r).

(** [if (!conn->executeUpdate(sql)) return false; return conn->affectedRows() > 0] *)
Definition update_affects (m : M (option Z)) : M bool :=
  r ← m; mret (match r with Some n => 0 <? n | None => false end).

(** A result set read to its end; a null result yields no row. *)
Definition rows {A} (m : M (option (list A))) : M (list A) := r ← m; mret (default [] r).

(** The first row of a result set. *)
Definition row {A} (m : M (option (option A))) : M (option A) := r ← m; mret (mjoin r).

Definition MESSAGE_STATUS_SENT : Z := 1.
Definition MESSAGE_STATUS_RECALLED : Z := 6.

Module MessageDao.

(** INSERT INTO messages: message_id is unique, and so is
    (from_user_id, client_sequence_id) where the latter is not NULL. *)
Definition insert_message (m : MessageRecord) (d : Db) : option (Db * Z) :=
  if existsb (fun r => m_message_id r =? m_message_id m) (messages d)
     || (negb (m_client_sequence_id m =? 0) &&
         existsb (fun r => (m_from_user_id r =? m_from_user_id m) &&
                           (m_client_sequence_id r =? m_client_sequence_id m)) (messages d))
  then None
  else Some (set_messages (messages d ++ [m]) d, 1).

(** UPDATE messages SET recalled=1, ... WHERE message_id=? AND recalled=0 *)
Definition recall_row (recalled_at : Z) (m : MessageRecord) : MessageRecord :=
  mkMessage (m_message_id m) (m_conversation_id m) (m_from_user_id m) (m_client_sequence_id m)
    (m_to_user_id m) (m_group_id m) (m_message_type m) (m_content m) MESSAGE_STATUS_RECALLED
    true recalled_at (m_created_at m) recalled_at.

Definition recall_message (message_id recalled_at : Z) (d : Db) : option (Db * Z) :=
  let P r := (m_message_id r =? message_id) && negb (m_recalled r) in
  Some (set_messages (sql_update P (recall_row recalled_at) (messages d)) d,
        sql_affected P (recall_row recalled_at) (messages d)).

Definition set_message_status (status now : Z) (m : MessageRecord) : MessageRecord :=
  mkMessage (m_message_id m) (m_conversation_id m) (m_from_user_id m) (m_client_sequence_id m)
    (m_to_user_id m) (m_group_id m) (m_message_type m) (m_content m) status
    (m_recalled m) (m_recalled_at m) (m_created_at m) now.

(** ORDER BY created_at DESC, message_id DESC *)
Definition newer_first (a b : MessageRecord) : bool :=
  (m_created_at b <? m_created_at a) ||
  ((m_created_at b =? m_created_at a) && (m_message_id b <=? m_message_id a)).

(** The WHERE clause of the history query. *)
Definition before_cursor (before_time before_message_id : Z) (m : MessageRecord) : bool :=
  if (0 <? before_time) && (0 <? before_message_id) then
    (m_created_at m <? before_time) ||
    ((m_created_at m =? before_time) && (m_message_id m <? before_message_id))
  else if 0 <? before_time then m_created_at m <? before_time
  else true.

Definition select_history (conversation_id before_time before_message_id : Z) (limit : nat) (d : Db)
  : list MessageRecord :=
  take limit (sort_by newer_first
    (sql_select (fun m => (m_conversation_id m =? conversation_id) &&
                          before_cursor before_time before_message_id m) (messages d))).

Section Dao.
Context (E : Env).

Definition insertMessage_conn (m : MessageRecord) : M bool :=
  update_ok (tx_update E (insert_message m)).

Definition insertMessage (m : MessageRecord) : M bool :=
  with_conn E false (update_ok (auto_update E (insert_message m))).

Definition messageExists (message_id : Z) : M bool :=
  with_conn E false
    (r ← row (auto_query E (fun d => sql_first (fun m => m_message_id m =? message_id) (messages d)));
     mret (is_some r)).

Definition getMessageById (message_id : Z) : M (option MessageRecord) :=
  with_conn E None
    (row (auto_query E (fun d => sql_first (fun m => m_message_id m =? message_id) (messages d)))).

Definition getMessageByClientSequence (from_user_id client_sequence_id : Z)
  : M (option MessageRecord) :=
  if (from_user_id =? 0) || (client_sequence_id =? 0) then mret None
  else with_conn E None
    (row (auto_query E (fun d =>
       sql_first (fun m => (m_from_user_id m =? from_user_id) &&
                           (m_client_sequence_id m =? client_sequence_id)) (messages d)))).

Definition listConversationMessages (conversation_id before_time before_message_id : Z) (limit : nat)
  : M (list MessageRecord) :=
  with_conn E []
    (rows (auto_query E (select_history conversation_id before_time before_message_id limit))).

Definition updateMessageStatus (message_id status : Z) : M bool :=
  with_conn E false
    (now ← unix_ms E;
     r ← auto_update E (fun d =>
       let P m := m_message_id m =? message_id in
       Some (set_messages (sql_update P (set_message_status status now) (messages d)) d,
             sql_affected P (set_message_status status now) (messages d)));
     if is_some r then messageExists message_id else mret false).

Definition recallMessage_conn (message_id recalled_at : Z) : M bool :=
  update_affects (tx_update E (recall_message message_id recalled_at)).

Definition recallMessage (message_id recalled_at : Z) : M bool :=
  with_conn E false (update_affects (auto_update E (recall_message message_id recalled_at))).

End Dao.
End MessageDao.
Export MessageDao.

Module MessageReceiptDao.

Definition same_receipt (message_id user_id : Z) (r : MessageReceipt) : bool :=
  (rc_message_id r =? message_id) && (rc_user_id r =? user_id).

Definition upsert_delivered (message_id user_id delivered_at : Z) (d : Db) : option (Db * Z) :=
  Some (set_message_receipts
    (sql_upsert (same_receipt message_id user_id)
       (mkReceipt message_id user_id delivered_at 0 delivered_at delivered_at)
       (fun r => mkReceipt (rc_message_id r) (rc_user_id r)
                   (Z.max (rc_delivered_at r) delivered_at) (rc_read_at r)
                   (rc_created_at r) delivered_at)
       (message_receipts d)) d, 1).

(** INSERT ... VALUES(message, user, read_at x 4) ON DUPLICATE KEY UPDATE ... *)
Definition upsert_read (message_id user_id read_at : Z) (t : list MessageReceipt)
  : list MessageReceipt :=
  sql_upsert (same_receipt message_id user_id)
    (mkReceipt message_id user_id read_at read_at read_at read_at)
    (fun r => mkReceipt (rc_message_id r) (rc_user_id r)
                (Z.max (rc_delivered_at r) read_at) (Z.max (rc_read_at r) read_at)
                (rc_created_at r) read_at) t.

Definition mark_read (message_id user_id read_at : Z) (d : Db) : option (Db * Z) :=
  Some (set_message_receipts (upsert_read message_id user_id read_at (message_receipts d)) d, 1).

(** The messages the INSERT ... SELECT of [markConversationRead] ranges over. *)
Definition read_up_to (conversation_id user_id up_to_message_id up_to_created_at : Z)
    (m : MessageRecord) : bool :=
  (m_conversation_id m =? conversation_id) &&
  ((m_created_at m <? up_to_created_at) ||
   ((m_created_at m =? up_to_created_at) && (m_message_id m <=? up_to_message_id))) &&
  negb (m_from_user_id m =? user_id) && negb (m_recalled m).

Definition mark_conversation_read
    (conversation_id user_id up_to_message_id up_to_created_at read_at : Z) (d : Db)
  : option (Db * Z) :=
  let sel := sql_select (read_up_to conversation_id user_id up_to_message_id up_to_created_at)
               (messages d) in
  Some (set_message_receipts
          (fold_left (fun t m => upsert_read (m_message_id m) user_id read_at t) sel
             (message_receipts d)) d,
        Z.of_nat (length sel)).

Section Dao.
Context (E : Env).

Definition upsertDelivered_conn (message_id user_id delivered_at : Z) : M bool :=
  update_ok (tx_update E (upsert_delivered message_id user_id delivered_at)).

Definition upsertDelivered (message_id user_id delivered_at : Z) : M bool :=
  with_conn E false (update_ok (auto_update E (upsert_delivered message_id user_id delivered_at))).

Definition receipt_markRead_conn (message_id user_id read_at : Z) : M bool :=
  update_ok (tx_update E (mark_read message_id user_id read_at)).

Definition receipt_markRead (message_id user_id read_at : Z) : M bool :=
  with_conn E false (update_ok (auto_update E (mark_read message_id user_id read_at))).

Definition markConversationRead_conn
    (conversation_id user_id up_to_message_id up_to_created_at read_at : Z) : M bool :=
  update_ok (tx_update E
    (mark_conversation_read conversation_id user_id up_to_message_id up_to_created_at read_at)).

Definition getReadState (message_id : Z) : M (list MessageReceipt) :=
  with_conn E []
    (rows (auto_query E (fun d =>
       sql_select (fun r => rc_message_id r =? message_id) (message_receipts d)))).

End Dao.
End MessageReceiptDao.
Export MessageReceiptDao.

Module OfflineMessageDao.

Definition hex_digit (n : Z) : ascii :=
  ascii_of_N (Z.to_N (if n <? 10 then 48 + n else 87 + n)).

(** [toHex]: two digits per octet. *)
Fixpoint toHex (bytes : string) : string :=
  match bytes with
  | EmptyString => EmptyString
  | String ch rest =>
      let n := Z.of_N (N_of_ascii ch) in
      String (hex_digit (Z.shiftr n 4)) (String (hex_digit (Z.land n 0x0F)) (toHex rest))
  end.

Definition hexValue (c : ascii) : Z :=
  let n := Z.of_N (N_of_ascii c) in
  if (48 <=? n) && (n <=? 57) then n - 48
  else if (97 <=? n) && (n <=? 102) then n - 97 + 10
  else if (65 <=? n) && (n <=? 70) then n - 65 + 10
  else -1.

Fixpoint fromHex_loop (hex : string) : option string :=
  match hex with
  | EmptyString => Some EmptyString
  | String a (String b rest) =>
      let hi := hexValue a in
      let lo := hexValue b in
      if (hi <? 0) || (lo <? 0) then None
      else out ← fromHex_loop rest;
           Some (String (ascii_of_N (Z.to_N (Z.lor (Z.shiftl hi 4) lo))) out)
  | _ => None
  end.

(** [fromHex]: the empty string when the input is not hexadecimal. *)
Definition fromHex (hex : string) : string :=
  if negb (Z.of_nat (String.length hex) mod 2 =? 0) then EmptyString
  else default EmptyString (fromHex_loop hex).

(** The payload column holds hexadecimal text. *)
Definition parseOffline (r : OfflineMessage) : OfflineMessage :=
  mkOffline (om_user_id r) (om_message_id r) (fromHex (om_payload r)) (om_status r)
    (om_created_at r) (om_updated_at r).

Definition same_offline (user_id message_id : Z) (r : OfflineMessage) : bool :=
  (om_user_id r =? user_id) && (om_message_id r =? message_id).

Definition set_offline_status (status now : Z) (r : OfflineMessage) : OfflineMessage :=
  mkOffline (om_user_id r) (om_message_id r) (om_payload r) status (om_created_at r) now.

(** The row is replaced unless it is acknowledged (status 2). *)
Definition insert_offline (m : OfflineMessage) (d : Db) : option (Db * Z) :=
  let hex := toHex (om_payload m) in
  Some (set_offline_messages
    (sql_upsert (same_offline (om_user_id m) (om_message_id m))
       (mkOffline (om_user_id m) (om_message_id m) hex (om_status m)
          (om_created_at m) (om_updated_at m))
       (fun r => if om_status r =? 2 then r
                 else mkOffline (om_user_id r) (om_message_id r) hex (om_status m)
                        (om_created_at r) (om_updated_at m))
       (offline_messages d)) d, 1).

Definition oldest_first (a b : OfflineMessage) : bool :=
  (om_created_at a <? om_created_at b) ||
  ((om_created_at a =? om_created_at b) && (om_message_id a <=? om_message_id b)).

Definition open_status (s : Z) : bool := (s =? 0) || (s =? 1).

Definition select_offline (user_id : Z) (limit : nat) (d : Db) : list OfflineMessage :=
  take limit (sort_by oldest_first
    (sql_select (fun r => (om_user_id r =? user_id) && open_status (om_status r))
       (offline_messages d))).

Definition update_offline (P : OfflineMessage -> bool) (status now : Z) (d : Db) : option (Db * Z) :=
  Some (set_offline_messages (sql_update P (set_offline_status status now) (offline_messages d)) d,
        sql_affected P (set_offline_status status now) (offline_messages d)).

Definition pulled_rows (user_id : Z) (message_ids : list Z) (r : OfflineMessage) : bool :=
  (om_user_id r =? user_id) && existsb (Z.eqb (om_message_id r)) message_ids &&
  open_status (om_status r).

Definition acked_rows (user_id message_id : Z) (r : OfflineMessage) : bool :=
  same_offline user_id message_id r && (open_status (om_status r) || (om_status r =? 2)).

Section Dao.
Context (E : Env).

Definition insertOfflineMessage (m : OfflineMessage) : M bool :=
  with_conn E false (update_ok (auto_update E (insert_offline m))).

Definition listOfflineMessages (user_id : Z) (limit : nat) : M (list OfflineMessage) :=
  with_conn E []
    (l ← rows (auto_query E (select_offline user_id limit)); mret (map parseOffline l)).

Definition markAsPulled (user_id message_id : Z) : M bool :=
  with_conn E false
    (now ← unix_ms E; update_ok (auto_update E (update_offline (pulled_rows user_id [message_id]) 1 now))).

Definition markBatchAsPulled_conn (user_id : Z) (message_ids : list Z) : M bool :=
  match message_ids with
  | [] => mret true
  | _ => now ← unix_ms E; update_ok (tx_update E (update_offline (pulled_rows user_id message_ids) 1 now))
  end.

Definition markAsAcked_conn (user_id message_id : Z) : M bool :=
  now ← unix_ms E; update_ok (tx_update E (update_offline (acked_rows user_id message_id) 2 now)).

Definition markAsAcked (user_id message_id : Z) : M bool :=
  with_conn E false
    (now ← unix_ms E; update_ok (auto_update E (update_offline (acked_rows user_id message_id) 2 now))).

Definition deleteAckedMessages (user_id : Z) : M bool :=
  with_conn E false
    (update_ok (auto_update E (fun d =>
       let P r := (om_user_id r =? user_id) && (om_status r =? 2) in
       Some (set_offline_messages (sql_select (fun r => negb (P r)) (offline_messages d)) d,
             sql_count P (offline_messages d))))).

End Dao.
End OfflineMessageDao.
Export OfflineMessageDao.
