(* ===== verification/ConversationStore.v ===== *)
(** * Conversations (common/conversation)

    [ConversationServiceHelper::buildPreview] and [ConversationDao]: the list
    of conversations each user sees, with its cached unread counter. *)

From S2P Require Import Prelude Words Text MessageId Db MessageStore.

Module ConversationServiceHelper.

Definition octet (c : ascii) : Z := Z.of_N (N_of_ascii c).

Definition isContinuationByte (value : ascii) : bool := Z.land (octet value) 0xC0 =? 0x80.

(** [value[i]]; positions up to the size are readable (the last is NUL). *)
Definition char_at (value : string) (i : nat) : ascii :=
  default "000"%char (String.get i value).

(** The loop that steps back over continuation octets. *)
Fixpoint step_back (value : string) (end_ : nat) : nat :=
  match end_ with
  | O => O
  | S e => if isContinuationByte (char_at value end_) then step_back value e else end_
  end.

Definition utf8SafePrefixLength (value : string) (max_len : nat) : nat :=
  if decide (String.length value <= max_len)%nat then String.length value
  else
    let end_ := step_back value max_len in
    if decide (end_ = max_len) then end_
    else
      let lead := octet (char_at value end_) in
      let cut expected_len :=
        if decide (end_ + expected_len <= max_len)%nat then (end_ + expected_len)%nat else end_ in
      if Z.land lead 0xE0 =? 0xC0 then cut 2%nat
      else if Z.land lead 0xF0 =? 0xE0 then cut 3%nat
      else if Z.land lead 0xF8 =? 0xF0 then cut 4%nat
      else end_.

Definition buildPreview_max (content : string) (max_len : nat) : string :=
  if decide (String.length content <= max_len)%nat then content
  else String.substring 0 (utf8SafePrefixLength content max_len) content.

Definition buildPreview (content : string) : string := buildPreview_max content 120.

End ConversationServiceHelper.
Export ConversationServiceHelper.

Module ConversationDao.

Definition TYPE_SINGLE : Z := 1.
Definition TYPE_GROUP : Z := 2.

Definition same_conversation (owner_user_id conversation_id : Z) (c : Conversation) : bool :=
  (c_owner_user_id c =? owner_user_id) && (c_conversation_id c =? conversation_id).

(** The columns the statements below set. *)
Definition set_last (id : Z) (preview : string) (at_ now : Z) (c : Conversation) : Conversation :=
  mkConversation (c_conversation_id c) (c_conversation_type c) (c_owner_user_id c)
    (c_peer_user_id c) (c_group_id c) id preview at_ (c_unread_count c) (c_pinned c) (c_muted c)
    (c_deleted c) (c_created_at c) now.

Definition set_unread (n now : Z) (c : Conversation) : Conversation :=
  mkConversation (c_conversation_id c) (c_conversation_type c) (c_owner_user_id c)
    (c_peer_user_id c) (c_group_id c) (c_last_message_id c) (c_last_message_preview c)
    (c_last_message_at c) n (c_pinned c) (c_muted c) (c_deleted c) (c_created_at c) now.

Definition set_flags (pinned muted deleted : bool) (now : Z) (c : Conversation) : Conversation :=
  mkConversation (c_conversation_id c) (c_conversation_type c) (c_owner_user_id c)
    (c_peer_user_id c) (c_group_id c) (c_last_message_id c) (c_last_message_preview c)
    (c_last_message_at c) (c_unread_count c) pinned muted deleted (c_created_at c) now.

(** INSERT INTO conversations ... ON DUPLICATE KEY UPDATE last message,
    unread_count = unread_count + inc, deleted = 0 *)
Definition upsert_one (c : Conversation) (increase_unread : bool) (t : list Conversation)
  : list Conversation :=
  let unread_inc := if increase_unread then 1 else 0 in
  sql_upsert (same_conversation (c_owner_user_id c) (c_conversation_id c))
    (mkConversation (c_conversation_id c) (c_conversation_type c) (c_owner_user_id c)
       (c_peer_user_id c) (c_group_id c) (c_last_message_id c) (c_last_message_preview c)
       (c_last_message_at c) unread_inc false false false (c_created_at c) (c_updated_at c))
    (fun r => mkConversation (c_conversation_id r) (c_conversation_type r) (c_owner_user_id r)
       (c_peer_user_id r) (c_group_id r) (c_last_message_id c) (c_last_message_preview c)
       (c_last_message_at c) (c_unread_count r + unread_inc) (c_pinned r) (c_muted r)
       false (c_created_at r) (c_updated_at c))
    t.

(** COALESCE(r.read_at, 0) of the LEFT JOIN with the user's receipt. *)
Definition read_at_of (d : Db) (message_id user_id : Z) : Z :=
  match sql_first (same_receipt message_id user_id) (message_receipts d) with
  | Some r => rc_read_at r
  | None => 0
  end.

(** The messages of a conversation a user has not read. *)
Definition unread_message (d : Db) (owner_user_id conversation_id : Z) (m : MessageRecord) : bool :=
  (m_conversation_id m =? conversation_id) && negb (m_from_user_id m =? owner_user_id) &&
  negb (m_recalled m) && (read_at_of d (m_message_id m) owner_user_id =? 0).

Definition count_unread (d : Db) (owner_user_id conversation_id : Z) : Z :=
  sql_count (unread_message d owner_user_id conversation_id) (messages d).

Definition recalculate_unread (owner_user_id conversation_id now_ms : Z) (d : Db)
  : option (Db * Z) :=
  let P := same_conversation owner_user_id conversation_id in
  let f := set_unread (count_unread d owner_user_id conversation_id) now_ms in
  Some (set_conversations (sql_update P f (conversations d)) d,
        sql_affected P f (conversations d)).

Definition recalculate_unread_for_conversation (conversation_id now_ms : Z) (d : Db)
  : option (Db * Z) :=
  let P c := c_conversation_id c =? conversation_id in
  let f c := set_unread (count_unread d (c_owner_user_id c) (c_conversation_id c)) now_ms c in
  Some (set_conversations (sql_update P f (conversations d)) d,
        sql_affected P f (conversations d)).

Definition recalled_preview : string := "__NEBULA_MESSAGE_RECALLED__".

Definition mark_last_message_recalled (conversation_id message_id recalled_at : Z) (d : Db)
  : option (Db * Z) :=
  let P c := (c_conversation_id c =? conversation_id) && (c_last_message_id c =? message_id) in
  let f c := set_last (c_last_message_id c) recalled_preview recalled_at recalled_at c in
  Some (set_conversations (sql_update P f (conversations d)) d,
        sql_affected P f (conversations d)).

(** UPDATE conversations SET f WHERE owner and conversation *)
Definition update_one (owner_user_id conversation_id : Z) (f : Conversation -> Conversation) (d : Db)
  : option (Db * Z) :=
  let P := same_conversation owner_user_id conversation_id in
  Some (set_conversations (sql_update P f (conversations d)) d,
        sql_affected P f (conversations d)).

(** ORDER BY c.pinned DESC, c.updated_at DESC *)
Definition pinned_then_recent (a b : Conversation) : bool :=
  match c_pinned a, c_pinned b with
  | true, false => true
  | false, true => false
  | _, _ => c_updated_at b <=? c_updated_at a
  end.

(** A conversation with the name of its group, "" for a missing group. *)
Definition with_group_name (d : Db) (c : Conversation) : Conversation * string :=
  (c, match sql_first (fun g => g_id g =? c_group_id c) (groups d) with
      | Some g => g_group_name g
      | None => EmptyString
      end).

Section Dao.
Context (E : Env).

Definition upsertOne (c : Conversation) (increase_unread : bool) : M bool :=
  update_ok (tx_update E (fun d =>
    Some (set_conversations (upsert_one c increase_unread (conversations d)) d, 1))).

Definition single_row (conversation_id owner peer last_message_id : Z) (preview : string) (now_ms : Z)
  : Conversation :=
  mkConversation conversation_id TYPE_SINGLE owner peer 0 last_message_id preview now_ms 0
    false false false now_ms now_ms.

Definition upsertSingleConversationForUsers_conn
    (conversation_id from_user_id to_user_id last_message_id : Z) (preview : string) (now_ms : Z)
  : M bool :=
  let sender := single_row conversation_id from_user_id to_user_id last_message_id preview now_ms in
  let receiver := single_row conversation_id to_user_id from_user_id last_message_id preview now_ms in
  upsertOne sender false &&& upsertOne receiver true.

Definition group_row (conversation_id group_id member_id last_message_id : Z) (preview : string)
    (now_ms : Z) : Conversation :=
  mkConversation conversation_id TYPE_GROUP member_id 0 group_id last_message_id preview now_ms 0
    false false false now_ms now_ms.

Fixpoint upsertGroupConversationForMembers_conn
    (conversation_id group_id sender_user_id : Z) (member_ids : list Z) (last_message_id : Z)
    (preview : string) (now_ms : Z) : M bool :=
  match member_ids with
  | [] => mret true
  | member_id :: rest =>
      ok ← upsertOne (group_row conversation_id group_id member_id last_message_id preview now_ms)
             (negb (member_id =? sender_user_id));
      if (ok : bool)
      then upsertGroupConversationForMembers_conn conversation_id group_id sender_user_id rest
             last_message_id preview now_ms
      else mret false
  end.

Definition listConversations (owner_user_id : Z) (limit offset : nat)
  : M (list (Conversation * string)) :=
  with_conn E []
    (rows (auto_query E (fun d =>
       map (with_group_name d)
         (take limit (drop offset (sort_by pinned_then_recent
            (sql_select (fun c => (c_owner_user_id c =? owner_user_id) && negb (c_deleted c))
               (conversations d)))))))).

Definition isOwner (owner_user_id conversation_id : Z) : M bool :=
  with_conn E false
    (r ← row (auto_query E (fun d =>
       sql_first (fun c => same_conversation owner_user_id conversation_id c && negb (c_deleted c))
         (conversations d)));
     mret (is_some r)).

Definition markRead (owner_user_id conversation_id : Z) : M bool :=
  with_conn E false
    (now ← nowMs E;
     update_affects (auto_update E (update_one owner_user_id conversation_id (set_unread 0 now)))).

Definition recalculateUnread_conn (owner_user_id conversation_id now_ms : Z) : M bool :=
  update_ok (tx_update E (recalculate_unread owner_user_id conversation_id now_ms)).

Definition recalculateUnreadForConversation_conn (conversation_id now_ms : Z) : M bool :=
  update_ok (tx_update E (recalculate_unread_for_conversation conversation_id now_ms)).

Definition markLastMessageRecalled_conn (conversation_id message_id recalled_at : Z) : M bool :=
  update_ok (tx_update E (mark_last_message_recalled conversation_id message_id recalled_at)).

Definition deleteConversation (owner_user_id conversation_id : Z) : M bool :=
  with_conn E false
    (now ← nowMs E;
     update_affects (auto_update E (update_one owner_user_id conversation_id
       (fun c => set_flags (c_pinned c) (c_muted c) true now c)))).

Definition pinConversation (owner_user_id conversation_id : Z) (pinned : bool) : M bool :=
  with_conn E false
    (now ← nowMs E;
     update_affects (auto_update E (update_one owner_user_id conversation_id
       (fun c => set_flags pinned (c_muted c) (c_deleted c) now c)))).

Definition muteConversation (owner_user_id conversation_id : Z) (muted : bool) : M bool :=
  with_conn E false
    (now ← nowMs E;
     update_affects (auto_update E (update_one owner_user_id conversation_id
       (fun c => set_flags (c_pinned c) muted (c_deleted c) now c)))).

Definition updateLastMessage (owner_user_id conversation_id last_message_id : Z) (preview : string)
    (now_ms : Z) : M bool :=
  with_conn E false
    (update_affects (auto_update E (update_one owner_user_id conversation_id
       (set_last last_message_id preview now_ms now_ms)))).

Definition increaseUnreadCount (owner_user_id conversation_id delta : Z) : M bool :=
  with_conn E false
    (now ← nowMs E;
     update_affects (auto_update E (update_one owner_user_id conversation_id
       (fun c => set_unread (Z.max 0 (c_unread_count c + delta)) now c)))).

End Dao.
End ConversationDao.
Export ConversationDao.
