(* ===== verification/OutboxStore.v ===== *)
(** * The outbox table (common/outbox/OutboxDao.cpp)

    Events written in the transaction of the change they announce, claimed by
    workers under a lease and a token, and marked with the outcome. *)

From S2P Require Import Prelude Words Text MessageId Db MessageStore.

Module OutboxDao.

Definition PENDING : Z := 0.
Definition PUBLISHED : Z := 1.
Definition FAILED : Z := 2.
Definition DEAD : Z := 3.
Definition PUBLISHING : Z := 4.

(** INSERT INTO outbox_events: event_id is unique, claim_token defaults to ''. *)
Definition insert_event (e : OutboxEvent) (now : Z) (d : Db) : option (Db * Z) :=
  if existsb (fun r => e_event_id r =? e_event_id e) (outbox_events d) then None
  else Some (set_outbox_events (outbox_events d ++
    [mkEvent (e_event_id e) (e_aggregate_type e) (e_aggregate_id e) (e_topic e) (e_event_key e)
       (e_payload e) (e_status e) (e_retry_count e) (e_next_retry_at e) now
       (if 0 <? e_updated_at e then e_updated_at e else now) (e_trace_id e) EmptyString]) d, 1).

(** ORDER BY created_at ASC, id ASC: the rows are kept in the order of id. *)
Definition older_first (a b : OutboxEvent) : bool := e_created_at a <=? e_created_at b.

Definition due (statuses : list Z) (now_ms : Z) (e : OutboxEvent) : bool :=
  existsb (Z.eqb (e_status e)) statuses && (e_next_retry_at e <=? now_ms).

Definition select_due (statuses : list Z) (now_ms : Z) (limit : nat) (d : Db) : list OutboxEvent :=
  take limit (sort_by older_first (sql_select (due statuses now_ms) (outbox_events d))).

Definition claim_row (lease_until now_ms : Z) (claim_token : string) (e : OutboxEvent) : OutboxEvent :=
  mkEvent (e_event_id e) (e_aggregate_type e) (e_aggregate_id e) (e_topic e) (e_event_key e)
    (e_payload e) PUBLISHING (e_retry_count e) lease_until (e_created_at e) now_ms (e_trace_id e)
    claim_token.

(** UPDATE outbox_events SET status=4, ... WHERE event_id=? *)
Definition claim_event (event_id lease_until now_ms : Z) (claim_token : string) (d : Db)
  : option (Db * Z) :=
  let P e := e_event_id e =? event_id in
  let f := claim_row lease_until now_ms claim_token in
  Some (set_outbox_events (sql_update P f (outbox_events d)) d, sql_affected P f (outbox_events d)).

(** The owner of a claim: status 4 and the token. *)
Definition claimed_by (event_id : Z) (claim_token : string) (e : OutboxEvent) : bool :=
  (e_event_id e =? event_id) && (e_status e =? PUBLISHING) &&
  bool_decide (e_claim_token e = claim_token).

Definition mark_row (status retry_count next_retry_at now : Z) (e : OutboxEvent) : OutboxEvent :=
  mkEvent (e_event_id e) (e_aggregate_type e) (e_aggregate_id e) (e_topic e) (e_event_key e)
    (e_payload e) status retry_count next_retry_at (e_created_at e) now (e_trace_id e) EmptyString.

Definition mark_event (event_id : Z) (claim_token : string) (f : OutboxEvent -> OutboxEvent) (d : Db)
  : option (Db * Z) :=
  let P := claimed_by event_id claim_token in
  Some (set_outbox_events (sql_update P f (outbox_events d)) d, sql_affected P f (outbox_events d)).

Definition set_claim_token (token : string) (e : OutboxEvent) : OutboxEvent :=
  mkEvent (e_event_id e) (e_aggregate_type e) (e_aggregate_id e) (e_topic e) (e_event_key e)
    (e_payload e) (e_status e) (e_retry_count e) (e_next_retry_at e) (e_created_at e)
    (e_updated_at e) (e_trace_id e) token.

Section Dao.
Context (E : Env).

Definition insertEvent (e : OutboxEvent) : M bool :=
  now ← (if 0 <? e_created_at e then mret (e_created_at e) else nowMs E);
  update_ok (tx_update E (insert_event e now)).

Definition fetchPendingEvents (limit : nat) (now_ms : Z) : M (list OutboxEvent) :=
  with_conn E [] (rows (auto_query E (select_due [PENDING; FAILED] now_ms limit))).

(** The loop that marks the selected events; [None] is the early return. *)
Fixpoint claim_all (events : list OutboxEvent) (lease_until now_ms : Z) (claim_token : string)
  : M (option (list OutboxEvent)) :=
  match events with
  | [] => mret (Some [])
  | e :: rest =>
      r ← tx_update E (claim_event (e_event_id e) lease_until now_ms claim_token);
      if is_some r then
        more ← claim_all rest lease_until now_ms claim_token;
        mret (l ← more; Some (set_claim_token claim_token e :: l))
      else mret None
  end.

(** FOR UPDATE SKIP LOCKED: the selected rows are locked until the commit, so
    the transaction is one step as far as other workers are concerned. *)
Definition claimPendingEvents (limit : nat) (now_ms lease_ms : Z) : M (list OutboxEvent) :=
  with_conn E []
    (tx_scope E
       (active ← tx_begin E;
        if negb active then mret []
        else
          events ← rows (tx_query E (select_due [PENDING; FAILED; PUBLISHING] now_ms limit));
          let lease_until := now_ms + (if 0 <? lease_ms then lease_ms else 30000) in
          claim_token ← generate_trace E;
          claimed ← claim_all events lease_until now_ms claim_token;
          match claimed with
          | None => mret []
          | Some l => ok ← tx_commit E; mret (if (ok : bool) then l else [])
          end)).

Definition markPublished (event_id : Z) (claim_token : string) : M bool :=
  with_conn E false
    (if bool_decide (claim_token = EmptyString) then mret false
     else now ← nowMs E;
          update_affects (auto_update E (mark_event event_id claim_token
            (fun e => mark_row PUBLISHED (e_retry_count e) (e_next_retry_at e) now e)))).

Definition markFailed (event_id : Z) (claim_token : string) (retry_count next_retry_at : Z) : M bool :=
  with_conn E false
    (if bool_decide (claim_token = EmptyString) then mret false
     else now ← nowMs E;
          update_affects (auto_update E (mark_event event_id claim_token
            (mark_row FAILED retry_count next_retry_at now)))).

Definition markDead (event_id : Z) (claim_token : string) : M bool :=
  with_conn E false
    (if bool_decide (claim_token = EmptyString) then mret false
     else now ← nowMs E;
          update_affects (auto_update E (mark_event event_id claim_token
            (fun e => mark_row DEAD (e_retry_count e) (e_next_retry_at e) now e)))).

End Dao.
End OutboxDao.
Export OutboxDao.
