(* ===== verification/Directory.v ===== *)
(** * Users, friendships and groups (common/dao/UserDao, RelationDao, GroupDao)

    The DAOs that tell who exists, who may write to whom and who belongs to a
    group.  Text is compared under the server's collation ([env_collate]). *)

From S2P Require Import Prelude Words Text MessageId Db MessageStore.

Module UserDao.

(** INSERT INTO users: the username is unique; the result is the new id. *)
Definition insert_user (E : Env) (username password_hash nickname avatar : string)
    (created_at updated_at : Z) (d : Db) : option (Db * Z) :=
  if existsb (fun u => bool_decide (env_collate E (u_username u) = env_collate E username)) (users d)
  then None
  else
    let id := next_user_id d in
    Some (set_counters (id + 1) (next_group_id d) (next_request_id d)
            (set_users (users d ++ [mkUser id username password_hash nickname avatar
                                      created_at updated_at]) d), id).

Section Dao.
Context (E : Env).

Definition createUser (username password_hash nickname avatar : string) (created_at updated_at : Z)
  : M (option Z) :=
  with_conn E None
    (auto_update E (insert_user E username password_hash nickname avatar created_at updated_at)).

Definition getUserById (user_id : Z) : M (option User) :=
  with_conn E None (row (auto_query E (fun d => sql_first (fun u => u_id u =? user_id) (users d)))).

Definition getUserByUsername (username : string) : M (option User) :=
  with_conn E None
    (row (auto_query E (fun d =>
       sql_first (fun u => bool_decide (env_collate E (u_username u) = env_collate E username))
         (users d)))).

Definition updateUserProfile (user_id : Z) (nickname avatar : string) : M bool :=
  with_conn E false
    (now ← unix_ms E;
     update_ok (auto_update E (fun d =>
       let P u := u_id u =? user_id in
       let f u := mkUser (u_id u) (u_username u) (u_password_hash u) nickname avatar
                    (u_created_at u) now in
       Some (set_users (sql_update P f (users d)) d, sql_affected P f (users d))))).

End Dao.
End UserDao.
Export UserDao.

Module RelationDao.

Definition same_friendship (user_id friend_id : Z) (f : Friendship) : bool :=
  (fs_user_id f =? user_id) && (fs_friend_id f =? friend_id).

Definition set_friend_status (status now : Z) (f : Friendship) : Friendship :=
  mkFriendship (fs_user_id f) (fs_friend_id f) status (fs_created_at f) now.

Definition add_friend (user_id friend_id now : Z) (d : Db) : option (Db * Z) :=
  Some (set_friendships
    (sql_upsert (same_friendship user_id friend_id) (mkFriendship user_id friend_id 1 now now)
       (set_friend_status 1 now) (friendships d)) d, 1).

Definition delete_friend (user_id friend_id now : Z) (d : Db) : option (Db * Z) :=
  let P := same_friendship user_id friend_id in
  Some (set_friendships (sql_update P (set_friend_status 0 now) (friendships d)) d,
        sql_affected P (set_friend_status 0 now) (friendships d)).

Definition self_or_zero (user_id friend_id : Z) : bool :=
  (user_id =? 0) || (friend_id =? 0) || (user_id =? friend_id).

(** The friendship [isFriend] looks for. *)
Definition friend_row (user_id friend_id : Z) (f : Friendship) : bool :=
  same_friendship user_id friend_id f && (fs_status f =? 1).

Section Dao.
Context (E : Env).

Definition addFriend_conn (user_id friend_id : Z) : M bool :=
  if self_or_zero user_id friend_id then mret false
  else now ← unix_ms E; update_ok (tx_update E (add_friend user_id friend_id now)).

Definition addFriend (user_id friend_id : Z) : M bool :=
  if self_or_zero user_id friend_id then mret false
  else with_conn E false
         (now ← unix_ms E; update_ok (auto_update E (add_friend user_id friend_id now))).

Definition deleteFriend (user_id friend_id : Z) : M bool :=
  with_conn E false
    (now ← unix_ms E; update_ok (auto_update E (delete_friend user_id friend_id now))).

Definition addFriendBidirectional_conn (user_id friend_id : Z) : M bool :=
  addFriend_conn user_id friend_id &&& addFriend_conn friend_id user_id.

Definition addFriendBidirectional (user_id friend_id : Z) : M bool :=
  if self_or_zero user_id friend_id then mret false
  else with_conn E false
    (tx_scope E
       (active ← tx_begin E;
        if negb active then mret false
        else
          ok ← addFriendBidirectional_conn user_id friend_id;
          if negb ok then mret false else tx_commit E)).

Definition deleteFriendBidirectional (user_id friend_id : Z) : M bool :=
  with_conn E false
    (tx_scope E
       (active ← tx_begin E;
        if negb active then mret false
        else
          now ← unix_ms E;
          ok ← (update_ok (tx_update E (delete_friend user_id friend_id now)) &&&
                (now ← unix_ms E; update_ok (tx_update E (delete_friend friend_id user_id now))));
          if negb ok then mret false else tx_commit E)).

Definition isFriend (user_id friend_id : Z) : M bool :=
  with_conn E false
    (r ← row (auto_query E (fun d => sql_first (friend_row user_id friend_id) (friendships d)));
     mret (is_some r)).

Definition listFriends (user_id : Z) : M (list Z) :=
  with_conn E []
    (rows (auto_query E (fun d =>
       map fs_friend_id (sort_by (fun a b => fs_friend_id a <=? fs_friend_id b)
         (sql_select (fun f => (fs_user_id f =? user_id) && (fs_status f =? 1)) (friendships d)))))).

End Dao.
End RelationDao.
Export RelationDao.

Module GroupDao.

(** A group with its COUNT of members. *)
Record Group := mkGroup {
  gr_id : Z; gr_group_name : string; gr_owner_id : Z; gr_member_count : Z;
  gr_created_at : Z; gr_updated_at : Z
}.

Definition parseGroup (d : Db) (g : GroupRow) : Group :=
  mkGroup (g_id g) (g_group_name g) (g_owner_id g)
    (sql_count (fun m => gm_group_id m =? g_id g) (group_members d))
    (g_created_at g) (g_updated_at g).

Definition same_member (group_id user_id : Z) (m : GroupMember) : bool :=
  (gm_group_id m =? group_id) && (gm_user_id m =? user_id).

(** INSERT INTO `groups`: the result is the new id. *)
Definition insert_group (name : string) (owner_id created_at updated_at : Z) (d : Db)
  : option (Db * Z) :=
  let id := next_group_id d in
  Some (set_counters (next_user_id d) (id + 1) (next_request_id d)
          (set_groups (groups d ++ [mkGroupRow id name owner_id created_at updated_at]) d), id).

(** INSERT INTO group_members: (group_id, user_id) is unique. *)
Definition insert_member (group_id user_id role created_at updated_at : Z) (d : Db)
  : option (Db * Z) :=
  if existsb (same_member group_id user_id) (group_members d) then None
  else Some (set_group_members
    (group_members d ++ [mkGroupMember group_id user_id role created_at updated_at]) d, 1).

(** ... ON DUPLICATE KEY UPDATE role=role *)
Definition add_member (group_id user_id role now : Z) (d : Db) : option (Db * Z) :=
  Some (set_group_members
    (sql_upsert (same_member group_id user_id) (mkGroupMember group_id user_id role now now)
       (fun m => m) (group_members d)) d, 1).

Definition remove_member (group_id user_id : Z) (d : Db) : option (Db * Z) :=
  Some (set_group_members
          (sql_select (fun m => negb (same_member group_id user_id m)) (group_members d)) d,
        sql_count (same_member group_id user_id) (group_members d)).

Section Dao.
Context (E : Env).

Definition createGroup (name : string) (owner_id created_at updated_at : Z) : M (option Z) :=
  with_conn E None
    (tx_scope E
       (active ← tx_begin E;
        if negb active then mret None
        else
          r ← tx_update E (insert_group name owner_id created_at updated_at);
          match r with
          | None => mret None
          | Some new_group_id =>
              r ← tx_update E (insert_member new_group_id owner_id 1 created_at updated_at);
              if negb (is_some r) then mret None
              else ok ← tx_commit E; mret (if (ok : bool) then Some new_group_id else None)
          end)).

Definition getGroupById (group_id : Z) : M (option Group) :=
  with_conn E None
    (row (auto_query E (fun d =>
       parseGroup d <$> sql_first (fun g => g_id g =? group_id) (groups d)))).

Definition addMember (group_id user_id role : Z) : M bool :=
  with_conn E false
    (now ← unix_ms E;
     update_ok (auto_update E (add_member group_id user_id role now))).

Definition removeMember (group_id user_id : Z) : M bool :=
  with_conn E false (update_ok (auto_update E (remove_member group_id user_id))).

Definition isMember (group_id user_id : Z) : M bool :=
  with_conn E false
    (r ← row (auto_query E (fun d => sql_first (same_member group_id user_id) (group_members d)));
     mret (is_some r)).

Definition group_isOwner (group_id user_id : Z) : M bool :=
  with_conn E false
    (r ← row (auto_query E (fun d =>
       sql_first (fun m => same_member group_id user_id m && (gm_role m =? 1)) (group_members d)));
     mret (is_some r)).

Definition listMembers (group_id : Z) : M (list Z) :=
  with_conn E []
    (rows (auto_query E (fun d =>
       map gm_user_id (sort_by (fun a b => gm_user_id a <=? gm_user_id b)
         (sql_select (fun m => gm_group_id m =? group_id) (group_members d)))))).

(** ORDER BY g.updated_at DESC, g.id DESC *)
Definition recent_group_first (a b : Group) : bool :=
  (gr_updated_at b <? gr_updated_at a) ||
  ((gr_updated_at b =? gr_updated_at a) && (gr_id b <=? gr_id a)).

(** The groups of a user: (group_id, user_id) is unique, so the join yields
    each group once. *)
Definition listGroupsForUser (user_id : Z) (limit : nat) : M (list Group) :=
  with_conn E []
    (if user_id =? 0 then mret []
     else
       let safe_limit := Nat.max 1 (Nat.min limit 200) in
       rows (auto_query E (fun d =>
         take safe_limit (sort_by recent_group_first
           (map (parseGroup d)
              (sql_select (fun g => existsb (same_member (g_id g) user_id) (group_members d))
                 (groups d))))))).

(** The search of [searchGroups]: [like] is the server's LIKE, on a text and a
    pattern. *)
Section Search.
Context (like : string -> string -> bool) (query : string).

(** A query that is a number as a whole also finds the group with this id. *)
Definition exact_id : Z :=
  match stoull query with
  | Some id => if bool_decide (after_number query = EmptyString) then id else 0
  | None => 0
  end.

Definition group_matches (g : GroupRow) : bool :=
  like (g_group_name g) ("%" +:+ query +:+ "%") || (negb (exact_id =? 0) && (g_id g =? exact_id)).

Definition match_rank (g : Group) : Z :=
  if bool_decide (env_collate E (gr_group_name g) = env_collate E query) then 0
  else if like (gr_group_name g) (query +:+ "%") then 1 else 2.

Definition better_match (a b : Group) : bool :=
  (match_rank a <? match_rank b) || ((match_rank a =? match_rank b) && recent_group_first a b).

Definition searchGroups (limit : nat) : M (list Group) :=
  with_conn E []
    (if bool_decide (query = EmptyString) then mret []
     else
       let safe_limit := Nat.max 1 (Nat.min limit 50) in
       rows (auto_query E (fun d =>
         take safe_limit (sort_by better_match (map (parseGroup d) (sql_select group_matches (groups d))))))).

End Search.

End Dao.
End GroupDao.
Export GroupDao.
