(* ===== verification/DbLogic.v ===== *)
(** * Reasoning about handlers

    Three kinds of computations: those that leave the store alone ([Quiet]),
    those that only work on the open transaction ([TxStep]), and whole blocks
    whose effect is one commit or nothing.  The first two are closed under the
    constructs of the handlers by type class resolution, so that a handler's
    proof only looks at its transaction. *)

From S2P Require Import Prelude Words Text MessageId Db MessageStore.

(** Evaluation of the monad's own operations in a hypothesis. *)
Ltac munfold H := cbv [mbind SM_bind mret SM_ret get_state modify] in H; simpl in H.

Lemma sql_first_spec {A} (P : A -> bool) t x : sql_first P t = Some x -> x ∈ t /\ P x = true.
Proof. unfold sql_first. intros H%find_some. by rewrite list_elem_of_In. Qed.

(** Neither the committed tables nor the open transaction changed. *)
Definition same_store (w w' : world) : Prop := w_db w' = w_db w /\ w_tx w' = w_tx w.

#[global] Instance same_store_preorder : PreOrder same_store.
Proof. split; [done|]. intros x y z [??] [??]. split; congruence. Qed.

(** Chains the steps at hand from one world to the next. *)
Ltac store_chain :=
  solve [done | eassumption
        | repeat (etrans; [eassumption|]); first [eassumption|done] ].

Class Quiet {A} (m : M A) : Prop :=
  quiet : forall w a w', m w = Some (a, w') -> same_store w w'.
#[global] Hint Mode Quiet + ! : typeclass_instances.

Section Quiet.
Context {A B : Type}.

#[global] Instance quiet_ret (a : A) : Quiet (mret a : M A).
Proof. intros w ? w' [= <- <-]. done. Qed.

#[global] Instance quiet_bind (m : M A) (k : A -> M B) :
  Quiet m -> (forall a, Quiet (k a)) -> Quiet (m ≫= k).
Proof.
  intros Hm Hk w b w' (a&w1&H1&H2)%run_bind_Some.
  etrans; [by eapply Hm|by eapply Hk].
Qed.

#[global] Instance quiet_if (b : bool) (m1 m2 : M A) :
  Quiet m1 -> Quiet m2 -> Quiet (if b then m1 else m2).
Proof. by destruct b. Qed.

#[global] Instance quiet_option (o : option B) (f : B -> M A) (m : M A) :
  (forall b, Quiet (f b)) -> Quiet m -> Quiet (match o with Some b => f b | None => m end).
Proof. by destruct o. Qed.

#[global] Instance quiet_option' (o : option B) (f : B -> M A) (m : M A) :
  Quiet m -> (forall b, Quiet (f b)) -> Quiet (match o with None => m | Some b => f b end).
Proof. by destruct o. Qed.

#[global] Instance quiet_get : Quiet (get_state : M world).
Proof. intros w ? w' [= <- <-]. done. Qed.

Lemma quiet_modify f : (forall w, same_store w (f w)) -> Quiet (modify f : M unit).
Proof. intros Hf w ? w' [= <- <-]. apply Hf. Qed.

End Quiet.

#[global] Instance quiet_and_then (m k : M bool) : Quiet m -> Quiet k -> Quiet (m &&& k).
Proof. unfold and_then. intros. apply _. Qed.

#[global] Instance quiet_or_else (m k : M bool) : Quiet m -> Quiet k -> Quiet (m ||| k).
Proof. unfold or_else. intros. apply _. Qed.

#[global] Instance quiet_mapM {A B} (f : A -> M B) (l : list A) :
  (forall a, Quiet (f a)) -> Quiet (mapM f l).
Proof. intros Hf. induction l; simpl; apply _. Qed.

Section Primitives.
Context (E : Env).

#[global] Instance quiet_call : Quiet (call E).
Proof. intros w ? w' [= <- <-]. done. Qed.
#[global] Instance quiet_acquire : Quiet (acquire E).
Proof. unfold acquire. apply _. Qed.
#[global] Instance quiet_auto_query {A} (q : Db -> A) : Quiet (auto_query E q).
Proof. unfold auto_query. apply _. Qed.
#[global] Instance quiet_tx_query {A} (q : Db -> A) : Quiet (tx_query E q).
Proof. unfold tx_query. apply _. Qed.
#[global] Instance quiet_nowMs : Quiet (nowMs E).
Proof. intros w ? w' [= <- <-]. done. Qed.
#[global] Instance quiet_unix_ms : Quiet (unix_ms E).
Proof. intros w ? w' [= <- <-]. done. Qed.
#[global] Instance quiet_generate_trace : Quiet (generate_trace E).
Proof. intros w ? w' [= <- <-]. done. Qed.
#[global] Instance quiet_inc_metric n : Quiet (inc_metric n).
Proof. apply quiet_modify. done. Qed.
#[global] Instance quiet_redis_get k : Quiet (redis_get E k).
Proof. intros w ? w' [= <- <-]. done. Qed.
#[global] Instance quiet_redis_setEx k t v : Quiet (redis_setEx E k t v).
Proof. intros w a w'. unfold redis_setEx. cbv zeta. case_match; by intros [= <- <-]. Qed.
#[global] Instance quiet_produce t k p : Quiet (produce E t k p).
Proof. intros w a w'. unfold produce. cbv zeta. case_match; by intros [= <- <-]. Qed.
#[global] Instance quiet_next_message_id : Quiet (next_message_id E).
Proof.
  intros w a w'. unfold next_message_id.
  destruct (MessageIdGenerator.nextId _ _ _ _) as [[[id i] g]|]; [|done]. by intros [= <- <-].
Qed.
#[global] Instance quiet_with_conn {A} (dflt : A) (m : M A) : Quiet m -> Quiet (with_conn E dflt m).
Proof. unfold with_conn. apply _. Qed.
#[global] Instance quiet_row {A} (m : M (option (option A))) : Quiet m -> Quiet (row m).
Proof. unfold row. apply _. Qed.
#[global] Instance quiet_rows {A} (m : M (option (list A))) : Quiet m -> Quiet (rows m).
Proof. unfold rows. apply _. Qed.

(** ** Transactions *)

Lemma tx_begin_run w b w' :
  tx_begin E w = Some (b, w') ->
  w_db w' = w_db w /\ w_tx w' = if b then Some (w_db w) else w_tx w.
Proof.
  unfold tx_begin. intros (o&w1&H1&H2)%run_bind_Some.
  destruct (quiet _ _ _ H1) as [Hd Ht]. munfold H2.
  destruct o; simplify_eq/=; by rewrite ?Hd, ?Ht.
Qed.

(** A commit makes the transaction's tables the committed ones when it reports
    success; when it reports failure it may have done so or not. *)
Lemma tx_commit_run w b w' t :
  w_tx w = Some t -> tx_commit E w = Some (b, w') ->
  (w_db w' = t /\ w_tx w' = None) \/ (b = false /\ same_store w w').
Proof.
  intros Ht. unfold tx_commit. intros (w1&w2&[= <- <-]&H2)%run_bind_Some. rewrite Ht in H2.
  apply run_bind_Some in H2 as (o&w3&H3&H4).
  pose proof (quiet _ _ _ H3) as [Hd3 Ht3]. munfold H4.
  destruct o; simplify_eq/=; [by left|right; split; [done|by split]|by left].
Qed.

Lemma tx_rollback_run w b w' :
  tx_rollback E w = Some (b, w') -> w_db w' = w_db w /\ w_tx w' = None.
Proof.
  unfold tx_rollback. intros (w1&w2&[= <- <-]&H2)%run_bind_Some.
  destruct (w_tx w) eqn:Ht; [|munfold H2; by simplify_eq/=].
  apply run_bind_Some in H2 as (o&w3&H3&H4). pose proof (quiet _ _ _ H3) as [Hd3 Ht3].
  munfold H4. by simplify_eq/=.
Qed.

(** Leaving the block ends the transaction and keeps the tables. *)
Lemma tx_scope_run {A} (body : M A) w a w' :
  tx_scope E body w = Some (a, w') ->
  exists w1, body w = Some (a, w1) /\ w_db w' = w_db w1 /\ w_tx w' = None.
Proof.
  unfold tx_scope. intros (a1&w1&H1&H2)%run_bind_Some.
  apply run_bind_Some in H2 as (b&w2&H2&H3). munfold H3. simplify_eq/=.
  apply tx_rollback_run in H2 as [Hd Ht]. eauto.
Qed.

(** [TxStep m R]: on an open transaction [m] changes nothing but the
    transaction; if it reports success it has changed it by [R]. *)
Definition TxStep (m : M bool) (R : Db -> Db -> Prop) : Prop :=
  forall w b w' t, m w = Some (b, w') -> w_tx w = Some t ->
  w_db w' = w_db w /\ exists t', w_tx w' = Some t' /\ (b = true -> R t t').

(** A statement that ran. *)
Definition executes (stmt : Db -> option (Db * Z)) (d d' : Db) : Prop :=
  exists n, stmt d = Some (d', n).

(** Two changes one after the other. *)
Definition seq_rel (R S : Db -> Db -> Prop) (d d'' : Db) : Prop := exists d', R d d' /\ S d' d''.

Lemma tx_update_run stmt w r w' t :
  tx_update E stmt w = Some (r, w') -> w_tx w = Some t ->
  w_db w' = w_db w /\
  match r with
  | Some n => exists t', stmt t = Some (t', n) /\ w_tx w' = Some t'
  | None => w_tx w' = Some t
  end.
Proof.
  unfold tx_update. intros (o&w2&H1&H3)%run_bind_Some Ht.
  pose proof (quiet _ _ _ H1) as [Hd2 Ht2]. rewrite Ht in Ht2. munfold H3. rewrite Ht2 in H3.
  destruct o; [destruct (stmt t) as [[d n]|] eqn:Es|..]; simplify_eq/=; eauto.
Qed.

Lemma tx_step_update stmt : TxStep (update_ok (tx_update E stmt)) (executes stmt).
Proof.
  unfold update_ok. intros w b w' t (r&w1&H1&H2)%run_bind_Some Ht.
  destruct (tx_update_run _ _ _ _ _ H1 Ht) as [Hd Hr]. munfold H2. simplify_eq/=.
  split; [done|]. destruct r as [n|]; [destruct Hr as (t'&Hs&Ht')|by exists t].
  exists t'. split; [done|]. intros _. by exists n.
Qed.

Lemma tx_step_affects stmt :
  TxStep (update_affects (tx_update E stmt))
    (fun d d' => exists n, stmt d = Some (d', n) /\ 0 < n).
Proof.
  unfold update_affects. intros w b w' t (r&w1&H1&H2)%run_bind_Some Ht.
  destruct (tx_update_run _ _ _ _ _ H1 Ht) as [Hd Hr]. munfold H2. simplify_eq/=.
  split; [done|]. destruct r as [n|]; [destruct Hr as (t'&Hs&Ht')|by exists t].
  exists t'. split; [done|]. intros Hn%Z.ltb_lt. by exists n.
Qed.

Lemma tx_step_and m k R S :
  TxStep m R -> TxStep k S -> TxStep (m &&& k) (seq_rel R S).
Proof.
  intros Hm Hk w b w' t. unfold and_then. intros (b1&w1&H1&H2)%run_bind_Some Ht.
  destruct (Hm _ _ _ _ H1 Ht) as (Hd1&t1&Ht1&Hf). destruct b1.
  - destruct (Hk _ _ _ _ H2 Ht1) as (Hd2&t2&Ht2&Hg). split; [congruence|].
    exists t2. split; [done|]. intros Hb. exists t1. auto.
  - munfold H2. simplify_eq/=. split; [done|]. by exists t1.
Qed.

Lemma tx_step_quiet {A} (m : M A) k R :
  Quiet m -> (forall a, TxStep (k a) R) -> TxStep (m ≫= k) R.
Proof.
  intros Hm Hk w b w' t (a&w1&H1&H2)%run_bind_Some Ht. destruct (Hm _ _ _ H1) as [Hd1 Ht1].
  rewrite Ht in Ht1. destruct (Hk _ _ _ _ _ H2 Ht1) as (Hd&HR). split; [congruence|done].
Qed.

Lemma tx_step_ret b (R : Db -> Db -> Prop) : (forall d, R d d) -> TxStep (mret b) R.
Proof. intros HR w b' w' t [= <- <-] Ht. split; [done|]. eauto. Qed.

Lemma tx_step_weaken m (R S : Db -> Db -> Prop) :
  TxStep m R -> (forall d d', R d d' -> S d d') -> TxStep m S.
Proof.
  intros Hm HRS w b w' t H1 Ht. destruct (Hm _ _ _ _ H1 Ht) as (?&t'&?&Hf). eauto 6.
Qed.

(** A chain of statements ended by a commit: if it reports success the whole
    chain is committed; if not, nothing is, or all of it with a lost answer. *)
Lemma tx_steps_commit m R w b w' t :
  TxStep m R -> w_tx w = Some t -> (m &&& tx_commit E) w = Some (b, w') ->
  (R t (w_db w') /\ w_tx w' = None) \/ (b = false /\ w_db w' = w_db w).
Proof.
  intros Hm Ht. unfold and_then. intros (b1&w1&H1&H2)%run_bind_Some.
  destruct (Hm _ _ _ _ H1 Ht) as (Hd1&t1&Ht1&Hf). destruct b1.
  - destruct (tx_commit_run _ _ _ _ Ht1 H2) as [[Hd2 Ht2]|[-> [Hd2 Ht2]]].
    + left. rewrite Hd2. auto.
    + right. split; [done|congruence].
  - munfold H2. simplify_eq/=. by right.
Qed.

(** [active && m1 && m2 && tx.commit()] right after the transaction began. *)
Lemma active_commit_run active m1 m2 R1 R2 w b w' :
  TxStep m1 R1 -> TxStep m2 R2 -> (active = true -> w_tx w = Some (w_db w)) ->
  (mret active &&& m1 &&& m2 &&& tx_commit E) w = Some (b, w') ->
  seq_rel R1 R2 (w_db w) (w_db w') \/ (b = false /\ w_db w' = w_db w).
Proof.
  intros H1 H2 Ha H. destruct active.
  2:{ unfold and_then in H. munfold H. simplify_eq/=. by right. }
  assert (TxStep (mret true &&& m1 &&& m2) (seq_rel (seq_rel eq R1) R2)) as HT
    by (apply tx_step_and, H2; apply tx_step_and, H1; by apply tx_step_ret).
  destruct (tx_steps_commit _ _ _ _ _ _ HT (Ha eq_refl) H) as [[(d2&(d1&<-&?)&?) _]|?]; [left|by right].
  by exists d2.
Qed.

(** A statement outside of a transaction: it may have run without an answer,
    and has run if it was answered. *)
Lemma auto_update_run stmt w r w' :
  auto_update E stmt w = Some (r, w') ->
  w_tx w' = w_tx w /\ (w_db w' = w_db w \/ exists n, stmt (w_db w) = Some (w_db w', n)) /\
  (forall n, r = Some n -> stmt (w_db w) = Some (w_db w', n)).
Proof.
  unfold auto_update. intros (o&w1&H1&H)%run_bind_Some. destruct (quiet _ _ _ H1) as [Hd Ht].
  apply run_bind_Some in H as (w2&w3&[= <- <-]&H). rewrite Hd in H.
  destruct o, (stmt (w_db w)) as [[d n]|] eqn:Hs; munfold H; simplify_eq/=; split_and!; eauto;
    intros ? [= <-]; done.
Qed.

(** ** Reading *)

Lemma row_run {A} (q : Db -> option A) w r w' :
  row (auto_query E q) w = Some (r, w') -> r = q (w_db w) \/ r = None.
Proof.
  unfold row, auto_query, call. intros H. munfold H. destruct (env_fault E (w_ops w)); simplify_eq/=.
  - left. by destruct (q (w_db w)).
  - by right.
  - by right.
Qed.

Lemma read_row_run {A} (q : Db -> option A) w r w' :
  with_conn E None (row (auto_query E q)) w = Some (r, w') -> r = q (w_db w) \/ r = None.
Proof.
  unfold with_conn. intros (b&w1&H1&H2)%run_bind_Some.
  destruct (quiet _ _ _ H1) as [Hd1 _]. rewrite <- Hd1.
  destruct b; [by apply row_run in H2|munfold H2; simplify_eq/=; by right].
Qed.

(** Whether a row exists. *)
Lemma exists_row_run {A} (q : Db -> option A) w b w' :
  with_conn E false (r ← row (auto_query E q); mret (is_some r)) w = Some (b, w') ->
  b = true -> exists x, q (w_db w) = Some x.
Proof.
  unfold with_conn. intros (b1&w1&H1&H2)%run_bind_Some ->.
  destruct (quiet _ _ _ H1) as [Hd1 _].
  destruct b1; [|munfold H2; by simplify_eq/=].
  unfold row, auto_query, call in H2. munfold H2.
  destruct (env_fault E (w_ops w1)); simplify_eq/=. rewrite Hd1 in *.
  destruct (q (w_db w)); [eauto|done].
Qed.

Lemma read_rows_run {A} (q : Db -> list A) w r w' :
  with_conn E [] (rows (auto_query E q)) w = Some (r, w') -> r = q (w_db w) \/ r = [].
Proof.
  unfold with_conn. intros (b&w1&H1&H2)%run_bind_Some.
  destruct (quiet _ _ _ H1) as [Hd1 _].
  destruct b; [|munfold H2; simplify_eq/=; by right].
  unfold rows, auto_query, call in H2. munfold H2. destruct (env_fault E (w_ops w1)); simplify_eq/=.
  - rewrite Hd1. by left.
  - by right.
  - by right.
Qed.

End Primitives.

(** ** Calls that leave Kafka alone *)

(** Kafka is written by [produce] only. *)
Class Silent {A} (m : M A) : Prop :=
  silent : forall w a w', m w = Some (a, w') -> w_kafka w' = w_kafka w.
#[global] Hint Mode Silent + ! : typeclass_instances.

Section Silent.
Context {A B : Type} (E : Env).

#[global] Instance silent_ret (a : A) : Silent (mret a : M A).
Proof. by intros w ? w' [= <- <-]. Qed.
#[global] Instance silent_bind (m : M A) (k : A -> M B) :
  Silent m -> (forall a, Silent (k a)) -> Silent (m ≫= k).
Proof.
  intros Hm Hk w b w' (a&w1&H1&H2)%run_bind_Some. by rewrite (Hk _ _ _ _ H2), (Hm _ _ _ H1).
Qed.
#[global] Instance silent_if (b : bool) (m1 m2 : M A) :
  Silent m1 -> Silent m2 -> Silent (if b then m1 else m2).
Proof. by destruct b. Qed.
#[global] Instance silent_option (o : option B) (f : B -> M A) (m : M A) :
  (forall b, Silent (f b)) -> Silent m -> Silent (match o with Some b => f b | None => m end).
Proof. by destruct o. Qed.
#[global] Instance silent_get : Silent (get_state : M world).
Proof. by intros w ? w' [= <- <-]. Qed.
#[global] Instance silent_outcome (o : outcome) (m1 m2 m3 : M A) :
  Silent m1 -> Silent m2 -> Silent m3 ->
  Silent (match o with Done => m1 | Refused => m2 | Lost => m3 end).
Proof. by destruct o. Qed.
#[global] Instance silent_call : Silent (call E).
Proof. by intros w ? w' [= <- <-]. Qed.
#[global] Instance silent_nowMs : Silent (nowMs E).
Proof. by intros w ? w' [= <- <-]. Qed.
#[global] Instance silent_unix_ms : Silent (unix_ms E).
Proof. by intros w ? w' [= <- <-]. Qed.
#[global] Instance silent_generate_trace : Silent (generate_trace E).
Proof. by intros w ? w' [= <- <-]. Qed.
Lemma silent_modify f : (forall w, w_kafka (f w) = w_kafka w) -> Silent (modify f : M unit).
Proof. intros Hf w ? w' [= <- <-]. apply Hf. Qed.

End Silent.

Section Silent_calls.
Context (E : Env).

#[local] Hint Extern 1 (Silent (modify _)) => (apply silent_modify; done) : typeclass_instances.

#[global] Instance silent_tx_begin : Silent (tx_begin E).
Proof. unfold tx_begin. apply _. Qed.
#[global] Instance silent_tx_commit : Silent (tx_commit E).
Proof. unfold tx_commit. apply _. Qed.
#[global] Instance silent_tx_rollback : Silent (tx_rollback E).
Proof. unfold tx_rollback. apply _. Qed.
#[global] Instance silent_tx_query {A} (q : Db -> A) : Silent (tx_query E q).
Proof. unfold tx_query. apply _. Qed.
#[global] Instance silent_tx_update stmt : Silent (tx_update E stmt).
Proof.
  unfold tx_update. apply silent_bind; [apply _|intros o]. apply silent_bind; [apply _|intros w].
  destruct o, (w_tx w) as [t|]; try apply _. destruct (stmt t) as [[d n]|]; apply _.
Qed.
#[global] Instance silent_auto_update stmt : Silent (auto_update E stmt).
Proof.
  unfold auto_update. apply silent_bind; [apply _|intros o]. apply silent_bind; [apply _|intros w].
  destruct o, (stmt (w_db w)) as [[d n]|]; apply _.
Qed.
#[global] Instance silent_with_conn {A} (dflt : A) m : Silent m -> Silent (with_conn E dflt m).
Proof. unfold with_conn, acquire. apply _. Qed.
#[global] Instance silent_auto_query {A} (q : Db -> A) : Silent (auto_query E q).
Proof. unfold auto_query. apply _. Qed.
#[global] Instance silent_update_ok m : Silent m -> Silent (update_ok m).
Proof. unfold update_ok. apply _. Qed.
#[global] Instance silent_rows {A} (m : M (option (list A))) : Silent m -> Silent (rows m).
Proof. unfold rows. apply _. Qed.
#[global] Instance silent_row {A} (m : M (option (option A))) : Silent m -> Silent (row m).
Proof. unfold row. apply _. Qed.

End Silent_calls.

(** ** Blocks that take effect as a whole

    [Settles m ok R]: [m] changes the committed tables by [R] or not at all,
    and an answer [a] with [ok a] means that it did. *)

Definition settles (ok : bool) (R : Db -> Db -> Prop) (d d' : Db) : Prop :=
  R d d' \/ (ok = false /\ d' = d).

Definition Settles {A} (m : M A) (ok : A -> bool) (R : Db -> Db -> Prop) : Prop :=
  forall w a w', m w = Some (a, w') -> settles (ok a) R (w_db w) (w_db w').

(** [TxTail k R]: [k] ends the open transaction in the same way. *)
Definition TxTail (k : M bool) (R : Db -> Db -> Prop) : Prop :=
  forall w b w' t, w_tx w = Some t -> k w = Some (b, w') ->
  R t (w_db w') \/ (b = false /\ w_db w' = w_db w).

Section Settles.
Context (E : Env).

Lemma settles_weaken {A} (m : M A) ok (R S : Db -> Db -> Prop) :
  Settles m ok R -> (forall d d', R d d' -> S d d') -> Settles m ok S.
Proof. intros Hm HRS w a w' H. destruct (Hm _ _ _ H) as [?|?]; [left; auto|by right]. Qed.

Lemma settles_bind {A B} (m : M A) (k : A -> M B) ok R :
  Quiet m -> (forall a, Settles (k a) ok R) -> Settles (m ≫= k) ok R.
Proof.
  intros Hm Hk w b w' (a&w1&H1&H2)%run_bind_Some. destruct (Hm _ _ _ H1) as [Hd _].
  rewrite <- Hd. by eapply Hk.
Qed.

Lemma settles_ret {A} (a : A) ok R : ok a = false -> Settles (mret a : M A) ok R.
Proof. intros Ho w ? w' [= <- <-]. by right. Qed.

Lemma settles_if {A} (b : bool) (m1 m2 : M A) ok R :
  (b = true -> Settles m1 ok R) -> (b = false -> Settles m2 ok R) ->
  Settles (if b then m1 else m2) ok R.
Proof. destruct b; auto. Qed.

(** The result of [m] decides the answer. *)
Lemma settles_answer {A B} (m : M A) (k : A -> M B) ok ok' R :
  Settles m ok R -> (forall a, exists b, k a = mret b /\ (ok a = false -> ok' b = false)) ->
  Settles (m ≫= k) ok' R.
Proof.
  intros Hm Hk w b w' (a&w1&H1&H2)%run_bind_Some. destruct (Hk a) as (b'&Hb&Ho). rewrite Hb in H2.
  munfold H2. simplify_eq/=. destruct (Hm _ _ _ H1) as [?|[? ->]]; [by left|right; auto].
Qed.

(** What a read found is known of the tables the rest starts from. *)
Lemma settles_read {A B} (m : M A) (k : A -> M B) ok (P : A -> Db -> Prop) (R : Db -> Db -> Prop) :
  Quiet m -> (forall w a w1, m w = Some (a, w1) -> P a (w_db w)) ->
  (forall a, Settles (k a) ok (fun d d' => P a d -> R d d')) -> Settles (m ≫= k) ok R.
Proof.
  intros Hm HP Hk w b w' (a&w1&H1&H2)%run_bind_Some. destruct (Hm _ _ _ H1) as [Hd _].
  specialize (HP _ _ _ H1). destruct (Hk _ _ _ _ H2) as [H|H]; rewrite Hd in H; [left; auto|by right].
Qed.

Lemma settles_conn {A} (dflt : A) (m : M A) ok R :
  ok dflt = false -> Settles m ok R -> Settles (with_conn E dflt m) ok R.
Proof.
  intros Ho Hm w a w'. unfold with_conn. intros (c&w1&H1&H2)%run_bind_Some.
  destruct (quiet _ _ _ H1) as [Hd _]. rewrite <- Hd. destruct c; [by eapply Hm|].
  munfold H2. simplify_eq/=. by right.
Qed.

Lemma settles_update stmt : Settles (update_ok (auto_update E stmt)) id (executes stmt).
Proof.
  unfold update_ok. intros w b w' (r&w1&H1&H2)%run_bind_Some. munfold H2. simplify_eq/=.
  destruct (auto_update_run _ _ _ _ _ H1) as (_&[->|?]&Hn); [|by left].
  destruct r as [n|]; [left; exists n; auto|by right].
Qed.

Lemma settles_affects stmt :
  Settles (update_affects (auto_update E stmt)) id (executes stmt).
Proof.
  unfold update_affects. intros w b w' (r&w1&H1&H2)%run_bind_Some. munfold H2. simplify_eq/=.
  destruct (auto_update_run _ _ _ _ _ H1) as (_&[->|?]&Hn); [|by left].
  destruct r as [n|]; [left; exists n; auto|by right].
Qed.

Lemma tx_tail_commit : TxTail (tx_commit E) eq.
Proof.
  intros w b w' t Ht H. destruct (tx_commit_run _ _ _ _ _ Ht H) as [[-> _]|[-> [-> _]]]; auto.
Qed.

Lemma tx_tail_seq m k R S :
  TxStep m R -> TxTail k S ->
  TxTail (ok ← m; if negb ok then mret false else k) (seq_rel R S).
Proof.
  intros Hm Hk w b w' t Ht (ok&w1&H1&H2)%run_bind_Some.
  destruct (Hm _ _ _ _ H1 Ht) as (Hd&t1&Ht1&HR). destruct ok; cbn [negb] in H2.
  - destruct (Hk _ _ _ _ Ht1 H2) as [HS|[-> ->]]; [left; exists t1; auto|by right].
  - munfold H2. simplify_eq/=. by right.
Qed.

Lemma tx_tail_weaken k (R S : Db -> Db -> Prop) :
  TxTail k R -> (forall d d', R d d' -> S d d') -> TxTail k S.
Proof. intros Hk HRS w b w' t Ht H. destruct (Hk _ _ _ _ Ht H); auto. Qed.

Lemma tx_tail_bind {A} (m : M A) k R :
  Quiet m -> (forall a, TxTail (k a) R) -> TxTail (m ≫= k) R.
Proof.
  intros Hm Hk w b w' t Ht (a&w1&H1&H2)%run_bind_Some. destruct (Hm _ _ _ H1) as [Hd Ht1].
  rewrite <- Hd. eapply Hk; [|done]. congruence.
Qed.

(** The whole block: begin, the statements, the commit, the destructor. *)
Lemma settles_tx k R :
  TxTail k R ->
  Settles (tx_scope E (active ← tx_begin E; if negb active then mret false else k)) id R.
Proof.
  intros Hk w b w' (w1&H&Hd&_)%tx_scope_run. rewrite Hd. clear Hd.
  apply run_bind_Some in H as (active&w2&H2&H). apply tx_begin_run in H2 as [Hd2 Ht2].
  destruct active; cbn [negb] in H.
  - destruct (Hk _ _ _ _ Ht2 H) as [?|[-> ->]]; [by left|by right].
  - munfold H. simplify_eq/=. by right.
Qed.

End Settles.

(** ** Running on a healthy database *)

Section Healthy.
Context (E : Env).
Hypothesis healthy_db : forall i, env_fault E i = Done.

(** The calls made so far. *)
Definition after_calls (n : nat) (w : world) : world := set_ops (n + w_ops w) w.

Lemma run_step_to {A B} (m : M A) (k : A -> M B) w a w1 r :
  m w = Some (a, w1) -> k a w1 = r -> (m ≫= k) w = r.
Proof. intros Hm <-. etrans; [apply run_bind|]. by rewrite Hm. Qed.

Lemma acquire_healthy w : acquire E w = Some (true, after_calls 1 w).
Proof. unfold acquire, call, mbind, SM_bind. by rewrite healthy_db. Qed.

Lemma with_conn_healthy {A} (dflt : A) m w : with_conn E dflt m w = m (after_calls 1 w).
Proof. unfold with_conn. by eapply run_step_to; [apply acquire_healthy|]. Qed.

Lemma tx_begin_healthy w : tx_begin E w = Some (true, set_tx (Some (w_db w)) (after_calls 1 w)).
Proof. unfold tx_begin, call, mbind, SM_bind. by rewrite healthy_db. Qed.

Lemma tx_query_healthy {A} (q : Db -> A) w t :
  w_tx w = Some t -> tx_query E q w = Some (Some (q t), after_calls 1 w).
Proof.
  intros Ht. unfold tx_query, call, mbind, SM_bind, mret, SM_ret, get_state. cbn.
  by rewrite healthy_db, Ht.
Qed.

Lemma tx_update_healthy stmt w t d n :
  w_tx w = Some t -> stmt t = Some (d, n) ->
  tx_update E stmt w = Some (Some n, set_tx (Some d) (after_calls 1 w)).
Proof.
  intros Ht Hs. unfold tx_update, call, mbind, SM_bind, mret, SM_ret, get_state, modify. cbn.
  by rewrite healthy_db, Ht, Hs.
Qed.

Lemma tx_commit_healthy w t :
  w_tx w = Some t -> tx_commit E w = Some (true, set_tx None (set_db t (after_calls 1 w))).
Proof.
  intros Ht. unfold tx_commit, call, mbind, SM_bind, mret, SM_ret, get_state, modify.
  by rewrite Ht, healthy_db.
Qed.

Lemma tx_rollback_none w : w_tx w = None -> tx_rollback E w = Some (false, w).
Proof. intros Ht. unfold tx_rollback, mbind, SM_bind, get_state. by rewrite Ht. Qed.

Lemma tx_scope_closed {A} (m : M A) w a w' :
  m w = Some (a, w') -> w_tx w' = None -> tx_scope E m w = Some (a, w').
Proof.
  intros Hm Ht. unfold tx_scope. eapply run_step_to; [exact Hm|].
  eapply run_step_to; [by apply tx_rollback_none|done].
Qed.

Lemma auto_update_healthy stmt w d n :
  stmt (w_db w) = Some (d, n) ->
  auto_update E stmt w = Some (Some n, set_db d (after_calls 1 w)).
Proof.
  intros Hs. unfold auto_update, call, mbind, SM_bind, mret, SM_ret, get_state, modify. cbn.
  by rewrite healthy_db, Hs.
Qed.

Lemma row_healthy {A} (q : Db -> option A) w :
  row (auto_query E q) w = Some (q (w_db w), after_calls 1 w).
Proof.
  unfold row, auto_query, call, mbind, SM_bind, mret, SM_ret, get_state. cbn.
  rewrite healthy_db. cbn. by destruct (q (w_db w)).
Qed.

Lemma read_row_healthy {A} (q : Db -> option A) w :
  with_conn E None (row (auto_query E q)) w = Some (q (w_db w), after_calls 2 w).
Proof. rewrite with_conn_healthy, row_healthy. done. Qed.

Lemma exists_row_healthy {A} (q : Db -> option A) w :
  with_conn E false (r ← row (auto_query E q); mret (is_some r)) w
  = Some (is_some (q (w_db w)), after_calls 2 w).
Proof. rewrite with_conn_healthy. by eapply run_step_to; [apply row_healthy|]. Qed.

End Healthy.

(** Inversion of a run: every bind is opened and every test decided. *)
Ltac run_step H :=
  let a := fresh "x" in let w := fresh "w" in let H1 := fresh "R" in
  match type of H with
  | (_ ≫= _) _ = Some _ => apply run_bind_Some in H as (a & w & H1 & H)
  | (if ?b then _ else _) _ = Some _ => let Hb := fresh "B" in destruct b eqn:Hb
  | (match ?o with _ => _ end) _ = Some _ => let Hb := fresh "B" in destruct o eqn:Hb
  | mret _ _ = Some _ => injection H as <- <-
  end.
