(* ===== verification/MessageService.v ===== *)
(** * The message service (message_service/src/MessageServiceImpl.cpp)

    Every RPC handler of the service, with its checks, its transaction and its
    answer.  A handler runs in the world of [Db]; null dependencies
    ([invalidDeps]), the options, the internal token check and the protobuf
    codec of [MessageKafkaPayload] are the fields of [MessageServiceImpl].
    Log lines and trace spans are left out; counters are recorded. *)

From S2P Require Import Prelude Words Text MessageId Rpc Db MessageStore ConversationStore.
From S2P Require Import OutboxStore Directory.

Record MessageData := mkMessageData {
  d_message_id : Z; d_conversation_id : Z; d_from_user_id : Z; d_to_user_id : Z;
  d_group_id : Z; d_content_type : Z; d_content : string; d_status : Z; d_timestamp : Z;
  d_recalled : bool; d_recalled_at : Z; d_trace_id : string
}.

Record MessageServiceImpl := mkMessageService {
  ms_auth : InternalRpcAuth;
  ms_sha256Hex : string -> string;
  ms_invalidDeps : bool;          (** some dependency is null *)
  ms_no_receipt_dao : bool;       (** [message_receipt_dao_] is null *)
  ms_max_content_length : Z;
  ms_offline_pull_limit : Z;
  ms_recall_window_seconds : Z;
  ms_topic_single : string;
  ms_topic_group : string;
  ms_dedup_ttl_seconds : Z;
  ms_serialize : MessageData -> string;
  ms_deserialize : string -> option MessageData
}.

Module MessageDeduplicator.

Definition makeKey (from_user_id client_sequence_id : Z) : string :=
  "nebula:msg:dedup:" +:+ to_string from_user_id +:+ ":" +:+ to_string client_sequence_id.

Section Dedup.
Context (E : Env) (ttl_seconds : Z).

(** The constructor replaces a ttl that is not positive. *)
Definition dedup_ttl : Z := if 0 <? ttl_seconds then ttl_seconds else 86400.

Definition getExistingMessageId (from_user_id client_sequence_id : Z) : M (option Z) :=
  if client_sequence_id =? 0 then mret None
  else
    value ← redis_get E (makeKey from_user_id client_sequence_id);
    mret (v ← value; stoull v).

Definition markMessage (from_user_id client_sequence_id message_id : Z) : M bool :=
  if client_sequence_id =? 0 then mret true
  else redis_setEx E (makeKey from_user_id client_sequence_id) dedup_ttl (to_string message_id).

End Dedup.
End MessageDeduplicator.
Export MessageDeduplicator.

(** ** Requests and answers *)

Record SendSingleMessageRequest := mkSendSingle {
  ss_request_id : string; ss_from_user_id : Z; ss_to_user_id : Z; ss_content_type : Z;
  ss_content : string; ss_client_sequence_id : Z
}.

Record SendGroupMessageRequest := mkSendGroup {
  sg_request_id : string; sg_from_user_id : Z; sg_group_id : Z; sg_content_type : Z;
  sg_content : string; sg_client_sequence_id : Z
}.

(** [SendSingleMessageResponse] and [SendGroupMessageResponse]. *)
Record SendResponse := mkSendResponse {
  s_response : CommonResponse; s_message_id : Z; s_server_timestamp : Z
}.

Record ListRequest := mkListRequest {
  l_request_id : string; l_requester_user_id : Z; l_conversation_id : Z;
  l_before_time : Z; l_page_size : Z; l_before_message_id : Z
}.

Record ListResponse := mkListResponse {
  lr_response : CommonResponse; lr_messages : list MessageData; lr_next_before_time : Z;
  lr_next_before_message_id : Z; lr_has_more : bool
}.

(** A user and a message: the requests to acknowledge, read or recall it. *)
Record MessageRequest := mkMessageRequest {
  mr_request_id : string; mr_user_id : Z; mr_message_id : Z
}.

Record PullRequest := mkPullRequest {
  pr_request_id : string; pr_user_id : Z; pr_page : Z; pr_page_size : Z
}.

Record PullResponse := mkPullResponse {
  pl_response : CommonResponse; pl_messages : list MessageData;
  pl_page : Z; pl_page_size : Z; pl_total : Z
}.

Record ConversationReadRequest := mkConversationRead {
  cr_request_id : string; cr_user_id : Z; cr_conversation_id : Z; cr_up_to_message_id : Z
}.

Record ReadStateResponse := mkReadStateResponse {
  rs_response : CommonResponse; rs_states : list (Z * Z * Z * Z)
}.

Record RecallResponse := mkRecallResponse {
  rr_response : CommonResponse; rr_message_id : Z; rr_recalled_at : Z
}.

Section Service.
Context (E : Env) (svc : MessageServiceImpl).

(** ** Helpers *)

Definition authorized (context : ServerContext) : bool :=
  authorize (ms_sha256Hex svc) (ms_auth svc) context.

Definition unauthenticated (request_id : string) : CommonResponse :=
  fillResponse request_id AUTH_FAILED "internal rpc unauthenticated".

(** [fillResponse] with the default text of the code. *)
Definition fail (request_id : string) (code : ErrorCode) : CommonResponse :=
  fillResponse request_id code EmptyString.

Definition toMessageData (record : MessageRecord) : M MessageData :=
  w ← get_state;
  mret (mkMessageData (m_message_id record) (m_conversation_id record) (m_from_user_id record)
          (m_to_user_id record) (m_group_id record) (m_message_type record) (m_content record)
          (m_status record) (m_created_at record) (m_recalled record) (m_recalled_at record)
          (w_trace w)).

Definition makeOutboxEvent (event_id : Z) (aggregate_type : string) (aggregate_id : Z)
    (topic event_key payload : string) (now : Z) : M OutboxEvent :=
  w ← get_state;
  mret (mkEvent event_id aggregate_type aggregate_id topic event_key payload PENDING 0 0 now now
          (w_trace w) EmptyString).

(** [Scope trace(ensureTraceId(candidate))]: [ensureTraceId] has set the
    thread's id by the time [Scope] saves it, and the destructor puts the
    saved value back. *)
Definition with_trace {A} (candidate : string) (body : M A) : M A :=
  w ← get_state;
  id ← (if isValid candidate then mret candidate
        else if bool_decide (w_trace w = EmptyString) then generate_trace E
        else mret (w_trace w));
  modify (fun w => set_trace id (w_traces w) w);;
  w ← get_state;
  let previous := w_trace w in
  modify (fun w => set_trace id (w_traces w) w);;
  a ← body;
  modify (fun w => set_trace previous (w_traces w) w);;
  mret a.

Definition trace_candidate (context : ServerContext) (request_id : string) : string :=
  let inbound_trace := extractTraceId context in
  if bool_decide (inbound_trace = EmptyString) then request_id else inbound_trace.

(** [validateContent]: the answer when the content is refused. *)
Definition validateContent (request_id content : string) : option CommonResponse :=
  if bool_decide (content = EmptyString) then Some (fail request_id MESSAGE_EMPTY)
  else if ms_max_content_length svc <? s32 (Z.of_nat (String.length content))
  then Some (fail request_id MESSAGE_TOO_LARGE)
  else None.

Definition canReadConversation (user_id conversation_id : Z) : M bool :=
  if negb (user_id =? 0) && negb (conversation_id =? 0)
  then isOwner E user_id conversation_id
  else mret false.

Definition canReceiveMessage (user_id : Z) (record : MessageRecord) : M bool :=
  if (user_id =? 0) || (m_from_user_id record =? user_id) then mret false
  else if negb (m_group_id record =? 0) then canReadConversation user_id (m_conversation_id record)
  else mret (m_to_user_id record =? user_id).

Definition has_user (user_id : Z) : M bool := u ← getUserById E user_id; mret (is_some u).

(** ** Sending *)

Definition replayed (request_id : string) (m : MessageRecord) : SendResponse :=
  mkSendResponse (fillResponse request_id EC_OK "DUPLICATED_REQUEST_REPLAYED")
    (m_message_id m) (m_created_at m).

Definition send_failed (request_id : string) (code : ErrorCode) : SendResponse :=
  mkSendResponse (fail request_id code) 0 0.

(** The lookup for an earlier message with the same sender and sequence
    number: first through the cache, then in the table. *)
Definition find_persisted (from_user_id client_sequence_id : Z) : M (option MessageRecord) :=
  if client_sequence_id =? 0 then mret None
  else
    existing ← getExistingMessageId E from_user_id client_sequence_id;
    persisted ← match existing with
                | Some id =>
                    p ← getMessageById E id;
                    mret (match p with
                          | Some m => if (m_from_user_id m =? from_user_id) &&
                                         (m_client_sequence_id m =? client_sequence_id)
                                      then Some m else None
                          | None => None
                          end)
                | None => mret None
                end;
    match persisted with
    | Some m => mret (Some m)
    | None => getMessageByClientSequence E from_user_id client_sequence_id
    end.

(** The transaction that stores a message: the row, the conversations
    ([upsert]) and the event, or nothing.  [None] stands for success. *)
Definition persist_message (request_id : string) (record : MessageRecord) (upsert : M bool)
    (topic payload : string) (now : Z) : M (option SendResponse) :=
  conn ← acquire E;
  if negb conn then mret (Some (send_failed request_id DB_ERROR))
  else tx_scope E
    (active ← tx_begin E;
     if negb active then mret (Some (send_failed request_id DB_ERROR))
     else
       inserted ← insertMessage_conn E record;
       if negb inserted then
         tx_rollback E;;
         existing ← getMessageByClientSequence E (m_from_user_id record)
                      (m_client_sequence_id record);
         match existing with
         | Some m => mret (Some (replayed request_id m))
         | None => mret (Some (send_failed request_id MESSAGE_PERSIST_FAILED))
         end
       else
         ok ← upsert;
         if negb ok then mret (Some (send_failed request_id DB_ERROR))
         else
           event ← makeOutboxEvent (m_message_id record) "message" (m_message_id record) topic
                     (to_string (m_conversation_id record)) payload now;
           ok ← insertEvent E event;
           if negb ok then mret (Some (send_failed request_id OUTBOX_PUBLISH_FAILED))
           else
             ok ← tx_commit E;
             if negb ok then mret (Some (send_failed request_id DB_ERROR)) else mret None).

(** After the commit: remember the sequence number (a failure is only logged)
    and answer. *)
Definition sent (request_id : string) (from_user_id client_sequence_id message_id now : Z)
    (metric : string) : M SendResponse :=
  (if negb (client_sequence_id =? 0)
   then markMessage E (ms_dedup_ttl_seconds svc) from_user_id client_sequence_id message_id
   else mret true);;
  inc_metric metric;;
  mret (mkSendResponse (fillResponse request_id EC_OK "OK") message_id now).

Definition SendSingleMessage (context : ServerContext) (req : SendSingleMessageRequest)
  : M SendResponse :=
  let id := ss_request_id req in
  let from := ss_from_user_id req in
  let to := ss_to_user_id req in
  if negb (authorized context) then mret (mkSendResponse (unauthenticated id) 0 0)
  else with_trace (trace_candidate context id)
    (inc_metric "nebula_message_send_single_total";;
     if ms_invalidDeps svc then mret (send_failed id EC_INTERNAL_ERROR)
     else if (from =? 0) || (to =? 0) || (from =? to)
     then mret (send_failed id INVALID_ARGUMENT)
     else match validateContent id (ss_content req) with
     | Some r => mret (mkSendResponse r 0 0)
     | None =>
         known ← (has_user from &&& has_user to);
         if negb known then mret (send_failed id USER_NOT_FOUND)
         else
           friends ← (isFriend E from to &&& isFriend E to from);
           if negb friends then
             mret (mkSendResponse (fillResponse id MESSAGE_PERMISSION_DENIED
                     "single messages require an accepted friendship") 0 0)
           else
             persisted ← find_persisted from (ss_client_sequence_id req);
             match persisted with
             | Some m => mret (replayed id m)
             | None =>
                 message_id ← next_message_id E;
                 let conversation_id := ConversationId.single from to in
                 now ← nowMs E;
                 let record := mkMessage message_id conversation_id from
                   (ss_client_sequence_id req) to 0 (ss_content_type req) (ss_content req)
                   MESSAGE_STATUS_SENT false 0 now now in
                 data ← toMessageData record;
                 failed ← persist_message id record
                   (upsertSingleConversationForUsers_conn E conversation_id from to message_id
                      (buildPreview (ss_content req)) now)
                   (ms_topic_single svc) (ms_serialize svc data) now;
                 match failed with
                 | Some r => mret r
                 | None => sent id from (ss_client_sequence_id req) message_id now
                             "nebula_message_send_single_success_total"
                 end
             end
     end).

Definition SendGroupMessage (context : ServerContext) (req : SendGroupMessageRequest)
  : M SendResponse :=
  let id := sg_request_id req in
  let from := sg_from_user_id req in
  let gid := sg_group_id req in
  if negb (authorized context) then mret (mkSendResponse (unauthenticated id) 0 0)
  else with_trace (trace_candidate context id)
    (inc_metric "nebula_message_send_group_total";;
     if ms_invalidDeps svc then mret (send_failed id EC_INTERNAL_ERROR)
     else if (from =? 0) || (gid =? 0) then mret (send_failed id INVALID_ARGUMENT)
     else match validateContent id (sg_content req) with
     | Some r => mret (mkSendResponse r 0 0)
     | None =>
         known ← has_user from;
         if negb known then mret (send_failed id USER_NOT_FOUND)
         else
         group ← getGroupById E gid;
         if negb (is_some group) then mret (send_failed id GROUP_NOT_FOUND)
         else
         member ← isMember E gid from;
         if negb member then mret (send_failed id MESSAGE_PERMISSION_DENIED)
         else
           members ← listMembers E gid;
           persisted ← find_persisted from (sg_client_sequence_id req);
           match persisted with
           | Some m => mret (replayed id m)
           | None =>
               message_id ← next_message_id E;
               let conversation_id := ConversationId.group gid in
               now ← nowMs E;
               let record := mkMessage message_id conversation_id from
                 (sg_client_sequence_id req) 0 gid (sg_content_type req) (sg_content req)
                 MESSAGE_STATUS_SENT false 0 now now in
               data ← toMessageData record;
               failed ← persist_message id record
                 (upsertGroupConversationForMembers_conn E conversation_id gid from members
                    message_id (buildPreview (sg_content req)) now)
                 (ms_topic_group svc) (ms_serialize svc data) now;
               match failed with
               | Some r => mret r
               | None => sent id from (sg_client_sequence_id req) message_id now
                           "nebula_message_send_group_success_total"
               end
           end
     end).

(** ** History *)

Definition ListConversationMessages (context : ServerContext) (req : ListRequest) : M ListResponse :=
  let id := l_request_id req in
  let refuse r := mkListResponse r [] 0 0 false in
  if negb (authorized context) then mret (refuse (unauthenticated id))
  else if ms_invalidDeps svc then mret (refuse (fail id EC_INTERNAL_ERROR))
  else
    readable ← (if (l_requester_user_id req =? 0) || (l_conversation_id req =? 0) then mret false
                else canReadConversation (l_requester_user_id req) (l_conversation_id req));
    if negb readable then mret (refuse (fail id CONVERSATION_NOT_FOUND))
    else
      let limit := Z.to_nat (if l_page_size req =? 0 then 50 else Z.min (l_page_size req) 100) in
      messages ← listConversationMessages E (l_conversation_id req) (l_before_time req)
                   (l_before_message_id req) (limit + 1);
      let has_more := bool_decide (limit < length messages)%nat in
      let page := rev (take limit messages) in
      data ← mapM toMessageData page;
      mret (mkListResponse (fillResponse id EC_OK "OK") data
              (match page with m :: _ => m_created_at m | [] => 0 end)
              (match page with m :: _ => m_message_id m | [] => 0 end) has_more).

(** ** Acknowledging and pulling *)

Definition AckMessage (context : ServerContext) (req : MessageRequest) : M CommonResponse :=
  let id := mr_request_id req in
  if negb (authorized context) then mret (unauthenticated id)
  else
    inc_metric "nebula_message_ack_total";;
    if ms_invalidDeps svc then mret (fail id EC_INTERNAL_ERROR)
    else if (mr_user_id req =? 0) || (mr_message_id req =? 0) then mret (fail id INVALID_ARGUMENT)
    else
      known ← has_user (mr_user_id req);
      if negb known then mret (fail id USER_NOT_FOUND)
      else
        record ← getMessageById E (mr_message_id req);
        match record with
        | None => mret (fail id MESSAGE_NOT_FOUND)
        | Some record =>
            allowed ← canReceiveMessage (mr_user_id req) record;
            if negb allowed then mret (fail id MESSAGE_PERMISSION_DENIED)
            else if ms_no_receipt_dao svc then mret (fail id EC_INTERNAL_ERROR)
            else
              conn ← acquire E;
              if negb conn then mret (fail id DB_ERROR)
              else tx_scope E
                (active ← tx_begin E;
                 now ← nowMs E;
                 ok ← (mret active &&&
                       upsertDelivered_conn E (mr_message_id req) (mr_user_id req) now &&&
                       markAsAcked_conn E (mr_user_id req) (mr_message_id req) &&&
                       tx_commit E);
                 if negb ok then mret (fail id DB_ERROR)
                 else
                   inc_metric "nebula_message_ack_success_total";;
                   mret (fillResponse id EC_OK "OK"))
        end.

(** The messages that parse, with their ids; the others are logged and left. *)
Definition deliverable (offline : list OfflineMessage) : list (Z * MessageData) :=
  omap (fun item => data ← ms_deserialize svc (om_payload item); Some (om_message_id item, data))
    offline.

Definition PullOfflineMessages (context : ServerContext) (req : PullRequest) : M PullResponse :=
  let id := pr_request_id req in
  let refuse r := mkPullResponse r [] 0 0 0 in
  if negb (authorized context) then mret (refuse (unauthenticated id))
  else
    inc_metric "nebula_message_pull_offline_total";;
    if ms_invalidDeps svc then mret (refuse (fail id EC_INTERNAL_ERROR))
    else if pr_user_id req =? 0 then mret (refuse (fail id INVALID_ARGUMENT))
    else
      known ← has_user (pr_user_id req);
      if negb known then mret (refuse (fail id USER_NOT_FOUND))
      else
        let max_limit := u64 (ms_offline_pull_limit svc) in
        let limit := if pr_page_size req =? 0 then max_limit else pr_page_size req in
        let limit := if max_limit <? limit then max_limit else limit in
        offline ← listOfflineMessages E (pr_user_id req) (Z.to_nat limit);
        conn ← acquire E;
        if negb conn then mret (refuse (fail id DB_ERROR))
        else tx_scope E
          (active ← tx_begin E;
           if negb active then mret (refuse (fail id DB_ERROR))
           else
             let delivered := deliverable offline in
             ok ← (markBatchAsPulled_conn E (pr_user_id req) (map fst delivered) &&& tx_commit E);
             if negb ok then mret (refuse (fail id DB_ERROR))
             else
               inc_metric "nebula_message_pull_offline_success_total";;
               mret (mkPullResponse (fillResponse id EC_OK "OK") (map snd delivered)
                       (pr_page req) (u32 limit) (Z.of_nat (length delivered)))).

(** ** Reading *)

Definition MarkMessageRead (context : ServerContext) (req : MessageRequest) : M CommonResponse :=
  let id := mr_request_id req in
  if negb (authorized context) then mret (unauthenticated id)
  else
    inc_metric "nebula_message_mark_read_total";;
    if ms_invalidDeps svc || ms_no_receipt_dao svc then mret (fail id EC_INTERNAL_ERROR)
    else if (mr_user_id req =? 0) || (mr_message_id req =? 0) then mret (fail id INVALID_ARGUMENT)
    else
      record ← getMessageById E (mr_message_id req);
      match record with
      | None => mret (fail id MESSAGE_NOT_FOUND)
      | Some record =>
          allowed ← canReceiveMessage (mr_user_id req) record;
          if negb allowed then mret (fail id MESSAGE_PERMISSION_DENIED)
          else
            conn ← acquire E;
            if negb conn then mret (fail id DB_ERROR)
            else tx_scope E
              (active ← tx_begin E;
               now ← nowMs E;
               ok ← (mret active &&&
                     receipt_markRead_conn E (mr_message_id req) (mr_user_id req) now &&&
                     recalculateUnread_conn E (mr_user_id req) (m_conversation_id record) now &&&
                     tx_commit E);
               if negb ok then mret (fail id DB_ERROR)
               else
                 inc_metric "nebula_message_mark_read_success_total";;
                 mret (fillResponse id EC_OK "OK"))
      end.

Definition MarkConversationRead (context : ServerContext) (req : ConversationReadRequest)
  : M CommonResponse :=
  let id := cr_request_id req in
  if negb (authorized context) then mret (unauthenticated id)
  else
    inc_metric "nebula_message_mark_conversation_read_total";;
    if ms_invalidDeps svc || ms_no_receipt_dao svc then mret (fail id EC_INTERNAL_ERROR)
    else if (cr_user_id req =? 0) || (cr_conversation_id req =? 0) || (cr_up_to_message_id req =? 0)
    then mret (fail id INVALID_ARGUMENT)
    else
      readable ← canReadConversation (cr_user_id req) (cr_conversation_id req);
      if negb readable then mret (fail id CONVERSATION_NOT_FOUND)
      else
        cursor ← getMessageById E (cr_up_to_message_id req);
        match cursor with
        | None => mret (fail id MESSAGE_NOT_FOUND)
        | Some cursor =>
            if negb (m_conversation_id cursor =? cr_conversation_id req)
            then mret (fail id MESSAGE_NOT_FOUND)
            else
              now ← nowMs E;
              conn ← acquire E;
              if negb conn then mret (fail id DB_ERROR)
              else tx_scope E
                (active ← tx_begin E;
                 ok ← (mret active &&&
                       markConversationRead_conn E (cr_conversation_id req) (cr_user_id req)
                         (cr_up_to_message_id req) (m_created_at cursor) now &&&
                       recalculateUnread_conn E (cr_user_id req) (cr_conversation_id req) now &&&
                       tx_commit E);
                 if negb ok then mret (fail id DB_ERROR)
                 else
                   inc_metric "nebula_message_mark_conversation_read_success_total";;
                   mret (fillResponse id EC_OK "OK"))
        end.

Definition GetMessageReadState (context : ServerContext) (req : MessageRequest)
  : M ReadStateResponse :=
  let id := mr_request_id req in
  let refuse r := mkReadStateResponse r [] in
  if negb (authorized context) then mret (refuse (unauthenticated id))
  else if ms_no_receipt_dao svc then mret (refuse (fail id EC_INTERNAL_ERROR))
  else if (mr_message_id req =? 0) || (mr_user_id req =? 0)
  then mret (refuse (fail id INVALID_ARGUMENT))
  else
    record ← getMessageById E (mr_message_id req);
    match record with
    | None => mret (refuse (fail id MESSAGE_NOT_FOUND))
    | Some record =>
        if negb (m_from_user_id record =? mr_user_id req)
        then mret (refuse (fail id MESSAGE_PERMISSION_DENIED))
        else
          states ← getReadState E (mr_message_id req);
          mret (mkReadStateResponse (fillResponse id EC_OK "OK")
                  (map (fun r => (rc_message_id r, rc_user_id r, rc_delivered_at r, rc_read_at r))
                     states))
    end.

(** ** Recalling *)

(** The block of [RecallMessage] that writes: the row, the event, the entries
    of the conversation. *)
Definition recall_transaction (id : string) (message_id : Z) (record : MessageRecord)
    (data : MessageData) (now : Z) : M RecallResponse :=
  let refuse code := mkRecallResponse (fail id code) 0 0 in
  conn ← acquire E;
  if negb conn then mret (refuse DB_ERROR)
  else tx_scope E
    (active ← tx_begin E;
     if negb active then mret (refuse DB_ERROR)
     else
       recalled ← recallMessage_conn E message_id now;
       if negb recalled then
         tx_rollback E;;
         latest ← getMessageById E message_id;
         mret (refuse (match latest with
                       | Some m => if m_recalled m then MESSAGE_ALREADY_RECALLED else DB_ERROR
                       | None => DB_ERROR
                       end))
       else
         event_id ← next_message_id E;
         event ← makeOutboxEvent event_id "message_recall" message_id
           (if m_group_id record =? 0 then ms_topic_single svc else ms_topic_group svc)
           (to_string (m_conversation_id record)) (ms_serialize svc data) now;
         ok ← insertEvent E event;
         if negb ok then mret (refuse OUTBOX_PUBLISH_FAILED)
         else
           ok ← recalculateUnreadForConversation_conn E (m_conversation_id record) now;
           if negb ok then mret (refuse DB_ERROR)
           else
             ok ← markLastMessageRecalled_conn E (m_conversation_id record)
                    (m_message_id record) now;
             if negb ok then mret (refuse DB_ERROR)
             else
               ok ← tx_commit E;
               if negb ok then mret (refuse DB_ERROR)
               else
                 inc_metric "nebula_message_recall_success_total";;
                 mret (mkRecallResponse (fillResponse id EC_OK "OK") message_id now)).

Definition RecallMessage (context : ServerContext) (req : MessageRequest) : M RecallResponse :=
  let id := mr_request_id req in
  let refuse r := mkRecallResponse r 0 0 in
  if negb (authorized context) then mret (refuse (unauthenticated id))
  else with_trace (trace_candidate context id)
    (inc_metric "nebula_message_recall_total";;
     if ms_invalidDeps svc then mret (refuse (fail id EC_INTERNAL_ERROR))
     else if (mr_user_id req =? 0) || (mr_message_id req =? 0)
     then mret (refuse (fail id INVALID_ARGUMENT))
     else
       record ← getMessageById E (mr_message_id req);
       match record with
       | None => mret (refuse (fail id MESSAGE_NOT_FOUND))
       | Some record =>
           if negb (m_from_user_id record =? mr_user_id req)
           then mret (refuse (fail id MESSAGE_RECALL_PERMISSION_DENIED))
           else if m_recalled record then mret (refuse (fail id MESSAGE_ALREADY_RECALLED))
           else
             now ← nowMs E;
             if ms_recall_window_seconds svc * 1000 <? now - m_created_at record
             then mret (refuse (fail id MESSAGE_RECALL_TIMEOUT))
             else
               data ← toMessageData
                 (mkMessage (m_message_id record) (m_conversation_id record) (m_from_user_id record)
                    (m_client_sequence_id record) (m_to_user_id record) (m_group_id record)
                    (m_message_type record) (m_content record) MESSAGE_STATUS_RECALLED true now
                    (m_created_at record) (m_updated_at record));
               recall_transaction id (mr_message_id req) record data now
       end).

End Service.
