(* ===== verification/MessageSend.v ===== *)
(** * Sending: all or nothing, at most once, only to friends

    Properties of [SendSingleMessage] and [SendGroupMessage] under arbitrary
    failures of the store, of Redis and of the answers of COMMIT. *)

From S2P Require Import Prelude Words Text MessageId Rpc Db MessageStore ConversationStore.
From S2P Require Import OutboxStore Directory DbLogic MessageService.

(** ** The reads of the handlers leave the store alone *)

Section Reads.
Context (E : Env) (svc : MessageServiceImpl).

#[global] Instance quiet_getUserById u : Quiet (getUserById E u).
Proof. unfold getUserById. apply _. Qed.
#[global] Instance quiet_has_user u : Quiet (has_user E u).
Proof. unfold has_user. apply _. Qed.
#[global] Instance quiet_isFriend a b : Quiet (isFriend E a b).
Proof. unfold isFriend. apply _. Qed.
#[global] Instance quiet_getGroupById g : Quiet (getGroupById E g).
Proof. unfold getGroupById. apply _. Qed.
#[global] Instance quiet_isMember g u : Quiet (isMember E g u).
Proof. unfold isMember. apply _. Qed.
#[global] Instance quiet_listMembers g : Quiet (listMembers E g).
Proof. unfold listMembers. apply _. Qed.
#[global] Instance quiet_getMessageById i : Quiet (getMessageById E i).
Proof. unfold getMessageById. apply _. Qed.
#[global] Instance quiet_getMessageByClientSequence u s : Quiet (getMessageByClientSequence E u s).
Proof. unfold getMessageByClientSequence. apply _. Qed.
#[global] Instance quiet_getExistingMessageId u s : Quiet (getExistingMessageId E u s).
Proof. unfold getExistingMessageId. apply _. Qed.
#[global] Instance quiet_markMessage t u s i : Quiet (markMessage E t u s i).
Proof. unfold markMessage. apply _. Qed.
#[global] Instance quiet_find_persisted u s : Quiet (find_persisted E u s).
Proof. unfold find_persisted. apply _. Qed.
#[global] Instance quiet_toMessageData r : Quiet (toMessageData r).
Proof. unfold toMessageData. apply _. Qed.
#[global] Instance quiet_makeOutboxEvent i a j t k p n : Quiet (makeOutboxEvent i a j t k p n).
Proof. unfold makeOutboxEvent. apply _. Qed.
#[global] Instance quiet_isOwner u c : Quiet (isOwner E u c).
Proof. unfold isOwner. apply _. Qed.
#[global] Instance quiet_canReadConversation u c : Quiet (canReadConversation E u c).
Proof. unfold canReadConversation. apply _. Qed.
#[global] Instance quiet_canReceiveMessage u r : Quiet (canReceiveMessage E u r).
Proof. unfold canReceiveMessage. apply _. Qed.
#[global] Instance quiet_sent i u s m n x : Quiet (sent E svc i u s m n x).
Proof. unfold sent. apply _. Qed.

(** A traced block runs in a store that is the caller's. *)
Lemma with_trace_run {A} c (body : M A) w a w' :
  with_trace E c body w = Some (a, w') ->
  exists w1 w2, same_store w w1 /\ body w1 = Some (a, w2) /\ same_store w2 w'.
Proof.
  unfold with_trace. intros (w0&w1&[= <- <-]&H1)%run_bind_Some.
  apply run_bind_Some in H1 as (i&w1&H1&H2).
  pose proof (quiet _ _ _ H1) as Hs.
  apply run_bind_Some in H2 as ([]&w2&[= <-]&H2).
  apply run_bind_Some in H2 as (w3&w4&[= <- <-]&H2).
  apply run_bind_Some in H2 as ([]&w5&[= <-]&H2).
  apply run_bind_Some in H2 as (a'&w6&H3&H4). munfold H4. simplify_eq/=.
  do 2 eexists. split_and!; [|exact H3|done]. etrans; [exact Hs|done].
Qed.

(** ** What the transaction of a send does *)

Lemma insertMessage_step m : TxStep (insertMessage_conn E m) (executes (insert_message m)).
Proof. apply tx_step_update. Qed.

Lemma upsertOne_step c inc :
  TxStep (upsertOne E c inc)
    (fun d d' => d' = set_conversations (upsert_one c inc (conversations d)) d).
Proof.
  eapply tx_step_weaken; [apply tx_step_update|]. intros d d' [n Hd]. by simplify_eq/=.
Qed.

Lemma upsertSingle_step cid from to mid preview now :
  TxStep (upsertSingleConversationForUsers_conn E cid from to mid preview now)
    (fun d d' => d' = set_conversations
       (upsert_one (single_row cid to from mid preview now) true
          (upsert_one (single_row cid from to mid preview now) false (conversations d))) d).
Proof.
  eapply tx_step_weaken; [apply tx_step_and; apply upsertOne_step|].
  intros d d' (d1&->&->). done.
Qed.

(** The conversations of all members after a group message. *)
Definition upsert_members (cid gid sender : Z) (members : list Z) (mid : Z) (preview : string)
    (now : Z) (t : list Conversation) : list Conversation :=
  fold_left (fun t u => upsert_one (group_row cid gid u mid preview now) (negb (u =? sender)) t)
    members t.

Lemma upsertGroup_step cid gid sender members mid preview now :
  TxStep (upsertGroupConversationForMembers_conn E cid gid sender members mid preview now)
    (fun d d' => d' = set_conversations
       (upsert_members cid gid sender members mid preview now (conversations d)) d).
Proof.
  induction members as [|u members IH]; cbn [upsertGroupConversationForMembers_conn].
  { apply tx_step_ret. intros d. by destruct d. }
  eapply tx_step_weaken; [apply (tx_step_and _ _ _ _ (upsertOne_step _ _) IH)|].
  intros d d' (d1&->&->). done.
Qed.

Lemma insertEvent_step e :
  TxStep (insertEvent E e)
    (fun d d' => exists created, executes (insert_event e created) d d' /\
                 (0 < e_created_at e -> created = e_created_at e)).
Proof.
  unfold insertEvent. intros w b w' t (now&w1&H1&H2)%run_bind_Some Ht.
  pose proof (quiet _ _ _ H1) as [Hd1 Ht1].
  assert (0 < e_created_at e -> now = e_created_at e) as Hnow.
  { intros Hp%Z.ltb_lt. rewrite Hp in H1. by munfold H1; simplify_eq/=. }
  rewrite Ht in Ht1.
  destruct (tx_step_update E _ _ _ _ _ H2 Ht1) as (Hd2&t'&Ht'&HR).
  split; [congruence|]. exists t'. split; [done|]. eauto.
Qed.

(** The event that announces a message. *)
Definition message_event (mid cid : Z) (topic payload : string) (now : Z) (trace : string)
  : OutboxEvent :=
  mkEvent mid "message" mid topic (to_string cid) payload PENDING 0 0 now now trace EmptyString.

(** The row [getMessageByClientSequence] looks for. *)
Definition same_sequence (from seq : Z) (m : MessageRecord) : bool :=
  (m_from_user_id m =? from) && (m_client_sequence_id m =? seq).

Lemma getMessageByClientSequence_run from seq w r w' :
  getMessageByClientSequence E from seq w = Some (r, w') ->
  forall m, r = Some m ->
  seq <> 0 /\ sql_first (same_sequence from seq) (messages (w_db w)) = Some m.
Proof.
  unfold getMessageByClientSequence. intros HR m ->.
  destruct ((from =? 0) || (seq =? 0)) eqn:Hz; [by munfold HR|]. bools.
  split; [done|]. by destruct (read_row_run _ _ _ _ _ HR) as [Hq|Hq].
Qed.

Lemma getMessageById_run mid w r w' :
  getMessageById E mid w = Some (r, w') ->
  forall m, r = Some m -> sql_first (fun x => m_message_id x =? mid) (messages (w_db w)) = Some m.
Proof.
  unfold getMessageById. intros HR m ->. by destruct (read_row_run _ _ _ _ _ HR) as [Hq|Hq].
Qed.

(** A branch that answers with an error and has committed nothing. *)
Ltac refused H :=
  munfold H; simplify_eq/=;
  repeat match goal with |- w_tx _ = None /\ _ => split; [congruence|] end;
  right; split; [congruence|]; left; eexists; split; [|reflexivity]; done.

(** Storing is one commit or nothing: the row, the conversations and the event
    are in the committed tables together, or the tables are as before. *)
Lemma persist_message_run id record upsert R topic payload now w r w' :
  TxStep upsert R -> w_tx w = None ->
  persist_message E id record upsert topic payload now w = Some (r, w') ->
  w_tx w' = None /\
  ((exists d1 d2 created trace,
      executes (insert_message record) (w_db w) d1 /\ R d1 d2 /\
      executes (insert_event (message_event (m_message_id record) (m_conversation_id record)
                                topic payload now trace) created) d2 (w_db w') /\
      (0 < now -> created = now) /\ (r = None \/ r = Some (send_failed id DB_ERROR)))
   \/
   (w_db w' = w_db w /\
    ((exists c, c <> EC_OK /\ r = Some (send_failed id c)) \/
     (exists m, r = Some (replayed id m) /\ m_client_sequence_id record <> 0 /\
        sql_first (same_sequence (m_from_user_id record) (m_client_sequence_id record))
          (messages (w_db w)) = Some m)))).
Proof.
  intros HU Ht0. unfold persist_message. intros (conn&w1&H1&H)%run_bind_Some.
  destruct (quiet _ _ _ H1) as [Hd1 Ht1]. rewrite Ht0 in Ht1.
  destruct conn; cbn [negb] in H; [|refused H].
  apply tx_scope_run in H as (w2&H&Hd'&Ht'). split; [done|]. rewrite Hd'. clear Hd' Ht' w'.
  apply run_bind_Some in H as (active&w3&H3&H). apply tx_begin_run in H3 as [Hd3 Ht3].
  rewrite Hd1 in Hd3, Ht3. destruct active; cbn [negb] in H; [|refused H].
  apply run_bind_Some in H as (ins&w4&H4&H).
  destruct (insertMessage_step record _ _ _ _ H4 Ht3) as (Hd4&t4&Ht4&Hins). rewrite Hd3 in Hd4.
  destruct ins; cbn [negb] in H.
  2:{ apply run_bind_Some in H as (b&w5&H5&H). apply tx_rollback_run in H5 as [Hd5 Ht5].
      apply run_bind_Some in H as (ex&w6&H6&H). destruct (quiet _ _ _ H6) as [Hd6 Ht6].
      destruct ex as [m|]; [|refused H]. munfold H. simplify_eq/=.
      destruct (getMessageByClientSequence_run _ _ _ _ _ H6 m eq_refl) as [Hs Hq].
      right. split; [congruence|]. right. exists m. split_and!; [done..|]. congruence. }
  specialize (Hins eq_refl).
  apply run_bind_Some in H as (ok&w5&H5&H).
  destruct (HU _ _ _ _ H5 Ht4) as (Hd5&t5&Ht5&HR). rewrite Hd4 in Hd5.
  destruct ok; cbn [negb] in H; [|refused H]. specialize (HR eq_refl).
  apply run_bind_Some in H as (event&w6&H6&H).
  assert (event = message_event (m_message_id record) (m_conversation_id record) topic payload now
            (w_trace w5) /\ w6 = w5) as [-> ->]
    by (unfold makeOutboxEvent in H6; munfold H6; by simplify_eq/=).
  apply run_bind_Some in H as (ok&w7&H7&H).
  destruct (insertEvent_step _ _ _ _ _ H7 Ht5) as (Hd7&t7&Ht7&Hev). rewrite Hd5 in Hd7.
  destruct ok; cbn [negb] in H; [|refused H].
  destruct (Hev eq_refl) as (created&Hex&Hcr).
  apply run_bind_Some in H as (ok&w8&H8&H).
  destruct (tx_commit_run _ _ _ _ _ Ht7 H8) as [[Hd8 Ht8]|[-> [Hd8 Ht8]]]; [|refused H].
  left. exists t4, t5, created, (w_trace w5).
  destruct ok; munfold H; simplify_eq/=; rewrite ?Hd8; eauto 10.
Qed.

Lemma insert_message_inv m d d' :
  executes (insert_message m) d d' ->
  d' = set_messages (messages d ++ [m]) d /\
  (forall r, r ∈ messages d -> m_message_id r <> m_message_id m) /\
  (m_client_sequence_id m <> 0 -> forall r, r ∈ messages d ->
     same_sequence (m_from_user_id m) (m_client_sequence_id m) r = false).
Proof.
  intros [n Hd]. unfold insert_message in Hd. case_match eqn:Hc; [done|]. simplify_eq.
  apply orb_false_elim in Hc as [H1 H2]. split; [done|]. split.
  - intros r Hr Heq. assert (existsb (fun r => m_message_id r =? m_message_id m) (messages d) = true).
    { apply existsb_exists. exists r. split; [by apply list_elem_of_In|]. by apply Z.eqb_eq. }
    congruence.
  - intros Hs r Hr. rewrite (proj2 (Z.eqb_neq _ _) Hs) in H2. simpl in H2.
    destruct (same_sequence _ _ r) eqn:Hss; [|done].
    assert (existsb (same_sequence (m_from_user_id m) (m_client_sequence_id m)) (messages d) = true).
    { apply existsb_exists. exists r. split; [by apply list_elem_of_In|done]. }
    unfold same_sequence in *. congruence.
Qed.

Lemma insert_event_inv e created d d' :
  executes (insert_event e created) d d' -> 0 < e_updated_at e -> created = e_created_at e ->
  e_claim_token e = EmptyString ->
  d' = set_outbox_events (outbox_events d ++ [e]) d /\
  (forall r, r ∈ outbox_events d -> e_event_id r <> e_event_id e).
Proof.
  intros [n Hd] Hu -> Hc. unfold insert_event in Hd. case_match eqn:Hx; [done|]. simplify_eq.
  rewrite (proj2 (Z.ltb_lt _ _) Hu). split; [by destruct e; simpl in *; subst|].
  intros r Hr Heq.
  assert (existsb (fun r => e_event_id r =? e_event_id e) (outbox_events d) = true); [|congruence].
  apply existsb_exists. exists r. split; [by apply list_elem_of_In|]. by apply Z.eqb_eq.
Qed.

(** The tables after a message was stored. *)
Definition stored_message (record : MessageRecord)
    (upsert : list Conversation -> list Conversation) (event : OutboxEvent) (d : Db) : Db :=
  set_outbox_events (outbox_events d ++ [event])
    (set_conversations (upsert (conversations d)) (set_messages (messages d ++ [record]) d)).

Definition single_record (req : SendSingleMessageRequest) (mid now : Z) : MessageRecord :=
  mkMessage mid (ConversationId.single (ss_from_user_id req) (ss_to_user_id req))
    (ss_from_user_id req) (ss_client_sequence_id req) (ss_to_user_id req) 0
    (ss_content_type req) (ss_content req) MESSAGE_STATUS_SENT false 0 now now.

(** Both ends' conversations after a single message. *)
Definition single_upserts (req : SendSingleMessageRequest) (mid now : Z) (t : list Conversation)
  : list Conversation :=
  let cid := ConversationId.single (ss_from_user_id req) (ss_to_user_id req) in
  let preview := buildPreview (ss_content req) in
  upsert_one (single_row cid (ss_to_user_id req) (ss_from_user_id req) mid preview now) true
    (upsert_one (single_row cid (ss_from_user_id req) (ss_to_user_id req) mid preview now) false t).

Definition group_record (req : SendGroupMessageRequest) (mid now : Z) : MessageRecord :=
  mkMessage mid (ConversationId.group (sg_group_id req)) (sg_from_user_id req)
    (sg_client_sequence_id req) 0 (sg_group_id req) (sg_content_type req) (sg_content req)
    MESSAGE_STATUS_SENT false 0 now now.

Definition group_upserts (req : SendGroupMessageRequest) (members : list Z) (mid now : Z)
  : list Conversation -> list Conversation :=
  upsert_members (ConversationId.group (sg_group_id req)) (sg_group_id req)
    (sg_from_user_id req) members mid (buildPreview (sg_content req)) now.

(** A stored row is new: neither its id nor its sequence number was used. *)
Definition fresh_record (d : Db) (record : MessageRecord) : Prop :=
  (forall r, r ∈ messages d -> m_message_id r <> m_message_id record) /\
  (m_client_sequence_id record <> 0 -> forall r, r ∈ messages d ->
     same_sequence (m_from_user_id record) (m_client_sequence_id record) r = false).

Definition fresh_event (d : Db) (event_id : Z) : Prop :=
  forall e, e ∈ outbox_events d -> e_event_id e <> event_id.

(** How a send can end; [d] and [d'] are the committed tables before and
    after. *)
Inductive send_outcome (id : string) (from seq : Z) (record : Z -> Z -> MessageRecord)
    (upsert : Z -> Z -> list Conversation -> list Conversation) (topic : string)
    (d d' : Db) (resp : SendResponse) : Prop :=
| send_refused :
    d' = d -> r_code (s_response resp) <> 0 -> s_message_id resp = 0 ->
    send_outcome id from seq record upsert topic d d' resp
| send_replayed m :
    d' = d -> seq <> 0 -> m ∈ messages d -> same_sequence from seq m = true ->
    resp = replayed id m ->
    send_outcome id from seq record upsert topic d d' resp
| send_stored mid now payload trace :
    fresh_record d (record mid now) -> fresh_event d mid ->
    d' = stored_message (record mid now) (upsert mid now)
           (message_event mid (m_conversation_id (record mid now)) topic payload now trace) d ->
    resp = mkSendResponse (fillResponse id EC_OK "OK") mid now \/ resp = send_failed id DB_ERROR ->
    send_outcome id from seq record upsert topic d d' resp.

Lemma find_persisted_run from seq w r w' :
  find_persisted E from seq w = Some (r, w') ->
  forall m, r = Some m -> seq <> 0 /\ m ∈ messages (w_db w) /\ same_sequence from seq m = true.
Proof.
  unfold find_persisted. intros H m ->.
  destruct (seq =? 0) eqn:Hz; [by munfold H|]. bools. split; [done|].
  apply run_bind_Some in H as (ex&w1&H1&H). destruct (quiet _ _ _ H1) as [Hd1 _].
  apply run_bind_Some in H as (p&w2&H2&H).
  destruct p as [m0|].
  - munfold H. simplify_eq/=. destruct ex as [i|]; [|by munfold H2].
    apply run_bind_Some in H2 as (r&w3&H3&H2). munfold H2.
    destruct r as [m1|]; [|by simplify_eq/=].
    destruct (_ && _) eqn:Hm; simplify_eq/=.
    pose proof (getMessageById_run _ _ _ _ H3 m eq_refl) as Hq. apply sql_first_spec in Hq as [Hin _].
    by rewrite Hd1 in Hin.
  - assert (same_store w1 w2) as [Hd2 _] by (destruct ex; exact (quiet _ _ _ H2)).
    destruct (getMessageByClientSequence_run _ _ _ _ _ H m eq_refl) as [_ Hq].
    apply sql_first_spec in Hq. by rewrite Hd2, Hd1 in Hq.
Qed.

(** The part of both handlers behind their checks. *)
Definition store_and_answer (id : string) (from seq : Z) (record : Z -> Z -> MessageRecord)
    (upsert : Z -> Z -> M bool) (topic metric : string) : M SendResponse :=
  message_id ← next_message_id E;
  now ← nowMs E;
  data ← toMessageData (record message_id now);
  failed ← persist_message E id (record message_id now) (upsert message_id now) topic
             (ms_serialize svc data) now;
  match failed with
  | Some r => mret r
  | None => sent E svc id from seq message_id now metric
  end.

Lemma store_and_answer_run id from seq record upsert upserts topic metric w resp w' :
  (forall i, 0 < env_clock E i) -> w_tx w = None ->
  (forall mid now, m_message_id (record mid now) = mid /\
     m_from_user_id (record mid now) = from /\ m_client_sequence_id (record mid now) = seq) ->
  (forall mid now, TxStep (upsert mid now)
     (fun d d' => d' = set_conversations (upserts mid now (conversations d)) d)) ->
  store_and_answer id from seq record upsert topic metric w = Some (resp, w') ->
  w_tx w' = None /\ send_outcome id from seq record upserts topic (w_db w) (w_db w') resp.
Proof.
  intros Hclk Ht0 Hrec Hup. unfold store_and_answer. intros (mid&w1&H1&H)%run_bind_Some.
  destruct (quiet _ _ _ H1) as [Hd1 Ht1].
  apply run_bind_Some in H as (now&w2&H2&H). destruct (quiet _ _ _ H2) as [Hd2 Ht2].
  assert (0 < now) as Hnow by (unfold nowMs in H2; simplify_eq/=; apply Hclk).
  clear H2.
  apply run_bind_Some in H as (data&w3&H3&H). destruct (quiet _ _ _ H3) as [Hd3 Ht3].
  apply run_bind_Some in H as (failed&w4&H4&H).
  assert (w_db w3 = w_db w) as Hdb by congruence.
  destruct (Hrec mid now) as (Hmid&Hfrom&Hseq).
  apply (persist_message_run _ _ _ _ _ _ _ _ _ _ (Hup mid now)) in H4 as [Ht4 H4]; [|congruence].
  rewrite Hdb in H4. destruct H4 as [(d1&d2&cr&tr&Hi&->&He&Hcr&Hr)|[Hd4 Hr]].
  - apply insert_message_inv in Hi as (->&Hfresh).
    apply insert_event_inv in He as [He Hfe]; [|done|auto|done]. rewrite Hmid in He, Hfe.
    assert (w_db w' = w_db w4 /\ w_tx w' = None /\
      (resp = mkSendResponse (fillResponse id EC_OK "OK") mid now \/ resp = send_failed id DB_ERROR))
      as (Hd'&Ht'&Hresp).
    { destruct Hr as [->| ->]; [|munfold H; simplify_eq/=; by auto].
      destruct (quiet _ _ _ H) as [Hd5 Ht5]. split_and!; [congruence..|].
      unfold sent in H. apply run_bind_Some in H as (b&w5&_&H). munfold H. simplify_eq/=. by left. }
    split; [done|]. rewrite Hd'. by eapply send_stored.
  - destruct Hr as [(c&Hc&->)|(m&->&Hsq&Hq)]; munfold H; simplify_eq/=.
    + split; [done|]. apply send_refused; [done| |done]. intros Hz. by apply error_value_ok in Hz.
    + split; [done|]. apply sql_first_spec in Hq as [Hin Hs]. by eapply send_replayed.
Qed.

(** ** Who may send *)

Definition content_ok (content : string) : Prop :=
  content <> EmptyString /\ s32 (Z.of_nat (String.length content)) <= ms_max_content_length svc.

Definition known_user (d : Db) (u : Z) : Prop := exists x, x ∈ users d /\ u_id x = u.

(** An accepted friendship from [a] to [b]. *)
Definition befriended (d : Db) (a b : Z) : Prop :=
  exists f, f ∈ friendships d /\ fs_user_id f = a /\ fs_friend_id f = b /\ fs_status f = 1.

Definition single_allowed (context : ServerContext) (req : SendSingleMessageRequest) (d : Db) : Prop :=
  let from := ss_from_user_id req in
  let to := ss_to_user_id req in
  authorized svc context = true /\ from <> 0 /\ to <> 0 /\ from <> to /\
  content_ok (ss_content req) /\ known_user d from /\ known_user d to /\
  befriended d from to /\ befriended d to from.

Definition group_allowed (context : ServerContext) (req : SendGroupMessageRequest) (d : Db) : Prop :=
  let from := sg_from_user_id req in
  let gid := sg_group_id req in
  authorized svc context = true /\ from <> 0 /\ gid <> 0 /\
  content_ok (sg_content req) /\ known_user d from /\
  (exists g, g ∈ groups d /\ g_id g = gid) /\
  (exists m, m ∈ group_members d /\ gm_group_id m = gid /\ gm_user_id m = from).

Lemma validateContent_none id content : validateContent svc id content = None -> content_ok content.
Proof.
  unfold validateContent, content_ok. intros H. repeat case_match; try done. bools. done.
Qed.

Lemma has_user_run u w b w' : has_user E u w = Some (b, w') -> b = true -> known_user (w_db w) u.
Proof.
  unfold has_user. intros (r&w1&H1&H2)%run_bind_Some ->. munfold H2. simplify_eq/=.
  unfold getUserById in H1. destruct (read_row_run _ _ _ _ _ H1) as [->| ->]; [|done].
  destruct (sql_first _ _) as [x|] eqn:Hq; [|done]. apply sql_first_spec in Hq as [? ?%Z.eqb_eq].
  by exists x.
Qed.

Lemma isFriend_run a b w r w' : isFriend E a b w = Some (r, w') -> r = true -> befriended (w_db w) a b.
Proof.
  intros H ->. destruct (exists_row_run _ _ _ _ _ H eq_refl) as [f Hf].
  apply sql_first_spec in Hf as [Hin Hf]. unfold friend_row, same_friendship in Hf. bools.
  by exists f.
Qed.

(** Two checks in a row succeed only if both do. *)
Lemma and_then_true (m k : M bool) w w' :
  (m &&& k) w = Some (true, w') -> exists w1, m w = Some (true, w1) /\ k w1 = Some (true, w').
Proof.
  unfold and_then. intros (b&w1&H1&H2)%run_bind_Some. destruct b; [eauto|by munfold H2].
Qed.

(** An error answer that changed nothing. *)
Definition refusal (w w' : world) (resp : SendResponse) : Prop :=
  same_store w w' /\ r_code (s_response resp) <> 0 /\ s_message_id resp = 0.

Lemma refusal_failed w w' id c :
  same_store w w' -> c <> EC_OK -> refusal w w' (send_failed id c).
Proof. intros ? Hc. split_and!; [done| |done]. intros Hz. by apply error_value_ok in Hz. Qed.

(** A branch that answers with an error before any transaction. *)
Ltac refused_by H :=
  left; munfold H; simplify_eq/=; apply refusal_failed; [store_chain|done].

Lemma SendSingleMessage_run context req w resp w' :
  SendSingleMessage E svc context req w = Some (resp, w') ->
  refusal w w' resp \/
  (single_allowed context req (w_db w) /\
   ((exists m, ss_client_sequence_id req <> 0 /\ m ∈ messages (w_db w) /\
        same_sequence (ss_from_user_id req) (ss_client_sequence_id req) m = true /\
        resp = replayed (ss_request_id req) m /\ same_store w w')
    \/
    (exists w1 w2, same_store w w1 /\ store_and_answer (ss_request_id req) (ss_from_user_id req)
        (ss_client_sequence_id req) (single_record req)
        (fun mid now => upsertSingleConversationForUsers_conn E
           (ConversationId.single (ss_from_user_id req) (ss_to_user_id req))
           (ss_from_user_id req) (ss_to_user_id req) mid (buildPreview (ss_content req)) now)
        (ms_topic_single svc) "nebula_message_send_single_success_total" w1 = Some (resp, w2) /\
      same_store w2 w'))).
Proof.
  unfold SendSingleMessage. cbv zeta. intros H.
  destruct (authorized svc context) eqn:Ha; cbn [negb] in H.
  2:{ left. munfold H. simplify_eq/=. split_and!; done. }
  apply with_trace_run in H as (w1&w2&Hs1&H&Hs2).
  apply run_bind_Some in H as ([]&w3&H3&H). pose proof (quiet _ _ _ H3) as Hs3.
  assert (same_store w w3) as Hs by (by etrans). clear Hs1 Hs3 H3 w1.
  destruct (ms_invalidDeps svc); [refused_by H|].
  destruct (_ || _ || _) eqn:Hz; [refused_by H|]. bools.
  destruct (validateContent _ _ _) as [r|] eqn:Hv.
  { left. munfold H. simplify_eq/=. unfold validateContent in Hv.
    repeat case_match; simplify_eq/=; (split_and!; [store_chain|done|done]). }
  apply validateContent_none in Hv.
  apply run_bind_Some in H as (known&w4&H4&H). pose proof (quiet _ _ _ H4) as Hs4.
  destruct known; cbn [negb] in H; [|refused_by H].
  apply and_then_true in H4 as (w5&H5&H6).
  apply has_user_run in H5 as Hu1; [|done]. apply has_user_run in H6 as Hu2; [|done].
  destruct (quiet _ _ _ H5) as [Hd5 _].
  apply run_bind_Some in H as (friends&w7&H7&H). pose proof (quiet _ _ _ H7) as Hs7.
  assert (same_store w w7) as Hs' by (etrans; [|exact Hs7]; by etrans).
  destruct friends; cbn [negb] in H.
  2:{ left. munfold H. simplify_eq/=. split_and!; [store_chain|done|done]. }
  apply and_then_true in H7 as (w8&H8&H9).
  apply isFriend_run in H8 as Hf1; [|done]. apply isFriend_run in H9 as Hf2; [|done].
  destruct (quiet _ _ _ H8) as [Hd8 _]. destruct Hs as [Hd _], Hs4 as [Hd4 _].
  right. rewrite Hd8, Hd4, Hd in Hf2. rewrite Hd4, Hd in Hf1.
  rewrite Hd5, Hd in Hu2. rewrite Hd in Hu1. split; [unfold single_allowed; by split_and!|].
  apply run_bind_Some in H as (p&w9&H10&H). pose proof (quiet _ _ _ H10) as Hs10.
  destruct p as [m|].
  - left. destruct (find_persisted_run _ _ _ _ _ H10 m eq_refl) as (?&Hin&?).
    rewrite (proj1 Hs') in Hin. munfold H. simplify_eq/=. exists m.
    split_and!; [done..|store_chain].
  - right. exists w9, w2. split_and!; [store_chain|exact H|exact Hs2].
Qed.

Lemma isMember_run g u w b w' :
  isMember E g u w = Some (b, w') -> b = true ->
  exists m, m ∈ group_members (w_db w) /\ gm_group_id m = g /\ gm_user_id m = u.
Proof.
  intros H ->. destruct (exists_row_run _ _ _ _ _ H eq_refl) as [m Hm].
  apply sql_first_spec in Hm as [Hin Hm]. unfold same_member in Hm. bools. by exists m.
Qed.

Lemma getGroupById_run g w r w' :
  getGroupById E g w = Some (r, w') -> is_some r = true ->
  exists x, x ∈ groups (w_db w) /\ g_id x = g.
Proof.
  unfold getGroupById. intros H Hr. destruct (read_row_run _ _ _ _ _ H) as [->| ->]; [|done].
  destruct (sql_first _ _) as [x|] eqn:Hq; [|done]. apply sql_first_spec in Hq as [? ?%Z.eqb_eq].
  by exists x.
Qed.

(** The members of a group, in the order the service lists them. *)
Definition member_ids (d : Db) (gid : Z) : list Z :=
  map gm_user_id (sort_by (fun a b => gm_user_id a <=? gm_user_id b)
    (sql_select (fun m => gm_group_id m =? gid) (group_members d))).

Lemma SendGroupMessage_run context req w resp w' :
  SendGroupMessage E svc context req w = Some (resp, w') ->
  refusal w w' resp \/
  (group_allowed context req (w_db w) /\
   ((exists m, sg_client_sequence_id req <> 0 /\ m ∈ messages (w_db w) /\
        same_sequence (sg_from_user_id req) (sg_client_sequence_id req) m = true /\
        resp = replayed (sg_request_id req) m /\ same_store w w')
    \/
    (exists members w1 w2, (members = member_ids (w_db w) (sg_group_id req) \/ members = []) /\
      same_store w w1 /\ store_and_answer (sg_request_id req)
        (sg_from_user_id req) (sg_client_sequence_id req) (group_record req)
        (fun mid now => upsertGroupConversationForMembers_conn E
           (ConversationId.group (sg_group_id req)) (sg_group_id req) (sg_from_user_id req)
           members mid (buildPreview (sg_content req)) now)
        (ms_topic_group svc) "nebula_message_send_group_success_total" w1 = Some (resp, w2) /\
      same_store w2 w'))).
Proof.
  unfold SendGroupMessage. cbv zeta. intros H.
  destruct (authorized svc context) eqn:Ha; cbn [negb] in H.
  2:{ left. munfold H. simplify_eq/=. split_and!; done. }
  apply with_trace_run in H as (w1&w2&Hs1&H&Hs2).
  apply run_bind_Some in H as ([]&w3&H3&H). pose proof (quiet _ _ _ H3) as Hs3.
  assert (same_store w w3) as Hs by (by etrans). clear Hs1 Hs3 H3 w1.
  destruct (ms_invalidDeps svc); [refused_by H|].
  destruct (_ || _) eqn:Hz; [refused_by H|]. bools.
  destruct (validateContent _ _ _) as [r|] eqn:Hv.
  { left. munfold H. simplify_eq/=. unfold validateContent in Hv.
    repeat case_match; simplify_eq/=; (split_and!; [store_chain|done|done]). }
  apply validateContent_none in Hv.
  apply run_bind_Some in H as (known&w4&H4&H). pose proof (quiet _ _ _ H4) as Hs4.
  destruct known; cbn [negb] in H; [|refused_by H]. apply has_user_run in H4; [|done].
  apply run_bind_Some in H as (g&w5&H5&H). pose proof (quiet _ _ _ H5) as Hs5.
  destruct (is_some g) eqn:Hg; cbn [negb] in H; [|refused_by H].
  apply getGroupById_run in H5; [|done].
  apply run_bind_Some in H as (mb&w6&H6&H). pose proof (quiet _ _ _ H6) as Hs6.
  destruct mb; cbn [negb] in H; [|refused_by H]. apply isMember_run in H6; [|done].
  right. rewrite (proj1 Hs) in H4. rewrite (proj1 Hs4), (proj1 Hs) in H5.
  rewrite (proj1 Hs5), (proj1 Hs4), (proj1 Hs) in H6.
  split; [unfold group_allowed; by split_and!|].
  apply run_bind_Some in H as (members&w7&H7&H). pose proof (quiet _ _ _ H7) as Hs7.
  assert (same_store w w7) as Hs' by store_chain.
  assert (members = member_ids (w_db w) (sg_group_id req) \/ members = []) as Hmem.
  { apply read_rows_run in H7. replace (w_db w) with (w_db w6); [exact H7|].
    rewrite <- (proj1 Hs'). symmetry. exact (proj1 Hs7). }
  apply run_bind_Some in H as (p&w9&H10&H). pose proof (quiet _ _ _ H10) as Hs10.
  destruct p as [m|].
  - left. destruct (find_persisted_run _ _ _ _ _ H10 m eq_refl) as (?&Hin&?).
    rewrite (proj1 Hs') in Hin. munfold H. simplify_eq/=. exists m.
    split_and!; [done..|]. etrans; [exact Hs'|]. by etrans.
  - right. exists members, w9, w2. split_and!; [exact Hmem|by etrans|exact H|exact Hs2].
Qed.

(** Both handlers end as [send_outcome] says, and only an allowed request is
    answered with success or changes the tables. *)
Lemma single_outcome context req w resp w' :
  (forall i, 0 < env_clock E i) -> w_tx w = None ->
  SendSingleMessage E svc context req w = Some (resp, w') ->
  w_tx w' = None /\
  send_outcome (ss_request_id req) (ss_from_user_id req) (ss_client_sequence_id req)
    (single_record req) (single_upserts req) (ms_topic_single svc) (w_db w) (w_db w') resp /\
  (r_code (s_response resp) = 0 \/ w_db w' <> w_db w -> single_allowed context req (w_db w)).
Proof.
  intros Hclk Ht H. destruct (SendSingleMessage_run _ _ _ _ _ H) as [(Hs&Hc&Hm)|(Hok&Hcase)].
  { destruct Hs as [Hd Ht']. split_and!; [congruence|by apply send_refused|]. by intros [?|?]. }
  destruct Hcase as [(m&?&?&?&?&[Hd Ht'])|(w1&w2&[Hd1 Ht1]&HS&[Hd2 Ht2])].
  - split_and!; [congruence|by eapply send_replayed|done].
  - eapply (store_and_answer_run _ _ _ _ _ (single_upserts req)) in HS as [Ht3 HS];
      [|done|congruence|done|intros; apply upsertSingle_step].
    rewrite <- Hd2 in HS. rewrite Hd1 in HS. split_and!; [congruence|exact HS|done].
Qed.

Lemma group_outcome context req w resp w' :
  (forall i, 0 < env_clock E i) -> w_tx w = None ->
  SendGroupMessage E svc context req w = Some (resp, w') ->
  w_tx w' = None /\
  (exists members, (members = member_ids (w_db w) (sg_group_id req) \/ members = []) /\
     send_outcome (sg_request_id req) (sg_from_user_id req) (sg_client_sequence_id req)
       (group_record req) (group_upserts req members) (ms_topic_group svc) (w_db w) (w_db w') resp) /\
  (r_code (s_response resp) = 0 \/ w_db w' <> w_db w -> group_allowed context req (w_db w)).
Proof.
  intros Hclk Ht H. destruct (SendGroupMessage_run _ _ _ _ _ H) as [(Hs&Hc&Hm)|(Hok&Hcase)].
  { destruct Hs as [Hd Ht']. split_and!; [congruence| |by intros [?|?]].
    exists []. split; [by right|]. by apply send_refused. }
  destruct Hcase as [(m&?&?&?&?&[Hd Ht'])|(members&w1&w2&Hmem&[Hd1 Ht1]&HS&[Hd2 Ht2])].
  - split_and!; [congruence| |done]. exists []. split; [by right|]. by eapply send_replayed.
  - eapply (store_and_answer_run _ _ _ _ _ (group_upserts req members)) in HS as [Ht3 HS];
      [|done|congruence|done|intros; apply upsertGroup_step].
    rewrite <- Hd2 in HS. rewrite Hd1 in HS. split_and!; [congruence| |done].
    by exists members.
Qed.

End Reads.
