(* ===== verification/Sample.v ===== *)
(** A small deployment on which the operations of the message service can be
    evaluated: two befriended users 7 and 9, a third user 8, a group 5 of all
    three, and a database whose calls end as [fault] says. *)
From S2P Require Import Prelude Words Text MessageId Rpc Db MessageService.

Local Open Scope Z_scope.
Local Open Scope string_scope.

Definition sample_env (fault : nat -> outcome) : Env :=
  mkEnv fault (fun i => 1735689700000 + Z.of_nat i) 10
    (fun i => "00000000000000000000000000000001") (fun s => s) (fun _ _ => None) (fun _ => true) (fun _ => Done).

(** The server never fails. *)
Definition healthy : nat -> outcome := fun _ => Done.
(** Call number [n] ends as [o], the others succeed. *)
Definition once (n : nat) (o : outcome) : nat -> outcome :=
  fun i => if Nat.eqb i n then o else Done.

Definition sample_user (u : Z) : User := mkUser u ("user" +:+ to_string u) "" "" "" 1 1.

Definition sample_db : Db :=
  mkDb [sample_user 7; sample_user 8; sample_user 9]
    [mkFriendship 7 9 1 1 1; mkFriendship 9 7 1 1 1] [mkGroupRow 5 "team" 7 1 1]
    [mkGroupMember 5 7 1 1 1; mkGroupMember 5 8 0 1 1; mkGroupMember 5 9 0 1 1]
    [] [] [] [] [] [] [] 10 6 1.

Definition world_of (d : Db) : world :=
  mkWorld d None 0 0 (MessageIdGenerator.MessageIdGenerator_new 1) "" 0 [] [] [].

Definition sample_service : MessageServiceImpl :=
  mkMessageService (mkInternalRpcAuth true "secret" "") (fun s => s) false false 4096 100 120
    "im.single" "im.group" 86400 (fun d => d_content d)
    (fun s => Some (mkMessageData 0 0 0 0 0 0 s 0 0 false 0 "")).

Definition sample_context : ServerContext := mkContext [("x-nebula-internal-token", "secret")].
Definition hello (seq : Z) : SendSingleMessageRequest := mkSendSingle "r1" 7 9 1 "hello" seq.
Definition hello_all (seq : Z) : SendGroupMessageRequest := mkSendGroup "r2" 7 5 1 "hello" seq.

(** What a run answers with, and the world it leaves. *)
Definition answer_of {A} (r : option (A * world)) (P : A -> world -> Prop) : Prop :=
  match r with Some (a, w) => P a w | None => False end.
