(* ===== verification/SendHistory.v ===== *)
(** Sending messages over time: what one send does to the tables, and what a
    sequence of sends, with retries and with database failures at any call,
    can answer.  The claims are about [MessageServiceImpl::SendSingleMessage]
    and [::SendGroupMessage] of [MessageService]; the lemmas they use are in
    [MessageSend]. *)
From S2P Require Import Prelude Words Text MessageId Rpc Db MessageStore ConversationStore.
From S2P Require Import OutboxStore Directory DbLogic MessageService MessageSend Sample.

Local Open Scope Z_scope.
Local Open Scope string_scope.

(** A request to one of the two handlers. *)
Inductive SendRequest :=
| to_user (context : ServerContext) (req : SendSingleMessageRequest)
| to_group (context : ServerContext) (req : SendGroupMessageRequest).

Definition send (E : Env) (svc : MessageServiceImpl) (r : SendRequest) : M SendResponse :=
  match r with
  | to_user context req => SendSingleMessage E svc context req
  | to_group context req => SendGroupMessage E svc context req
  end.

Definition sender (r : SendRequest) : Z :=
  match r with
  | to_user _ req => ss_from_user_id req
  | to_group _ req => sg_from_user_id req
  end.

Definition sequence (r : SendRequest) : Z :=
  match r with
  | to_user _ req => ss_client_sequence_id req
  | to_group _ req => sg_client_sequence_id req
  end.

(** Requests served one after the other, each with its answer. *)
Fixpoint sends (E : Env) (svc : MessageServiceImpl) (rs : list SendRequest)
  : M (list (SendRequest * SendResponse)) :=
  match rs with
  | [] => mret []
  | r :: rs => a ← send E svc r; log ← sends E svc rs; mret ((r, a) :: log)
  end.

(** The keys of table [messages]: [message_id], and the pair of sender and
    client sequence number (which is NULL for 0). *)
Record messages_keyed (d : Db) : Prop := {
  keyed_nodup : NoDup (messages d);
  keyed_id : forall m1 m2, m1 ∈ messages d -> m2 ∈ messages d ->
    m_message_id m1 = m_message_id m2 -> m1 = m2;
  keyed_sequence : forall m1 m2, m1 ∈ messages d -> m2 ∈ messages d ->
    m_client_sequence_id m1 <> 0 -> m_from_user_id m1 = m_from_user_id m2 ->
    m_client_sequence_id m1 = m_client_sequence_id m2 -> m1 = m2
}.

(** The row an answer of success stands for. *)
Definition acknowledged (d : Db) (from seq mid : Z) : Prop :=
  exists m, m ∈ messages d /\ m_from_user_id m = from /\ m_client_sequence_id m = seq /\
    m_message_id m = mid.

(** What every send does, whichever way it ends. *)
Record send_effect (r : SendRequest) (d d' : Db) (a : SendResponse) : Prop := {
  effect_keyed : messages_keyed d -> messages_keyed d';
  effect_kept : forall m, m ∈ messages d -> m ∈ messages d';
  effect_ack : r_code (s_response a) = 0 -> acknowledged d' (sender r) (sequence r) (s_message_id a);
  effect_new : forall m, m ∈ messages d' -> m ∈ messages d \/
    (m_from_user_id m = sender r /\ m_client_sequence_id m = sequence r)
}.

Lemma messages_stored record upsert event d :
  messages (stored_message record upsert event d) = (messages d ++ [record])%list.
Proof. reflexivity. Qed.

Lemma same_sequence_spec from seq m :
  same_sequence from seq m = true <-> m_from_user_id m = from /\ m_client_sequence_id m = seq.
Proof. unfold same_sequence. by rewrite andb_true_iff, !Z.eqb_eq. Qed.

Lemma messages_keyed_snoc d record upsert event :
  fresh_record d record -> messages_keyed d ->
  messages_keyed (stored_message record upsert event d).
Proof.
  intros [Hid Hseq] [K0 K1 K2].
  assert (forall m, m ∈ messages d -> m_client_sequence_id record <> 0 ->
    m_from_user_id m = m_from_user_id record ->
    m_client_sequence_id m = m_client_sequence_id record -> False) as Hnew.
  { intros m Hm Hz Hf Hs. specialize (Hseq Hz m Hm). apply not_true_iff_false in Hseq.
    by apply Hseq, same_sequence_spec. }
  split.
  { rewrite messages_stored. apply NoDup_app. split_and!; [done| |apply NoDup_singleton].
    intros m Hm ->%list_elem_of_singleton. by apply (Hid record). }
  all: intros m1 m2; rewrite messages_stored, !elem_of_app, !list_elem_of_singleton;
    intros [H1| ->] [H2| ->]; try done; eauto; intros; exfalso.
  - by destruct (Hid m1).
  - by destruct (Hid m2).
  - apply (Hnew m1); congruence.
  - apply (Hnew m2); congruence.
Qed.

Lemma send_outcome_effect r id record upserts topic d d' a :
  (forall mid now, m_message_id (record mid now) = mid /\
     m_from_user_id (record mid now) = sender r /\
     m_client_sequence_id (record mid now) = sequence r) ->
  send_outcome id (sender r) (sequence r) record upserts topic d d' a ->
  send_effect r d d' a.
Proof.
  intros Hrec [-> Hc Hm|m -> Hz Hm Hs ->|mid now payload trace Hf _ -> Ha].
  - split; auto; congruence.
  - apply same_sequence_spec in Hs as [? ?]. split; auto. intros _. by exists m.
  - destruct (Hrec mid now) as (H1&H2&H3). split.
    + by apply messages_keyed_snoc.
    + intros m Hm. rewrite messages_stored. apply elem_of_app. by left.
    + intros Hok. exists (record mid now). rewrite messages_stored.
      split_and!; [apply elem_of_app; right; by apply list_elem_of_singleton|done|done|]. destruct Ha as [->| ->]; [done|discriminate Hok].
    + intros m. rewrite messages_stored, elem_of_app, list_elem_of_singleton.
      intros [?| ->]; [by left|by right].
Qed.

Section History.
Context (E : Env) (svc : MessageServiceImpl).
Hypothesis clock_positive : forall i, 0 < env_clock E i.

Lemma send_run r w a w' :
  w_tx w = None -> send E svc r w = Some (a, w') ->
  w_tx w' = None /\ send_effect r (w_db w) (w_db w') a.
Proof.
  intros Ht H. destruct r as [context req|context req]; cbn [send] in H.
  - apply single_outcome in H as (?&Ho&_); [|done..]. split; [done|].
    by eapply (send_outcome_effect (to_user context req)) in Ho.
  - apply group_outcome in H as (?&(members&_&Ho)&_); [|done..]. split; [done|].
    by eapply (send_outcome_effect (to_group context req)) in Ho.
Qed.

Lemma sends_run rs w log w' :
  w_tx w = None -> messages_keyed (w_db w) -> sends E svc rs w = Some (log, w') ->
  w_tx w' = None /\ messages_keyed (w_db w') /\
  (forall m, m ∈ messages (w_db w) -> m ∈ messages (w_db w')) /\
  (forall r a, (r, a) ∈ log -> r_code (s_response a) = 0 ->
     acknowledged (w_db w') (sender r) (sequence r) (s_message_id a)).
Proof.
  revert w log. induction rs as [|r rs IH]; intros w log Ht HK H; cbn [sends] in H.
  { munfold H. simplify_eq/=. split_and!; [done|done|done|]. intros ?? []%not_elem_of_nil. }
  apply run_bind_Some in H as (a&w1&H1&H). apply run_bind_Some in H as (log'&w2&H2&H).
  munfold H. simplify_eq/=. apply send_run in H1 as [Ht1 [E1 E2 E3 E4]]; [|done].
  destruct (IH _ _ Ht1 (E1 HK) H2) as (?&?&Hkept&Hack). split_and!; [done|done|auto|].
  intros r' a' [[= -> ->]|Hin]%elem_of_cons Hok; [|eauto].
  destruct (E3 Hok) as (m&?&?). exists m. auto.
Qed.

End History.

(** C1: Sending to a user is all or nothing, whatever the database does at any
    call: the committed tables are unchanged and the answer is an error, or
    they are unchanged and the answer names the row an earlier send of the same
    sequence number stored, or exactly the message row, both ends'
    conversation entries and the outbox event were committed together under a
    fresh identifier.  No transaction stays open, and an answer of success, or
    a change of the tables, is possible only between authenticated, known,
    mutually befriended users with content within the limit. *)
Theorem send_single_outcome E svc context req w resp w'
    (Hclk : forall i, 0 < env_clock E i) (Hidle : w_tx w = None)
    (Hrun : SendSingleMessage E svc context req w = Some (resp, w')) :
  w_tx w' = None /\
  send_outcome (ss_request_id req) (ss_from_user_id req) (ss_client_sequence_id req)
    (single_record req) (single_upserts req) (ms_topic_single svc) (w_db w) (w_db w') resp /\
  (r_code (s_response resp) = 0 \/ w_db w' <> w_db w -> single_allowed svc context req (w_db w)).
Proof. by eapply single_outcome. Qed.

Lemma sample_clock f i : 0 < env_clock (sample_env f) i.
Proof. cbn [sample_env env_clock]. lia. Qed.

(** The acknowledgement of COMMIT is lost: an error is answered, the message
    is stored. *)
Lemma send_single_outcome_witness :
  answer_of (SendSingleMessage (sample_env (once 17 Lost)) sample_service sample_context (hello 3)
    (world_of sample_db)) (fun resp w' =>
    r_code (s_response resp) = 4000 /\ length (messages (w_db w')) = 1%nat /\
    w_tx w' = None /\ single_allowed sample_service sample_context (hello 3) sample_db).
Proof.
  destruct (SendSingleMessage _ _ _ _ _) as [[resp w']|] eqn:H; [|vm_compute in H; discriminate H].
  destruct (send_single_outcome _ _ _ _ (world_of sample_db) _ _ (sample_clock _) eq_refl H) as (Ht&_&Hok).
  assert (r_code (s_response resp) = 4000 /\ length (messages (w_db w')) = 1%nat) as [Hc Hl].
  { vm_compute in H. injection H as <- <-. by split. }
  cbn [answer_of]. split_and!; [done|done|done|]. apply Hok. right. intros Hd.
  rewrite Hd in Hl. discriminate Hl.
Defined.



(** C2: However often a client retries a numbered message, through either
    handler and with failures of the database at any call, it is stored at
    most once and every answer of success names that one row. *)
Theorem retries_store_once E svc rs w log w'
    (Hclk : forall i, 0 < env_clock E i) (Hidle : w_tx w = None)
    (Hkeyed : messages_keyed (w_db w)) (Hrun : sends E svc rs w = Some (log, w')) :
  messages_keyed (w_db w') /\
  (forall m, m ∈ messages (w_db w) -> m ∈ messages (w_db w')) /\
  (forall r a, (r, a) ∈ log -> r_code (s_response a) = 0 ->
     acknowledged (w_db w') (sender r) (sequence r) (s_message_id a)) /\
  (forall r1 a1 r2 a2, (r1, a1) ∈ log -> (r2, a2) ∈ log -> sequence r1 <> 0 ->
     sender r1 = sender r2 -> sequence r1 = sequence r2 ->
     r_code (s_response a1) = 0 -> r_code (s_response a2) = 0 ->
     s_message_id a1 = s_message_id a2).
Proof.
  destruct (sends_run E svc Hclk _ _ _ _ Hidle Hkeyed Hrun) as (_&HK&Hkept&Hack).
  split_and!; [done|done|done|]. intros r1 a1 r2 a2 H1 H2 Hz Hf Hs Hc1 Hc2.
  destruct (Hack _ _ H1 Hc1) as (m1&?&?&?&<-). destruct (Hack _ _ H2 Hc2) as (m2&?&?&?&<-).
  f_equal. apply (keyed_sequence _ HK); congruence.
Qed.

(** The first send loses the acknowledgement of its COMMIT; the retries name
    the message it stored. *)
Lemma retries_store_once_witness :
  answer_of (sends (sample_env (once 17 Lost)) sample_service
    [to_user sample_context (hello 3); to_user sample_context (hello 3);
     to_user sample_context (hello 3)] (world_of sample_db))
    (fun log w' => map (fun ra => (r_code (s_response ra.2), s_message_id ra.2)) log
                   = [(4000, 0); (0, 4096); (0, 4096)] /\ messages_keyed (w_db w')).
Proof.
  destruct (sends _ _ _ _) as [[log w']|] eqn:H; [|vm_compute in H; discriminate H].
  assert (messages_keyed sample_db) as HK
    by (split; [apply NoDup_nil_2|intros ?? []%not_elem_of_nil..]).
  destruct (retries_store_once _ _ _ (world_of sample_db) _ _ (sample_clock _) eq_refl HK H) as (HK'&_).
  cbn [answer_of]. split; [|exact HK']. vm_compute in H. by injection H as <- <-.
Defined.
