(* ===== verification/MessageReceipts.v ===== *)
(** * Acknowledging, reading and recalling

    Properties of [AckMessage], [PullOfflineMessages], [MarkMessageRead],
    [MarkConversationRead] and [RecallMessage]: what they commit, for whom, and
    that the receipts, the offline rows and the messages only move forward. *)

From S2P Require Import Prelude Words Text MessageId Rpc Db MessageStore ConversationStore.
From S2P Require Import OutboxStore Directory DbLogic MessageService MessageSend Sample.

(** The tables after the statements of each handler. *)

Definition acked (user mid now server_now : Z) (d : Db) : Db :=
  set_offline_messages
    (sql_update (acked_rows user mid) (set_offline_status 2 server_now) (offline_messages d))
    (set_message_receipts
       (sql_upsert (same_receipt mid user) (mkReceipt mid user now 0 now now)
          (fun r => mkReceipt (rc_message_id r) (rc_user_id r) (Z.max (rc_delivered_at r) now)
                      (rc_read_at r) (rc_created_at r) now) (message_receipts d)) d).

(** [user]'s entry of conversation [cid] counts what the tables say is unread. *)
Definition recounted (user cid now : Z) (d : Db) : Db :=
  set_conversations
    (sql_update (same_conversation user cid) (set_unread (count_unread d user cid) now)
       (conversations d)) d.

Definition message_read (user mid now : Z) (d : Db) : Db :=
  set_message_receipts (upsert_read mid user now (message_receipts d)) d.

Definition conversation_read (user cid up_to up_to_created now : Z) (d : Db) : Db :=
  set_message_receipts
    (fold_left (fun t m => upsert_read (m_message_id m) user now t)
       (sql_select (read_up_to cid user up_to up_to_created) (messages d)) (message_receipts d)) d.

(** The rows [ids] of [user] that were not acknowledged are marked pulled. *)
Definition pulled (user : Z) (ids : list Z) (now : Z) (d : Db) : Db :=
  set_offline_messages
    (sql_update (pulled_rows user ids) (set_offline_status 1 now) (offline_messages d)) d.

(** The tables after message [m] was recalled: the row, the event that
    announces it, and the entries of its conversation. *)
Definition recalled (m : MessageRecord) (now : Z) (event : OutboxEvent) (d : Db) : Db :=
  let d1 := set_messages (sql_update (fun r => (m_message_id r =? m_message_id m) && negb (m_recalled r))
              (recall_row now) (messages d)) d in
  let recount c := set_unread (count_unread d1 (c_owner_user_id c) (c_conversation_id c)) now c in
  let hide c := set_last (c_last_message_id c) recalled_preview now now c in
  set_conversations
    (sql_update (fun c => (c_conversation_id c =? m_conversation_id m) &&
                          (c_last_message_id c =? m_message_id m)) hide
       (sql_update (fun c => c_conversation_id c =? m_conversation_id m) recount (conversations d)))
    (set_outbox_events (outbox_events d ++ [event]) d1).

(** Who may acknowledge or read a message: the addressee, or a user with an
    entry of the group's conversation. *)
Definition recipient (d : Db) (user : Z) (m : MessageRecord) : Prop :=
  user <> 0 /\ m_from_user_id m <> user /\
  (m_group_id m = 0 -> m_to_user_id m = user) /\
  (m_group_id m <> 0 -> exists c, c ∈ conversations d /\
     c_owner_user_id c = user /\ c_conversation_id c = m_conversation_id m /\ c_deleted c = false).

Section Handlers.
Context (E : Env) (svc : MessageServiceImpl).

Lemma isOwner_run u c w b w' :
  isOwner E u c w = Some (b, w') -> b = true ->
  exists x, x ∈ conversations (w_db w) /\ c_owner_user_id x = u /\
    c_conversation_id x = c /\ c_deleted x = false.
Proof.
  intros H Hb. destruct (exists_row_run _ _ _ _ _ H Hb) as [x Hx].
  apply sql_first_spec in Hx as [Hin Hm]. unfold same_conversation in Hm. bools. eauto 6.
Qed.

Lemma canReceiveMessage_run u r w b w' :
  canReceiveMessage E u r w = Some (b, w') -> b = true -> recipient (w_db w) u r.
Proof.
  unfold canReceiveMessage, canReadConversation. intros H ->.
  destruct (_ || _) eqn:Hz; [by munfold H|]. bools.
  destruct (m_group_id r =? 0) eqn:Hg; cbn [negb] in H; bools.
  - munfold H. injection H as Hto _. bools. split_and!; [done|done|done|lia].
  - destruct (_ && _); [|by munfold H]. apply isOwner_run in H; [|done].
    split_and!; [done|done|lia|done].
Qed.

Lemma executes_some f n d d' : executes (fun d => Some (f d, n d)) d d' -> d' = f d.
Proof. intros [k Hk]. by simplify_eq/=. Qed.

Lemma upsertDelivered_step mid user now :
  TxStep (upsertDelivered_conn E mid user now) (executes (upsert_delivered mid user now)).
Proof. apply tx_step_update. Qed.

Lemma markAsAcked_step user mid :
  TxStep (markAsAcked_conn E user mid)
    (fun d d' => exists now, executes (update_offline (acked_rows user mid) 2 now) d d').
Proof.
  apply tx_step_quiet; [apply _|]. intros now.
  eapply tx_step_weaken; [apply tx_step_update|]. eauto.
Qed.

(** A handler that answers with an error code changed nothing. *)
Definition declined (resp : CommonResponse) (d d' : Db) : Prop := d' = d /\ r_code resp <> 0.

Lemma fail_declined id c d : c <> EC_OK -> declined (fail id c) d d.
Proof. intros Hc. split; [done|]. cbn. intros Hz. by apply error_value_ok in Hz. Qed.

Lemma message_by_id_run mid w r w' m :
  getMessageById E mid w = Some (r, w') -> r = Some m ->
  m ∈ messages (w_db w) /\ m_message_id m = mid.
Proof.
  intros H Hr. apply (getMessageById_run _ _ _ _ _ H), sql_first_spec in Hr as [? ?]. by bools.
Qed.

(** The end shared by the handlers: two statements, the commit, the answer. *)
Lemma commit_answer_run id metric active m1 m2 R1 R2 w resp w' :
  TxStep m1 R1 -> TxStep m2 R2 -> (active = true -> w_tx w = Some (w_db w)) ->
  (ok ← (mret active &&& m1 &&& m2 &&& tx_commit E);
   if negb ok then mret (fail id DB_ERROR)
   else inc_metric metric;; mret (fillResponse id EC_OK "OK")) w = Some (resp, w') ->
  declined resp (w_db w) (w_db w') \/ seq_rel R1 R2 (w_db w) (w_db w').
Proof.
  intros H1 H2 Ha H. apply run_bind_Some in H as (ok&w1&Hc&H).
  apply (active_commit_run _ _ _ _ _ _ _ _ _ H1 H2 Ha) in Hc.
  assert (w_db w' = w_db w1 /\ (ok = false -> r_code resp <> 0)) as [Hd Hr].
  { destruct ok; cbn [negb] in H; munfold H; by simplify_eq/=. }
  rewrite Hd. destruct Hc as [?|[-> ->]]; [by right|left; split; auto].
Qed.

#[local] Ltac decline H :=
  munfold H; simplify_eq/=; split; [congruence|left; split; [congruence|done]].

Lemma AckMessage_run context req w resp w' :
  w_tx w = None -> AckMessage E svc context req w = Some (resp, w') ->
  w_tx w' = None /\
  (declined resp (w_db w) (w_db w') \/
   (exists m now server_now, m ∈ messages (w_db w) /\ m_message_id m = mr_message_id req /\
      recipient (w_db w) (mr_user_id req) m /\ known_user (w_db w) (mr_user_id req) /\
      w_db w' = acked (mr_user_id req) (mr_message_id req) now server_now (w_db w))).
Proof.
  intros Ht0. unfold AckMessage. cbv zeta. intros H.
  destruct (authorized svc context); cbn [negb] in H.
  2:{ munfold H. simplify_eq/=. split; [done|left; by split]. }
  apply run_bind_Some in H as ([]&w1&H1&H). pose proof (quiet _ _ _ H1) as [Hd1 Ht1].
  rewrite Ht0 in Ht1. clear H1.
  destruct (ms_invalidDeps svc); [decline H|].
  destruct (_ || _); [decline H|].
  apply run_bind_Some in H as (known&w2&H2&H). pose proof (quiet _ _ _ H2) as [Hd2 Ht2].
  destruct known; cbn [negb] in H; [|decline H].
  apply has_user_run in H2; [|done]. rewrite Hd1 in H2.
  apply run_bind_Some in H as (rec&w3&H3&H). pose proof (quiet _ _ _ H3) as [Hd3 Ht3].
  destruct rec as [m|]; [|decline H].
  destruct (message_by_id_run _ _ _ _ m H3 eq_refl) as [Hin Hid]. rewrite Hd2, Hd1 in Hin.
  apply run_bind_Some in H as (al&w4&H4&H). pose proof (quiet _ _ _ H4) as [Hd4 Ht4].
  destruct al; cbn [negb] in H; [|decline H].
  apply canReceiveMessage_run in H4; [|done]. rewrite Hd3, Hd2, Hd1 in H4.
  destruct (ms_no_receipt_dao svc); [decline H|].
  apply run_bind_Some in H as (conn&w5&H5&H). pose proof (quiet _ _ _ H5) as [Hd5 Ht5].
  destruct conn; cbn [negb] in H; [|decline H].
  apply tx_scope_run in H as (w6&H&Hd'&Ht'). split; [done|].
  apply run_bind_Some in H as (active&w7&H7&H). apply tx_begin_run in H7 as [Hd7 Ht7].
  apply run_bind_Some in H as (now&w8&H8&H). pose proof (quiet _ _ _ H8) as [Hd8 Ht8].
  apply (commit_answer_run _ _ _ _ _ _ _ _ _ _ (upsertDelivered_step _ _ _) (markAsAcked_step _ _)) in H;
    [|intros ->; congruence].
  assert (w_db w8 = w_db w) as Hdb by congruence. rewrite Hdb in H. rewrite Hd'.
  destruct H as [?|(d1&->%executes_some&server_now&->%executes_some)]; [by left|].
  right. by exists m, now, server_now.
Qed.

Lemma receipt_markRead_step mid user now :
  TxStep (receipt_markRead_conn E mid user now) (fun d d' => d' = message_read user mid now d).
Proof. eapply tx_step_weaken; [apply tx_step_update|]. by intros d d' ->%executes_some. Qed.

Lemma recalculateUnread_step user cid now :
  TxStep (recalculateUnread_conn E user cid now) (fun d d' => d' = recounted user cid now d).
Proof. eapply tx_step_weaken; [apply tx_step_update|]. by intros d d' ->%executes_some. Qed.

Lemma markConversationRead_step cid user up_to created now :
  TxStep (markConversationRead_conn E cid user up_to created now)
    (fun d d' => d' = conversation_read user cid up_to created now d).
Proof. eapply tx_step_weaken; [apply tx_step_update|]. by intros d d' ->%executes_some. Qed.

Lemma MarkMessageRead_run context req w resp w' :
  w_tx w = None -> MarkMessageRead E svc context req w = Some (resp, w') ->
  w_tx w' = None /\
  (declined resp (w_db w) (w_db w') \/
   (exists m now, m ∈ messages (w_db w) /\ m_message_id m = mr_message_id req /\
      recipient (w_db w) (mr_user_id req) m /\
      w_db w' = recounted (mr_user_id req) (m_conversation_id m) now
                  (message_read (mr_user_id req) (mr_message_id req) now (w_db w)) /\
      exists i, now = env_clock E i)).
Proof.
  intros Ht0. unfold MarkMessageRead. cbv zeta. intros H.
  destruct (authorized svc context); cbn [negb] in H.
  2:{ munfold H. simplify_eq/=. split; [done|left; by split]. }
  apply run_bind_Some in H as ([]&w1&H1&H). pose proof (quiet _ _ _ H1) as [Hd1 Ht1].
  rewrite Ht0 in Ht1. clear H1.
  destruct (_ || _); [decline H|]. destruct (_ || _); [decline H|].
  apply run_bind_Some in H as (rec&w3&H3&H). pose proof (quiet _ _ _ H3) as [Hd3 Ht3].
  destruct rec as [m|]; [|decline H].
  destruct (message_by_id_run _ _ _ _ m H3 eq_refl) as [Hin Hid]. rewrite Hd1 in Hin.
  apply run_bind_Some in H as (al&w4&H4&H). pose proof (quiet _ _ _ H4) as [Hd4 Ht4].
  destruct al; cbn [negb] in H; [|decline H].
  apply canReceiveMessage_run in H4; [|done]. rewrite Hd3, Hd1 in H4.
  apply run_bind_Some in H as (conn&w5&H5&H). pose proof (quiet _ _ _ H5) as [Hd5 Ht5].
  destruct conn; cbn [negb] in H; [|decline H].
  apply tx_scope_run in H as (w6&H&Hd'&Ht'). split; [done|].
  apply run_bind_Some in H as (active&w7&H7&H). apply tx_begin_run in H7 as [Hd7 Ht7].
  apply run_bind_Some in H as (now&w8&H8&H). pose proof (quiet _ _ _ H8) as [Hd8 Ht8].
  apply (commit_answer_run _ _ _ _ _ _ _ _ _ _ (receipt_markRead_step _ _ _)
           (recalculateUnread_step _ _ _)) in H; [|intros ->; congruence].
  assert (w_db w8 = w_db w) as Hdb by congruence. rewrite Hdb in H. rewrite Hd'.
  destruct H as [?|(d1&->&->)]; [by left|]. right. exists m, now. split_and!; [done..|].
  unfold nowMs in H8. simplify_eq/=. eauto.
Qed.

Lemma MarkConversationRead_run context req w resp w' :
  w_tx w = None -> MarkConversationRead E svc context req w = Some (resp, w') ->
  w_tx w' = None /\
  (declined resp (w_db w) (w_db w') \/
   (exists m now, m ∈ messages (w_db w) /\ m_message_id m = cr_up_to_message_id req /\
      m_conversation_id m = cr_conversation_id req /\
      (exists c, c ∈ conversations (w_db w) /\ c_owner_user_id c = cr_user_id req /\
         c_conversation_id c = cr_conversation_id req /\ c_deleted c = false) /\
      w_db w' = recounted (cr_user_id req) (cr_conversation_id req) now
                  (conversation_read (cr_user_id req) (cr_conversation_id req)
                     (cr_up_to_message_id req) (m_created_at m) now (w_db w)) /\
      exists i, now = env_clock E i)).
Proof.
  intros Ht0. unfold MarkConversationRead. cbv zeta. intros H.
  destruct (authorized svc context); cbn [negb] in H.
  2:{ munfold H. simplify_eq/=. split; [done|left; by split]. }
  apply run_bind_Some in H as ([]&w1&H1&H). pose proof (quiet _ _ _ H1) as [Hd1 Ht1].
  rewrite Ht0 in Ht1. clear H1.
  destruct (_ || _); [decline H|]. destruct (_ || _) eqn:Hz; [decline H|].
  apply run_bind_Some in H as (rd&w2&H2&H). pose proof (quiet _ _ _ H2) as [Hd2 Ht2].
  destruct rd; cbn [negb] in H; [|decline H].
  assert (isOwner E (cr_user_id req) (cr_conversation_id req) w1 = Some (true, w2)) as Ho.
  { unfold canReadConversation in H2. destruct (_ && _); [done|by munfold H2]. }
  apply isOwner_run in Ho; [|done]. rewrite Hd1 in Ho.
  apply run_bind_Some in H as (rec&w3&H3&H). pose proof (quiet _ _ _ H3) as [Hd3 Ht3].
  destruct rec as [m|]; [|decline H].
  destruct (message_by_id_run _ _ _ _ m H3 eq_refl) as [Hin Hid]. rewrite Hd2, Hd1 in Hin.
  destruct (m_conversation_id m =? _) eqn:Hc; cbn [negb] in H; [|decline H]. apply Z.eqb_eq in Hc.
  apply run_bind_Some in H as (now&w4&H4&H). pose proof (quiet _ _ _ H4) as [Hd4 Ht4].
  apply run_bind_Some in H as (conn&w5&H5&H). pose proof (quiet _ _ _ H5) as [Hd5 Ht5].
  destruct conn; cbn [negb] in H; [|decline H].
  apply tx_scope_run in H as (w6&H&Hd'&Ht'). split; [done|].
  apply run_bind_Some in H as (active&w7&H7&H). apply tx_begin_run in H7 as [Hd7 Ht7].
  apply (commit_answer_run _ _ _ _ _ _ _ _ _ _ (markConversationRead_step _ _ _ _ _)
           (recalculateUnread_step _ _ _)) in H; [|intros ->; congruence].
  assert (w_db w7 = w_db w) as Hdb by congruence. rewrite Hdb in H. rewrite Hd'.
  destruct H as [?|(d1&->&->)]; [by left|]. right. exists m, now. split_and!; [done..|].
  unfold nowMs in H4. simplify_eq/=. eauto.
Qed.

Lemma listOfflineMessages_run user limit w r w' :
  listOfflineMessages E user limit w = Some (r, w') ->
  r = map parseOffline (select_offline user limit (w_db w)) \/ r = [].
Proof.
  unfold listOfflineMessages, with_conn. intros (b&w1&H1&H2)%run_bind_Some.
  destruct (quiet _ _ _ H1) as [Hd1 _].
  destruct b; [|munfold H2; simplify_eq/=; by right].
  apply run_bind_Some in H2 as (l&w2&H2&H). munfold H. simplify_eq/=.
  unfold rows, auto_query, call in H2. munfold H2.
  destruct (env_fault E (w_ops w1)); simplify_eq/=; rewrite ?Hd1; auto.
Qed.

#[global] Instance quiet_listOfflineMessages u n : Quiet (listOfflineMessages E u n).
Proof. unfold listOfflineMessages. apply _. Qed.

Lemma markBatchAsPulled_step user ids :
  TxStep (markBatchAsPulled_conn E user ids)
    (fun d d' => (ids = [] /\ d' = d) \/ exists now, d' = pulled user ids now d).
Proof.
  destruct ids as [|i ids]; cbn [markBatchAsPulled_conn]; [apply tx_step_ret; by auto|].
  apply tx_step_quiet; [apply _|]. intros now. eapply tx_step_weaken; [apply tx_step_update|].
  intros d d' ->%executes_some. right. by exists now.
Qed.

(** The page size the handler uses. *)
Definition pull_limit (req : PullRequest) : Z :=
  let max_limit := u64 (ms_offline_pull_limit svc) in
  let limit := if pr_page_size req =? 0 then max_limit else pr_page_size req in
  if max_limit <? limit then max_limit else limit.

#[local] Ltac decline_pull H :=
  munfold H; simplify_eq/=; split; [congruence|left; split; [split; [congruence|done]|done]].

Lemma PullOfflineMessages_run context req w resp w' :
  w_tx w = None -> PullOfflineMessages E svc context req w = Some (resp, w') ->
  w_tx w' = None /\
  ((declined (pl_response resp) (w_db w) (w_db w') /\ pl_messages resp = []) \/
   (exists offline, let got := deliverable svc offline in
      (offline = map parseOffline
         (select_offline (pr_user_id req) (Z.to_nat (pull_limit req)) (w_db w)) \/ offline = []) /\
      ((map fst got = [] /\ w_db w' = w_db w) \/
       (exists now, w_db w' = pulled (pr_user_id req) (map fst got) now (w_db w))) /\
      known_user (w_db w) (pr_user_id req) /\
      ((r_code (pl_response resp) = 0 /\ pl_messages resp = map snd got) \/
       (r_code (pl_response resp) <> 0 /\ pl_messages resp = [])))).
Proof.
  intros Ht0. unfold PullOfflineMessages. cbv zeta. fold (pull_limit req). intros H.
  destruct (authorized svc context); cbn [negb] in H.
  2:{ munfold H. simplify_eq/=. split; [done|left; by repeat split]. }
  apply run_bind_Some in H as ([]&w1&H1&H). pose proof (quiet _ _ _ H1) as [Hd1 Ht1].
  rewrite Ht0 in Ht1. clear H1.
  destruct (ms_invalidDeps svc); [decline_pull H|]. destruct (pr_user_id req =? 0); [decline_pull H|].
  apply run_bind_Some in H as (known&w2&H2&H). pose proof (quiet _ _ _ H2) as [Hd2 Ht2].
  destruct known; cbn [negb] in H; [|decline_pull H].
  apply has_user_run in H2; [|done]. rewrite Hd1 in H2.
  apply run_bind_Some in H as (off&w3&H3&H). pose proof (quiet _ _ _ H3) as [Hd3 Ht3].
  apply listOfflineMessages_run in H3. rewrite Hd2, Hd1 in H3.
  apply run_bind_Some in H as (conn&w5&H5&H). pose proof (quiet _ _ _ H5) as [Hd5 Ht5].
  destruct conn; cbn [negb] in H; [|decline_pull H].
  apply tx_scope_run in H as (w6&H&Hd'&Ht'). split; [done|]. rewrite Hd'.
  apply run_bind_Some in H as (active&w7&H7&H). apply tx_begin_run in H7 as [Hd7 Ht7].
  assert (w_db w7 = w_db w) as Hdb by congruence.
  destruct active; cbn [negb] in H.
  2:{ munfold H. simplify_eq/=. left. by split; [split|]. }
  apply run_bind_Some in H as (ok&w9&H9&H).
  apply (tx_steps_commit _ _ _ _ _ _ _ (markBatchAsPulled_step _ _) Ht7) in H9.
  assert (w_db w6 = w_db w9 /\ (r_code (pl_response resp) = 0 /\ pl_messages resp = map snd (deliverable svc off)
     \/ ok = false /\ r_code (pl_response resp) <> 0 /\ pl_messages resp = [])) as [Hd6 Hr].
  { destruct ok; cbn [negb] in H; munfold H; simplify_eq/=; split; [done|by left|done|by right]. }
  rewrite Hd6. replace (w_db w5) with (w_db w) in H9 by congruence.
  destruct H9 as [[HR _]|[-> ?]].
  - right. exists off. split_and!; [done|done|done|]. destruct Hr as [?|(_&?&?)]; auto.
  - left. destruct Hr as [[Hc _]|(_&?&?)]; [|split; [split; [congruence|done]|done]].
    exfalso. cbn [negb] in H. munfold H. simplify_eq/=.
Qed.

(** ** Recalling *)

(** The event that announces a recall. *)
Definition recall_event (event_id : Z) (m : MessageRecord) (payload : string) (now : Z)
    (trace : string) : OutboxEvent :=
  mkEvent event_id "message_recall" (m_message_id m)
    (if m_group_id m =? 0 then ms_topic_single svc else ms_topic_group svc)
    (to_string (m_conversation_id m)) payload PENDING 0 0 now now trace EmptyString.

(** Who may recall what, and until when. *)
Definition recallable (req : MessageRequest) (now : Z) (m : MessageRecord) : Prop :=
  m_message_id m = mr_message_id req /\ m_from_user_id m = mr_user_id req /\
  m_recalled m = false /\ now - m_created_at m <= ms_recall_window_seconds svc * 1000.

Lemma recallMessage_step mid now :
  TxStep (recallMessage_conn E mid now) (executes (recall_message mid now)).
Proof.
  eapply tx_step_weaken; [apply tx_step_affects|]. intros d d' (n&Hn&_). by exists n.
Qed.

Lemma recalculateAll_step cid now :
  TxStep (recalculateUnreadForConversation_conn E cid now)
    (executes (recalculate_unread_for_conversation cid now)).
Proof. apply tx_step_update. Qed.

Lemma markLastMessageRecalled_step cid mid now :
  TxStep (markLastMessageRecalled_conn E cid mid now)
    (executes (mark_last_message_recalled cid mid now)).
Proof. apply tx_step_update. Qed.

(** The statements of the recall, each of which ran. *)
Lemma recalled_statements m now event d d1 d2 d3 d4 created :
  executes (recall_message (m_message_id m) now) d d1 ->
  executes (insert_event event created) d1 d2 ->
  executes (recalculate_unread_for_conversation (m_conversation_id m) now) d2 d3 ->
  executes (mark_last_message_recalled (m_conversation_id m) (m_message_id m) now) d3 d4 ->
  0 < e_updated_at event -> created = e_created_at event -> e_claim_token event = EmptyString ->
  d4 = recalled m now event d /\ fresh_event d (e_event_id event).
Proof.
  intros ->%executes_some He ->%executes_some ->%executes_some Hu Hc Ht.
  apply insert_event_inv in He as [-> Hf]; [|done..]. done.
Qed.

#[local] Ltac decline_recall H :=
  munfold H; simplify_eq/=; split; [congruence|left; split; [split; [congruence|done]|done]].

#[local] Ltac stop H := left; split; [|by munfold H; simplify_eq/=];
  munfold H; simplify_eq/=; split; [congruence|done].

(** The transaction of the recall, after the checks. *)
Lemma recall_transaction_run id mid m data now w resp w' :
  m_message_id m = mid -> w_tx w = None -> 0 < now ->
  recall_transaction E svc id mid m data now w = Some (resp, w') ->
  w_tx w' = None /\
  ((declined (rr_response resp) (w_db w) (w_db w') /\ rr_message_id resp = 0) \/
   (exists event_id payload trace,
      fresh_event (w_db w) event_id /\
      w_db w' = recalled m now (recall_event event_id m payload now trace) (w_db w) /\
      (r_code (rr_response resp) = 0 -> resp = mkRecallResponse (fillResponse id EC_OK "OK") (m_message_id m) now))).
Proof.
  unfold recall_transaction. cbv zeta. intros <- Ht0 Hnow H. apply run_bind_Some in H as (conn&w5&H5&H).
  pose proof (quiet _ _ _ H5) as [Hd5 Ht5]. rewrite Ht0 in Ht5.
  destruct conn; cbn [negb] in H; [|decline_recall H].
  apply tx_scope_run in H as (w6&H&Hd'&Ht'). split; [done|]. rewrite Hd', <- Hd5. clear Hd' Ht' w'.
  apply run_bind_Some in H as (active&w7&H7&H). apply tx_begin_run in H7 as [Hd7 Ht7].
  destruct active; cbn [negb] in H; [|stop H].
  apply run_bind_Some in H as (b1&w8&H8&H).
  destruct (recallMessage_step _ _ _ _ _ _ H8 Ht7) as (Hd8&t1&Ht8&HR1).
  destruct b1; cbn [negb] in H.
  2:{ apply run_bind_Some in H as (b&w9&H9&H). apply tx_rollback_run in H9 as [Hd9 Ht9].
      apply run_bind_Some in H as (ex&w10&H10&H). destruct (quiet _ _ _ H10) as [Hd10 _].
      munfold H. simplify_eq/=. left. split; [split; [congruence|]|done].
      destruct ex as [x|]; [destruct (m_recalled x)|]; done. }
  apply run_bind_Some in H as (eid&w9&H9&H). destruct (quiet _ _ _ H9) as [Hd9 Ht9].
  apply run_bind_Some in H as (ev&w10&H10&H).
  assert (ev = recall_event eid m (ms_serialize svc data) now (w_trace w9) /\ w10 = w9) as [-> ->]
    by (unfold makeOutboxEvent in H10; munfold H10; by simplify_eq/=).
  rewrite Ht8 in Ht9. apply run_bind_Some in H as (b2&w11&H11&H).
  destruct (insertEvent_step _ _ _ _ _ _ H11 Ht9) as (Hd11&t2&Ht11&HR2).
  destruct b2; cbn [negb] in H; [|stop H].
  apply run_bind_Some in H as (b3&w12&H12&H).
  destruct (recalculateAll_step _ _ _ _ _ _ H12 Ht11) as (Hd12&t3&Ht12&HR3).
  destruct b3; cbn [negb] in H; [|stop H].
  apply run_bind_Some in H as (b4&w13&H13&H).
  destruct (markLastMessageRecalled_step _ _ _ _ _ _ _ H13 Ht12) as (Hd13&t4&Ht13&HR4).
  destruct b4; cbn [negb] in H; [|stop H].
  apply run_bind_Some in H as (b5&w14&H14&H).
  destruct (tx_commit_run _ _ _ _ _ Ht13 H14) as [[Hd14 Ht14]|[-> [Hd14 Ht14]]]; [|stop H].
  destruct (HR2 eq_refl) as (created&He&Hcr). right.
  destruct (recalled_statements m now _ _ _ _ _ _ created (HR1 eq_refl) He (HR3 eq_refl) (HR4 eq_refl))
    as [-> Hf]; [done|auto|done|].
  exists eid, (ms_serialize svc data), (w_trace w9). split_and!; [done| |].
  - destruct b5; munfold H; simplify_eq/=; congruence.
  - destruct b5; munfold H; by simplify_eq/=.
Qed.

Lemma RecallMessage_run context req w resp w' :
  (forall i, 0 < env_clock E i) -> w_tx w = None ->
  RecallMessage E svc context req w = Some (resp, w') ->
  w_tx w' = None /\
  ((declined (rr_response resp) (w_db w) (w_db w') /\ rr_message_id resp = 0) \/
   (exists m i event_id payload trace, let now := env_clock E i in
      m ∈ messages (w_db w) /\ recallable req now m /\ fresh_event (w_db w) event_id /\
      w_db w' = recalled m now (recall_event event_id m payload now trace) (w_db w) /\
      (r_code (rr_response resp) = 0 -> resp =
         mkRecallResponse (fillResponse (mr_request_id req) EC_OK "OK") (mr_message_id req) now))).
Proof.
  intros Hclk Ht0. unfold RecallMessage. cbv zeta. intros H.
  destruct (authorized svc context); cbn [negb] in H.
  2:{ munfold H. simplify_eq/=. split; [done|left; by repeat split]. }
  apply with_trace_run in H as (w1&w2&[Hd1 Ht1]&H&[Hd' Ht']). rewrite Ht0 in Ht1.
  apply run_bind_Some in H as ([]&w3&H3&H). pose proof (quiet _ _ _ H3) as [Hd3 Ht3]. clear H3.
  rewrite Ht1 in Ht3. rewrite Ht', Hd'. assert (w_db w3 = w_db w) as Hdb by congruence.
  destruct (ms_invalidDeps svc); [decline_recall H|]. destruct (_ || _); [decline_recall H|].
  apply run_bind_Some in H as (rec&w4&H4&H). pose proof (quiet _ _ _ H4) as [Hd4 Ht4].
  destruct rec as [m|]; [|decline_recall H].
  destruct (message_by_id_run _ _ _ _ m H4 eq_refl) as [Hin Hid]. rewrite Hdb in Hin.
  destruct (m_from_user_id m =? mr_user_id req) eqn:Hf; cbn [negb] in H; [|decline_recall H].
  destruct (m_recalled m) eqn:Hr; [decline_recall H|].
  apply run_bind_Some in H as (now&w5&H5&H). pose proof (quiet _ _ _ H5) as [Hd5 Ht5].
  assert (exists i, now = env_clock E i) as [i ->] by (unfold nowMs in H5; simplify_eq/=; eauto).
  destruct (_ <? _) eqn:Hw; [decline_recall H|]. bools.
  apply run_bind_Some in H as (data&w6&H6&H). pose proof (quiet _ _ _ H6) as [Hd6 Ht6].
  apply recall_transaction_run in H as [Htx H]; [|done|congruence|apply Hclk]. split; [done|].
  replace (w_db w6) with (w_db w) in H by congruence.
  destruct H as [?|(eid&payload&trace&?&?&?)]; [by left|right].
  exists m, i, eid, payload, trace. split_and!; [done| |done|done|rewrite <- Hid; done].
  by split_and!.
Qed.

End Handlers.
