(* ===== verification/Progress.v ===== *)
(** * The message service as a whole

    Every handler of [MessageServiceImpl], whatever it answers and whatever
    fails on the way, only moves the tables forward: messages are never
    removed and change by one recall at most, acknowledgements and receipts
    are never taken back, the outbox is only appended to. *)

From S2P Require Import Prelude Words Text MessageId Rpc Db MessageStore ConversationStore.
From S2P Require Import OutboxStore Directory DbLogic MessageService MessageSend Sample.
From S2P Require Import SendHistory MessageReceipts.

(** A request to the service. *)
Inductive MessageCall :=
| CallSend (r : SendRequest)
| CallList (context : ServerContext) (req : ListRequest)
| CallAck (context : ServerContext) (req : MessageRequest)
| CallPull (context : ServerContext) (req : PullRequest)
| CallMarkRead (context : ServerContext) (req : MessageRequest)
| CallMarkConversationRead (context : ServerContext) (req : ConversationReadRequest)
| CallReadState (context : ServerContext) (req : MessageRequest)
| CallRecall (context : ServerContext) (req : MessageRequest).

(** The handler of a request, up to the code it answers with. *)
Definition serve (E : Env) (svc : MessageServiceImpl) (c : MessageCall) : M Z :=
  match c with
  | CallSend r => a ← send E svc r; mret (r_code (s_response a))
  | CallList context req => a ← ListConversationMessages E svc context req; mret (r_code (lr_response a))
  | CallAck context req => a ← AckMessage E svc context req; mret (r_code a)
  | CallPull context req => a ← PullOfflineMessages E svc context req; mret (r_code (pl_response a))
  | CallMarkRead context req => a ← MarkMessageRead E svc context req; mret (r_code a)
  | CallMarkConversationRead context req => a ← MarkConversationRead E svc context req; mret (r_code a)
  | CallReadState context req => a ← GetMessageReadState E svc context req; mret (r_code (rs_response a))
  | CallRecall context req => a ← RecallMessage E svc context req; mret (r_code (rr_response a))
  end.

Fixpoint serve_all (E : Env) (svc : MessageServiceImpl) (cs : list MessageCall) : M (list Z) :=
  match cs with
  | [] => mret []
  | c :: cs => a ← serve E svc c; log ← serve_all E svc cs; mret (a :: log)
  end.

(** ** Tables that only grow *)

(** The rows of [t] are still there, each changed by [R] at most, followed by
    new ones. *)
Definition grows {A} (R : A -> A -> Prop) (t t' : list A) : Prop :=
  exists t1 new, t' = t1 ++ new /\ Forall2 R t t1.

#[global] Arguments grows : simpl never.

Section Grows.
Context {A : Type} (R : A -> A -> Prop) `{!PreOrder R}.

#[global] Instance grows_preorder : PreOrder (grows R).
Proof.
  split.
  - intros t. exists t, []. split; [by rewrite app_nil_r|]. by apply Forall_Forall2_diag, Forall_true.
  - intros t1 t2 t3 (u1&n1&->&H1) (u2&n2&->&H2).
    apply Forall2_app_inv_l in H2 as (v1&v2&Hv1&Hv2&->).
    exists v1, (v2 ++ n2). split; [by rewrite app_assoc|]. by etrans.
Qed.

Lemma update_Forall2 (P : A -> bool) f t :
  (forall r, r ∈ t -> P r = true -> R r (f r)) -> Forall2 R t (sql_update P f t).
Proof.
  unfold sql_update. induction t as [|r t IH]; intros Hf; [constructor|]. constructor.
  - destruct (P r) eqn:HP; [apply Hf; [left|done]|done].
  - apply IH. intros x Hx. apply Hf. by right.
Qed.

Lemma grows_update (P : A -> bool) f t :
  (forall r, r ∈ t -> P r = true -> R r (f r)) -> grows R t (sql_update P f t).
Proof.
  intros Hf. exists (sql_update P f t), []. split; [by rewrite app_nil_r|]. by apply update_Forall2.
Qed.

Lemma grows_app t new : grows R t (t ++ new).
Proof. exists t, new. split; [done|]. by apply Forall_Forall2_diag, Forall_true. Qed.

Lemma grows_upsert (same : A -> bool) row f t :
  (forall r, same r = true -> R r (f r)) -> grows R t (sql_upsert same row f t).
Proof.
  intros Hf. unfold sql_upsert. destruct (existsb same t); [|apply grows_app].
  apply grows_update. auto.
Qed.

Lemma grows_elem t t' x : grows R t t' -> x ∈ t -> exists y, y ∈ t' /\ R x y.
Proof.
  intros (t1&new&->&H) Hx. apply list_elem_of_lookup in Hx as [i Hi].
  destruct (Forall2_lookup_l _ _ _ _ _ H Hi) as (y&Hy&HR). exists y. split; [|done].
  apply elem_of_app. left. by eapply list_elem_of_lookup_2.
Qed.

End Grows.

(** ** What a row may become *)

Definition message_step (m m' : MessageRecord) : Prop :=
  m' = m \/ (m_recalled m = false /\ exists now, m' = recall_row now m).

(** A row waits (0), was pulled (1) or is acknowledged (2), in that order. *)
Definition offline_step (r r' : OfflineMessage) : Prop :=
  om_user_id r' = om_user_id r /\ om_message_id r' = om_message_id r /\
  om_payload r' = om_payload r /\ om_created_at r' = om_created_at r /\
  (om_status r' = om_status r \/
   (open_status (om_status r) = true /\ (om_status r' = 1 \/ om_status r' = 2) /\
    om_status r <= om_status r')).

Definition receipt_step (r r' : MessageReceipt) : Prop :=
  rc_message_id r' = rc_message_id r /\ rc_user_id r' = rc_user_id r /\
  rc_created_at r' = rc_created_at r /\
  rc_delivered_at r <= rc_delivered_at r' /\ rc_read_at r <= rc_read_at r'.

(** A conversation entry keeps its owner and the owner's settings. *)
Definition conversation_step (c c' : Conversation) : Prop :=
  c_conversation_id c' = c_conversation_id c /\ c_conversation_type c' = c_conversation_type c /\
  c_owner_user_id c' = c_owner_user_id c /\ c_peer_user_id c' = c_peer_user_id c /\
  c_group_id c' = c_group_id c /\ c_pinned c' = c_pinned c /\ c_muted c' = c_muted c /\
  c_created_at c' = c_created_at c /\ (c_deleted c = false -> c_deleted c' = false).

#[global] Instance message_step_preorder : PreOrder message_step.
Proof.
  split; [by left|]. intros m1 m2 m3 [->|[Hr (n&->)]] H2; [done|].
  destruct H2 as [->|[? _]]; [|done]. right. eauto.
Qed.
#[global] Instance offline_step_preorder : PreOrder offline_step.
Proof.
  split; [intros r; unfold offline_step; by auto 6|].
  intros r1 r2 r3 (?&?&?&?&Hs1) (?&?&?&?&Hs2). unfold offline_step. split_and!; [congruence..|].
  destruct Hs1 as [Hs1|(?&?&?)]; [rewrite <- Hs1; done|].
  destruct Hs2 as [->|(?&?&?)]; [by right|right; split_and!; [done|done|lia]].
Qed.
#[global] Instance receipt_step_preorder : PreOrder receipt_step.
Proof.
  split; [by repeat split|]. intros r1 r2 r3 (?&?&?&?&?) (?&?&?&?&?).
  unfold receipt_step. split_and!; [congruence..|lia|lia].
Qed.
#[global] Instance conversation_step_preorder : PreOrder conversation_step.
Proof.
  split; [by repeat split|]. intros r1 r2 r3 (?&?&?&?&?&?&?&?&?) (?&?&?&?&?&?&?&?&?).
  unfold conversation_step. split_and!; [congruence..|auto].
Qed.

Record evolves (d d' : Db) : Prop := {
  evolves_directory : users d' = users d /\ friendships d' = friendships d /\
    groups d' = groups d /\ group_members d' = group_members d;
  evolves_messages : grows message_step (messages d) (messages d');
  evolves_offline : Forall2 offline_step (offline_messages d) (offline_messages d');
  evolves_receipts : grows receipt_step (message_receipts d) (message_receipts d');
  evolves_conversations : grows conversation_step (conversations d) (conversations d');
  evolves_outbox : grows eq (outbox_events d) (outbox_events d');
  evolves_keyed : messages_keyed d -> messages_keyed d'
}.

#[global] Instance evolves_preorder : PreOrder evolves.
Proof.
  split; [intros d; by split|].
  intros d1 d2 d3 [(?&?&?&?) ??????] [(?&?&?&?) ??????].
  split; [split_and!; congruence|by etrans..|auto].
Qed.

(** ** Each effect moves forward *)

Lemma upsert_one_grows c inc t : grows conversation_step t (upsert_one c inc t).
Proof. apply grows_upsert; [apply _|]. by repeat split. Qed.

Lemma upsert_members_grows cid gid sender members mid preview now t :
  grows conversation_step t (upsert_members cid gid sender members mid preview now t).
Proof.
  revert t. induction members as [|u members IH]; intros t; [done|].
  cbn [upsert_members]. etrans; [apply upsert_one_grows|apply IH].
Qed.

Lemma keyed_ext d d' : messages d' = messages d -> messages_keyed d -> messages_keyed d'.
Proof. intros H [K0 K1 K2]. by split; rewrite H. Qed.

Lemma stored_evolves record upsert event d :
  fresh_record d record -> (forall t, grows conversation_step t (upsert t)) ->
  evolves d (stored_message record upsert event d).
Proof.
  intros Hf Hu. split; cbn; [done|apply grows_app, _|done|done|apply Hu|apply grows_app, _|].
  intros HK. by apply messages_keyed_snoc.
Qed.

Lemma upsert_read_grows mid user now t : grows receipt_step t (upsert_read mid user now t).
Proof. apply grows_upsert; [apply _|]. intros r _. repeat split; cbn; lia. Qed.

Lemma open_status_spec s : open_status s = true <-> s = 0 \/ s = 1.
Proof. unfold open_status. by rewrite orb_true_iff, !Z.eqb_eq. Qed.

Lemma acked_evolves user mid now server_now d : evolves d (acked user mid now server_now d).
Proof.
  split; cbn; [done|done| | |done|done|by apply keyed_ext].
  - apply update_Forall2; [apply _|]. intros r _ [_ Hr]%andb_true_iff. unfold offline_step. cbn.
    split_and!; [done..|]. apply orb_true_iff in Hr as [Ho| ->%Z.eqb_eq]; [|by left].
    right. apply open_status_spec in Ho as Hs. split_and!; [done|by right|lia].
  - apply grows_upsert; [apply _|]. intros r _. repeat split; cbn; lia.
Qed.

Lemma recounted_evolves user cid now d : evolves d (recounted user cid now d).
Proof. split; cbn; [done..| |done|by apply keyed_ext]. apply grows_update; [apply _|]. by repeat split. Qed.

Lemma message_read_evolves user mid now d : evolves d (message_read user mid now d).
Proof. split; cbn; [done..| |done|done|by apply keyed_ext]. apply upsert_read_grows. Qed.

Lemma conversation_read_evolves user cid up_to created now d :
  evolves d (conversation_read user cid up_to created now d).
Proof.
  split; cbn; [done..| |done|done|by apply keyed_ext].
  generalize (message_receipts d). induction (sql_select _ _) as [|m l IH]; intros t; [done|].
  cbn [fold_left]. etrans; [apply upsert_read_grows|apply IH].
Qed.

Lemma pulled_evolves user ids now d : evolves d (pulled user ids now d).
Proof.
  split; cbn; [done|done| |done|done|done|by apply keyed_ext]. apply update_Forall2; [apply _|].
  intros r _ [_ Hr]%andb_true_iff. unfold offline_step. cbn. split_and!; [done..|]. right.
  apply open_status_spec in Hr as Hs. split_and!; [done|by left|lia].
Qed.

Lemma keyed_map (g : MessageRecord -> MessageRecord) d d' :
  messages d' = map g (messages d) ->
  (forall m, m_message_id (g m) = m_message_id m /\ m_from_user_id (g m) = m_from_user_id m /\
     m_client_sequence_id (g m) = m_client_sequence_id m) ->
  messages_keyed d -> messages_keyed d'.
Proof.
  intros Hd Hg [K0 K1 K2]. split.
  { rewrite Hd. apply NoDup_fmap_2_strong; [|done]. intros x y Hx Hy Hxy. apply K1; [done..|].
    destruct (Hg x) as (<-&_), (Hg y) as (<-&_). by rewrite Hxy. }
  all: intros m1 m2; rewrite Hd, !list_elem_of_fmap; intros (x&->&Hx) (y&->&Hy);
    destruct (Hg x) as (Ex1&Ex2&Ex3), (Hg y) as (Ey1&Ey2&Ey3);
    rewrite ?Ex1, ?Ex2, ?Ex3, ?Ey1, ?Ey2, ?Ey3; intros; f_equal; auto.
Qed.

Lemma recalled_evolves m now event d : evolves d (recalled m now event d).
Proof.
  split; cbn; [done| |done|done| |apply grows_app, _|].
  - apply grows_update; [apply _|]. intros r _ Hr. bools. right. eauto.
  - etrans; (apply grows_update; [apply _|]; by repeat split).
  - eapply keyed_map; [cbn; unfold sql_update; reflexivity|]. intros r. cbn. by destruct (_ && _).
Qed.

(** ** Every handler *)

Section Handlers.
Context (E : Env) (svc : MessageServiceImpl).
Hypothesis clock_positive : forall i, 0 < env_clock E i.

#[global] Instance quiet_listConversationMessages c t m n : Quiet (listConversationMessages E c t m n).
Proof. unfold listConversationMessages. apply _. Qed.
#[global] Instance quiet_getReadState m : Quiet (getReadState E m).
Proof. unfold getReadState. apply _. Qed.
#[global] Instance quiet_ListConversationMessages context req :
  Quiet (ListConversationMessages E svc context req).
Proof. unfold ListConversationMessages. apply _. Qed.
#[global] Instance quiet_GetMessageReadState context req :
  Quiet (GetMessageReadState E svc context req).
Proof. unfold GetMessageReadState. apply _. Qed.

Lemma send_evolves r w a w' :
  w_tx w = None -> send E svc r w = Some (a, w') -> w_tx w' = None /\ evolves (w_db w) (w_db w').
Proof.
  intros Ht H. destruct r as [context req|context req]; cbn [send] in H.
  - apply single_outcome in H as (?&Ho&_); [|done..]. split; [done|].
    destruct Ho as [->|m ->|mid now payload trace Hf _ ->]; [done..|].
    apply stored_evolves; [done|]. intros t. etrans; apply upsert_one_grows.
  - apply group_outcome in H as (?&(members&_&Ho)&_); [|done..]. split; [done|].
    destruct Ho as [->|m ->|mid now payload trace Hf _ ->]; [done..|].
    apply stored_evolves; [done|]. intros t. apply upsert_members_grows.
Qed.

Lemma serve_run c w a w' :
  w_tx w = None -> serve E svc c w = Some (a, w') -> w_tx w' = None /\ evolves (w_db w) (w_db w').
Proof.
  intros Ht H. destruct c as [r|ctx req|ctx req|ctx req|ctx req|ctx req|ctx req|ctx req];
    cbn [serve] in H; apply run_bind_Some in H as (x&w1&H1&H); munfold H; simplify_eq/=.
  - by eapply send_evolves.
  - destruct (quiet _ _ _ H1) as [-> ->]. done.
  - apply AckMessage_run in H1 as [? [[-> _]|(?&?&?&_&_&_&_&->)]]; auto using acked_evolves. done.
  - apply PullOfflineMessages_run in H1 as [? [[[-> _] _]|(off&_&[[_ ->]|[now ->]]&_)]];
      auto using pulled_evolves; done.
  - apply MarkMessageRead_run in H1 as [? [[-> _]|(?&?&_&_&_&->&_)]]; [done| |done].
    split; [done|]. etrans; [apply message_read_evolves|apply recounted_evolves].
  - apply MarkConversationRead_run in H1 as [? [[-> _]|(?&?&_&_&_&_&->&_)]]; [done| |done].
    split; [done|]. etrans; [apply conversation_read_evolves|apply recounted_evolves].
  - destruct (quiet _ _ _ H1) as [-> ->]. done.
  - apply RecallMessage_run in H1 as [? [[[-> _] _]|(?&?&?&?&?&_&_&_&->&_)]]; [done| |done..].
    split; [done|]. apply recalled_evolves.
Qed.

Lemma serve_all_run cs w log w' :
  w_tx w = None -> serve_all E svc cs w = Some (log, w') ->
  w_tx w' = None /\ evolves (w_db w) (w_db w').
Proof.
  revert w log. induction cs as [|c cs IH]; intros w log Ht H; cbn [serve_all] in H.
  { munfold H. by simplify_eq/=. }
  apply run_bind_Some in H as (a&w1&H1&H). apply run_bind_Some in H as (log'&w2&H2&H).
  munfold H. simplify_eq/=. apply serve_run in H1 as [Ht1 ?]; [|done].
  destruct (IH _ _ Ht1 H2). split; [done|]. by etrans.
Qed.

End Handlers.
