(* ===== verification/MessageClaims.v ===== *)
(** * Claims about acknowledging, reading, pulling and recalling

    The theorems that combine the handlers of [MessageReceipts] and
    [Progress], each with an instance on the deployment of [Sample]. *)

From S2P Require Import Prelude Words Text MessageId Rpc Db MessageStore ConversationStore.
From S2P Require Import OutboxStore Directory DbLogic MessageService MessageSend Sample.
From S2P Require Import SendHistory MessageReceipts Progress.

Definition ask (mid : Z) (user : Z) : MessageRequest := mkMessageRequest "r3" user mid.

(** User 7 has written message 4096 to user 9, which waits for 9 offline. *)
Definition told_message : MessageRecord :=
  mkMessage 4096 (ConversationId.single 7 9) 7 3 9 0 1 "hello" MESSAGE_STATUS_SENT false 0
    1735689700001 1735689700001.
Definition told_conversation (owner peer unread : Z) : Conversation :=
  mkConversation (ConversationId.single 7 9) TYPE_SINGLE owner peer 0 4096 "hello" 1735689700001
    unread false false false 1735689700001 1735689700001.
Definition told_db : Db :=
  set_conversations [told_conversation 7 9 0; told_conversation 9 7 1]
    (set_offline_messages [mkOffline 9 4096 (toHex "hello") 0 1735689700002 1735689700002]
       (set_messages [told_message] sample_db)).

Lemma sample_positive f i : 0 < env_clock (sample_env f) i.
Proof. cbn [sample_env env_clock]. lia. Qed.

(** ** The whole service *)

(** C3: Whatever requests the message service serves, in any order and with
    failures of the database at any call, no transaction stays open and the
    tables only move forward: messages are never removed and change at most
    once, by being recalled; the rows of the offline table stay, with their
    status only going from waiting to pulled to acknowledged; delivery and
    read times never decrease; conversation entries keep their owner and
    settings; outbox events are neither changed nor removed; the directory
    tables are untouched; and the keys of [messages] stay unique. *)
Theorem service_moves_forward E svc cs w log w'
    (Hclk : forall i, 0 < env_clock E i) (Hidle : w_tx w = None)
    (Hrun : serve_all E svc cs w = Some (log, w')) :
  w_tx w' = None /\ evolves (w_db w) (w_db w').
Proof. by eapply serve_all_run. Qed.

Lemma service_moves_forward_witness :
  answer_of (serve_all (sample_env (once 17 Lost)) sample_service
    [CallSend (to_user sample_context (hello 3)); CallSend (to_user sample_context (hello 3));
     CallAck sample_context (ask 4096 9); CallMarkRead sample_context (ask 4096 9);
     CallRecall sample_context (ask 4096 7); CallPull sample_context (mkPullRequest "r4" 9 0 0)]
    (world_of sample_db))
    (fun log w' => log = [4000; 0; 0; 0; 0; 0] /\ w_tx w' = None /\ evolves sample_db (w_db w')).
Proof.
  destruct (serve_all _ _ _ _) as [[log w']|] eqn:H; [|vm_compute in H; discriminate H].
  destruct (service_moves_forward _ _ _ (world_of sample_db) _ _ (sample_positive _) eq_refl H).
  cbn [answer_of]. split_and!; [|done|done]. vm_compute in H. by injection H as <- <-.
Defined.

(** ** Acknowledging *)

Lemma declined_ok resp d d' : r_code resp = 0 -> ~ declined resp d d'.
Proof. by intros H [_ ?]. Qed.



(** ** Recalling *)

(** C6: A recall is all or nothing: nothing changed and the answer is an error,
    or the sender's own message, not recalled before and within the recall
    window, was marked recalled together with a fresh outbox event, the
    recounted unread numbers of its conversation and the hidden previews. *)
Theorem recall_outcome E svc context req w resp w'
    (Hclk : forall i, 0 < env_clock E i) (Hidle : w_tx w = None)
    (Hrun : RecallMessage E svc context req w = Some (resp, w')) :
  w_tx w' = None /\
  ((declined (rr_response resp) (w_db w) (w_db w') /\ rr_message_id resp = 0) \/
   (exists m i event_id payload trace, let now := env_clock E i in
      m ∈ messages (w_db w) /\ recallable svc req now m /\ fresh_event (w_db w) event_id /\
      w_db w' = recalled m now (recall_event svc event_id m payload now trace) (w_db w) /\
      (r_code (rr_response resp) = 0 -> resp =
         mkRecallResponse (fillResponse (mr_request_id req) EC_OK "OK") (mr_message_id req) now))).
Proof. by eapply RecallMessage_run. Qed.

Lemma recall_outcome_witness :
  answer_of (RecallMessage (sample_env healthy) sample_service sample_context (ask 4096 7)
    (world_of told_db)) (fun resp w' => r_code (rr_response resp) = 0 /\ w_tx w' = None /\
    map m_recalled (messages (w_db w')) = [true] /\
    map c_unread_count (conversations (w_db w')) = [0; 0] /\
    map c_last_message_preview (conversations (w_db w')) = [recalled_preview; recalled_preview]).
Proof.
  destruct (RecallMessage _ _ _ _ _) as [[resp w']|] eqn:H; [|vm_compute in H; discriminate H].
  destruct (recall_outcome _ _ _ _ (world_of told_db) _ _ (sample_positive _) eq_refl H) as [Ht _].
  cbn [answer_of]. vm_compute in H. injection H as <- <-. by split_and!.
Defined.

Lemma elem_of_sql_update {A} (P : A -> bool) f t x :
  x ∈ t -> (if P x then f x else x) ∈ sql_update P f t.
Proof. intros Hx. apply list_elem_of_fmap. eauto. Qed.

(** A committed recall leaves the row marked. *)
Lemma recalled_row m now event d :
  m ∈ messages d -> m_recalled m = false -> recall_row now m ∈ messages (recalled m now event d).
Proof.
  intros Hm Hr. cbn.
  pose proof (elem_of_sql_update (fun r => (m_message_id r =? m_message_id m) && negb (m_recalled r))
    (recall_row now) _ _ Hm) as He. cbv beta in He. by rewrite Z.eqb_refl, Hr in He.
Qed.

(** A message is recalled at most once: after a recall that succeeded,
    whatever the service does next, every further recall of the message is
    refused and changes nothing. *)
Theorem recall_once E svc context1 req1 cs context2 req2 w resp1 w1 log w2 resp2 w3
    (Hclk : forall i, 0 < env_clock E i) (Hidle : w_tx w = None)
    (Hkeyed : messages_keyed (w_db w))
    (Hfirst : RecallMessage E svc context1 req1 w = Some (resp1, w1))
    (Hok : r_code (rr_response resp1) = 0)
    (Hrun : serve_all E svc cs w1 = Some (log, w2))
    (Hsame : mr_message_id req2 = mr_message_id req1)
    (Hagain : RecallMessage E svc context2 req2 w2 = Some (resp2, w3)) :
  r_code (rr_response resp2) <> 0 /\ w_db w3 = w_db w2.
Proof.
  apply RecallMessage_run in Hfirst as [Ht1 H1]; [|done..].
  destruct H1 as [[Hno _]|(m&i&ev&pl&tr&Hm&(Hid&_&Hr&_)&_&Hd1&_)].
  { by destruct (declined_ok _ _ _ Hok Hno). }
  pose proof (recalled_row m (env_clock E i) (recall_event svc ev m pl (env_clock E i) tr) _ Hm Hr)
    as Hrow. rewrite <- Hd1 in Hrow.
  assert (messages_keyed (w_db w1)) as HK1
    by (rewrite Hd1; by apply (evolves_keyed _ _ (recalled_evolves _ _ _ _))).
  apply serve_all_run in Hrun as [Ht2 Hev]; [|done..].
  pose proof (evolves_keyed _ _ Hev HK1) as HK2.
  destruct (grows_elem _ _ _ _ (evolves_messages _ _ Hev) Hrow) as (m2&Hm2&Hs).
  assert (m2 = recall_row (env_clock E i) m) as -> by (destruct Hs as [?|[? _]]; done).
  apply RecallMessage_run in Hagain as [_ H2]; [|done..].
  destruct H2 as [[[? ?] _]|(m3&_&_&_&_&Hm3&(Hid3&_&Hr3&_)&_)]; [done|exfalso].
  assert (m3 = recall_row (env_clock E i) m) as -> by (apply (keyed_id _ HK2); cbn; congruence).
  discriminate Hr3.
Qed.

Lemma recall_once_witness :
  answer_of (RecallMessage (sample_env healthy) sample_service sample_context (ask 4096 7)
    (world_of told_db)) (fun _ w1 =>
    answer_of (RecallMessage (sample_env healthy) sample_service sample_context (ask 4096 7) w1)
      (fun resp2 w2 => r_code (rr_response resp2) <> 0 /\ w_db w2 = w_db w1)).
Proof.
  destruct (RecallMessage _ _ _ _ (world_of told_db)) as [[resp1 w1]|] eqn:H1;
    [|vm_compute in H1; discriminate H1]. cbn [answer_of].
  destruct (RecallMessage _ _ _ _ w1) as [[resp2 w2]|] eqn:H2.
  2:{ vm_compute in H1. injection H1 as <- <-. vm_compute in H2. discriminate H2. }
  assert (r_code (rr_response resp1) = 0) as Hc by (vm_compute in H1; by injection H1 as <- <-).
  assert (messages_keyed told_db) as HK
    by (split; [apply NoDup_singleton|..]; intros m1 m2; change (messages told_db) with [told_message];
        rewrite !list_elem_of_singleton; congruence).
  by apply (recall_once _ _ _ _ [] _ _ (world_of told_db) _ _ [] _ _ _
              (sample_positive _) eq_refl HK H1 Hc eq_refl eq_refl H2).
Defined.

(** ** Reading *)

(** What the counters are recounted from. *)
Lemma count_unread_ext d d' user cid :
  messages d' = messages d -> message_receipts d' = message_receipts d ->
  count_unread d' user cid = count_unread d user cid.
Proof.
  intros Hm Hr. unfold count_unread, sql_count, sql_select. rewrite Hm. f_equal. f_equal.
  apply list_filter_iff. intros m. unfold unread_message, read_at_of. by rewrite Hr.
Qed.

(** A recounted entry shows what the tables say. *)
Lemma recounted_exact user cid now d c :
  c ∈ conversations (recounted user cid now d) -> c_owner_user_id c = user ->
  c_conversation_id c = cid -> c_unread_count c = count_unread (recounted user cid now d) user cid.
Proof.
  intros Hc Ho Hi. rewrite (count_unread_ext d) by done. unfold recounted, sql_update in Hc. cbn in Hc.
  apply list_elem_of_fmap in Hc as (c0&->&_).
  destruct (same_conversation user cid c0) eqn:HP; [done|].
  unfold same_conversation in HP. rewrite Ho, Hi, !Z.eqb_refl in HP. discriminate HP.
Qed.

Lemma sql_first_upsert {A} (same : A -> bool) row f t :
  same row = true -> (forall r, same r = true -> same (f r) = true) ->
  sql_first same (sql_upsert same row f t) =
  Some (match sql_first same t with Some r => f r | None => row end).
Proof.
  intros Hrow Hf. unfold sql_upsert, sql_first. destruct (existsb same t) eqn:Hex.
  - induction t as [|r t IH]; [done|]. cbn in *. destruct (same r) eqn:Hr.
    + by rewrite Hf.
    + rewrite Hr. by apply IH.
  - induction t as [|r t IH]; cbn in *; [by rewrite Hrow|].
    apply orb_false_elim in Hex as [Hr Hex]. rewrite Hr. by apply IH.
Qed.

Lemma sql_first_upsert_other {A} (same other : A -> bool) row f t :
  other row = false -> (forall r, same r = true -> other r = false /\ other (f r) = false) ->
  sql_first other (sql_upsert same row f t) = sql_first other t.
Proof.
  intros Hrow Hf. unfold sql_upsert, sql_first, sql_update. destruct (existsb same t).
  - clear Hrow. induction t as [|r t IH]; [done|]. cbn. destruct (same r) eqn:Hr.
    + destruct (Hf r Hr) as [-> ->]. done.
    + by rewrite IH.
  - induction t as [|r t IH]; cbn; [by rewrite Hrow|]. by rewrite IH.
Qed.

(** When a user read a message, 0 if not, as the join of [recalculateUnread]
    sees it. *)
Definition read_time (t : list MessageReceipt) (mid user : Z) : Z :=
  match sql_first (same_receipt mid user) t with Some r => rc_read_at r | None => 0 end.

Lemma same_receipt_spec mid user r :
  same_receipt mid user r = true <-> rc_message_id r = mid /\ rc_user_id r = user.
Proof. unfold same_receipt. by rewrite andb_true_iff, !Z.eqb_eq. Qed.

Lemma read_time_same mid user now t : now <= read_time (upsert_read mid user now t) mid user.
Proof.
  unfold read_time, upsert_read. rewrite sql_first_upsert;
    [|by apply same_receipt_spec|by intros r Hr%same_receipt_spec; apply same_receipt_spec].
  destruct (sql_first _ t); cbn; lia.
Qed.

Lemma read_time_other mid user now t mid' user' :
  (mid', user') <> (mid, user) ->
  read_time (upsert_read mid user now t) mid' user' = read_time t mid' user'.
Proof.
  intros Hne. unfold read_time, upsert_read. rewrite sql_first_upsert_other; [done| |].
  - apply not_true_iff_false. intros [? ?]%same_receipt_spec. cbn in *. congruence.
  - intros r [? ?]%same_receipt_spec.
    split; apply not_true_iff_false; intros [? ?]%same_receipt_spec; cbn in *; congruence.
Qed.

Lemma read_time_kept mid user now t mid' user' :
  now <= read_time t mid' user' -> now <= read_time (upsert_read mid user now t) mid' user'.
Proof.
  intros H. destruct (decide ((mid', user') = (mid, user))) as [[= -> ->]|Hne].
  - apply read_time_same.
  - by rewrite read_time_other.
Qed.

Lemma read_time_fold user now l t m :
  m ∈ l \/ now <= read_time t (m_message_id m) user ->
  now <= read_time (fold_left (fun t m => upsert_read (m_message_id m) user now t) l t)
           (m_message_id m) user.
Proof.
  revert t. induction l as [|x l IH]; intros t H; cbn [fold_left].
  { by destruct H as [[]%not_elem_of_nil|H]. }
  apply IH. destruct H as [[->|H]%elem_of_cons|H]; [right; apply read_time_same|by left|].
  right. by apply read_time_kept.
Qed.

(** Reading a message settles its counters: after an answer of success the
    reader has a receipt for the message, the message no longer counts as
    unread for them, and their conversation entry shows exactly the number of
    messages the tables hold as unread. *)
Theorem mark_read_exact E svc context req w resp w'
    (Hclk : forall i, 0 < env_clock E i) (Hidle : w_tx w = None)
    (Hrun : MarkMessageRead E svc context req w = Some (resp, w')) (Hok : r_code resp = 0) :
  exists m, m ∈ messages (w_db w') /\ m_message_id m = mr_message_id req /\
    recipient (w_db w) (mr_user_id req) m /\
    unread_message (w_db w') (mr_user_id req) (m_conversation_id m) m = false /\
    (forall c, c ∈ conversations (w_db w') -> c_owner_user_id c = mr_user_id req ->
       c_conversation_id c = m_conversation_id m ->
       c_unread_count c = count_unread (w_db w') (mr_user_id req) (m_conversation_id m)).
Proof.
  apply MarkMessageRead_run in Hrun as [_ H]; [|done].
  destruct H as [Hno|(m&now&Hm&Hid&Hrec&->&i&->)]; [by destruct (declined_ok _ _ _ Hok Hno)|].
  exists m. split_and!; [done|done|done| |].
  - unfold unread_message. apply andb_false_iff. right. apply Z.eqb_neq. rewrite Hid.
    pose proof (read_time_same (mr_message_id req) (mr_user_id req) (env_clock E i)
      (message_receipts (w_db w))) as Hrt. intros Hz. apply (Z.lt_irrefl 0).
    eapply Z.lt_le_trans; [apply (Hclk i)|]. etrans; [exact Hrt|]. by apply Z.eq_le_incl.
  - intros c. by apply recounted_exact.
Qed.

Lemma mark_read_exact_witness :
  answer_of (MarkMessageRead (sample_env healthy) sample_service sample_context (ask 4096 9)
    (world_of told_db)) (fun resp w' => r_code resp = 0 /\
    map c_unread_count (conversations (w_db w')) = [0; 0] /\
    exists m, m ∈ messages (w_db w') /\ m_message_id m = 4096).
Proof.
  destruct (MarkMessageRead _ _ _ _ _) as [[resp w']|] eqn:H; [|vm_compute in H; discriminate H].
  assert (r_code resp = 0) as Hc by (vm_compute in H; by injection H as <- <-).
  destruct (mark_read_exact _ _ _ _ (world_of told_db) _ _ (sample_positive _) eq_refl H Hc)
    as (m&Hm&Hid&_).
  cbn [answer_of]. split_and!; [done| |by exists m]. vm_compute in H. by injection H as <- <-.
Defined.

(** Reading a conversation up to a message settles everything before it:
    after an answer of success no message of the conversation at or before the
    cursor counts as unread for the reader, whose entry shows exactly what the
    tables hold as unread; and the reader owns an entry of the conversation. *)
Theorem mark_conversation_read_exact E svc context req w resp w'
    (Hclk : forall i, 0 < env_clock E i) (Hidle : w_tx w = None)
    (Hrun : MarkConversationRead E svc context req w = Some (resp, w')) (Hok : r_code resp = 0) :
  exists cursor, cursor ∈ messages (w_db w') /\ m_message_id cursor = cr_up_to_message_id req /\
    (forall m, m ∈ messages (w_db w') -> m_conversation_id m = cr_conversation_id req ->
       m_created_at m < m_created_at cursor \/
       (m_created_at m = m_created_at cursor /\ m_message_id m <= m_message_id cursor) ->
       unread_message (w_db w') (cr_user_id req) (cr_conversation_id req) m = false) /\
    (exists c, c ∈ conversations (w_db w) /\ c_owner_user_id c = cr_user_id req /\
       c_conversation_id c = cr_conversation_id req /\ c_deleted c = false) /\
    (forall c, c ∈ conversations (w_db w') -> c_owner_user_id c = cr_user_id req ->
       c_conversation_id c = cr_conversation_id req ->
       c_unread_count c = count_unread (w_db w') (cr_user_id req) (cr_conversation_id req)).
Proof.
  apply MarkConversationRead_run in Hrun as [_ H]; [|done].
  destruct H as [Hno|(x&now&Hx&Hid&Hcid&Hown&->&i&->)]; [by destruct (declined_ok _ _ _ Hok Hno)|].
  exists x. split_and!; [done|done| |done|intros c; by apply recounted_exact].
  intros m Hm Hc Hpos. unfold unread_message. rewrite Hc, Z.eqb_refl. cbn [andb].
  destruct (m_from_user_id m =? cr_user_id req) eqn:Hf; [done|].
  destruct (m_recalled m) eqn:Hr; [done|]. cbn [negb andb]. apply Z.eqb_neq.
  assert (read_up_to (cr_conversation_id req) (cr_user_id req) (cr_up_to_message_id req)
            (m_created_at x) m = true) as Hsel.
  { unfold read_up_to. rewrite Hc, Z.eqb_refl, Hf, Hr, <- Hid, !andb_true_r. cbn [andb].
    apply orb_true_iff. destruct Hpos as [?|[? ?]]; [left; lia|right]. apply andb_true_iff. lia. }
  assert (env_clock E i <= read_time (message_receipts (conversation_read (cr_user_id req)
    (cr_conversation_id req) (cr_up_to_message_id req) (m_created_at x) (env_clock E i) (w_db w)))
    (m_message_id m) (cr_user_id req)) as Hrt.
  { apply read_time_fold. left. by apply list_elem_of_filter. }
  intros Hz. apply (Z.lt_irrefl 0). eapply Z.lt_le_trans; [apply (Hclk i)|].
  etrans; [exact Hrt|]. by apply Z.eq_le_incl.
Qed.

Lemma mark_conversation_read_exact_witness :
  answer_of (MarkConversationRead (sample_env healthy) sample_service sample_context
    (mkConversationRead "r5" 9 (ConversationId.single 7 9) 4096) (world_of told_db))
    (fun resp w' => r_code resp = 0 /\ map c_unread_count (conversations (w_db w')) = [0; 0] /\
      exists m, m ∈ messages (w_db w') /\ m_message_id m = 4096).
Proof.
  destruct (MarkConversationRead _ _ _ _ _) as [[resp w']|] eqn:H; [|vm_compute in H; discriminate H].
  assert (r_code resp = 0) as Hc by (vm_compute in H; by injection H as <- <-).
  destruct (mark_conversation_read_exact _ _ _ _ (world_of told_db) _ _ (sample_positive _) eq_refl
              H Hc) as (m&Hm&Hid&_).
  cbn [answer_of]. split_and!; [done| |by exists m]. vm_compute in H. by injection H as <- <-.
Defined.
