(* ===== verification/History.v ===== *)
(** * Paging through a conversation

    [ListConversationMessages] returns a page of at most 100 messages and a
    cursor; a client that follows the cursors sees the whole conversation. *)

From stdpp Require sorting.
From S2P Require Import Prelude Words Text MessageId Rpc Db MessageStore ConversationStore.
From S2P Require Import OutboxStore Directory DbLogic MessageService MessageSend Sample.
From S2P Require Import SendHistory MessageReceipts.

Local Open Scope Z_scope.

(** All messages of a conversation, newest first. *)
Definition conversation_history (cid : Z) (d : Db) : list MessageRecord :=
  sort_by newer_first (sql_select (fun m => m_conversation_id m =? cid) (messages d)).

(** Times and identifiers are positive, as the service writes them. *)
Definition messages_positive (d : Db) : Prop :=
  forall m, m ∈ messages d -> 0 < m_message_id m /\ 0 < m_created_at m.

Lemma newer_first_spec a b :
  newer_first a b = true <->
  m_created_at b < m_created_at a \/
  (m_created_at b = m_created_at a /\ m_message_id b <= m_message_id a).
Proof. unfold newer_first. rewrite orb_true_iff, andb_true_iff. lia. Qed.

Lemma newer_first_total a b : newer_first a b = false -> newer_first b a = true.
Proof. rewrite <- not_true_iff_false, !newer_first_spec. lia. Qed.

Lemma newer_first_trans a b c :
  newer_first a b = true -> newer_first b c = true -> newer_first a c = true.
Proof. rewrite !newer_first_spec. lia. Qed.

Definition sorted_newest (l : list MessageRecord) : Prop :=
  StronglySorted (fun a b => newer_first a b = true) l.

Lemma history_sorted l : sorted_newest (sort_by newer_first l).
Proof. apply sort_by_sorted; [apply newer_first_total|apply newer_first_trans]. Qed.

Lemma sorted_filter (P : MessageRecord -> bool) l : sorted_newest l -> sorted_newest (sql_select P l).
Proof.
  induction 1 as [|x l HS IH HF]; [constructor|]. unfold sql_select in *.
  rewrite filter_cons. case_decide; [|done]. constructor; [done|].
  rewrite Forall_forall in *. intros y Hy. apply list_elem_of_filter in Hy as [_ Hy]. auto.
Qed.

(** Sorting then selecting is selecting then sorting, on rows with different
    identifiers. *)
Lemma sort_select d P :
  messages_keyed d ->
  sort_by newer_first (sql_select P (messages d)) = sql_select P (sort_by newer_first (messages d)).
Proof.
  intros HK. eapply sorting.StronglySorted_unique_strong with (R := fun a b => newer_first a b = true).
  - intros x y Hx Hy Hxy%newer_first_spec Hyx%newer_first_spec. rewrite sort_by_perm in Hx.
    apply list_elem_of_filter in Hx as [_ Hx]. apply list_elem_of_filter in Hy as [_ Hy].
    rewrite sort_by_perm in Hy. apply (keyed_id _ HK); [done|done|lia].
  - apply history_sorted.
  - apply sorted_filter, history_sorted.
  - rewrite sort_by_perm. unfold sql_select. by rewrite sort_by_perm.
Qed.

Lemma select_select {A} (P Q : A -> bool) l :
  sql_select (fun x => P x && Q x) l = sql_select Q (sql_select P l).
Proof.
  unfold sql_select. induction l as [|x l IH]; [done|].
  rewrite !filter_cons. destruct (P x) eqn:HP; simpl.
  - rewrite filter_cons. destruct (Q x); simpl; by rewrite IH.
  - done.
Qed.

Lemma select_all {A} (P : A -> bool) l : (forall x, x ∈ l -> P x = true) -> sql_select P l = l.
Proof.
  unfold sql_select. induction l as [|x l IH]; intros H; [done|].
  rewrite filter_cons_True by (apply H; left). f_equal. apply IH. intros y Hy. apply H. by right.
Qed.

Lemma select_none {A} (P : A -> bool) l : (forall x, x ∈ l -> P x = false) -> sql_select P l = [].
Proof.
  unfold sql_select. induction l as [|x l IH]; intros H; [done|].
  rewrite filter_cons_False by (rewrite H; [done|left]). apply IH. intros y Hy. apply H. by right.
Qed.

(** What the cursor of a row selects. *)
Lemma before_cursor_spec x m :
  0 < m_message_id x -> 0 < m_created_at x ->
  before_cursor (m_created_at x) (m_message_id x) m = negb (newer_first m x).
Proof.
  intros Hi Hc. apply eq_bool_prop_intro. rewrite !Is_true_true, negb_true_iff, <- not_true_iff_false.
  unfold before_cursor. rewrite (proj2 (Z.ltb_lt _ _) Hc), (proj2 (Z.ltb_lt _ _) Hi). cbn [andb].
  rewrite newer_first_spec, orb_true_iff, andb_true_iff. lia.
Qed.

(** In the sorted history, what comes after a row is what its cursor selects. *)
Lemma after_cursor d l1 x l2 :
  messages_keyed d -> (forall m, m ∈ l1 ++ x :: l2 -> m ∈ messages d) -> NoDup (l1 ++ x :: l2) ->
  0 < m_message_id x -> 0 < m_created_at x -> sorted_newest (l1 ++ x :: l2) ->
  sql_select (before_cursor (m_created_at x) (m_message_id x)) (l1 ++ x :: l2) = l2.
Proof.
  intros HK Hin Hnd Hpi Hpc HS.
  replace (l1 ++ x :: l2) with ((l1 ++ [x]) ++ l2) in * by by rewrite <- app_assoc.
  apply NoDup_app in Hnd as (_&Hdisj&_). apply sorting.StronglySorted_app in HS as (Hord&HS1&_).
  unfold sql_select. rewrite filter_app. fold (sql_select (before_cursor (m_created_at x) (m_message_id x)) (l1 ++ [x])).
  fold (sql_select (before_cursor (m_created_at x) (m_message_id x)) l2).
  assert (x ∈ l1 ++ [x]) as Hx by (apply elem_of_app; right; left).
  rewrite select_none, select_all; [done| |].
  - intros m Hm. rewrite before_cursor_spec by done. apply negb_true_iff, not_true_iff_false.
    intros Hmx. apply (Hdisj x Hx). replace x with m; [done|]. specialize (Hord x m Hx Hm).
    apply newer_first_spec in Hmx, Hord. apply (keyed_id _ HK); [..|lia].
    + apply Hin, elem_of_app. by right.
    + apply Hin, elem_of_app. by left.
  - intros m Hm. rewrite before_cursor_spec by done. apply negb_false_iff.
    apply elem_of_app in Hm as [Hm| ->%list_elem_of_singleton]; [|apply newer_first_spec; lia].
    apply (sorting.StronglySorted_app_1_elem_of _ _ _ _ _ HS1 Hm). left.
Qed.

(** The page after a row of the history is the rest of the history. *)
Lemma next_page cid d l1 x l2 limit :
  messages_keyed d -> messages_positive d -> conversation_history cid d = l1 ++ x :: l2 ->
  select_history cid (m_created_at x) (m_message_id x) limit d = take limit l2.
Proof.
  intros HK Hpos Hh.
  assert (forall m, m ∈ l1 ++ x :: l2 -> m ∈ messages d) as Hin.
  { intros m. rewrite <- Hh. unfold conversation_history. rewrite sort_by_perm.
    by intros [_ ?]%list_elem_of_filter. }
  assert (x ∈ messages d) as Hx by (apply Hin, elem_of_app; right; left).
  destruct (Hpos x Hx). unfold select_history. f_equal.
  rewrite sort_select, select_select by done. rewrite <- sort_select by done.
  fold (conversation_history cid d). rewrite Hh. apply (after_cursor d); try done.
  - rewrite <- Hh. unfold conversation_history. rewrite sort_by_perm. apply NoDup_filter, HK.
  - rewrite <- Hh. apply history_sorted.
Qed.

Lemma first_page cid d limit :
  select_history cid 0 0 limit d = take limit (conversation_history cid d).
Proof.
  unfold select_history, conversation_history. do 2 f_equal. unfold sql_select.
  apply list_filter_iff. intros m. by rewrite andb_true_r.
Qed.

(** ** Reading under a healthy database *)

Section Crawl.
Context (E : Env) (svc : MessageServiceImpl) (context : ServerContext).
Hypothesis healthy_db : forall i, env_fault E i = Done.

Lemma read_rows_healthy {A} (q : Db -> list A) w :
  with_conn E [] (rows (auto_query E q)) w = Some (q (w_db w), set_ops (S (S (w_ops w))) w).
Proof.
  unfold with_conn, acquire, rows, auto_query, call, mbind, SM_bind, mret, SM_ret, get_state.
  rewrite !healthy_db. reflexivity.
Qed.

(** What the client sees of a message. *)
Definition data_of (trace : string) (m : MessageRecord) : MessageData :=
  mkMessageData (m_message_id m) (m_conversation_id m) (m_from_user_id m) (m_to_user_id m)
    (m_group_id m) (m_message_type m) (m_content m) (m_status m) (m_created_at m) (m_recalled m)
    (m_recalled_at m) trace.

Lemma toMessageData_all l w : mapM toMessageData l w = Some (map (data_of (w_trace w)) l, w).
Proof.
  induction l as [|m l IH]; [done|].
  change (mapM toMessageData (m :: l)) with
    (y ← toMessageData m; k ← mapM toMessageData l; mret (y :: k) : M (list MessageData)).
  etrans; [apply run_bind|]. change (toMessageData m w) with (Some (data_of (w_trace w) m, w)).
  etrans; [apply run_bind|]. by rewrite IH.
Qed.

Context (requester cid size : Z) (id : string).

(** The number of messages on a page. *)
Definition page_limit : nat := Z.to_nat (if size =? 0 then 50 else Z.min size 100).

(** The requester owns an entry of the conversation. *)
Definition readable (d : Db) : Prop :=
  requester <> 0 /\ cid <> 0 /\
  exists c, c ∈ conversations d /\ c_owner_user_id c = requester /\ c_conversation_id c = cid /\
    c_deleted c = false.

Lemma canRead_healthy w :
  readable (w_db w) ->
  canReadConversation E requester cid w = Some (true, set_ops (S (S (w_ops w))) w).
Proof.
  intros (Hr&Hc&c&Hin&Ho&Hi&Hdel). unfold canReadConversation.
  rewrite (proj2 (Z.eqb_neq _ _) Hr), (proj2 (Z.eqb_neq _ _) Hc). cbn [negb andb].
  destruct (sql_first (fun c => same_conversation requester cid c && negb (c_deleted c))
              (conversations (w_db w))) as [x|] eqn:Hq.
  - unfold isOwner. rewrite exists_row_healthy by done. by rewrite Hq.
  - exfalso. unfold sql_first in Hq. pose proof (find_none _ _ Hq c (proj1 (list_elem_of_In _ _) Hin)) as Hf.
    cbv beta in Hf.
    unfold same_conversation in Hf. rewrite Ho, Hi, Hdel, !Z.eqb_refl in Hf. discriminate Hf.
Qed.

(** One page: the last [page_limit] messages before the cursor, oldest first,
    with the cursor of the oldest and whether there are more. *)
Lemma list_page w before_time before_id :
  authorized svc context = true -> ms_invalidDeps svc = false -> readable (w_db w) ->
  let rows := select_history cid before_time before_id (page_limit + 1) (w_db w) in
  let page := rev (take page_limit rows) in
  ListConversationMessages E svc context
    (mkListRequest id requester cid before_time size before_id) w =
  Some (mkListResponse (fillResponse id EC_OK "OK") (map (data_of (w_trace w)) page)
          (match page with m :: _ => m_created_at m | [] => 0 end)
          (match page with m :: _ => m_message_id m | [] => 0 end)
          (bool_decide (page_limit < length rows)%nat), set_ops (4 + w_ops w) w).
Proof.
  intros Ha Hi Hr. cbv zeta. unfold ListConversationMessages. rewrite Ha, Hi.
  cbn [negb l_requester_user_id l_conversation_id l_before_time l_before_message_id l_page_size
       l_request_id].
  destruct Hr as (Hr0&Hc0&Hx). rewrite (proj2 (Z.eqb_neq _ _) Hr0), (proj2 (Z.eqb_neq _ _) Hc0).
  cbn [orb]. unfold mbind at 1, SM_bind at 1. rewrite canRead_healthy by done. cbn [negb].
  unfold listConversationMessages. unfold mbind at 1, SM_bind at 1. rewrite read_rows_healthy.
  unfold mbind at 1, SM_bind at 1. rewrite toMessageData_all. reflexivity.
Qed.

(** A client that follows the cursors until there is no more. *)
Fixpoint crawl (fuel : nat) (before_time before_id : Z) : M (list MessageData) :=
  match fuel with
  | O => mret []
  | S fuel =>
      r ← ListConversationMessages E svc context
            (mkListRequest id requester cid before_time size before_id);
      if lr_has_more r
      then older ← crawl fuel (lr_next_before_time r) (lr_next_before_message_id r);
           mret (older ++ lr_messages r)
      else mret (lr_messages r)
  end.

Lemma crawl_rest fuel seen rest before_time before_id w :
  authorized svc context = true -> ms_invalidDeps svc = false -> readable (w_db w) ->
  0 <= size -> messages_keyed (w_db w) -> messages_positive (w_db w) ->
  conversation_history cid (w_db w) = seen ++ rest ->
  (forall n, select_history cid before_time before_id n (w_db w) = take n rest) ->
  (length rest < fuel)%nat ->
  exists k, crawl fuel before_time before_id w =
            Some (map (data_of (w_trace w)) (rev rest), set_ops k w).
Proof.
  intros Ha Hi. assert (0 <= size -> (0 < page_limit)%nat) as Hp0.
  { intros. unfold page_limit. destruct (size =? 0) eqn:?; bools; lia. }
  revert seen rest before_time before_id w.
  induction fuel as [|fuel IH]; intros seen rest bt bi w Hr Hz HK Hpos Hh Hsel Hf; [lia|].
  cbn [crawl]. specialize (Hp0 Hz).
  assert (forall (m : M ListResponse) k r w1, m w = Some (r, w1) ->
    (m ≫= k : M (list MessageData)) w = k r w1) as Hb
    by (intros m k r w1 Hm; etrans; [apply run_bind|]; by rewrite Hm).
  erewrite Hb by (apply list_page; done). clear Hb. cbn [lr_has_more lr_messages].
  rewrite Hsel, take_take, Nat.min_l, length_take by lia.
  destruct (decide (page_limit < length rest)%nat) as [Hm|Hm].
  2:{ rewrite bool_decide_false by lia. exists (4 + w_ops w)%nat.
      rewrite take_ge by lia. reflexivity. }
  rewrite bool_decide_true by lia.
  destruct (lookup_lt_is_Some_2 rest (page_limit - 1)) as [x Hx]; [lia|].
  pose proof (take_drop_middle _ _ _ Hx) as Hmid. replace (S (page_limit - 1)) with page_limit in Hmid by lia.
  assert (take page_limit rest = take (page_limit - 1) rest ++ [x]) as Htk.
  { replace page_limit with (S (page_limit - 1)) at 1 by lia. by apply take_S_r. }
  rewrite Htk, rev_app_distr. cbn [rev app lr_next_before_time lr_next_before_message_id].
  destruct (IH (seen ++ take page_limit rest) (drop page_limit rest) (m_created_at x) (m_message_id x)
    (set_ops (4 + w_ops w) w)) as [k Hk]; [done..| | | |].
  - by rewrite <- app_assoc, take_drop.
  - intros n. apply (next_page cid _ (seen ++ take (page_limit - 1) rest)); [done..|].
    cbn [w_db set_ops]. by rewrite Hh, <- app_assoc, Hmid.
  - rewrite length_drop. lia.
  - exists k. etrans; [apply run_bind|]. rewrite Hk. cbn [w_trace set_ops].
    assert (rev rest = rev (drop page_limit rest) ++ x :: rev (take (page_limit - 1) rest)) as ->.
    { rewrite <- (take_drop page_limit rest) at 1. by rewrite rev_app_distr, Htk, rev_app_distr. }
    by rewrite map_app.
Qed.

End Crawl.


(** Five messages in pages of two. *)
Definition chat_message (n : Z) : MessageRecord :=
  mkMessage (4096 + n) (ConversationId.single 7 9) (if Z.even n then 7 else 9) n
    (if Z.even n then 9 else 7) 0 1 "hi" MESSAGE_STATUS_SENT false 0 (1000 + n / 2) (1000 + n / 2).
Definition chat_db : Db :=
  set_conversations
    [mkConversation (ConversationId.single 7 9) TYPE_SINGLE 9 7 0 4100 "hi" 1002 2 false false false 1 1]
    (set_messages (map chat_message [3; 1; 5; 2; 4]) sample_db).

