(* ===== verification/Outbox.v ===== *)
(** * Publishing the outbox (common/outbox/OutboxWorker.cpp)

    The worker's round, and any number of workers running concurrently with
    each other and with the message service, stopped at any point: an event is
    marked published only after the broker has it, and none is lost. *)

From S2P Require Import Prelude Words Text MessageId Rpc Db MessageStore ConversationStore.
From S2P Require Import OutboxStore Directory DbLogic MessageService MessageSend Sample.
From S2P Require Import SendHistory MessageReceipts Progress.

Local Open Scope Z_scope.

Module OutboxWorker.

Record OutboxWorkerOptions := mkOptions {
  batch_size : nat;
  max_retry_count : Z;
  retry_backoff_ms : Z;
  claim_lease_ms : Z;
  dlq_topic : string
}.

Section Worker.
Context (E : Env) (options : OutboxWorkerOptions).

(** The body of the loop, once an event is claimed. *)
Definition process (event : OutboxEvent) : M unit :=
  ok ← produce E (e_topic event) (e_event_key event) (e_payload event);
  if (ok : bool) then markPublished E (e_event_id event) (e_claim_token event);; mret tt
  else
    let retry_count := e_retry_count event + 1 in
    if max_retry_count options <? retry_count then
      dlq_ok ← (if bool_decide (dlq_topic options = EmptyString) then mret false
                else produce E (dlq_topic options) (e_event_key event) (e_payload event));
      if (dlq_ok : bool) then markDead E (e_event_id event) (e_claim_token event);; mret tt
      else
        now ← nowMs E;
        markFailed E (e_event_id event) (e_claim_token event) (e_retry_count event)
          (now + retry_backoff_ms options * retry_count);; mret tt
    else
      now ← nowMs E;
      markFailed E (e_event_id event) (e_claim_token event) retry_count
        (now + retry_backoff_ms options * retry_count);; mret tt.

(** [processed] more rounds of the loop. *)
Fixpoint run_batch (n : nat) : M unit :=
  match n with
  | O => mret tt
  | S n =>
      now ← nowMs E;
      events ← claimPendingEvents E 1 now (claim_lease_ms options);
      match events with
      | [] => mret tt
      | event :: _ => process event;; run_batch n
      end
  end.

(** [no_deps]: the dao or the producer is null. *)
Definition runOnce (no_deps : bool) : M unit :=
  if no_deps then mret tt else run_batch (batch_size options).

End Worker.

(** ** A worker between two calls *)

(** Where a worker is in its round: what it has claimed and what it knows. *)
Inductive phase :=
| Idle
| Claimed (e : OutboxEvent)       (** claimed, about to publish *)
| Produced (e : OutboxEvent)      (** acknowledged by the broker *)
| Undelivered (e : OutboxEvent)   (** not acknowledged *)
| Buried (e : OutboxEvent)        (** acknowledged on the dead letter topic *)
| Unburied (e : OutboxEvent).     (** not even there *)

Section Step.
Context (E : Env) (options : OutboxWorkerOptions).

(** One call of the round. *)
Definition worker_step (p : phase) : M phase :=
  match p with
  | Idle =>
      now ← nowMs E;
      events ← claimPendingEvents E 1 now (claim_lease_ms options);
      mret (match events with [] => Idle | e :: _ => Claimed e end)
  | Claimed e =>
      ok ← produce E (e_topic e) (e_event_key e) (e_payload e);
      mret (if (ok : bool) then Produced e else Undelivered e)
  | Produced e => markPublished E (e_event_id e) (e_claim_token e);; mret Idle
  | Undelivered e =>
      if max_retry_count options <? e_retry_count e + 1 then
        ok ← (if bool_decide (dlq_topic options = EmptyString) then mret false
              else produce E (dlq_topic options) (e_event_key e) (e_payload e));
        mret (if (ok : bool) then Buried e else Unburied e)
      else
        now ← nowMs E;
        markFailed E (e_event_id e) (e_claim_token e) (e_retry_count e + 1)
          (now + retry_backoff_ms options * (e_retry_count e + 1));; mret Idle
  | Buried e => markDead E (e_event_id e) (e_claim_token e);; mret Idle
  | Unburied e =>
      now ← nowMs E;
      markFailed E (e_event_id e) (e_claim_token e) (e_retry_count e)
        (now + retry_backoff_ms options * (e_retry_count e + 1));; mret Idle
  end.

(** Several calls of one worker, undisturbed. *)
Inductive worker_run : phase -> world -> phase -> world -> Prop :=
| run_refl p w : worker_run p w p w
| run_step p w p1 w1 p2 w2 :
    worker_step p w = Some (p1, w1) -> worker_run p1 w1 p2 w2 -> worker_run p w p2 w2.

Lemma worker_run_trans p1 w1 p2 w2 p3 w3 :
  worker_run p1 w1 p2 w2 -> worker_run p2 w2 p3 w3 -> worker_run p1 w1 p3 w3.
Proof. induction 1; eauto using worker_run. Qed.

Lemma step_one p w p1 w1 : worker_step p w = Some (p1, w1) -> worker_run p w p1 w1.
Proof. eauto using worker_run. Qed.

(** The steps are those of the program: processing an event is a run of the
    worker from holding the event to being idle. *)
Lemma process_runs e w w' :
  process E options e w = Some (tt, w') -> worker_run (Claimed e) w Idle w'.
Proof.
  unfold process. intros (ok&w1&H1&H)%run_bind_Some.
  apply run_step with (p1 := if ok then Produced e else Undelivered e) (w1 := w1).
  { cbn [worker_step]. etrans; [apply run_bind|]. by rewrite H1. }
  destruct ok.
  { apply run_bind_Some in H as (b&w2&H2&H). munfold H. simplify_eq/=. apply step_one.
    cbn [worker_step]. etrans; [apply run_bind|]. by rewrite H2. }
  cbv zeta in H. destruct (max_retry_count options <? e_retry_count e + 1) eqn:Hr.
  - apply run_bind_Some in H as (d&w2&H2&H).
    apply run_step with (p1 := if d then Buried e else Unburied e) (w1 := w2).
    { cbn [worker_step]. rewrite Hr. etrans; [apply run_bind|]. by rewrite H2. }
    destruct d.
    + apply run_bind_Some in H as (b&w3&H3&H). munfold H. simplify_eq/=. apply step_one.
      cbn [worker_step]. etrans; [apply run_bind|]. by rewrite H3.
    + apply run_bind_Some in H as (now&w3&H3&H). apply run_bind_Some in H as (b&w4&H4&H).
      munfold H. simplify_eq/=. apply step_one. cbn [worker_step].
      etrans; [apply run_bind|]. rewrite H3. etrans; [apply run_bind|]. by rewrite H4.
  - apply run_bind_Some in H as (now&w3&H3&H). apply run_bind_Some in H as (b&w4&H4&H).
    munfold H. simplify_eq/=. apply step_one. cbn [worker_step]. rewrite Hr.
    etrans; [apply run_bind|]. rewrite H3. etrans; [apply run_bind|]. by rewrite H4.
Qed.

Lemma run_batch_runs n w w' : run_batch E options n w = Some (tt, w') -> worker_run Idle w Idle w'.
Proof.
  revert w. induction n as [|n IH]; intros w H; cbn [run_batch] in H.
  { munfold H. simplify_eq/=. constructor. }
  apply run_bind_Some in H as (now&w1&H1&H). apply run_bind_Some in H as (events&w2&H2&H).
  eapply run_step with (p1 := match events with [] => Idle | e :: _ => Claimed e end) (w1 := w2).
  { cbn [worker_step]. etrans; [apply run_bind|]. rewrite H1. etrans; [apply run_bind|]. by rewrite H2. }
  destruct events as [|e events]; [munfold H; simplify_eq/=; constructor|].
  apply run_bind_Some in H as ([]&w3&H3&H).
  eapply worker_run_trans; [by apply process_runs|by apply IH].
Qed.

End Step.

(** ** What the calls of a worker change *)

Section Silent_store.
Context (E : Env).

#[global] Instance silent_claim_all events until now token :
  Silent (claim_all E events until now token).
Proof. induction events; cbn [claim_all]; apply _. Qed.
#[global] Instance silent_claim limit now lease : Silent (claimPendingEvents E limit now lease).
Proof. unfold claimPendingEvents, tx_scope, rows. apply _. Qed.
#[global] Instance silent_update_affects stmt : Silent (update_affects (auto_update E stmt)).
Proof. unfold update_affects. apply _. Qed.

Lemma silent_mark (b : bool) stmt :
  Silent (with_conn E false
    (if b then mret false else now ← nowMs E; update_affects (auto_update E (stmt now)))).
Proof.
  apply silent_with_conn, silent_if; [apply _|]. apply silent_bind; [apply _|]. intros now.
  apply silent_update_affects.
Qed.

#[global] Instance silent_markPublished i t : Silent (markPublished E i t).
Proof. apply silent_mark. Qed.
#[global] Instance silent_markFailed i t r n : Silent (markFailed E i t r n).
Proof. apply (silent_mark _ (fun now => mark_event i t (mark_row FAILED r n now))). Qed.
#[global] Instance silent_markDead i t : Silent (markDead E i t).
Proof. apply silent_mark. Qed.

End Silent_store.

(** The tables after a mark or a claim. *)
Definition marked (event_id : Z) (token : string) (f : OutboxEvent -> OutboxEvent) (d : Db) : Db :=
  set_outbox_events (sql_update (claimed_by event_id token) f (outbox_events d)) d.

Definition claimed (event_id until now : Z) (token : string) (d : Db) : Db :=
  set_outbox_events
    (sql_update (fun e => e_event_id e =? event_id) (claim_row until now token) (outbox_events d)) d.

Section Runs.
Context (E : Env).

Lemma mark_run (b : bool) event_id token f w r w' :
  with_conn E false
    (if b then mret false
     else now ← nowMs E; update_affects (auto_update E (mark_event event_id token (f now)))) w
  = Some (r, w') ->
  w_tx w' = w_tx w /\
  (w_db w' = w_db w \/ exists now, w_db w' = marked event_id token (f now) (w_db w)).
Proof.
  unfold with_conn. intros (c&w1&H1&H)%run_bind_Some. destruct (quiet _ _ _ H1) as [Hd Ht].
  destruct c; [|munfold H; simplify_eq/=; auto]. destruct b; [munfold H; simplify_eq/=; auto|].
  apply run_bind_Some in H as (now&w2&H2&H). destruct (quiet _ _ _ H2) as [Hd2 Ht2].
  unfold update_affects in H. apply run_bind_Some in H as (n&w3&H3&H). munfold H. simplify_eq/=.
  apply auto_update_run in H3 as (Ht3&Hd3&_). split; [congruence|].
  rewrite Hd2, Hd in Hd3. destruct Hd3 as [?|[k Hk]]; [by left|right; exists now].
  unfold mark_event in Hk. by simplify_eq/=.
Qed.

(** A claim of one event: nothing changed, or the event that is due for
    longest is leased under a new token; only then may it be returned. *)
Lemma claim_run now lease w events w' :
  w_tx w = None -> claimPendingEvents E 1 now lease w = Some (events, w') ->
  w_tx w' = None /\
  ((events = [] /\ w_db w' = w_db w) \/
   (exists e token until, e ∈ select_due [PENDING; FAILED; PUBLISHING] now 1 (w_db w) /\
      until = now + (if 0 <? lease then lease else 30000) /\
      w_db w' = claimed (e_event_id e) until now token (w_db w) /\
      (events = [] \/ events = [set_claim_token token e]))).
Proof.
  intros Ht0. unfold claimPendingEvents, with_conn. intros (c&w1&H1&H)%run_bind_Some.
  destruct (quiet _ _ _ H1) as [Hd1 Ht1]. rewrite Ht0 in Ht1.
  destruct c; [|munfold H; simplify_eq/=; auto].
  apply tx_scope_run in H as (w2&H&Hd'&Ht'). split; [done|]. rewrite Hd'. clear Hd' Ht' w'.
  apply run_bind_Some in H as (active&w3&H3&H). apply tx_begin_run in H3 as [Hd3 Ht3].
  destruct active; cbn [negb] in H; [|munfold H; simplify_eq/=; left; split; congruence].
  apply run_bind_Some in H as (sel&w4&H4&H). destruct (quiet _ _ _ H4) as [Hd4 Ht4].
  assert (sel = select_due [PENDING; FAILED; PUBLISHING] now 1 (w_db w) \/ sel = []) as Hsel.
  { unfold rows, tx_query, call in H4. munfold H4. rewrite Ht3 in H4. simplify_eq/=.
    destruct (env_fault E (w_ops w3)); rewrite ?Hd1; auto. }
  apply run_bind_Some in H as (token&w5&H5&H). destruct (quiet _ _ _ H5) as [Hd5 Ht5].
  apply run_bind_Some in H as (cl&w6&H6&H).
  assert (w_db w5 = w_db w /\ w_tx w5 = Some (w_db w)) as [Hdb Htx] by (split; congruence).
  clear H1 H4 H5 Hd1 Ht1 Hd3 Ht3 Hd4 Ht4 Hd5 Ht5 Ht0.
  destruct sel as [|e sel].
  { cbn [claim_all] in H6. munfold H6. simplify_eq/=.
    apply run_bind_Some in H as (ok&w7&H7&H). munfold H. simplify_eq/=.
    left. destruct (tx_commit_run _ _ _ _ _ Htx H7) as [[-> _]|[_ [-> _]]]; by destruct ok. }
  assert (sel = []) as ->.
  { destruct Hsel as [Hsel|?]; [|done]. assert (length (e :: sel) <= 1)%nat as Hlen
      by (rewrite Hsel; unfold select_due; rewrite length_take; lia).
    destruct sel; [done|cbn in Hlen; lia]. }
  assert (e ∈ select_due [PENDING; FAILED; PUBLISHING] now 1 (w_db w)) as Hin
    by (destruct Hsel as [<-|?]; [left|done]).
  cbn [claim_all] in H6. apply run_bind_Some in H6 as (r&w7&H7&H6).
  destruct (tx_update_run _ _ _ _ _ _ H7 Htx) as [Hd7 Hr].
  destruct r as [n|]; [|munfold H6; simplify_eq/=; munfold H; simplify_eq/=; left; split; congruence].
  destruct Hr as (t&Hst&Ht7). unfold claim_event in Hst. injection Hst as Ht _.
  munfold H6. simplify_eq/=. apply run_bind_Some in H as (ok&w8&H8&H). munfold H. simplify_eq/=.
  destruct (tx_commit_run _ _ _ _ _ Ht7 H8) as [[Hd8 _]|[-> [Hd8 _]]]; [right|left; split; congruence].
  do 3 eexists. split_and!; [exact Hin|reflexivity|exact Hd8|]. destruct ok; auto.
Qed.

End Runs.

(** ** Workers and service on one database *)

(** A request appends at most one event: new, pending, never tried. *)
Definition announces (d d' : Db) : Prop :=
  outbox_events d' = outbox_events d \/
  exists e, fresh_event d (e_event_id e) /\ e_status e = PENDING /\ e_retry_count e = 0 /\
    outbox_events d' = (outbox_events d ++ [e])%list.

Lemma serve_announces E svc c w a w' :
  (forall i, 0 < env_clock E i) -> w_tx w = None -> serve E svc c w = Some (a, w') ->
  announces (w_db w) (w_db w').
Proof.
  intros Hclk Ht H. destruct c as [r|ctx req|ctx req|ctx req|ctx req|ctx req|ctx req|ctx req];
    cbn [serve] in H; apply run_bind_Some in H as (x&w1&H1&H); munfold H; simplify_eq/=.
  - destruct r as [ctx req|ctx req]; cbn [send] in H1.
    + apply single_outcome in H1 as (_&Ho&_); [|done..].
      destruct Ho as [->|m ->|mid now payload trace _ Hf ->]; [by left..|right].
      by exists (message_event mid (m_conversation_id (single_record req mid now))
                   (ms_topic_single svc) payload now trace).
    + apply group_outcome in H1 as (_&(members&_&Ho)&_); [|done..].
      destruct Ho as [->|m ->|mid now payload trace _ Hf ->]; [by left..|right].
      by exists (message_event mid (m_conversation_id (group_record req mid now))
                   (ms_topic_group svc) payload now trace).
  - destruct (quiet _ _ _ H1) as [-> _]. by left.
  - apply AckMessage_run in H1 as [_ H1]; [|done]. left.
    by destruct H1 as [[-> _]|(?&?&?&_&_&_&_&->)].
  - apply PullOfflineMessages_run in H1 as [_ H1]; [|done]. left.
    by destruct H1 as [[[-> _] _]|(off&_&[[_ ->]|[now ->]]&_)].
  - apply MarkMessageRead_run in H1 as [_ H1]; [|done]. left.
    by destruct H1 as [[-> _]|(?&?&_&_&_&->&_)].
  - apply MarkConversationRead_run in H1 as [_ H1]; [|done]. left.
    by destruct H1 as [[-> _]|(?&?&_&_&_&_&->&_)].
  - destruct (quiet _ _ _ H1) as [-> _]. by left.
  - apply RecallMessage_run in H1 as [_ H1]; [|done..].
    destruct H1 as [[[-> _] _]|(m&i&eid&pl&tr&_&_&Hf&->&_)]; [by left|right].
    by exists (recall_event svc eid m pl (env_clock E i) tr).
Qed.

(** The database and the broker, which the processes share, and where each
    worker is. *)
Record fleet := mkFleet {
  f_db : Db;
  f_kafka : list (string * string * string);
  f_workers : list phase
}.

Section Fleet.
Context (options : OutboxWorkerOptions) (svc : MessageServiceImpl).

(** One call of a worker, with whatever environment and local state; a worker
    stopped and started again; a request to the service, which has no
    producer. *)
Inductive fleet_step : fleet -> fleet -> Prop :=
| fleet_worker f i p E w p' w' :
    f_workers f !! i = Some p -> w_db w = f_db f -> w_kafka w = f_kafka f -> w_tx w = None ->
    worker_step E options p w = Some (p', w') ->
    fleet_step f (mkFleet (w_db w') (w_kafka w') (<[i := p']> (f_workers f)))
| fleet_restart f i :
    fleet_step f (mkFleet (f_db f) (f_kafka f) (<[i := Idle]> (f_workers f)))
| fleet_request f E w c a w' :
    (forall i, 0 < env_clock E i) -> w_db w = f_db f -> w_tx w = None ->
    serve E svc c w = Some (a, w') ->
    fleet_step f (mkFleet (w_db w') (f_kafka f) (f_workers f)).

Definition same_content (a b : OutboxEvent) : Prop :=
  e_event_id a = e_event_id b /\ e_topic a = e_topic b /\ e_event_key a = e_event_key b /\
  e_payload a = e_payload b.

Definition on_topic (kafka : list (string * string * string)) (e : OutboxEvent) : Prop :=
  (e_topic e, e_event_key e, e_payload e) ∈ kafka.
Definition on_dead_letters (kafka : list (string * string * string)) (e : OutboxEvent) : Prop :=
  (dlq_topic options, e_event_key e, e_payload e) ∈ kafka.

(** The most attempts recorded on a row. *)
Definition retry_bound : Z := Z.max 0 (max_retry_count options).

(** What a row's status stands for. *)
Definition row_ok (kafka : list (string * string * string)) (e : OutboxEvent) : Prop :=
  (e_status e = PUBLISHED -> on_topic kafka e) /\ (e_status e = DEAD -> on_dead_letters kafka e) /\
  e_status e ∈ [PENDING; PUBLISHED; FAILED; DEAD; PUBLISHING] /\ e_retry_count e <= retry_bound.

(** What a worker holds. *)
Definition held (p : phase) : option OutboxEvent :=
  match p with
  | Idle => None
  | Claimed e | Produced e | Undelivered e | Buried e | Unburied e => Some e
  end.

Definition worker_ok (d : Db) (kafka : list (string * string * string)) (p : phase) : Prop :=
  match held p with
  | None => True
  | Some e => e_retry_count e <= retry_bound /\
              exists r, r ∈ outbox_events d /\ same_content r e
  end /\
  match p with
  | Produced e => on_topic kafka e
  | Buried e => on_dead_letters kafka e
  | _ => True
  end.

Record fleet_ok (f : fleet) : Prop := {
  ok_ids : NoDup (map e_event_id (outbox_events (f_db f)));
  ok_rows : forall e, e ∈ outbox_events (f_db f) -> row_ok (f_kafka f) e;
  ok_workers : forall p, p ∈ f_workers f -> worker_ok (f_db f) (f_kafka f) p
}.

(** What may become of a row. *)
Definition terminal (e : OutboxEvent) : bool := (e_status e =? PUBLISHED) || (e_status e =? DEAD).
Definition event_step (e e' : OutboxEvent) : Prop :=
  same_content e e' /\ (terminal e = true -> e' = e).

#[global] Instance event_step_preorder : PreOrder event_step.
Proof.
  split; [intros e; by repeat split|]. intros e1 e2 e3 [(?&?&?&?) T1] [(?&?&?&?) T2].
  split; [unfold same_content; split_and!; congruence|]. intros Ht.
  rewrite (T1 Ht) in *. auto.
Qed.


Lemma ids_inj (t : list OutboxEvent) a b :
  NoDup (map e_event_id t) -> a ∈ t -> b ∈ t -> e_event_id a = e_event_id b -> a = b.
Proof.
  intros Hnd Ha Hb Heq. apply list_elem_of_lookup in Ha as [i Hi], Hb as [j Hj].
  assert (i = j) as <-; [|congruence].
  eapply NoDup_lookup; [exact Hnd| |]; rewrite list_lookup_fmap; [by rewrite Hi|by rewrite Hj, Heq].
Qed.

Lemma update_ids P g t :
  (forall e, e_event_id (g e) = e_event_id e) ->
  map e_event_id (sql_update P g t) = map e_event_id t.
Proof.
  intros Hg. unfold sql_update. rewrite map_map. apply map_ext. intros e. by destruct (P e).
Qed.

Lemma kafka_row_ok k k' e : (forall x, x ∈ k -> x ∈ k') -> row_ok k e -> row_ok k' e.
Proof. intros Hk (?&?&?&?). unfold row_ok, on_topic, on_dead_letters in *. by split_and!; auto. Qed.

Lemma kafka_worker_ok d k k' p : (forall x, x ∈ k -> x ∈ k') -> worker_ok d k p -> worker_ok d k' p.
Proof. intros Hk [? H2]. split; [done|]. destruct p; try done; by apply Hk. Qed.

(** Rows rewritten by [g], more on the broker, other workers as they were. *)
Lemma fleet_ok_update d k ws P g k' ws' :
  fleet_ok (mkFleet d k ws) -> (forall e, same_content (g e) e) -> (forall x, x ∈ k -> x ∈ k') ->
  (forall e, e ∈ outbox_events d -> P e = true -> row_ok k' (g e)) ->
  (forall p, p ∈ ws' -> worker_ok d k' p) ->
  fleet_ok (mkFleet (set_outbox_events (sql_update P g (outbox_events d)) d) k' ws').
Proof.
  intros [Hids Hrows _] Hg Hk HP Hw. split; cbn in *.
  - rewrite update_ids; [done|]. intros e. apply Hg.
  - intros e (e0&->&He0)%list_elem_of_fmap. destruct (P e0) eqn:HPe; [auto|].
    by eapply kafka_row_ok, Hrows.
  - intros p Hp. destruct (Hw p Hp) as [H1 H2]. split; [|done]. destruct (held p) as [e|]; [|done].
    destruct H1 as (Hb&r&Hr&Hc). split; [done|]. exists (if P r then g r else r). cbn. split.
    + apply list_elem_of_fmap. eauto.
    + destruct (P r); [|done]. destruct (Hg r) as (?&?&?&?), Hc as (?&?&?&?).
      unfold same_content. split_and!; congruence.
Qed.

Lemma fleet_ok_same d k ws k' ws' :
  fleet_ok (mkFleet d k ws) -> (forall x, x ∈ k -> x ∈ k') ->
  (forall p, p ∈ ws' -> worker_ok d k' p) -> fleet_ok (mkFleet d k' ws').
Proof.
  intros [Hids Hrows _] Hk Hw. split; cbn in *; [done| |done].
  intros e He. by eapply kafka_row_ok, Hrows.
Qed.

Lemma elem_of_insert_inv (ws : list phase) i p q : q ∈ <[i := p]> ws -> q = p \/ q ∈ ws.
Proof.
  intros [j Hj]%list_elem_of_lookup. apply list_lookup_insert_Some in Hj as [(_&?&_)|[_ ?]]; [by left|].
  right. by eapply list_elem_of_lookup_2.
Qed.

(** A worker that keeps its event or drops it. *)
Lemma workers_after d k k' (ws : list phase) (i : nat) p' :
  (forall p, p ∈ ws -> worker_ok d k p) -> (forall x, x ∈ k -> x ∈ k') -> worker_ok d k' p' ->
  forall p, p ∈ <[i := p']> ws -> worker_ok d k' p.
Proof. intros Hw Hk Hp p [->|H]%elem_of_insert_inv; [done|]. eapply kafka_worker_ok; eauto. Qed.

(** A mark by the worker that holds [e]. *)
Lemma fleet_ok_mark d k ws i e token f b tx E w (r : bool) w' :
  fleet_ok (mkFleet d k ws) -> (exists x, x ∈ outbox_events d /\ same_content x e) ->
  (forall n x, same_content (f n x) x) ->
  (forall n x, x ∈ outbox_events d -> same_content x e -> row_ok k (f n x)) ->
  w_db w = d -> w_kafka w = k ->
  with_conn E false
    (if b : bool then mret false
     else now ← nowMs E; update_affects (auto_update E (mark_event (e_event_id e) token (f now)))) w
  = Some (r, w') -> w_tx w = tx ->
  w_tx w' = tx /\ fleet_ok (mkFleet (w_db w') (w_kafka w') (<[i := Idle]> ws)).
Proof.
  intros Hok (x&Hx&Hxe) Hf Hrow Hd Hk H Ht.
  pose proof (silent_mark E b (fun now => mark_event (e_event_id e) token (f now)) _ _ _ H) as Hsil.
  apply mark_run in H as [Ht' Hcase]. split; [congruence|]. rewrite Hsil, Hk.
  assert (forall p, p ∈ <[i := Idle]> ws -> worker_ok d k p) as Hw.
  { apply (workers_after d k k); [apply (ok_workers _ Hok)|done|done]. }
  destruct Hcase as [->|[n ->]]; rewrite Hd.
  { by eapply fleet_ok_same. }
  eapply fleet_ok_update; [exact Hok|apply Hf|done| |done].
  intros y Hy Hclaim. apply Hrow; [done|].
  assert (y = x) as ->; [|done].
  apply (ids_inj _ _ _ (ok_ids _ Hok) Hy Hx). unfold claimed_by in Hclaim. bools.
  destruct Hxe as [? _]. cbn in *. congruence.
Qed.

Lemma select_due_elem statuses now limit d e :
  e ∈ select_due statuses now limit d ->
  e ∈ outbox_events d /\ e_status e ∈ statuses /\ e_next_retry_at e <= now.
Proof.
  unfold select_due. intros (j&Hj%list_elem_of_lookup_2&_)%elem_of_take. rewrite sort_by_perm in Hj.
  apply list_elem_of_filter in Hj as [Hdue Hin]. unfold due in Hdue. bools. split_and!; [done| |done].
  apply existsb_exists in H as (z&Hz&->%Z.eqb_eq). by apply list_elem_of_In.
Qed.

Lemma fleet_ok_produce d k ws i p E t key payload w (r : bool) w' :
  fleet_ok (mkFleet d k ws) -> w_db w = d -> w_kafka w = k ->
  produce E t key payload w = Some (r, w') ->
  (forall k', (forall x, x ∈ k -> x ∈ k') -> (r = true -> (t, key, payload) ∈ k') ->
     worker_ok d k' p) ->
  w_tx w' = w_tx w /\ fleet_ok (mkFleet (w_db w') (w_kafka w') (<[i := p]> ws)).
Proof.
  intros Hok Hd Hk H Hp. destruct (quiet _ _ _ H) as [Hd' Ht']. split; [done|]. rewrite Hd', Hd.
  assert ((forall x, x ∈ k -> x ∈ w_kafka w') /\ (r = true -> (t, key, payload) ∈ w_kafka w')) as [Hsub Hin].
  { unfold produce in H. cbv zeta in H.
    destruct (env_kafka E (w_ops w)); simplify_eq/=; split; try done; intros; set_solver. }
  eapply fleet_ok_same; [exact Hok|exact Hsub|].
  apply (workers_after d k); [apply (ok_workers _ Hok)|done|auto].
Qed.

Lemma claim_step_ok d k ws i now E w events w' :
  fleet_ok (mkFleet d k ws) -> w_db w = d -> w_kafka w = k -> w_tx w = None ->
  claimPendingEvents E 1 now (claim_lease_ms options) w = Some (events, w') ->
  fleet_ok (mkFleet (w_db w') (w_kafka w')
              (<[i := match events with [] => Idle | e :: _ => Claimed e end]> ws)).
Proof.
  intros Hok Hd Hk Ht H. pose proof (silent _ _ _ H) as ->. rewrite Hk.
  apply claim_run in H as [_ H]; [|done]. rewrite Hd in H.
  destruct H as [[-> ->]|(e&token&until&He&_&->&Hevs)].
  { eapply fleet_ok_same; [exact Hok|done|].
    apply (workers_after d k k); [apply (ok_workers _ Hok)|done|done]. }
  apply select_due_elem in He as (Hin&_&_). destruct (ok_rows _ Hok e Hin) as (_&_&_&Hb).
  eapply fleet_ok_update; [exact Hok|done|done| |].
  - intros x Hx _. destruct (ok_rows _ Hok x Hx) as (_&_&_&?).
    split_and!; [done|done| |done]. apply list_elem_of_In; cbn; auto 10.
  - apply (workers_after d k k); [apply (ok_workers _ Hok)|done|].
    destruct Hevs as [->| ->]; split; try done. cbn. split; [done|]. by exists e.
Qed.

Lemma published_step_ok d k ws i e E w (r : bool) w' :
  fleet_ok (mkFleet d k ws) -> (exists x, x ∈ outbox_events d /\ same_content x e) ->
  on_topic k e -> w_db w = d -> w_kafka w = k ->
  markPublished E (e_event_id e) (e_claim_token e) w = Some (r, w') ->
  fleet_ok (mkFleet (w_db w') (w_kafka w') (<[i := Idle]> ws)).
Proof.
  intros Hok Hx Hsent Hd Hk H.
  eapply (fleet_ok_mark d k ws i e _
    (fun n x => mark_row PUBLISHED (e_retry_count x) (e_next_retry_at x) n x));
    [done|done|done| |done|done|exact H|done].
  intros n x Hin (?&E2&E3&E4). destruct (ok_rows _ Hok x Hin) as (_&_&_&?).
  split_and!; [|done| |done]; cbn; [|apply list_elem_of_In; cbn; auto 10].
  intros _. unfold on_topic in *. cbn. by rewrite E2, E3, E4.
Qed.

Lemma dead_step_ok d k ws i e E w (r : bool) w' :
  fleet_ok (mkFleet d k ws) -> (exists x, x ∈ outbox_events d /\ same_content x e) ->
  on_dead_letters k e -> w_db w = d -> w_kafka w = k ->
  markDead E (e_event_id e) (e_claim_token e) w = Some (r, w') ->
  fleet_ok (mkFleet (w_db w') (w_kafka w') (<[i := Idle]> ws)).
Proof.
  intros Hok Hx Hsent Hd Hk H.
  eapply (fleet_ok_mark d k ws i e _
    (fun n x => mark_row DEAD (e_retry_count x) (e_next_retry_at x) n x));
    [done|done|done| |done|done|exact H|done].
  intros n x Hin (?&E2&E3&E4). destruct (ok_rows _ Hok x Hin) as (_&_&_&?).
  split_and!; [done| | |done]; cbn; [|apply list_elem_of_In; cbn; auto 10].
  intros _. unfold on_dead_letters in *. cbn. by rewrite E3, E4.
Qed.

Lemma failed_step_ok d k ws i e count at_ E w (r : bool) w' :
  fleet_ok (mkFleet d k ws) -> (exists x, x ∈ outbox_events d /\ same_content x e) ->
  count <= retry_bound -> w_db w = d -> w_kafka w = k ->
  markFailed E (e_event_id e) (e_claim_token e) count at_ w = Some (r, w') ->
  fleet_ok (mkFleet (w_db w') (w_kafka w') (<[i := Idle]> ws)).
Proof.
  intros Hok Hx Hc Hd Hk H.
  eapply (fleet_ok_mark d k ws i e _ (fun n => mark_row FAILED count at_ n));
    [done|done|done| |done|done|exact H|done].
  intros n x Hin _. split_and!; [done|done|cbn; apply list_elem_of_In; cbn; auto 10|done].
Qed.

Lemma worker_step_ok d k ws i p E w p' w' :
  fleet_ok (mkFleet d k ws) -> ws !! i = Some p -> w_db w = d -> w_kafka w = k -> w_tx w = None ->
  worker_step E options p w = Some (p', w') ->
  fleet_ok (mkFleet (w_db w') (w_kafka w') (<[i := p']> ws)).
Proof.
  intros Hok Hi Hd Hk Ht H.
  destruct (ok_workers _ Hok p (list_elem_of_lookup_2 _ _ _ Hi)) as [Hheld Hknow]. cbn in Hheld, Hknow.
  assert (forall p' : phase, worker_ok d k p' -> forall q, q ∈ <[i := p']> ws -> worker_ok d k q) as Hws
    by (intros; by eapply (workers_after d k k); [apply (ok_workers _ Hok)|..]).
  destruct p as [|e|e|e|e|e]; cbn [worker_step held] in *; [|destruct Hheld as [Hb Hrow]..].
  - apply run_bind_Some in H as (now&w1&H1&H). destruct (quiet _ _ _ H1) as [Hd1 Ht1].
    pose proof (silent _ _ _ H1) as Hk1. apply run_bind_Some in H as (evs&w2&H2&H).
    munfold H. injection H as <- <-. eapply (claim_step_ok d k ws i now E w1); [done|congruence..|exact H2].
  - apply run_bind_Some in H as (ok&w1&H1&H). munfold H. injection H as <- <-.
    eapply fleet_ok_produce; [done..|]. intros k' _ Hsent. destruct ok; split; try done; [by apply Hsent].
  - apply run_bind_Some in H as (b&w1&H1&H). munfold H. injection H as <- <-.
    by eapply published_step_ok.
  - destruct (max_retry_count options <? e_retry_count e + 1) eqn:Hr.
    + apply run_bind_Some in H as (ok&w1&H1&H). munfold H. injection H as <- <-. case_bool_decide.
      * munfold H1. injection H1 as <- <-. rewrite Hd, Hk.
        eapply fleet_ok_same; [exact Hok|done|]. by apply Hws.
      * eapply fleet_ok_produce; [done..|]. intros k' _ Hsent. destruct ok; split; try done; [by apply Hsent].
    + apply run_bind_Some in H as (now&w1&H1&H). destruct (quiet _ _ _ H1) as [Hd1 _].
      pose proof (silent _ _ _ H1) as Hk1.
      apply run_bind_Some in H as (b&w2&H2&H). munfold H. injection H as <- <-.
      eapply (failed_step_ok d k ws i e _ _ _ w1); [done|done| |congruence|congruence|exact H2].
      unfold retry_bound. bools. lia.
  - apply run_bind_Some in H as (b&w1&H1&H). munfold H. injection H as <- <-.
    by eapply dead_step_ok.
  - apply run_bind_Some in H as (now&w1&H1&H). destruct (quiet _ _ _ H1) as [Hd1 _].
    pose proof (silent _ _ _ H1) as Hk1.
    apply run_bind_Some in H as (b&w2&H2&H). munfold H. injection H as <- <-.
    eapply (failed_step_ok d k ws i e _ _ _ w1); [done|done|done|congruence|congruence|exact H2].
Qed.

(** ** Nothing is lost *)

Lemma grows_marked event_id token f d :
  (forall e, same_content e (f e)) ->
  grows event_step (outbox_events d) (outbox_events (marked event_id token f d)).
Proof.
  intros Hf. apply grows_update; [apply _|]. intros e _ He. split; [done|].
  unfold claimed_by in He. bools. unfold terminal. by rewrite H1.
Qed.

Lemma grows_claimed d e until now token :
  NoDup (map e_event_id (outbox_events d)) ->
  e ∈ select_due [PENDING; FAILED; PUBLISHING] now 1 d ->
  grows event_step (outbox_events d) (outbox_events (claimed (e_event_id e) until now token d)).
Proof.
  intros Hids (Hin&Hst&_)%select_due_elem. apply grows_update; [apply _|].
  intros x Hx Heq%Z.eqb_eq. split; [done|]. rewrite (ids_inj _ _ _ Hids Hx Hin Heq).
  unfold terminal. rewrite !elem_of_cons in Hst.
  by destruct Hst as [->|[->|[->|[]%not_elem_of_nil]]].
Qed.

Lemma mark_grows d k ws (b : bool) e token f E w (r : bool) w' :
  fleet_ok (mkFleet d k ws) -> w_db w = d -> (forall n x, same_content x (f n x)) ->
  with_conn E false
    (if b then mret false
     else now ← nowMs E; update_affects (auto_update E (mark_event (e_event_id e) token (f now)))) w
  = Some (r, w') -> grows event_step (outbox_events d) (outbox_events (w_db w')).
Proof.
  intros Hok Hd Hf H. apply mark_run in H as [_ [->|[n ->]]]; rewrite Hd; [done|].
  by apply grows_marked.
Qed.

Lemma worker_step_grows d k ws p E w p' w' :
  fleet_ok (mkFleet d k ws) -> w_db w = d -> w_tx w = None ->
  worker_step E options p w = Some (p', w') ->
  grows event_step (outbox_events d) (outbox_events (w_db w')).
Proof.
  intros Hok Hd Ht H. destruct p as [|e|e|e|e|e]; cbn [worker_step] in H.
  - apply run_bind_Some in H as (now&w1&H1&H). destruct (quiet _ _ _ H1) as [Hd1 Ht1].
    apply run_bind_Some in H as (evs&w2&H2&H). munfold H. injection H as <- <-.
    apply claim_run in H2 as [_ H2]; [|congruence]. rewrite Hd1, Hd in H2.
    destruct H2 as [[_ ->]|(e&token&until&He&_&->&_)]; [done|].
    apply grows_claimed; [apply (ok_ids _ Hok)|done].
  - apply run_bind_Some in H as (ok&w1&H1&H). munfold H. injection H as <- <-.
    destruct (quiet _ _ _ H1) as [-> _]. by rewrite Hd.
  - apply run_bind_Some in H as (b&w1&H1&H). munfold H. injection H as <- <-.
    eapply (mark_grows d k ws _ e _ (fun n x =>
      mark_row PUBLISHED (e_retry_count x) (e_next_retry_at x) n x)); [done..|exact H1].
  - destruct (_ <? _).
    + apply run_bind_Some in H as (ok&w1&H1&H). munfold H. injection H as <- <-.
      assert (same_store w w1) as [-> _] by (case_bool_decide; exact (quiet _ _ _ H1)). by rewrite Hd.
    + apply run_bind_Some in H as (now&w1&H1&H). destruct (quiet _ _ _ H1) as [Hd1 _].
      apply run_bind_Some in H as (b&w2&H2&H). munfold H. injection H as <- <-.
      eapply (mark_grows d k ws _ e _ (fun n => mark_row FAILED _ _ n) _ w1);
        [done|congruence|done|exact H2].
  - apply run_bind_Some in H as (b&w1&H1&H). munfold H. injection H as <- <-.
    eapply (mark_grows d k ws _ e _ (fun n x =>
      mark_row DEAD (e_retry_count x) (e_next_retry_at x) n x)); [done..|exact H1].
  - apply run_bind_Some in H as (now&w1&H1&H). destruct (quiet _ _ _ H1) as [Hd1 _].
    apply run_bind_Some in H as (b&w2&H2&H). munfold H. injection H as <- <-.
    eapply (mark_grows d k ws _ e _ (fun n => mark_row FAILED _ _ n) _ w1);
      [done|congruence|done|exact H2].
Qed.

Lemma fleet_ok_append d k ws d' :
  fleet_ok (mkFleet d k ws) -> announces d d' -> fleet_ok (mkFleet d' k ws).
Proof.
  intros [Hids Hrows Hws] Ha. unfold fresh_event in Ha. destruct Ha as [Heq|(e&Hf&Hs&Hr&Heq)].
  - split; cbn in *; [by rewrite Heq..|]. intros p Hp. unfold worker_ok. rewrite Heq. by apply Hws.
  - split; cbn in *; rewrite ?Heq.
    + rewrite map_app. apply NoDup_app. split_and!; [done| |apply NoDup_singleton].
      intros i Hi ->%list_elem_of_singleton. apply list_elem_of_fmap in Hi as (x&Hx&Hin).
      by apply (Hf x).
    + intros x [Hx| ->%list_elem_of_singleton]%elem_of_app; [auto|].
      split_and!; rewrite ?Hs; [done|done|left|]. rewrite Hr. unfold retry_bound. lia.
    + intros p Hp. destruct (Hws p Hp) as [H1 H2]. split; [|done].
      destruct (held p) as [x|]; [|done]. destruct H1 as (?&y&Hy&Hc). split; [done|].
      exists y. split; [|done]. rewrite Heq. apply elem_of_app. by left.
Qed.

Lemma fleet_step_ok f f' :
  fleet_step f f' -> fleet_ok f ->
  fleet_ok f' /\ grows event_step (outbox_events (f_db f)) (outbox_events (f_db f')).
Proof.
  intros Hst Hok. destruct f as [d k ws].
  inversion Hst as [? i p E w p' w' Hi Hd Hk Ht Hw|? i|? E w c a w' Hclk Hd Ht Hs]; subst; cbn in *; subst.
  - split; [by eapply worker_step_ok|]. eapply worker_step_grows; [exact Hok|done|done|exact Hw].
  - split; [|done]. eapply fleet_ok_same; [exact Hok|done|].
    apply (workers_after d k k); [apply (ok_workers _ Hok)|done|done].
  - apply serve_announces in Hs; [|done..]. split; [eapply fleet_ok_append; [exact Hok|exact Hs]|].
    destruct Hs as [->|(e&_&_&_&->)]; [done|]. apply grows_app, _.
Qed.

Lemma fleet_run_ok f f' :
  rtc fleet_step f f' -> fleet_ok f ->
  fleet_ok f' /\ grows event_step (outbox_events (f_db f)) (outbox_events (f_db f')).
Proof.
  induction 1 as [f|f f1 f2 Hst _ IH]; intros Hok; [done|].
  destruct (fleet_step_ok _ _ Hst Hok) as [Hok1 Hg]. destruct (IH Hok1). split; [done|]. by etrans.
Qed.

End Fleet.

(** ** Everything due is published *)

Section Drain.
Context (E : Env) (options : OutboxWorkerOptions).
Hypothesis healthy_db : forall i, env_fault E i = Done.
Hypothesis healthy_kafka : forall i, env_kafka E i = Done.
Hypothesis tokens : forall i, env_trace E i <> EmptyString.

Lemma claim_healthy now w :
  w_tx w = None ->
  exists w', w_tx w' = None /\ w_clk w' = w_clk w /\
  match select_due [PENDING; FAILED; PUBLISHING] now 1 (w_db w) with
  | [] => claimPendingEvents E 1 now (claim_lease_ms options) w = Some ([], w') /\
          w_db w' = w_db w
  | e :: _ => exists until,
      claimPendingEvents E 1 now (claim_lease_ms options) w =
        Some ([set_claim_token (env_trace E (w_traces w)) e], w') /\
      w_db w' = claimed (e_event_id e) until now (env_trace E (w_traces w)) (w_db w)
  end.
Proof.
  intros Ht.
  assert (length (select_due [PENDING; FAILED; PUBLISHING] now 1 (w_db w)) <= 1)%nat as Hlen
    by (unfold select_due; rewrite length_take; lia).
  destruct (select_due [PENDING; FAILED; PUBLISHING] now 1 (w_db w)) as [|e [|e2 l]] eqn:Hs;
    [| |cbn in Hlen; lia].
  - eexists. split; [|split; [|split]]; cycle 2.
    + unfold claimPendingEvents. rewrite with_conn_healthy by done. apply tx_scope_closed; [|].
      * eapply run_step_to; [by apply tx_begin_healthy|]. cbn [negb].
        eapply run_step_to.
        { unfold rows. eapply run_step_to; [by eapply tx_query_healthy|]. cbn [w_db after_calls set_ops].
          rewrite Hs. reflexivity. }
        eapply run_step_to; [reflexivity|]. eapply run_step_to; [reflexivity|]. cbn.
        eapply run_step_to; [by eapply tx_commit_healthy|reflexivity].
      * done.
    + done.
    + done.
    + done.
  - eexists. split; [|split; [|eexists; split]]; cycle 2.
    + unfold claimPendingEvents. rewrite with_conn_healthy by done. apply tx_scope_closed; [|].
      * eapply run_step_to; [by apply tx_begin_healthy|]. cbn [negb].
        eapply run_step_to.
        { unfold rows. eapply run_step_to; [by eapply tx_query_healthy|]. cbn [w_db after_calls set_ops].
          rewrite Hs. reflexivity. }
        eapply run_step_to; [reflexivity|]. eapply run_step_to.
        { cbn [claim_all default]. eapply run_step_to; [by eapply tx_update_healthy|]. reflexivity. }
        eapply run_step_to; [by eapply tx_commit_healthy|reflexivity].
      * done.
    + done.
    + done.
    + done.
Qed.

Lemma process_healthy e w :
  e_claim_token e <> EmptyString ->
  exists w', process E options e w = Some (tt, w') /\ w_tx w' = w_tx w /\ (w_clk w <= w_clk w')%nat /\
    exists n, w_db w' = marked (e_event_id e) (e_claim_token e)
      (fun x => mark_row PUBLISHED (e_retry_count x) (e_next_retry_at x) n x) (w_db w).
Proof.
  intros Hne. unfold process, markPublished, produce, with_conn, acquire, nowMs, update_affects,
    auto_update, call, mbind, SM_bind, mret, SM_ret, get_state, modify.
  rewrite healthy_kafka. cbn. rewrite !healthy_db. cbn. rewrite bool_decide_false by done.
  rewrite !healthy_db. cbn. eexists. split_and!; [reflexivity|done|cbn; lia|]. by eexists.
Qed.

(** The events still to be published. *)
Definition is_open (e : OutboxEvent) : bool :=
  existsb (Z.eqb (e_status e)) [PENDING; FAILED; PUBLISHING].
Definition open_events (d : Db) : list OutboxEvent := sql_select is_open (outbox_events d).

Lemma select_map_le (h : OutboxEvent -> OutboxEvent) l :
  (forall e, is_open (h e) = true -> is_open e = true) ->
  (length (sql_select is_open (map h l)) <= length (sql_select is_open l))%nat.
Proof.
  intros Hh. unfold sql_select. induction l as [|e l IH]; [done|]. cbn [map]. rewrite !filter_cons.
  specialize (Hh e). repeat case_decide; cbn [length]; [lia| |lia|lia]. by destruct H0; auto.
Qed.

Lemma select_map_lt (h : OutboxEvent -> OutboxEvent) l e :
  (forall e, is_open (h e) = true -> is_open e = true) -> e ∈ l -> is_open e = true ->
  is_open (h e) = false ->
  (length (sql_select is_open (map h l)) < length (sql_select is_open l))%nat.
Proof.
  intros Hh He Ho Hc. apply list_elem_of_split in He as (l1&l2&->).
  rewrite map_app. cbn [map]. unfold sql_select. rewrite !filter_app.
  rewrite (filter_cons_False _ (h e)), (filter_cons_True _ e) by (try done; by rewrite Hc).
  rewrite !length_app. cbn [length]. pose proof (select_map_le h l1 Hh). pose proof (select_map_le h l2 Hh).
  unfold sql_select in *. lia.
Qed.

(** Claiming and publishing one event, as one rewriting of the rows. *)
Lemma publish_rows event_id until now token f d :
  outbox_events (marked event_id token f (claimed event_id until now token d)) =
  map (fun e => if e_event_id e =? event_id then f (claim_row until now token e) else e)
    (outbox_events d).
Proof.
  unfold marked, claimed. cbn. unfold sql_update. rewrite map_map. apply map_ext. intros e.
  unfold claimed_by. destruct (e_event_id e =? event_id) eqn:Hid; cbn; rewrite Hid; [|done].
  by rewrite bool_decide_true.
Qed.

Lemma due_is_open now e d :
  e ∈ select_due [PENDING; FAILED; PUBLISHING] now 1 d -> e ∈ outbox_events d /\ is_open e = true.
Proof.
  intros (Hin&Hst&_)%select_due_elem. split; [done|]. apply existsb_exists. exists (e_status e).
  split; [by apply list_elem_of_In|apply Z.eqb_refl].
Qed.

Lemma none_due statuses now d e :
  select_due statuses now 1 d = [] -> e ∈ outbox_events d -> due statuses now e = false.
Proof.
  unfold select_due. intros Hnil He. apply not_true_iff_false. intros Hdue.
  assert (e ∈ sort_by older_first (sql_select (due statuses now) (outbox_events d))) as Hin.
  { rewrite sort_by_perm. by apply list_elem_of_filter. }
  destruct (sort_by _ _); [by apply not_elem_of_nil in Hin|done].
Qed.

Lemma drain_batch n w :
  (forall i j, (i <= j)%nat -> env_clock E i <= env_clock E j) -> w_tx w = None ->
  (length (open_events (w_db w)) <= n)%nat ->
  exists w', run_batch E options n w = Some (tt, w') /\
    forall e, e ∈ open_events (w_db w') -> env_clock E (w_clk w) < e_next_retry_at e.
Proof.
  intros Hmono. revert w. induction n as [|n IH]; intros w Ht Hlen; cbn [run_batch].
  { exists w. split; [done|]. intros e He. destruct (open_events (w_db w)); [|cbn in Hlen; lia].
    by apply not_elem_of_nil in He. }
  set (now := env_clock E (w_clk w)). set (w1 := set_clk (S (w_clk w)) w).
  assert (nowMs E w = Some (now, w1)) as Hnow by done.
  destruct (claim_healthy now w1 Ht) as (w2&Ht2&Hc2&Hcl).
  destruct (select_due _ now 1 (w_db w1)) as [|e rest] eqn:Hs.
  - destruct Hcl as [Hcl Hd2]. exists w2. split.
    { eapply run_step_to; [exact Hnow|]. eapply run_step_to; [exact Hcl|done]. }
    rewrite Hd2. intros e [Ho He]%list_elem_of_filter. pose proof (none_due _ _ _ _ Hs He) as Hdue.
    unfold due in Hdue. unfold is_open in Ho. rewrite Ho in Hdue. cbn [andb] in Hdue. by bools.
  - destruct Hcl as (until&Hcl&Hd2). set (token := env_trace E (w_traces w1)) in *.
    destruct (process_healthy (set_claim_token token e) w2) as (w3&Hpr&Ht3&Hc3&k&Hd3); [apply tokens|].
    assert (e ∈ outbox_events (w_db w) /\ is_open e = true) as [He Ho].
    { apply (due_is_open now). change (w_db w) with (w_db w1). rewrite Hs. left. }
    destruct (IH w3) as (w4&Hrun&Hlate); [congruence| |].
    { apply Nat.lt_succ_r. eapply Nat.lt_le_trans; [|exact Hlen]. unfold open_events.
      rewrite Hd3, Hd2. cbn [set_claim_token e_event_id e_claim_token]. rewrite publish_rows.
      apply (select_map_lt _ _ e); [|done|done|by rewrite Z.eqb_refl].
      intros x. by destruct (e_event_id x =? e_event_id e). }
    exists w4. split.
    { eapply run_step_to; [exact Hnow|]. eapply run_step_to; [exact Hcl|]. cbv beta iota.
      by eapply run_step_to; [exact Hpr|]. }
    intros x Hx. eapply Z.le_lt_trans; [|by apply Hlate]. apply Hmono. rewrite Hc2 in Hc3. cbn in Hc3. lia.
Qed.

End Drain.
End OutboxWorker.
Export OutboxWorker.

(** ** Claims *)

(** C4: The outbox loses nothing and claims nothing too early.  Any number of
    workers, restarted at any time, run concurrently with each other and with
    the message service, the database and the broker failing at any call: an
    event is marked published only if the broker has it on its topic, and dead
    only if it has it on the dead letter topic; every event ever written stays
    with its content; one marked published or dead never changes again; and no
    row records more attempts than the configured maximum. *)
Theorem outbox_safe options svc f f'
    (Hok : fleet_ok options f) (Hrun : rtc (fleet_step options svc) f f') :
  fleet_ok options f' /\ grows event_step (outbox_events (f_db f)) (outbox_events (f_db f')).
Proof. by eapply fleet_run_ok. Qed.

Definition sample_options : OutboxWorkerOptions := mkOptions 100 5 1000 30000 "im.dlq".

(** One event waits. *)
Definition waiting_db : Db :=
  set_outbox_events [message_event 4096 77 "im.single" "hello" 1735689700001 ""] sample_db.

Definition worker_world (d : Db) (kafka : list (string * string * string)) : world :=
  set_kafka kafka (world_of d).

(** A worker claims the event and publishes it; before it can say so it is
    restarted and does it again once the lease is over. *)
Definition late_env : Env :=
  mkEnv healthy (fun i => 1735689900000 + Z.of_nat i) 10
    (fun i => "00000000000000000000000000000002"%string) (fun s => s) (fun _ _ => None)
    (fun _ => true) (fun _ => Done).

Definition fleet_after (E : Env) (f : fleet) (i : nat) : fleet :=
  match f_workers f !! i with
  | Some p =>
      match worker_step E sample_options p (worker_world (f_db f) (f_kafka f)) with
      | Some (p', w') => mkFleet (w_db w') (w_kafka w') (<[i := p']> (f_workers f))
      | None => f
      end
  | None => f
  end.

Lemma fleet_after_step E f i :
  match f_workers f !! i with
  | Some p => is_some (worker_step E sample_options p (worker_world (f_db f) (f_kafka f)))
  | None => false
  end = true ->
  fleet_step sample_options sample_service f (fleet_after E f i).
Proof.
  unfold fleet_after. destruct (f_workers f !! i) as [p|] eqn:Hp; [|done].
  destruct (worker_step _ _ _ _) as [[p' w']|] eqn:Hs; [|done]. intros _.
  eapply fleet_worker; [exact Hp| | | |exact Hs]; done.
Qed.

Lemma outbox_safe_witness :
  let f0 := mkFleet waiting_db [] [Idle] in
  let f1 := fleet_after (sample_env healthy) (fleet_after (sample_env healthy) f0 0) 0 in
  let f2 := mkFleet (f_db f1) (f_kafka f1) [Idle] in
  let f3 := fleet_after late_env (fleet_after late_env (fleet_after late_env f2 0) 0) 0 in
  map e_status (outbox_events (f_db f2)) = [PUBLISHING] /\
  map e_status (outbox_events (f_db f3)) = [PUBLISHED] /\ length (f_kafka f3) = 2%nat /\
  fleet_ok sample_options f3.
Proof.
  cbv zeta. split_and!; [by vm_compute..|].
  match goal with |- fleet_ok _ ?f => apply (outbox_safe sample_options sample_service
    (mkFleet waiting_db [] [Idle]) f) end.
  - split; [repeat constructor; set_solver| |].
    + intros e He%list_elem_of_singleton. subst e. split_and!; [done|done|left|]. unfold retry_bound. cbn. lia.
    + intros p Hp%list_elem_of_singleton. by subst p.
  - eapply rtc_l; [apply (fleet_after_step (sample_env healthy) _ 0); by vm_compute|].
    eapply rtc_l; [apply (fleet_after_step (sample_env healthy) _ 0); by vm_compute|].
    eapply rtc_l; [apply (fleet_restart _ _ _ 0)|].
    eapply rtc_l; [apply (fleet_after_step late_env _ 0); by vm_compute|].
    eapply rtc_l; [apply (fleet_after_step late_env _ 0); by vm_compute|].
    eapply rtc_l; [apply (fleet_after_step late_env _ 0); by vm_compute|].
    apply rtc_refl.
Defined.



(** A leased event is not handed out twice: while the lease of a claim
    that succeeded lasts, no claim on the tables it left, by whichever worker,
    returns the same event. *)
Theorem lease_is_exclusive E1 E2 now1 now2 lease w1 e w1' w2 events w2'
    (Hidle1 : w_tx w1 = None) (Hidle2 : w_tx w2 = None)
    (Hclaim1 : claimPendingEvents E1 1 now1 lease w1 = Some ([e], w1'))
    (Hdb : w_db w2 = w_db w1')
    (Hclaim2 : claimPendingEvents E2 1 now2 lease w2 = Some (events, w2'))
    (Hlease : 0 < lease) (Hin_lease : now2 < now1 + lease) :
  forall e2, e2 ∈ events -> e_event_id e2 <> e_event_id e.
Proof.
  apply claim_run in Hclaim1 as [_ H1]; [|done].
  destruct H1 as [[? _]|(e0&token&until&_&Hu&Hw1'&[?|[= ->]])]; [done..|].
  rewrite (proj2 (Z.ltb_lt _ _) Hlease) in Hu.
  intros e2 He2 Heq. apply claim_run in Hclaim2 as [_ H2]; [|done].
  destruct H2 as [[-> _]|(x&tok&until2&Hx&_&_&[->| ->])];
    [by apply not_elem_of_nil in He2|by apply not_elem_of_nil in He2|].
  apply list_elem_of_singleton in He2 as ->. cbn in Heq.
  apply select_due_elem in Hx as (Hx&_&Hdue). rewrite Hdb, Hw1' in Hx.
  unfold claimed, sql_update in Hx. cbn in Hx. apply list_elem_of_fmap in Hx as (y&->&Hy).
  destruct (e_event_id y =? e_event_id e0) eqn:Hid; cbn in *; [lia|]. bools. congruence.
Qed.

Lemma lease_is_exclusive_witness :
  answer_of (claimPendingEvents (sample_env healthy) 1 1735689700005 30000 (world_of waiting_db))
    (fun events w1 => length events = 1%nat /\
      answer_of (claimPendingEvents late_env 1 1735689730004 30000 (world_of (w_db w1)))
        (fun events2 _ => forall e2, e2 ∈ events2 -> e_event_id e2 <> 4096)).
Proof.
  destruct (claimPendingEvents (sample_env healthy) _ _ _ _) as [[events w1]|] eqn:H1;
    [|vm_compute in H1; discriminate H1].
  cbn [answer_of].
  destruct (claimPendingEvents late_env _ _ _ _) as [[events2 w2]|] eqn:H2.
  2:{ vm_compute in H1. injection H1 as <- <-. vm_compute in H2. discriminate H2. }
  cbn [answer_of].
  assert (exists e, events = [e] /\ e_event_id e = 4096) as (e&->&<-).
  { vm_compute in H1. injection H1 as <- <-. eexists. split; [reflexivity|done]. }
  split; [done|].
  apply (lease_is_exclusive _ _ _ _ _ (world_of waiting_db) e w1 (world_of (w_db w1)) events2 w2
    eq_refl eq_refl H1 eq_refl H2); lia.
Defined.
