(* ===== verification/RelationService.v ===== *)
(** * Friend requests, friendships and groups

    common/dao/FriendRequestDao.cpp and
    relation_service/src/RelationServiceImpl.cpp.  The LIKE of MySQL is an
    argument of [SearchGroups]. *)

From S2P Require Import Prelude Words Text MessageId Rpc Db MessageStore Directory MessageService.

Local Open Scope Z_scope.

Module FriendRequestDao.

Definition FR_PENDING : Z := 0.
Definition FR_ACCEPTED : Z := 1.
Definition FR_REJECTED : Z := 2.

(** Rows that clash under uk_pending_friend_request: the two users of a
    pending request, in either order. *)
Definition pending_between (a b : Z) (r : FriendRequest) : bool :=
  (fr_status r =? FR_PENDING) &&
  (((fr_from_user_id r =? a) && (fr_to_user_id r =? b)) ||
   ((fr_from_user_id r =? b) && (fr_to_user_id r =? a))).

(** INSERT INTO friend_requests: the result is the new id. *)
Definition insert_request (from to : Z) (message : string) (status created_at updated_at : Z) (d : Db)
  : option (Db * Z) :=
  if (status =? FR_PENDING) && existsb (pending_between from to) (friend_requests d) then None
  else
    let id := next_request_id d in
    Some (set_counters (next_user_id d) (next_group_id d) (id + 1)
            (set_friend_requests
               (friend_requests d ++ [mkFriendRequest id from to message status created_at updated_at]) d),
          id).

Definition set_request_status (status now : Z) (r : FriendRequest) : FriendRequest :=
  mkFriendRequest (fr_id r) (fr_from_user_id r) (fr_to_user_id r) (fr_message r) status
    (fr_created_at r) now.

(** UPDATE friend_requests SET status=? WHERE id=? AND status=?; no row becomes
    pending this way in the program. *)
Definition update_request (id from_status to_status now : Z) (d : Db) : option (Db * Z) :=
  let P r := (fr_id r =? id) && (fr_status r =? from_status) in
  Some (set_friend_requests (sql_update P (set_request_status to_status now) (friend_requests d)) d,
        sql_affected P (set_request_status to_status now) (friend_requests d)).

Definition newest_request_first (a b : FriendRequest) : bool := fr_created_at b <=? fr_created_at a.

Section Dao.
Context (E : Env).

(** The id of the new row; [None] when the call returns false. *)
Definition createRequest (from to : Z) (message : string) (status created_at updated_at : Z)
  : M (option Z) :=
  with_conn E None
    (now ← (if 0 <? created_at then mret created_at else nowMs E);
     r ← auto_update E (insert_request from to message status now
                          (if 0 <? updated_at then updated_at else now));
     mret (id ← r; if id =? 0 then None else Some id)).

Definition hasPendingBetween (a b : Z) : M bool :=
  with_conn E false
    (r ← row (auto_query E (fun d => sql_first (pending_between a b) (friend_requests d)));
     mret (is_some r)).

Definition getByRequestId (id : Z) : M (option FriendRequest) :=
  with_conn E None
    (row (auto_query E (fun d => sql_first (fun r => fr_id r =? id) (friend_requests d)))).

Definition updateStatus_conn (id from_status to_status : Z) : M bool :=
  now ← nowMs E; update_affects (tx_update E (update_request id from_status to_status now)).

Definition updateStatus (id from_status to_status : Z) : M bool :=
  with_conn E false
    (now ← nowMs E; update_affects (auto_update E (update_request id from_status to_status now))).

Definition acceptRequestWithFriendship (id : Z) : M bool :=
  with_conn E false
    (request ← row (auto_query E (fun d => sql_first (fun r => fr_id r =? id) (friend_requests d)));
     match request with
     | None => mret false
     | Some request =>
         if negb (fr_status request =? FR_PENDING) then mret false
         else tx_scope E
           (active ← tx_begin E;
            if negb active then mret false
            else
              ok ← updateStatus_conn id FR_PENDING FR_ACCEPTED;
              if negb ok then mret false
              else
                ok ← addFriendBidirectional_conn E (fr_from_user_id request) (fr_to_user_id request);
                if negb ok then mret false else tx_commit E)
     end).

Definition listReceived (user_id status : Z) (limit : nat) : M (list FriendRequest) :=
  with_conn E []
    (rows (auto_query E (fun d =>
       take limit (sort_by newest_request_first
         (sql_select (fun r => (fr_to_user_id r =? user_id) &&
                               (if 0 <=? status then fr_status r =? status else true))
            (friend_requests d)))))).

Definition listSent (user_id status : Z) (limit : nat) : M (list FriendRequest) :=
  with_conn E []
    (rows (auto_query E (fun d =>
       take limit (sort_by newest_request_first
         (sql_select (fun r => (fr_from_user_id r =? user_id) &&
                               (if 0 <=? status then fr_status r =? status else true))
            (friend_requests d)))))).

End Dao.
End FriendRequestDao.
Export FriendRequestDao.

(** ** Requests and answers *)

(** [RelationServiceImpl]: which dependencies are null, and the caller check. *)
Record RelationServiceImpl := mkRelationService {
  rl_auth : InternalRpcAuth;
  rl_sha256Hex : string -> string;
  rl_no_users : bool;
  rl_no_relations : bool;
  rl_no_groups : bool;
  rl_no_requests : bool
}.

(** [DeleteFriendRequest]. *)
Record PairRequest := mkPairRequest {
  pq_request_id : string; pq_user_id : Z; pq_friend_id : Z
}.

Record SendFriendRequestRequest := mkSendFriendRequest {
  sf_request_id : string; sf_from_user_id : Z; sf_to_user_id : Z; sf_message : string
}.

(** [AcceptFriendRequestRequest] and [RejectFriendRequestRequest]. *)
Record HandleRequest := mkHandleRequest {
  hr_request_id : string; hr_user_id : Z; hr_friend_request_id : Z
}.

Record ListFriendRequestsRequest := mkListFriendRequests {
  lf_request_id : string; lf_user_id : Z; lf_incoming : bool; lf_status : Z;
  lf_page : Z; lf_page_size : Z
}.

Record ListFriendRequestsResponse := mkFriendRequests {
  lf_response : CommonResponse; lf_requests : list FriendRequest;
  lf_reply_page : Z; lf_reply_page_size : Z; lf_total : Z
}.

Record CreateGroupRequest := mkCreateGroup {
  cg_request_id : string; cg_owner_id : Z; cg_group_name : string
}.

(** [JoinGroupRequest], [LeaveGroupRequest], [ListGroupMembersRequest] (whose
    user is the requester) and [GetGroupRequest]. *)
Record GroupRequest := mkGroupRequest {
  gq_request_id : string; gq_user_id : Z; gq_group_id : Z
}.

(** [ListFriendsRequest] and [ListGroupsRequest]. *)
Record UserRequest := mkUserRequest {
  uq_request_id : string; uq_user_id : Z; uq_limit : Z
}.

Record SearchGroupsRequest := mkSearchGroups { srch_request_id : string; srch_query : string; srch_limit : Z }.

Record UserInfo := mkUserInfo {
  ui_user_id : Z; ui_username : string; ui_nickname : string; ui_avatar : string; ui_created_at : Z
}.

Definition fillUser (u : User) : UserInfo :=
  mkUserInfo (u_id u) (u_username u) (u_nickname u) (u_avatar u) (u_created_at u).

(** A page size: the default for 0, at most [cap]. *)
Definition capped_limit (dflt cap requested : Z) : Z :=
  let limit := if requested =? 0 then dflt else requested in
  if cap <? limit then cap else limit.

Section Service.
Context (E : Env) (svc : RelationServiceImpl).

Definition invalidDeps : bool := rl_no_users svc || rl_no_relations svc || rl_no_groups svc.

Definition requireInternalRpc (context : ServerContext) : bool :=
  authorize (rl_sha256Hex svc) (rl_auth svc) context.

Definition granted (request_id : string) : CommonResponse := fillResponse request_id EC_OK "OK".

(** The users that exist, in the order of their ids in the list. *)
Definition getUsers (ids : list Z) : M (list UserInfo) :=
  users ← mapM (getUserById E) ids;
  mret (omap (fmap fillUser) users).

Definition DeleteFriend (context : ServerContext) (q : PairRequest) : M CommonResponse :=
  let id := pq_request_id q in
  if negb (requireInternalRpc context) then mret (unauthenticated id)
  else if invalidDeps then mret (fail id EC_INTERNAL_ERROR)
  else if (pq_user_id q =? 0) || (pq_friend_id q =? 0) || (pq_user_id q =? pq_friend_id q)
  then mret (fail id INVALID_ARGUMENT)
  else
    friend ← isFriend E (pq_user_id q) (pq_friend_id q);
    if negb friend then mret (fail id FRIEND_NOT_FOUND)
    else
      ok ← deleteFriendBidirectional E (pq_user_id q) (pq_friend_id q);
      if negb ok then mret (fail id DB_ERROR) else mret (granted id).

Definition ListFriends (context : ServerContext) (q : UserRequest)
  : M (CommonResponse * list UserInfo) :=
  let id := uq_request_id q in
  if negb (requireInternalRpc context) then mret (unauthenticated id, [])
  else if invalidDeps then mret (fail id EC_INTERNAL_ERROR, [])
  else if uq_user_id q =? 0 then mret (fail id INVALID_ARGUMENT, [])
  else
    user ← getUserById E (uq_user_id q);
    if negb (is_some user) then mret (fail id USER_NOT_FOUND, [])
    else
      ids ← listFriends E (uq_user_id q);
      friends ← getUsers ids;
      mret (granted id, friends).

(** The answer and the id of the request that was created. *)
Definition SendFriendRequest (context : ServerContext) (q : SendFriendRequestRequest)
  : M (CommonResponse * Z) :=
  let id := sf_request_id q in
  if negb (requireInternalRpc context) then mret (unauthenticated id, 0)
  else if invalidDeps || rl_no_requests svc then mret (fail id EC_INTERNAL_ERROR, 0)
  else if (sf_from_user_id q =? 0) || (sf_to_user_id q =? 0) ||
          (sf_from_user_id q =? sf_to_user_id q) || (255 <? Z.of_nat (String.length (sf_message q)))
  then mret (fail id INVALID_ARGUMENT, 0)
  else
    known ← ((u ← getUserById E (sf_from_user_id q); mret (is_some u)) &&&
             (u ← getUserById E (sf_to_user_id q); mret (is_some u)));
    if negb known then mret (fail id USER_NOT_FOUND, 0)
    else
      friend ← isFriend E (sf_from_user_id q) (sf_to_user_id q);
      if (friend : bool) then mret (fail id FRIEND_ALREADY_EXISTS, 0)
      else
        now ← nowMs E;
        created ← createRequest E (sf_from_user_id q) (sf_to_user_id q) (sf_message q) FR_PENDING now now;
        match created with
        | None =>
            pending ← hasPendingBetween E (sf_from_user_id q) (sf_to_user_id q);
            mret (fail id (if (pending : bool) then FRIEND_REQUEST_ALREADY_EXISTS else DB_ERROR), 0)
        | Some request => mret (granted id, request)
        end.

Definition AcceptFriendRequest (context : ServerContext) (q : HandleRequest) : M CommonResponse :=
  let id := hr_request_id q in
  if negb (requireInternalRpc context) then mret (unauthenticated id)
  else if invalidDeps || rl_no_requests svc then mret (fail id EC_INTERNAL_ERROR)
  else
    item ← getByRequestId E (hr_friend_request_id q);
    match item with
    | None => mret (fail id FRIEND_REQUEST_NOT_FOUND)
    | Some item =>
        if negb (fr_to_user_id item =? hr_user_id q) then mret (fail id GATEWAY_PERMISSION_DENIED)
        else if negb (fr_status item =? FR_PENDING) then mret (fail id FRIEND_REQUEST_ALREADY_HANDLED)
        else
          ok ← acceptRequestWithFriendship E (hr_friend_request_id q);
          if negb ok then mret (fail id DB_ERROR) else mret (granted id)
    end.

Definition RejectFriendRequest (context : ServerContext) (q : HandleRequest) : M CommonResponse :=
  let id := hr_request_id q in
  if negb (requireInternalRpc context) then mret (unauthenticated id)
  else if rl_no_requests svc then mret (fail id EC_INTERNAL_ERROR)
  else
    item ← getByRequestId E (hr_friend_request_id q);
    match item with
    | None => mret (fail id FRIEND_REQUEST_NOT_FOUND)
    | Some item =>
        if negb (fr_to_user_id item =? hr_user_id q) then mret (fail id GATEWAY_PERMISSION_DENIED)
        else if negb (fr_status item =? FR_PENDING) then mret (fail id FRIEND_REQUEST_ALREADY_HANDLED)
        else
          ok ← updateStatus E (hr_friend_request_id q) FR_PENDING FR_REJECTED;
          if negb ok then mret (fail id DB_ERROR) else mret (granted id)
    end.

Definition ListFriendRequests (context : ServerContext) (q : ListFriendRequestsRequest)
  : M ListFriendRequestsResponse :=
  let id := lf_request_id q in
  let only r := mkFriendRequests r [] 0 0 0 in
  if negb (requireInternalRpc context) then mret (only (unauthenticated id))
  else if rl_no_requests svc then mret (only (fail id EC_INTERNAL_ERROR))
  else if lf_user_id q =? 0 then mret (only (fail id INVALID_ARGUMENT))
  else
    let limit := capped_limit 50 200 (lf_page_size q) in
    items ← (if lf_incoming q then listReceived E (lf_user_id q) (lf_status q) (Z.to_nat limit)
             else listSent E (lf_user_id q) (lf_status q) (Z.to_nat limit));
    mret (mkFriendRequests (granted id) items (lf_page q) limit (Z.of_nat (length items))).

(** The answer and the id of the new group. *)
Definition CreateGroup (context : ServerContext) (q : CreateGroupRequest) : M (CommonResponse * Z) :=
  let id := cg_request_id q in
  if negb (requireInternalRpc context) then mret (unauthenticated id, 0)
  else if invalidDeps then mret (fail id EC_INTERNAL_ERROR, 0)
  else if (cg_owner_id q =? 0) || bool_decide (cg_group_name q = EmptyString) ||
          (128 <? Z.of_nat (String.length (cg_group_name q)))
  then mret (fail id INVALID_ARGUMENT, 0)
  else
    owner ← getUserById E (cg_owner_id q);
    if negb (is_some owner) then mret (fail id USER_NOT_FOUND, 0)
    else
      now ← nowMs E;
      created ← createGroup E (cg_group_name q) (cg_owner_id q) now now;
      match created with
      | None => mret (fail id DB_ERROR, 0)
      | Some group_id => mret (granted id, group_id)
      end.

Definition JoinGroup (context : ServerContext) (q : GroupRequest) : M CommonResponse :=
  let id := gq_request_id q in
  if negb (requireInternalRpc context) then mret (unauthenticated id)
  else if invalidDeps then mret (fail id EC_INTERNAL_ERROR)
  else if (gq_user_id q =? 0) || (gq_group_id q =? 0) then mret (fail id INVALID_ARGUMENT)
  else
    user ← getUserById E (gq_user_id q);
    if negb (is_some user) then mret (fail id USER_NOT_FOUND)
    else
      group ← getGroupById E (gq_group_id q);
      if negb (is_some group) then mret (fail id GROUP_NOT_FOUND)
      else
        member ← isMember E (gq_group_id q) (gq_user_id q);
        if (member : bool) then mret (fail id GROUP_ALREADY_JOINED)
        else
          ok ← addMember E (gq_group_id q) (gq_user_id q) 0;
          if negb ok then mret (fail id DB_ERROR) else mret (granted id).

Definition LeaveGroup (context : ServerContext) (q : GroupRequest) : M CommonResponse :=
  let id := gq_request_id q in
  if negb (requireInternalRpc context) then mret (unauthenticated id)
  else if invalidDeps then mret (fail id EC_INTERNAL_ERROR)
  else if (gq_user_id q =? 0) || (gq_group_id q =? 0) then mret (fail id INVALID_ARGUMENT)
  else
    group ← getGroupById E (gq_group_id q);
    if negb (is_some group) then mret (fail id GROUP_NOT_FOUND)
    else
      member ← isMember E (gq_group_id q) (gq_user_id q);
      if negb member then mret (fail id GROUP_NOT_MEMBER)
      else
        owner ← group_isOwner E (gq_group_id q) (gq_user_id q);
        if (owner : bool) then mret (fail id GROUP_OWNER_CANNOT_LEAVE)
        else
          ok ← removeMember E (gq_group_id q) (gq_user_id q);
          if negb ok then mret (fail id DB_ERROR) else mret (granted id).

Definition ListGroupMembers (context : ServerContext) (q : GroupRequest)
  : M (CommonResponse * list UserInfo) :=
  let id := gq_request_id q in
  if negb (requireInternalRpc context) then mret (unauthenticated id, [])
  else if invalidDeps then mret (fail id EC_INTERNAL_ERROR, [])
  else if (gq_group_id q =? 0) || (gq_user_id q =? 0) then mret (fail id INVALID_ARGUMENT, [])
  else
    group ← getGroupById E (gq_group_id q);
    if negb (is_some group) then mret (fail id GROUP_NOT_FOUND, [])
    else
      member ← isMember E (gq_group_id q) (gq_user_id q);
      if negb member then mret (fail id GROUP_NOT_MEMBER, [])
      else
        ids ← listMembers E (gq_group_id q);
        members ← getUsers ids;
        mret (granted id, members).

Definition GetGroup (context : ServerContext) (q : GroupRequest) : M (CommonResponse * option Group) :=
  let id := gq_request_id q in
  if negb (requireInternalRpc context) then mret (unauthenticated id, None)
  else if rl_no_groups svc || (gq_group_id q =? 0) then mret (fail id INVALID_ARGUMENT, None)
  else
    group ← getGroupById E (gq_group_id q);
    match group with
    | None => mret (fail id GROUP_NOT_FOUND, None)
    | Some group => mret (granted id, Some group)
    end.

Definition ListGroups (context : ServerContext) (q : UserRequest) : M (CommonResponse * list Group) :=
  let id := uq_request_id q in
  if negb (requireInternalRpc context) then mret (unauthenticated id, [])
  else if rl_no_groups svc || (uq_user_id q =? 0) then mret (fail id INVALID_ARGUMENT, [])
  else
    found ← listGroupsForUser E (uq_user_id q) (Z.to_nat (capped_limit 100 200 (uq_limit q)));
    mret (granted id, found).

Definition SearchGroups (like : string -> string -> bool) (context : ServerContext) (q : SearchGroupsRequest)
  : M (CommonResponse * list Group) :=
  let id := srch_request_id q in
  if negb (requireInternalRpc context) then mret (unauthenticated id, [])
  else if rl_no_groups svc || bool_decide (srch_query q = EmptyString) || (128 <? Z.of_nat (String.length (srch_query q)))
  then mret (fail id INVALID_ARGUMENT, [])
  else
    found ← searchGroups E like (srch_query q) (Z.to_nat (capped_limit 12 50 (srch_limit q)));
    mret (granted id, found).

End Service.
