(* ===== verification/Relations.v ===== *)
(** * Friendships and groups stay consistent

    Every handler of [RelationServiceImpl], under any failures of the
    database: friendship stays mutual and only comes from a pending request
    that its addressee accepted, a pair of users has one pending request at
    most, a request that was handled stays handled, and a group appears
    together with its owner. *)

From S2P Require Import Prelude Words Text MessageId Rpc Db MessageStore Directory DbLogic.
From S2P Require Import MessageService MessageSend Sample MessageReceipts Progress RelationService.

Inductive RelationCall :=
| RcDeleteFriend (context : ServerContext) (q : PairRequest)
| RcListFriends (context : ServerContext) (q : UserRequest)
| RcSendRequest (context : ServerContext) (q : SendFriendRequestRequest)
| RcAccept (context : ServerContext) (q : HandleRequest)
| RcReject (context : ServerContext) (q : HandleRequest)
| RcListRequests (context : ServerContext) (q : ListFriendRequestsRequest)
| RcCreateGroup (context : ServerContext) (q : CreateGroupRequest)
| RcJoin (context : ServerContext) (q : GroupRequest)
| RcLeave (context : ServerContext) (q : GroupRequest)
| RcListMembers (context : ServerContext) (q : GroupRequest)
| RcGetGroup (context : ServerContext) (q : GroupRequest)
| RcListGroups (context : ServerContext) (q : UserRequest)
| RcSearchGroups (like : string -> string -> bool) (context : ServerContext) (q : SearchGroupsRequest).

(** The handler of a request, up to the code it answers with. *)
Definition relate (E : Env) (svc : RelationServiceImpl) (c : RelationCall) : M Z :=
  match c with
  | RcDeleteFriend context q => a ← DeleteFriend E svc context q; mret (r_code a)
  | RcListFriends context q => a ← ListFriends E svc context q; mret (r_code a.1)
  | RcSendRequest context q => a ← SendFriendRequest E svc context q; mret (r_code a.1)
  | RcAccept context q => a ← AcceptFriendRequest E svc context q; mret (r_code a)
  | RcReject context q => a ← RejectFriendRequest E svc context q; mret (r_code a)
  | RcListRequests context q => a ← ListFriendRequests E svc context q; mret (r_code (lf_response a))
  | RcCreateGroup context q => a ← CreateGroup E svc context q; mret (r_code a.1)
  | RcJoin context q => a ← JoinGroup E svc context q; mret (r_code a)
  | RcLeave context q => a ← LeaveGroup E svc context q; mret (r_code a)
  | RcListMembers context q => a ← ListGroupMembers E svc context q; mret (r_code a.1)
  | RcGetGroup context q => a ← GetGroup E svc context q; mret (r_code a.1)
  | RcListGroups context q => a ← ListGroups E svc context q; mret (r_code a.1)
  | RcSearchGroups like context q => a ← SearchGroups E svc like context q; mret (r_code a.1)
  end.

Fixpoint relate_all (E : Env) (svc : RelationServiceImpl) (cs : list RelationCall) : M (list Z) :=
  match cs with
  | [] => mret []
  | c :: cs => a ← relate E svc c; log ← relate_all E svc cs; mret (a :: log)
  end.

(** ** What each handler does to the tables *)

(** The request [id] as the service finds it, waiting for the answer of [user]. *)
Definition awaiting (d : Db) (id user : Z) (r : FriendRequest) : Prop :=
  sql_first (fun r => fr_id r =? id) (friend_requests d) = Some r /\
  fr_to_user_id r = user /\ fr_status r = FR_PENDING.

Definition handled (id status now : Z) (d : Db) : Db :=
  set_friend_requests
    (sql_update (fun r => (fr_id r =? id) && (fr_status r =? FR_PENDING))
       (set_request_status status now) (friend_requests d)) d.

Definition befriend (user_id friend_id now : Z) (d : Db) : Db :=
  set_friendships
    (sql_upsert (same_friendship user_id friend_id) (mkFriendship user_id friend_id 1 now now)
       (set_friend_status 1 now) (friendships d)) d.

Definition unfriend (user_id friend_id now : Z) (d : Db) : Db :=
  set_friendships
    (sql_update (same_friendship user_id friend_id) (set_friend_status 0 now) (friendships d)) d.

Definition requested (from to : Z) (message : string) (now : Z) (d : Db) : Db :=
  set_counters (next_user_id d) (next_group_id d) (next_request_id d + 1)
    (set_friend_requests
       (friend_requests d ++
        [mkFriendRequest (next_request_id d) from to message FR_PENDING now now]) d).

(** A new group and the row of its owner. *)
Definition founded (name : string) (owner now : Z) (d : Db) : Db :=
  set_group_members
    (group_members d ++ [mkGroupMember (next_group_id d) owner 1 now now])
    (set_counters (next_user_id d) (next_group_id d + 1) (next_request_id d)
       (set_groups (groups d ++ [mkGroupRow (next_group_id d) name owner now now]) d)).

Definition relation_change (c : RelationCall) (d d' : Db) : Prop :=
  match c with
  | RcDeleteFriend _ q => exists t1 t2,
      d' = unfriend (pq_friend_id q) (pq_user_id q) t2 (unfriend (pq_user_id q) (pq_friend_id q) t1 d)
  | RcSendRequest _ q => exists now,
      existsb (pending_between (sf_from_user_id q) (sf_to_user_id q)) (friend_requests d) = false /\
      d' = requested (sf_from_user_id q) (sf_to_user_id q) (sf_message q) now d
  | RcAccept _ q => exists r t0 t1 t2,
      awaiting d (hr_friend_request_id q) (hr_user_id q) r /\ fr_from_user_id r <> fr_to_user_id r /\
      d' = befriend (fr_to_user_id r) (fr_from_user_id r) t2
             (befriend (fr_from_user_id r) (fr_to_user_id r) t1
                (handled (hr_friend_request_id q) FR_ACCEPTED t0 d))
  | RcReject _ q => exists r now,
      awaiting d (hr_friend_request_id q) (hr_user_id q) r /\
      d' = handled (hr_friend_request_id q) FR_REJECTED now d
  | RcCreateGroup _ q => exists now,
      existsb (same_member (next_group_id d) (cg_owner_id q)) (group_members d) = false /\
      d' = founded (cg_group_name q) (cg_owner_id q) now d
  | RcJoin _ q => exists now, executes (add_member (gq_group_id q) (gq_user_id q) 0 now) d d'
  | RcLeave _ q => executes (remove_member (gq_group_id q) (gq_user_id q)) d d'
  | _ => d' = d
  end.

Section Handlers.
Context (E : Env) (svc : RelationServiceImpl).

Definition accepted_code (a : CommonResponse) : bool := r_code a =? 0.

(** The early returns of a handler and the reads between them. *)
#[local] Ltac checks :=
  repeat first
    [ apply settles_ret; reflexivity
    | apply settles_if; intros _
    | apply settles_bind; [apply _|]; intros ? ].

(** The answer that follows the block that changes the tables. *)
#[local] Ltac answers ok :=
  eapply (settles_answer _ _ ok);
    [|intros []; eexists; (split; [reflexivity|]); intros ?; first [discriminate|reflexivity]].

Lemma deleteFriendBidirectional_settles a b :
  Settles (deleteFriendBidirectional E a b) id
    (fun d d' => exists t1 t2, d' = unfriend b a t2 (unfriend a b t1 d)).
Proof.
  apply settles_conn; [done|]. apply settles_tx. apply tx_tail_bind; [apply _|]. intros t1.
  eapply tx_tail_weaken; [apply tx_tail_seq, tx_tail_commit|].
  - apply tx_step_and; [apply tx_step_update|]. apply tx_step_quiet; [apply _|]. intros t2.
    eapply tx_step_weaken; [apply tx_step_update|]. intros d d' Hx.
    exact (ex_intro (fun t => executes (delete_friend b a t) d d') t2 Hx).
  - intros d ? (d2&(d1&[n1 H1]&t2&[n2 H2])&<-).
    unfold delete_friend in H1, H2. injection H1 as <- _. injection H2 as <- _. by exists t1, t2.
Qed.

Lemma DeleteFriend_run context q :
  Settles (DeleteFriend E svc context q) accepted_code (relation_change (RcDeleteFriend context q)).
Proof.
  unfold DeleteFriend. cbv zeta. checks. answers (@id bool).
  apply deleteFriendBidirectional_settles.
Qed.

Lemma createRequest_settles from to message now :
  Settles (createRequest E from to message FR_PENDING now now) is_some
    (fun d d' => exists t, existsb (pending_between from to) (friend_requests d) = false /\
       d' = requested from to message t d).
Proof.
  apply settles_conn; [done|].
  assert (forall t, Settles (r ← auto_update E (insert_request from to message FR_PENDING t t);
    mret (id ← r; if id =? 0 then None else Some id)) is_some
    (fun d d' => exists t, existsb (pending_between from to) (friend_requests d) = false /\
       d' = requested from to message t d)) as Hs.
  { intros t w r w' (o&w1&H1&H2)%run_bind_Some. munfold H2. simplify_eq/=.
    apply auto_update_run in H1 as (_&Hd&Ho). unfold insert_request in *. cbn [Z.eqb] in *.
    rewrite andb_true_l in *.
    destruct (existsb _ _) eqn:Hp.
    - right. destruct Hd as [Hd|[n Hn]]; [|done]. split; [|done].
      destruct o as [n|]; [|done]. by specialize (Ho n eq_refl).
    - destruct Hd as [Hd|[n Hn]].
      + destruct o as [n|]; [left|by right]. specialize (Ho n eq_refl). injection Ho as <- _. eauto.
      + injection Hn as <- _. left. eauto. }
  destruct (0 <? now); [exact (Hs now)|]. apply settles_bind; [apply _|exact Hs].
Qed.

Lemma SendFriendRequest_run context q :
  Settles (SendFriendRequest E svc context q) (fun a => accepted_code a.1)
    (relation_change (RcSendRequest context q)).
Proof.
  unfold SendFriendRequest. cbv zeta. checks.
  intros w resp w' (o&w1&H1&H2)%run_bind_Some. apply createRequest_settles in H1.
  assert (w_db w' = w_db w1 /\ (o = None -> accepted_code resp.1 = false)) as [Hd Ha].
  { destruct o; [munfold H2; by simplify_eq/=|].
    apply run_bind_Some in H2 as (p&w2&H2&H3). destruct (quiet _ _ _ H2) as [Hd _].
    munfold H3. simplify_eq/=. split; [done|]. by destruct p. }
  rewrite Hd. destruct H1 as [?|[? ->]]; [by left|right; split; [|done]]. by destruct o; auto.
Qed.

(** A request as the lookup by id finds it. *)
Definition found_request (id : Z) (r : option FriendRequest) (d : Db) : Prop :=
  forall x, r = Some x -> sql_first (fun r => fr_id r =? id) (friend_requests d) = Some x.

Lemma getByRequestId_run id w r w1 :
  getByRequestId E id w = Some (r, w1) -> found_request id r (w_db w).
Proof. intros H x ->. by destruct (read_row_run _ _ _ _ _ H). Qed.

Lemma updateStatus_conn_step id from_status to_status :
  TxStep (updateStatus_conn E id from_status to_status)
    (fun d d' => exists now, executes (update_request id from_status to_status now) d d').
Proof.
  apply tx_step_quiet; [apply _|]. intros now.
  eapply tx_step_weaken; [apply tx_step_affects|]. intros d d' (n&Hn&_). exists now, n. done.
Qed.

Lemma addFriend_conn_step a b :
  TxStep (addFriend_conn E a b) (fun d d' => a <> b /\ exists now, d' = befriend a b now d).
Proof.
  unfold addFriend_conn, self_or_zero. destruct (_ || _) eqn:Hz.
  { intros w r w' t H Ht. munfold H. simplify_eq/=. split; [done|]. by exists t. }
  apply tx_step_quiet; [apply _|]. intros now.
  eapply tx_step_weaken; [apply tx_step_update|]. intros d d' [n Hn]. bools.
  unfold add_friend in Hn. injection Hn as <- _. split; [done|]. by exists now.
Qed.

Lemma acceptRequest_settles id :
  Settles (acceptRequestWithFriendship E id) (@Datatypes.id bool)
    (fun d d' => exists r t0 t1 t2,
       sql_first (fun r => fr_id r =? id) (friend_requests d) = Some r /\
       fr_from_user_id r <> fr_to_user_id r /\
       d' = befriend (fr_to_user_id r) (fr_from_user_id r) t2
              (befriend (fr_from_user_id r) (fr_to_user_id r) t1 (handled id FR_ACCEPTED t0 d))).
Proof.
  apply settles_conn; [done|].
  eapply (settles_read _ _ _
    (fun r d => r = sql_first (fun r => fr_id r =? id) (friend_requests d) \/ r = None));
    [apply _|intros w r w1 H; exact (row_run _ _ _ _ _ H)|]. intros [r|].
  2:{ by apply settles_ret. }
  apply settles_if; intros _; [by apply settles_ret|].
  eapply settles_weaken; [apply settles_tx|].
  - apply tx_tail_seq; [apply updateStatus_conn_step|]. apply tx_tail_seq, tx_tail_commit.
    apply tx_step_and; apply addFriend_conn_step.
  - intros d ? (d1&(t0&n&H0)&d3&(d2&(Hne&t1&->)&_&t2&->)&<-) [Hr|?]; [|done].
    unfold update_request in H0. injection H0 as <- _. exists r, t0, t1, t2. by rewrite Hr.
Qed.

Lemma AcceptFriendRequest_run context q :
  Settles (AcceptFriendRequest E svc context q) accepted_code (relation_change (RcAccept context q)).
Proof.
  unfold AcceptFriendRequest. cbv zeta. do 2 (apply settles_if; intros _; [by apply settles_ret|]).
  eapply (settles_read _ _ _ (found_request (hr_friend_request_id q)));
    [apply _|apply getByRequestId_run|]. intros [r|]; [|by apply settles_ret].
  apply settles_if; intros Hu; [by apply settles_ret|].
  apply settles_if; intros Hp; [by apply settles_ret|]. bools.
  answers (@id bool). eapply settles_weaken; [apply acceptRequest_settles|].
  intros d d' (r'&t0&t1&t2&Hr&Hne&->) H. specialize (H r eq_refl). assert (r' = r) as -> by congruence.
  exists r, t0, t1, t2. done.
Qed.

Lemma RejectFriendRequest_run context q :
  Settles (RejectFriendRequest E svc context q) accepted_code (relation_change (RcReject context q)).
Proof.
  unfold RejectFriendRequest. cbv zeta. do 2 (apply settles_if; intros _; [by apply settles_ret|]).
  eapply (settles_read _ _ _ (found_request (hr_friend_request_id q)));
    [apply _|apply getByRequestId_run|]. intros [r|]; [|by apply settles_ret].
  apply settles_if; intros Hu; [by apply settles_ret|].
  apply settles_if; intros Hp; [by apply settles_ret|]. bools.
  answers (@id bool). apply settles_conn; [done|]. apply settles_bind; [apply _|]. intros now.
  eapply settles_weaken; [apply settles_affects|].
  intros d d' [n Hn] H. unfold update_request in Hn. injection Hn as <- _.
  exists r, now. split; [|done]. by split; [apply H|].
Qed.

Lemma createGroup_settles name owner now :
  Settles (createGroup E name owner now now) is_some
    (fun d d' => existsb (same_member (next_group_id d) owner) (group_members d) = false /\
       d' = founded name owner now d).
Proof.
  apply settles_conn; [done|]. intros w r w' (w1&H&Hd&_)%tx_scope_run. rewrite Hd. clear Hd.
  apply run_bind_Some in H as (active&w2&H2&H). apply tx_begin_run in H2 as [Hd2 Ht2].
  destruct active; cbn [negb] in H; [|munfold H; simplify_eq/=; by right]. rewrite <- Hd2.
  rewrite <- Hd2 in Ht2. apply run_bind_Some in H as (g&w3&H3&H).
  destruct (tx_update_run _ _ _ _ _ _ H3 Ht2) as [Hd3 Hg].
  destruct g as [g|]; [|munfold H; simplify_eq/=; by right].
  destruct Hg as (t&Hg&Ht3). unfold insert_group in Hg. injection Hg as <- <-.
  apply run_bind_Some in H as (m&w4&H4&H). destruct (tx_update_run _ _ _ _ _ _ H4 Ht3) as [Hd4 Hm].
  destruct m as [m|]; cbn [is_some negb] in H; [|munfold H; simplify_eq/=; right; split; [done|congruence]].
  destruct Hm as (t&Hm&Ht4). unfold insert_member in Hm. destruct (existsb _ _) eqn:He; [done|].
  injection Hm as <- _. apply run_bind_Some in H as (ok&w5&H5&H). munfold H. simplify_eq/=.
  destruct (tx_commit_run _ _ _ _ _ Ht4 H5) as [[-> _]|[-> [-> _]]]; [by left|].
  right. split; [done|congruence].
Qed.

Lemma CreateGroup_run context q :
  Settles (CreateGroup E svc context q) (fun a => accepted_code a.1)
    (relation_change (RcCreateGroup context q)).
Proof.
  unfold CreateGroup. cbv zeta. checks. answers (@is_some Z).
  eapply settles_weaken; [apply createGroup_settles|]. intros d d' H. eexists. exact H.
Qed.

Lemma JoinGroup_run context q :
  Settles (JoinGroup E svc context q) accepted_code (relation_change (RcJoin context q)).
Proof.
  unfold JoinGroup. cbv zeta. checks. answers (@id bool).
  apply settles_conn; [done|]. apply settles_bind; [apply _|]. intros now.
  eapply settles_weaken; [apply settles_update|]. intros d d' H. eexists. exact H.
Qed.

Lemma LeaveGroup_run context q :
  Settles (LeaveGroup E svc context q) accepted_code (relation_change (RcLeave context q)).
Proof.
  unfold LeaveGroup. cbv zeta. checks. answers (@id bool).
  apply settles_conn; [done|]. apply settles_update.
Qed.

#[global] Instance quiet_getUsers ids : Quiet (getUsers E ids).
Proof. unfold getUsers. apply _. Qed.

Lemma quiet_settles {A} (m : M A) ok : Quiet m -> Settles m ok (fun d d' => d' = d).
Proof. intros Hm w a w' H. left. by destruct (Hm _ _ _ H). Qed.

(** Every handler makes its change as a whole or none, and has made it when
    it answers OK. *)
Lemma relate_run c : Settles (relate E svc c) (fun code => code =? 0) (relation_change c).
Proof.
  destruct c; cbn [relate relation_change];
    try (apply quiet_settles; unfold ListFriends, ListFriendRequests, ListGroupMembers, GetGroup,
           ListGroups, SearchGroups; cbv zeta; apply _);
    eapply settles_answer; try (intros a; eexists; split; [reflexivity|]; exact (fun H => H)).
  - apply DeleteFriend_run.
  - apply SendFriendRequest_run.
  - apply AcceptFriendRequest_run.
  - apply RejectFriendRequest_run.
  - apply CreateGroup_run.
  - apply JoinGroup_run.
  - apply LeaveGroup_run.
Qed.

End Handlers.

(** ** Friendships after a change *)

Lemma befriended_update P f t x y :
  (exists r, r ∈ sql_update P f t /\ fs_user_id r = x /\ fs_friend_id r = y /\ fs_status r = 1) <->
  (exists r, r ∈ t /\ let r' := if P r then f r else r in
     fs_user_id r' = x /\ fs_friend_id r' = y /\ fs_status r' = 1).
Proof.
  unfold sql_update. split.
  - intros (r'&Hin&H). apply list_elem_of_fmap in Hin as (r&->&Hin). by exists r.
  - intros (r&Hin&H). eexists. split; [apply list_elem_of_fmap; by exists r|done].
Qed.

Lemma befriend_spec a b now d x y :
  befriended (befriend a b now d) x y <-> (x = a /\ y = b) \/ befriended d x y.
Proof.
  unfold befriended, befriend, sql_upsert. cbn.
  destruct (existsb (same_friendship a b) (friendships d)) eqn:He.
  - rewrite befriended_update. split.
    + intros (r&Hin&H). unfold same_friendship in H. destruct (_ && _) eqn:Hs; cbn in H; bools.
      * left. lia.
      * right. eauto.
    + intros [[-> ->]|(r&Hin&H)].
      * apply existsb_exists in He as (r&Hin%list_elem_of_In&Hs). exists r. rewrite Hs.
        unfold same_friendship in Hs. bools. done.
      * exists r. split; [done|]. destruct H as (?&?&?). by destruct (same_friendship a b r).
  - split.
    + intros (r&[Hin|Hin]%elem_of_app&H); [right; eauto|]. apply list_elem_of_singleton in Hin as ->.
      left. cbn in H. lia.
    + intros [[-> ->]|(r&Hin&H)]; eexists; (split; [apply elem_of_app|]).
      * right. by apply list_elem_of_singleton.
      * done.
      * by left.
      * done.
Qed.

Lemma unfriend_spec a b now d x y :
  befriended (unfriend a b now d) x y <-> befriended d x y /\ ~ (x = a /\ y = b).
Proof.
  unfold befriended, unfriend. cbn. rewrite befriended_update. unfold same_friendship. split.
  - intros (r&Hin&H). destruct (_ && _) eqn:Hs; cbn in H; [lia|].
    split; [by exists r|]. intros [-> ->]. destruct H as (H1&H2&_).
    by rewrite H1, H2, !Z.eqb_refl in Hs.
  - intros ((r&Hin&H1&H2&H3)&Hne). exists r. split; [done|].
    destruct (_ && _) eqn:Hs; [|done]. exfalso. bools. lia.
Qed.

(** ** The invariant *)

Definition pending_request (r : FriendRequest) : bool := fr_status r =? FR_PENDING.

(** The two users of a request, whoever asked. *)
Definition request_pair (r : FriendRequest) : Z * Z :=
  (Z.min (fr_from_user_id r) (fr_to_user_id r), Z.max (fr_from_user_id r) (fr_to_user_id r)).

Record relations_ok (d : Db) : Prop := {
  rel_mutual : forall a b, befriended d a b -> befriended d b a;
  rel_distinct : forall a b, befriended d a b -> a <> b;
  rel_ids : NoDup (fr_id <$> friend_requests d);
  rel_next : Forall (fun r => fr_id r < next_request_id d) (friend_requests d);
  rel_pending : NoDup (request_pair <$> sql_select pending_request (friend_requests d))
}.

(** A request keeps its data; a pending one may be answered, once. *)
Definition request_step (r r' : FriendRequest) : Prop :=
  r' = r \/
  (fr_status r = FR_PENDING /\ exists status now,
     (status = FR_ACCEPTED \/ status = FR_REJECTED) /\ r' = set_request_status status now r).

#[global] Instance request_step_preorder : PreOrder request_step.
Proof.
  split; [by left|].
  intros r1 r2 r3 [->|(Hp&s&t&Hs&->)] H2; [done|].
  right. split; [done|]. destruct H2 as [->|(Hp2&_)]; [eauto|].
  cbn in Hp2. destruct Hs as [-> | ->]; done.
Qed.

Lemma handled_ids id status now d :
  fr_id <$> friend_requests (handled id status now d) = fr_id <$> friend_requests d.
Proof.
  cbn. unfold sql_update. rewrite <- list_fmap_compose. apply list_fmap_ext.
  intros i r _. cbn. by destruct (_ && _).
Qed.

(** Answering a request only removes it from the pending ones. *)
Lemma handled_pending id status now d :
  status <> FR_PENDING ->
  sublist (sql_select pending_request (friend_requests (handled id status now d)))
    (sql_select pending_request (friend_requests d)).
Proof.
  intros Hs. cbn. unfold sql_select, sql_update. induction (friend_requests d) as [|r t IH]; [done|].
  cbn [map]. rewrite !filter_cons.
  destruct ((fr_id r =? id) && (fr_status r =? FR_PENDING)) eqn:Hr.
  - rewrite decide_False; [|intros Hx%Z.eqb_eq; by cbn in Hx]. bools.
    rewrite decide_True; [by apply sublist_cons|by apply Z.eqb_eq].
  - destruct (decide (pending_request r = true)); [by apply sublist_skip|done].
Qed.

Lemma requested_ok from to message now d :
  existsb (pending_between from to) (friend_requests d) = false ->
  relations_ok d -> relations_ok (requested from to message now d).
Proof.
  intros Hp [Hm Hd Hi Hn Hs]. split; [exact Hm|exact Hd|..]; cbn.
  - rewrite fmap_app. apply NoDup_app. split_and!; [done| |apply NoDup_singleton].
    intros x (r&->&Hr)%list_elem_of_fmap Hx. apply list_elem_of_singleton in Hx.
    rewrite Forall_forall in Hn. specialize (Hn _ Hr). cbn in Hx. lia.
  - apply Forall_app. split; [|by repeat constructor; cbn; lia].
    eapply Forall_impl; [exact Hn|]. cbn. lia.
  - unfold sql_select in *. rewrite filter_app, fmap_app. apply NoDup_app.
    split_and!; [done| |apply NoDup_singleton].
    intros x (r&->&Hr)%list_elem_of_fmap Hx. apply list_elem_of_singleton in Hx.
    apply list_elem_of_filter in Hr as [Hr Hin].
    apply not_true_iff_false in Hp. apply Hp, existsb_exists. exists r. split; [by apply list_elem_of_In|].
    unfold pending_between, pending_request, request_pair in *. rewrite Hr. cbn in Hx.
    injection Hx as Hx1 Hx2. lia.
Qed.

Lemma handled_ok id status now d :
  status <> FR_PENDING -> relations_ok d -> relations_ok (handled id status now d).
Proof.
  intros Hs [Hm Hd Hi Hn Hp]. split; [exact Hm|exact Hd|..].
  - by rewrite handled_ids.
  - rewrite <- (Forall_fmap fr_id (fun i => i < next_request_id d)) in *. by rewrite handled_ids.
  - eapply sublist_NoDup; [exact Hp|]. by apply fmap_sublist, handled_pending.
Qed.

Lemma befriend_ok a b t1 t2 d :
  a <> b -> relations_ok d -> relations_ok (befriend b a t2 (befriend a b t1 d)).
Proof.
  intros Hab [Hm Hd Hi Hn Hp]. split; [..|exact Hi|exact Hn|exact Hp]; intros x y;
    rewrite !befriend_spec; intros; naive_solver.
Qed.

Lemma unfriend_ok a b t1 t2 d :
  relations_ok d -> relations_ok (unfriend b a t2 (unfriend a b t1 d)).
Proof.
  intros [Hm Hd Hi Hn Hp]. split; [..|exact Hi|exact Hn|exact Hp]; intros x y;
    rewrite !unfriend_spec; intros; naive_solver.
Qed.

Lemma handled_step id status now d :
  status = FR_ACCEPTED \/ status = FR_REJECTED ->
  grows request_step (friend_requests d) (friend_requests (handled id status now d)).
Proof.
  intros Hs. apply grows_update; [apply _|]. intros r _ Hr. bools. right. split; [done|]. eauto.
Qed.

(** A change of any handler keeps the invariant and the requests. *)
Lemma change_ok c d d' :
  relation_change c d d' -> relations_ok d ->
  relations_ok d' /\ grows request_step (friend_requests d) (friend_requests d').
Proof.
  destruct c; cbn [relation_change]; intros Hc Hok; try (subst; done).
  - destruct Hc as (t1&t2&->). split; [by apply unfriend_ok|done].
  - destruct Hc as (now&Hp&->). split; [by apply requested_ok|]. apply grows_app. apply _.
  - destruct Hc as (r&t0&t1&t2&_&Hne&->). split; [by apply befriend_ok, handled_ok|].
    apply handled_step. by left.
  - destruct Hc as (r&now&_&->). split; [by apply handled_ok|]. apply handled_step. by right.
  - destruct Hc as (now&_&->). split; [by destruct Hok|done].
  - destruct Hc as (now&n&Hn). unfold add_member in Hn. injection Hn as <- _.
    split; [by destruct Hok|done].
  - destruct Hc as (n&Hn). unfold remove_member in Hn. injection Hn as <- _.
    split; [by destruct Hok|done].
Qed.

Lemma relate_all_ok E svc cs w log w' :
  relate_all E svc cs w = Some (log, w') -> relations_ok (w_db w) ->
  relations_ok (w_db w') /\ grows request_step (friend_requests (w_db w)) (friend_requests (w_db w')).
Proof.
  revert w log w'. induction cs as [|c cs IH]; intros w log w' H Hok; cbn [relate_all] in H.
  { munfold H. by simplify_eq/=. }
  apply run_bind_Some in H as (a&w1&H1&H). apply run_bind_Some in H as (l&w2&H2&H).
  munfold H. simplify_eq/=.
  assert (relations_ok (w_db w1) /\
          grows request_step (friend_requests (w_db w)) (friend_requests (w_db w1))) as [Hok1 Hg1].
  { destruct (relate_run _ _ _ _ _ _ H1) as [Hc|[_ ->]]; [by eapply change_ok|done]. }
  destruct (IH _ _ _ H2 Hok1) as [? ?]. split; [done|]. by etrans.
Qed.

(** ** A deployment to evaluate on *)

Definition sample_relations : RelationServiceImpl :=
  mkRelationService (mkInternalRpcAuth true "secret" "") (fun s => s) false false false false.

(** 7 asks 8; 9 tries to answer in 8's place, 8 accepts, then 7 unfriends 9. *)
Definition friend_calls : list RelationCall :=
  [RcSendRequest sample_context (mkSendFriendRequest "r" 7 8 "hi");
   RcSendRequest sample_context (mkSendFriendRequest "r" 8 7 "me too");
   RcAccept sample_context (mkHandleRequest "r" 9 1);
   RcAccept sample_context (mkHandleRequest "r" 8 1);
   RcReject sample_context (mkHandleRequest "r" 8 1);
   RcDeleteFriend sample_context (mkPairRequest "r" 7 9)].

Lemma sample_relations_ok : relations_ok sample_db.
Proof.
  split.
  - intros a b (f&Hin&Hf). repeat apply elem_of_cons in Hin as [->|Hin]; try by inversion Hin.
    + eexists. split; [right; left|]. cbn in *. lia.
    + eexists. split; [left|]. cbn in *. lia.
  - intros a b (f&Hin&Hf). repeat apply elem_of_cons in Hin as [->|Hin]; try by inversion Hin.
    all: cbn in *; lia.
  - constructor.
  - constructor.
  - constructor.
Qed.

(** C13: Whatever requests the relation service serves and however its
    database calls end, friendship stays mutual and is never with oneself,
    request ids stay unique, a pair of users has at most one pending request,
    and the requests on record keep their data: a pending one may be accepted
    or rejected once, and is never reopened or removed. *)
Theorem relations_stay_consistent E svc cs w log w' :
  relate_all E svc cs w = Some (log, w') -> relations_ok (w_db w) ->
  relations_ok (w_db w') /\ grows request_step (friend_requests (w_db w)) (friend_requests (w_db w')).
Proof. apply relate_all_ok. Qed.

Lemma relations_stay_consistent_witness :
  answer_of (relate_all (sample_env (once 60 Lost)) sample_relations friend_calls (world_of sample_db))
    (fun log w' => relations_ok (w_db w') /\ log = [0; 12002; 10007; 0; 12003; 0]).
Proof.
  destruct (relate_all (sample_env (once 60 Lost)) sample_relations friend_calls
              (world_of sample_db)) as [[log w']|] eqn:H; [|by vm_compute in H].
  split.
  - exact (proj1 (relations_stay_consistent _ _ _ _ _ _ H sample_relations_ok)).
  - vm_compute in H. by injection H as <- _.
Defined.

(** C12: Friendship needs consent.  If two users are friends after a call and
    were not before, the call is the acceptance of a request between the two
    by the user it was addressed to; the request was pending and is now
    accepted. *)
Theorem friendship_by_consent E svc c w code w' a b :
  relate E svc c w = Some (code, w') ->
  befriended (w_db w') a b -> ~ befriended (w_db w) a b ->
  exists context q r now, c = RcAccept context q /\ r ∈ friend_requests (w_db w) /\
    fr_id r = hr_friend_request_id q /\ fr_to_user_id r = hr_user_id q /\
    fr_status r = FR_PENDING /\
    ((fr_from_user_id r = a /\ fr_to_user_id r = b) \/ (fr_from_user_id r = b /\ fr_to_user_id r = a)) /\
    set_request_status FR_ACCEPTED now r ∈ friend_requests (w_db w').
Proof.
  intros H Hafter Hbefore.
  destruct (relate_run _ _ _ _ _ _ H) as [Hc|[_ Hd]]; [|by rewrite Hd in Hafter].
  destruct c as [| | |context q| | | | | | | | |]; cbn [relation_change] in Hc;
    try by rewrite Hc in Hafter.
  - destruct Hc as (t1&t2&Hd). rewrite Hd, !unfriend_spec in Hafter. tauto.
  - destruct Hc as (now&_&Hd). by rewrite Hd in Hafter.
  - destruct Hc as (r&t0&t1&t2&(Hr&Hu&Hp)&_&Hd). apply sql_first_spec in Hr as [Hin Hid%Z.eqb_eq].
    rewrite Hd, !befriend_spec in Hafter. exists context, q, r, t0. split_and!; try done.
    + destruct Hafter as [[-> ->]|[[-> ->]|?]]; [by right|by left|done].
    + rewrite Hd. cbn. unfold sql_update. apply list_elem_of_fmap. exists r. split; [|done].
      by rewrite Hid, Hp, !Z.eqb_refl.
  - destruct Hc as (r&now&_&Hd). by rewrite Hd in Hafter.
  - destruct Hc as (now&_&Hd). by rewrite Hd in Hafter.
  - destruct Hc as (now&n&Hd). unfold add_member in Hd. injection Hd as Hd _. by rewrite <- Hd in Hafter.
  - destruct Hc as (n&Hd). unfold remove_member in Hd. injection Hd as Hd _. by rewrite <- Hd in Hafter.
Qed.

Lemma friendship_by_consent_witness :
  answer_of (relate_all (sample_env healthy) sample_relations
               [RcSendRequest sample_context (mkSendFriendRequest "r" 7 8 "hi")] (world_of sample_db))
    (fun _ w => answer_of (relate (sample_env healthy) sample_relations
                             (RcAccept sample_context (mkHandleRequest "r" 8 1)) w)
       (fun code w' => exists context q r now,
          RcAccept sample_context (mkHandleRequest "r" 8 1) = RcAccept context q /\
          r ∈ friend_requests (w_db w) /\ fr_id r = hr_friend_request_id q /\
          fr_to_user_id r = hr_user_id q /\ fr_status r = FR_PENDING /\
          ((fr_from_user_id r = 8 /\ fr_to_user_id r = 7) \/
           (fr_from_user_id r = 7 /\ fr_to_user_id r = 8)) /\
          set_request_status FR_ACCEPTED now r ∈ friend_requests (w_db w'))).
Proof.
  destruct (relate_all _ _ _ _) as [[log w]|] eqn:H0; [|by vm_compute in H0]. cbn [answer_of].
  destruct (relate _ _ _ w) as [[code w']|] eqn:H.
  2:{ vm_compute in H0. injection H0 as <- <-. by vm_compute in H. }
  apply (friendship_by_consent _ _ _ _ _ _ 8 7 H).
  - vm_compute in H0. injection H0 as <- <-. vm_compute in H. injection H as <- <-.
    eexists. split; [apply list_elem_of_In; cbn; auto 10|done].
  - intros (f&Hin&Hf). vm_compute in H0. injection H0 as <- <-.
    repeat apply elem_of_cons in Hin as [->|Hin]; try by inversion Hin. all: cbn in *; lia.
Defined.

(** ** From a request to a friendship *)

Section Healthy_service.
Context (E : Env) (svc : RelationServiceImpl).
Hypothesis healthy_db : forall i, env_fault E i = Done.
Hypothesis clock_positive : forall i, 0 < env_clock E i.
Hypothesis deps : invalidDeps svc || rl_no_requests svc = false.

Lemma has_user_healthy u w :
  is_some (sql_first (fun x => u_id x =? u) (users (w_db w))) = true ->
  (x ← getUserById E u; mret (is_some x)) w = Some (true, after_calls 2 w).
Proof.
  intros Hu. unfold getUserById. eapply run_step_to; [by apply read_row_healthy|]. by rewrite Hu.
Qed.

(** A request between two known users that are neither friends nor waiting
    for an answer is recorded. *)
Lemma SendFriendRequest_healthy context q w :
  let from := sf_from_user_id q in let to := sf_to_user_id q in
  requireInternalRpc svc context = true -> from <> 0 -> to <> 0 -> from <> to ->
  Z.of_nat (String.length (sf_message q)) <= 255 ->
  is_some (sql_first (fun x => u_id x =? from) (users (w_db w))) = true ->
  is_some (sql_first (fun x => u_id x =? to) (users (w_db w))) = true ->
  sql_first (friend_row from to) (friendships (w_db w)) = None ->
  existsb (pending_between from to) (friend_requests (w_db w)) = false ->
  next_request_id (w_db w) <> 0 ->
  exists w' now, SendFriendRequest E svc context q w
    = Some ((granted (sf_request_id q), next_request_id (w_db w)), w') /\
    w_db w' = requested from to (sf_message q) now (w_db w) /\ w_tx w' = w_tx w.
Proof.
  intros from to Ha Hf Ht Hne Hl Hu1 Hu2 Hfr Hp Hn. unfold SendFriendRequest. fold from to. cbv zeta.
  rewrite Ha, deps. cbn [negb].
  replace ((from =? 0) || (to =? 0) || (from =? to) || (255 <? Z.of_nat (String.length (sf_message q))))
    with false by lia.
  pose (now := env_clock E (w_clk w)).
  exists (set_db (requested from to (sf_message q) now (w_db w))
            (after_calls 2 (set_clk (S (w_clk w)) (after_calls 6 w)))), now.
  split; [|done].
  eapply run_step_to.
  { eapply run_step_to; [by apply has_user_healthy|]. cbn. by apply has_user_healthy. }
  cbn [negb]. eapply run_step_to; [unfold isFriend; by apply exists_row_healthy|].
  cbn [w_db after_calls set_ops]. rewrite Hfr. cbn [is_some].
  eapply run_step_to; [reflexivity|]. eapply run_step_to.
  { unfold createRequest. rewrite with_conn_healthy by done. cbn [w_clk after_calls set_ops]. fold now.
    assert ((0 <? now) = true) as -> by (apply Z.ltb_lt, clock_positive).
    eapply run_step_to; [reflexivity|]. eapply run_step_to.
    { apply auto_update_healthy; [done|]. unfold insert_request. cbn. by rewrite Hp. }
    reflexivity. }
  cbn. apply Z.eqb_neq in Hn. rewrite Hn. done.
Qed.

Lemma addFriend_conn_healthy a b w t :
  a <> 0 -> b <> 0 -> a <> b -> w_tx w = Some t ->
  exists now, addFriend_conn E a b w
    = Some (true, set_tx (Some (befriend a b now t)) (after_calls 1 (set_clk (S (w_clk w)) w))).
Proof.
  intros Ha Hb Hab Ht. unfold addFriend_conn, self_or_zero.
  replace (_ || _) with false by lia. exists (env_clock E (w_clk w) / 1000 * 1000).
  eapply run_step_to; [reflexivity|]. unfold update_ok.
  eapply run_step_to; [by eapply tx_update_healthy|reflexivity].
Qed.

Lemma updateStatus_healthy id r w t :
  sql_first (fun x => fr_id x =? id) (friend_requests t) = Some r ->
  fr_status r = FR_PENDING -> w_tx w = Some t ->
  updateStatus_conn E id FR_PENDING FR_ACCEPTED w
  = Some (true, set_tx (Some (handled id FR_ACCEPTED (env_clock E (w_clk w)) t))
                  (after_calls 1 (set_clk (S (w_clk w)) w))).
Proof.
  intros [Hin Hid]%sql_first_spec Hp Ht. unfold updateStatus_conn, update_affects.
  eapply run_step_to; [reflexivity|]. eapply run_step_to; [by eapply tx_update_healthy|].
  assert (0 < sql_affected (fun r => (fr_id r =? id) && (fr_status r =? FR_PENDING))
            (set_request_status FR_ACCEPTED (env_clock E (w_clk w))) (friend_requests t)) as Hn.
  { unfold sql_affected. destruct (filter _ _) eqn:Hf; [exfalso|cbn; lia].
    eapply filter_nil_not_elem_of; [exact Hf| |exact Hin].
    cbv beta. rewrite Hid, Hp. split; [done|].
    intros Hr%(f_equal fr_status). cbn in Hr. by rewrite Hp in Hr. }
  apply Z.ltb_lt in Hn. cbv beta iota zeta delta [mret SM_ret]. by rewrite Hn.
Qed.

(** The transaction of an acceptance. *)
Lemma acceptRequest_healthy id r w :
  sql_first (fun x => fr_id x =? id) (friend_requests (w_db w)) = Some r ->
  fr_status r = FR_PENDING -> fr_from_user_id r <> 0 -> fr_to_user_id r <> 0 ->
  fr_from_user_id r <> fr_to_user_id r -> w_tx w = None ->
  exists w' t0 t1 t2, acceptRequestWithFriendship E id w = Some (true, w') /\
    w_db w' = befriend (fr_to_user_id r) (fr_from_user_id r) t2
                (befriend (fr_from_user_id r) (fr_to_user_id r) t1
                   (handled id FR_ACCEPTED t0 (w_db w))).
Proof.
  intros Hr Hp Hf Ht Hne Htx. pose (t0 := env_clock E (w_clk w)).
  set (w1 := set_tx (Some (w_db w)) (after_calls 1 (after_calls 1 (after_calls 1 w)))).
  set (w2 := set_tx (Some (handled id FR_ACCEPTED t0 (w_db w)))
               (after_calls 1 (set_clk (S (w_clk w)) w1))).
  destruct (addFriend_conn_healthy (fr_from_user_id r) (fr_to_user_id r) w2 _ Hf Ht Hne eq_refl)
    as [t1 H1].
  set (w3 := set_tx _ _) in H1.
  destruct (addFriend_conn_healthy (fr_to_user_id r) (fr_from_user_id r) w3 _ Ht Hf (not_eq_sym Hne)
              eq_refl) as [t2 H2]. set (w4 := set_tx _ _) in H2.
  exists (set_tx None (set_db (befriend (fr_to_user_id r) (fr_from_user_id r) t2
    (befriend (fr_from_user_id r) (fr_to_user_id r) t1 (handled id FR_ACCEPTED t0 (w_db w))))
    (after_calls 1 w4))), t0, t1, t2. split; [|done].
  unfold acceptRequestWithFriendship. rewrite with_conn_healthy by done.
  eapply run_step_to; [by apply row_healthy|]. cbn [w_db after_calls set_ops]. rewrite Hr, Hp.
  cbn [Z.eqb FR_PENDING negb]. apply tx_scope_closed; [|reflexivity].
  eapply run_step_to; [by apply tx_begin_healthy|]. cbn [negb].
  eapply (run_step_to _ _ _ true w2); [by apply (updateStatus_healthy id r w1)|].
  cbn [negb]. eapply (run_step_to _ _ _ true w4); [by eapply run_step_to; [exact H1|]|].
  by apply tx_commit_healthy.
Qed.

Lemma requested_first from to message now d :
  relations_ok d ->
  sql_first (fun x => fr_id x =? next_request_id d) (friend_requests (requested from to message now d))
  = Some (mkFriendRequest (next_request_id d) from to message FR_PENDING now now).
Proof.
  intros Hok. cbn. pose proof (rel_next _ Hok) as Hn. revert Hn. unfold sql_first.
  induction (friend_requests d) as [|r t IH]; intros Hn; cbn; [by rewrite Z.eqb_refl|].
  inversion Hn; subst. replace (fr_id r =? next_request_id d) with false by lia. auto.
Qed.

(** The way to a friendship: on a database that answers, a request
    between two known users who are neither friends nor already waiting is
    recorded, and once its addressee accepts it the two are friends, each of
    the other. *)
Theorem request_then_accept context q request_id w :
  let from := sf_from_user_id q in let to := sf_to_user_id q in
  requireInternalRpc svc context = true -> from <> 0 -> to <> 0 -> from <> to ->
  Z.of_nat (String.length (sf_message q)) <= 255 ->
  is_some (sql_first (fun x => u_id x =? from) (users (w_db w))) = true ->
  is_some (sql_first (fun x => u_id x =? to) (users (w_db w))) = true ->
  sql_first (friend_row from to) (friendships (w_db w)) = None ->
  existsb (pending_between from to) (friend_requests (w_db w)) = false ->
  next_request_id (w_db w) <> 0 -> relations_ok (w_db w) -> w_tx w = None ->
  exists id w1 w2,
    SendFriendRequest E svc context q w = Some ((granted (sf_request_id q), id), w1) /\
    AcceptFriendRequest E svc context (mkHandleRequest request_id to id) w1
    = Some (granted request_id, w2) /\
    befriended (w_db w2) from to /\ befriended (w_db w2) to from.
Proof.
  intros from to Ha Hf Ht Hne Hl Hu1 Hu2 Hfr Hp Hn Hok Htx.
  destruct (SendFriendRequest_healthy context q w Ha Hf Ht Hne Hl Hu1 Hu2 Hfr Hp Hn)
    as (w1&now&Hs&Hd&Htx1). fold from to in Hd. rewrite Htx in Htx1.
  pose proof (requested_first from to (sf_message q) now _ Hok) as Hr. rewrite <- Hd in Hr.
  destruct (acceptRequest_healthy _ _ (after_calls 2 w1) Hr eq_refl Hf Ht Hne Htx1)
    as (w2&t0&t1&t2&Hacc&Hd2).
  exists (next_request_id (w_db w)), w1, w2. split_and!; [exact Hs|..].
  - unfold AcceptFriendRequest. cbn [hr_request_id hr_user_id hr_friend_request_id]. cbv zeta.
    rewrite Ha, deps. cbn [negb]. eapply run_step_to; [unfold getByRequestId; by apply read_row_healthy|].
    rewrite Hr. cbn [fr_to_user_id fr_status]. rewrite Z.eqb_refl. cbn [negb Z.eqb FR_PENDING].
    by eapply run_step_to; [exact Hacc|].
  - rewrite Hd2, !befriend_spec. by auto.
  - rewrite Hd2, !befriend_spec. by auto.
Qed.

End Healthy_service.

Lemma request_then_accept_witness :
  exists id w1 w2,
    SendFriendRequest (sample_env healthy) sample_relations sample_context
      (mkSendFriendRequest "r" 7 8 "hi") (world_of sample_db) = Some ((granted "r", id), w1) /\
    AcceptFriendRequest (sample_env healthy) sample_relations sample_context
      (mkHandleRequest "s" 8 id) w1 = Some (granted "s", w2) /\
    befriended (w_db w2) 7 8 /\ befriended (w_db w2) 8 7.
Proof.
  apply (request_then_accept (sample_env healthy) sample_relations (fun _ => eq_refl)
           (fun i => ltac:(cbn; lia)) eq_refl sample_context (mkSendFriendRequest "r" 7 8 "hi") "s"
           (world_of sample_db));
    first [by apply sample_relations_ok | by vm_compute | by intros ?].
Defined.

(** ** Groups *)

(** A group appears together with its owner or not at all: when
    CreateGroup answers OK, and also when the answer of the commit was lost,
    the tables have exactly one more group, under a fresh id, and one more
    member, its owner with the owner's role; otherwise nothing changed. *)
Theorem create_group_atomic E svc context q w resp w' :
  CreateGroup E svc context q w = Some (resp, w') ->
  (exists now, w_db w' = founded (cg_group_name q) (cg_owner_id q) now (w_db w)) \/
  (r_code resp.1 <> 0 /\ w_db w' = w_db w).
Proof.
  intros H. destruct (CreateGroup_run _ _ _ _ _ _ _ H) as [(now&_&Hd)|[Hc Hd]]; [eauto|].
  right. split; [|done]. by apply Z.eqb_neq.
Qed.

Lemma create_group_atomic_witness :
  answer_of (CreateGroup (sample_env (once 6 Lost)) sample_relations sample_context
               (mkCreateGroup "r" 7 "club") (world_of sample_db))
    (fun resp w' => r_code resp.1 = 4000 /\ groups (w_db w') <> groups sample_db /\
       ((exists now, w_db w' = founded "club" 7 now sample_db) \/
        (r_code resp.1 <> 0 /\ w_db w' = sample_db))).
Proof.
  destruct (CreateGroup _ _ _ _ _) as [[resp w']|] eqn:H; [|by vm_compute in H]. split_and!.
  - vm_compute in H. by injection H as <- <-.
  - vm_compute in H. injection H as <- <-. intros Hg. by vm_compute in Hg.
  - exact (create_group_atomic _ _ _ _ _ _ _ H).
Defined.

(** The check that keeps an owner from leaving is only as good as its
    query: if the lookup of the owner's role fails, the owner of the group
    leaves it and is told OK, while the group keeps naming them as its owner. *)
Theorem owner_leaves_on_failed_lookup :
  answer_of (LeaveGroup (sample_env healthy) sample_relations sample_context
               (mkGroupRequest "r" 7 5) (world_of sample_db))
    (fun resp w' => r_code resp = 7104 /\ w_db w' = sample_db) /\
  answer_of (LeaveGroup (sample_env (once 5 Refused)) sample_relations sample_context
               (mkGroupRequest "r" 7 5) (world_of sample_db))
    (fun resp w' => r_code resp = 0 /\ groups (w_db w') = [mkGroupRow 5 "team" 7 1 1] /\
       existsb (same_member 5 7) (group_members (w_db w')) = false).
Proof. by vm_compute. Qed.
