(* ===== verification/Breaker.v ===== *)
(** * The circuit breaker (common/circuitbreaker)

    [CircuitBreaker] and the [CircuitBreakerManager] that keeps one per name.
    The three-state machine is shown to be the same, to its callers, as one
    test on the history of the calls: how many failures there were since the
    last success, and how long ago the last one was. *)

From S2P Require Import Prelude Words.

Local Open Scope Z_scope.

Module CircuitBreaker.

Inductive CircuitBreakerState := CLOSED | OPEN | HALF_OPEN.

#[global] Instance state_eq_dec : EqDecision CircuitBreakerState.
Proof. solve_decision. Defined.

Record CircuitBreaker := mkBreaker {
  failure_threshold : Z;
  open_timeout_ms : Z;
  state : CircuitBreakerState;
  failure_count : Z;
  opened_at_ms : Z
}.

Definition CircuitBreaker_new (threshold timeout : Z) : CircuitBreaker :=
  mkBreaker (if threshold =? 0 then 1 else threshold) (if 0 <? timeout then timeout else 30000)
    CLOSED 0 0.

Definition allowRequest (now : Z) (b : CircuitBreaker) : bool * CircuitBreaker :=
  match state b with
  | CLOSED => (true, b)
  | HALF_OPEN => (true, b)
  | OPEN =>
      if open_timeout_ms b <=? now - opened_at_ms b
      then (true, mkBreaker (failure_threshold b) (open_timeout_ms b) HALF_OPEN (failure_count b)
                    (opened_at_ms b))
      else (false, b)
  end.

Definition recordSuccess (b : CircuitBreaker) : CircuitBreaker :=
  mkBreaker (failure_threshold b) (open_timeout_ms b) CLOSED 0 0.

(** The counter is a [size_t]. *)
Definition recordFailure (now : Z) (b : CircuitBreaker) : CircuitBreaker :=
  let count := u64 (failure_count b + 1) in
  if bool_decide (state b = HALF_OPEN) || (failure_threshold b <=? count)
  then mkBreaker (failure_threshold b) (open_timeout_ms b) OPEN count now
  else mkBreaker (failure_threshold b) (open_timeout_ms b) (state b) count (opened_at_ms b).

End CircuitBreaker.
Export CircuitBreaker.

(** ** Histories *)

(** A call to the breaker and the time on the steady clock. *)
Inductive event := Allow (now : Z) | Success (now : Z) | Failure (now : Z).

Definition event_time (e : event) : Z :=
  match e with Allow t | Success t | Failure t => t end.

Definition apply_event (e : event) (b : CircuitBreaker) : CircuitBreaker :=
  match e with
  | Allow now => snd (allowRequest now b)
  | Success _ => recordSuccess b
  | Failure now => recordFailure now b
  end.

(** Histories have the latest call first. *)
Fixpoint replay (h : list event) (b : CircuitBreaker) : CircuitBreaker :=
  match h with
  | [] => b
  | e :: h => apply_event e (replay h b)
  end.

(** The failures since the last success, and the time of the last of them. *)
Fixpoint failures (h : list event) : Z :=
  match h with
  | [] | Success _ :: _ => 0
  | Allow _ :: h => failures h
  | Failure _ :: h => failures h + 1
  end.

Fixpoint last_failure (h : list event) : Z :=
  match h with
  | [] | Success _ :: _ => 0
  | Allow _ :: h => last_failure h
  | Failure t :: _ => t
  end.

(** The clock does not go backwards; [now] is not before the last call. *)
Fixpoint ordered (now : Z) (h : list event) : Prop :=
  match h with
  | [] => True
  | e :: h => event_time e <= now /\ ordered (event_time e) h
  end.

(** The promise of the breaker. *)
Definition admits (threshold timeout now : Z) (h : list event) : bool :=
  (failures h <? threshold) || (timeout <=? now - last_failure h).

Lemma failures_bounds h : 0 <= failures h <= Z.of_nat (length h).
Proof. induction h as [|[] h IH]; cbn; lia. Qed.

(** What the state says of the history. *)
Record replay_agrees (threshold timeout now : Z) (h : list event) (b : CircuitBreaker) : Prop := {
  rp_threshold : failure_threshold b = threshold;
  rp_timeout : open_timeout_ms b = timeout;
  rp_count : failure_count b = failures h;
  rp_opened : state b <> CLOSED -> opened_at_ms b = last_failure h;
  rp_closed : state b = CLOSED <-> failures h < threshold;
  rp_half : state b = HALF_OPEN -> timeout <= now - last_failure h
}.

Lemma replayed_later threshold timeout now now' h b :
  now <= now' -> replay_agrees threshold timeout now h b -> replay_agrees threshold timeout now' h b.
Proof. intros Hn [????? Hh]. split; try done. intros H. specialize (Hh H). lia. Qed.

#[local] Ltac breaker :=
  split; cbn; intuition (first [lia | congruence]).

Lemma replayed_event threshold timeout e h b :
  0 < threshold -> 0 <= failures h -> failures h + 1 < 2 ^ 64 ->
  replay_agrees threshold timeout (event_time e) h b ->
  replay_agrees threshold timeout (event_time e) (e :: h) (apply_event e b).
Proof.
  destruct b as [th to s n o]. intros Ht H0 Hn [H1 H2 H3 H4 H5 H6]. cbn in *. subst.
  destruct e as [t|t|t]; cbn [apply_event event_time] in *.
  - unfold allowRequest. destruct s; cbn; [by breaker| |by breaker].
    rewrite (H4 ltac:(done)) in *. destruct (timeout <=? t - last_failure h) eqn:Hx; breaker.
  - unfold recordSuccess. breaker.
  - unfold recordFailure. cbn. unfold u64. rewrite Z.mod_small by lia.
    destruct (bool_decide_reflect (s = HALF_OPEN)) as [->|Hs]; cbn.
    { assert (~ failures h < threshold) by (by intros ?%H5). breaker. }
    destruct (threshold <=? failures h + 1) eqn:Hx; [by breaker|].
    assert (s = CLOSED) as -> by (apply H5; lia). breaker.
Qed.

Lemma replay_replayed threshold timeout now h :
  0 < threshold -> 0 < timeout -> Z.of_nat (length h) < 2 ^ 64 -> ordered now h ->
  replay_agrees threshold timeout now h (replay h (CircuitBreaker_new threshold timeout)).
Proof.
  intros Ht Hto. revert now. induction h as [|e h IH]; intros now Hl Ho.
  { cbn. unfold CircuitBreaker_new. assert ((threshold =? 0) = false) as -> by lia.
    assert ((0 <? timeout) = true) as -> by lia. breaker. }
  destruct Ho as [Hle Ho]. pose proof (failures_bounds h). cbn [length] in Hl.
  eapply replayed_later; [exact Hle|]. apply replayed_event; [lia..|]. apply IH; [lia|done].
Qed.

Lemma allowRequest_admits threshold timeout now h :
  0 < threshold -> 0 < timeout -> Z.of_nat (length h) < 2 ^ 64 -> ordered now h ->
  fst (allowRequest now (replay h (CircuitBreaker_new threshold timeout)))
  = admits threshold timeout now h.
Proof.
  intros Ht Hto Hl Ho. destruct (replay_replayed _ _ _ _ Ht Hto Hl Ho) as [_ H2 _ H4 H5 H6].
  destruct (replay h _) as [th to s n o]. cbn in *. subst. unfold allowRequest, admits. cbn.
  destruct s; cbn.
  - assert (failures h < threshold) by (by apply H5). lia.
  - assert (~ failures h < threshold) by (by intros ?%H5).
    rewrite H4 by done. destruct (timeout <=? now - last_failure h); cbn; lia.
  - specialize (H6 eq_refl). lia.
Qed.

(** ** One breaker per name *)

Module CircuitBreakerManager.

(** [getBreaker] creates the breaker with the default settings. *)
Definition getBreaker (name : string) (m : gmap string CircuitBreaker) : CircuitBreaker :=
  default (CircuitBreaker_new 5 30000) (m !! name).

Definition manager_allowRequest (name : string) (now : Z) (m : gmap string CircuitBreaker) : bool * gmap string CircuitBreaker :=
  let (ok, b) := allowRequest now (getBreaker name m) in (ok, <[name := b]> m).

Definition manager_recordSuccess (name : string) (m : gmap string CircuitBreaker) : gmap string CircuitBreaker :=
  <[name := recordSuccess (getBreaker name m)]> m.

Definition manager_recordFailure (name : string) (now : Z) (m : gmap string CircuitBreaker) : gmap string CircuitBreaker :=
  <[name := recordFailure now (getBreaker name m)]> m.

Definition manager_event (name : string) (e : event) (m : gmap string CircuitBreaker) : gmap string CircuitBreaker :=
  match e with
  | Allow now => snd (manager_allowRequest name now m)
  | Success _ => manager_recordSuccess name m
  | Failure now => manager_recordFailure name now m
  end.

Fixpoint manager_replay (h : list (string * event)) (m : gmap string CircuitBreaker) : gmap string CircuitBreaker :=
  match h with
  | [] => m
  | (name, e) :: h => manager_event name e (manager_replay h m)
  end.

(** The calls under one name. *)
Definition calls_of (name : string) (h : list (string * event)) : list event :=
  snd <$> filter (fun x => x.1 = name) h.

Lemma manager_event_insert name e m :
  manager_event name e m = <[name := apply_event e (getBreaker name m)]> m.
Proof.
  destruct e; cbn; [|done|done]. unfold manager_allowRequest.
  by destruct (allowRequest now (getBreaker name m)).
Qed.

Lemma manager_replay_name name h :
  getBreaker name (manager_replay h ∅) = replay (calls_of name h) (CircuitBreaker_new 5 30000).
Proof.
  unfold calls_of. induction h as [|[n e] h IH]; [done|]. cbn [manager_replay].
  rewrite manager_event_insert, filter_cons. cbn [fst]. destruct (decide (n = name)) as [->|Hn].
  - unfold getBreaker at 1. rewrite lookup_insert_eq. cbn. by rewrite IH.
  - unfold getBreaker at 1. rewrite lookup_insert_ne by done. exact IH.
Qed.

End CircuitBreakerManager.
Export CircuitBreakerManager.

(** The circuit breaker keeps its promise: after any history of calls on
    a clock that does not go backwards, a request is refused exactly when at
    least [threshold] failures were recorded since the last success and the
    last of them is less than the timeout ago. *)
Theorem breaker_refines_history threshold timeout now h :
  0 < threshold -> 0 < timeout -> Z.of_nat (length h) < 2 ^ 64 -> ordered now h ->
  fst (allowRequest now (replay h (CircuitBreaker_new threshold timeout)))
  = admits threshold timeout now h.
Proof. apply allowRequest_admits. Qed.

(** Two failures open it; the probe at 130 fails, so 150 is refused too. *)
Lemma breaker_refines_history_witness :
  let h := [Failure 131; Allow 130; Allow 20; Failure 11; Failure 10; Success 9] in
  fst (allowRequest 150 (replay h (CircuitBreaker_new 2 100))) = false /\
  fst (allowRequest 150 (replay h (CircuitBreaker_new 2 100))) = admits 2 100 150 h.
Proof.
  intros h. split; [reflexivity|].
  apply (breaker_refines_history 2 100 150 h); [lia|lia|vm_compute; done|]. cbn. lia.
Defined.

(** Breakers of different names do not affect each other: the manager
    refuses a request under a name exactly when at least five failures were
    recorded under that name since its last success there and the last of
    them is less than 30 seconds ago. *)
Theorem manager_isolates_names name now (h : list (string * event)) :
  Z.of_nat (length h) < 2 ^ 64 -> ordered now (calls_of name h) ->
  fst (manager_allowRequest name now (manager_replay h ∅)) = admits 5 30000 now (calls_of name h).
Proof.
  intros Hl Ho. unfold manager_allowRequest. rewrite manager_replay_name.
  rewrite <- allowRequest_admits; [|lia|lia| |done].
  - by destruct (allowRequest _ _).
  - unfold calls_of. rewrite length_fmap. pose proof (length_filter (fun x => x.1 = name) h). lia.
Qed.

Lemma manager_isolates_names_witness :
  let h := (("a", Failure 7) :: replicate 5 ("b", Failure 8))%string in
  fst (manager_allowRequest "b" 9 (manager_replay h ∅)) = admits 5 30000 9 (calls_of "b" h) /\
  admits 5 30000 9 (calls_of "b" h) = false /\ admits 5 30000 9 (calls_of "a" h) = true.
Proof.
  intros h. split; [|by vm_compute].
  apply (manager_isolates_names "b" 9 h); [vm_compute; done|]. vm_compute. done.
Defined.
