(* ===== verification/Redis.v ===== *)
(** * Redis: what the program relies on, and its client

    The server is not part of the program.  [RedisServer] is an interface: a
    state, the execution of a command at a time of the server's clock, and the
    content of a key as a reader sees it at a time.  [RedisLaws] states the
    documented effect of the commands the program uses in terms of the
    content.  [RedisClient] (common/redis/RedisClient.cpp) is translated on
    top of the interface.  A server on a finite map shows that the laws can
    hold. *)

From S2P Require Import Prelude Words Text MessageId Db.

(** ** The server *)

Inductive redis_command :=
| SET (key value : string)
| SETEX (key : string) (ttl_seconds : Z) (value : string)
| GET (key : string)
| DEL (key : string)
| EXISTS (key : string)
| EXPIRE (key : string) (ttl_seconds : Z)
| INCR (key : string)
| SADD (key member : string)
| SREM (key member : string)
| SMEMBERS (key : string)
| SCARD (key : string)
| SCAN (cursor pattern : string) (count : Z)
| PING_SERVER.

Inductive redis_reply :=
| ReplyStatus (text : string)
| ReplyNil
| ReplyString (text : string)
| ReplyInteger (value : Z)
| ReplyArray (elements : list string)
| ReplyScan (cursor : string) (keys : list string)   (** an array of a string and an array *)
| ReplyError (text : string).

Inductive content := StringContent (value : string) | SetContent (members : gset string).

(** INCR reads a value that is the decimal form of a 64-bit integer. *)
Definition redis_integer (s : string) : option Z :=
  n ← stoull s;
  if bool_decide (to_string n = s) && (n <? 9223372036854775807) then Some n else None.

Class RedisServer := {
  redis_state : Type;
  redis_exec : Z -> redis_command -> redis_state -> redis_reply * redis_state;
  redis_content : Z -> redis_state -> string -> option content
}.

(** From time [t] on, the content of [key] is [f] and other keys are as before. *)
Definition only_key `{RedisServer} (t : Z) (key : string) (f : Z -> option content)
    (s s' : redis_state) : Prop :=
  forall t' k, t <= t' ->
  redis_content t' s' k = if bool_decide (k = key) then f t' else redis_content t' s k.

Definition same_content `{RedisServer} (t : Z) (s s' : redis_state) : Prop :=
  forall t' k, t <= t' -> redis_content t' s' k = redis_content t' s k.

(** What a reader of a time limit sees. *)
Definition until (deadline : Z) (c : content) (t : Z) : option content :=
  if t <? deadline then Some c else None.

Class RedisLaws (S : RedisServer) : Prop := {
  (** A key may expire; it does not appear or change by itself. *)
  redis_expires t t' s k c : t <= t' -> redis_content t' s k = Some c -> redis_content t s k = Some c;
  redis_get t s k r s' : redis_exec t (GET k) s = (r, s') ->
    same_content t s s' /\
    match redis_content t s k with
    | Some (StringContent v) => r = ReplyString v
    | Some (SetContent _) => exists text, r = ReplyError text
    | None => r = ReplyNil
    end;
  redis_setex t s k ttl v r s' : redis_exec t (SETEX k ttl v) s = (r, s') ->
    if 0 <? ttl
    then r = ReplyStatus "OK" /\ only_key t k (until (t + ttl * 1000) (StringContent v)) s s'
    else (exists text, r = ReplyError text) /\ same_content t s s';
  redis_del t s k r s' : redis_exec t (DEL k) s = (r, s') ->
    r = ReplyInteger (if is_some (redis_content t s k) then 1 else 0) /\ only_key t k (fun _ => None) s s';
  redis_exists t s k r s' : redis_exec t (EXISTS k) s = (r, s') ->
    r = ReplyInteger (if is_some (redis_content t s k) then 1 else 0) /\ same_content t s s';
  redis_expire t s k ttl r s' : redis_exec t (EXPIRE k ttl) s = (r, s') -> 0 < ttl ->
    match redis_content t s k with
    | Some c => r = ReplyInteger 1 /\ only_key t k (until (t + ttl * 1000) c) s s'
    | None => r = ReplyInteger 0 /\ same_content t s s'
    end;
  redis_incr t s k r s' : redis_exec t (INCR k) s = (r, s') ->
    match redis_content t s k with
    | None => r = ReplyInteger 1 /\ only_key t k (fun _ => Some (StringContent "1")) s s'
    | Some (StringContent v) =>
        match redis_integer v with
        | Some n => r = ReplyInteger (n + 1) /\
            only_key t k (fun t' => _ ← redis_content t' s k;
                                    Some (StringContent (to_string (n + 1)))) s s'
        | None => (exists text, r = ReplyError text) /\ same_content t s s'
        end
    | Some (SetContent _) => (exists text, r = ReplyError text) /\ same_content t s s'
    end;
  redis_sadd t s k m r s' : redis_exec t (SADD k m) s = (r, s') ->
    match redis_content t s k with
    | None => r = ReplyInteger 1 /\ only_key t k (fun _ => Some (SetContent {[m]})) s s'
    | Some (SetContent X) => r = ReplyInteger (if bool_decide (m ∈ X) then 0 else 1) /\
        only_key t k (fun t' => _ ← redis_content t' s k; Some (SetContent ({[m]} ∪ X))) s s'
    | Some (StringContent _) => (exists text, r = ReplyError text) /\ same_content t s s'
    end;
  redis_srem t s k m r s' : redis_exec t (SREM k m) s = (r, s') ->
    match redis_content t s k with
    | None => r = ReplyInteger 0 /\ same_content t s s'
    | Some (SetContent X) => r = ReplyInteger (if bool_decide (m ∈ X) then 1 else 0) /\
        only_key t k (fun t' => _ ← redis_content t' s k;
          if bool_decide (X ∖ {[m]} = ∅) then None else Some (SetContent (X ∖ {[m]}))) s s'
    | Some (StringContent _) => (exists text, r = ReplyError text) /\ same_content t s s'
    end;
  redis_smembers t s k r s' : redis_exec t (SMEMBERS k) s = (r, s') ->
    same_content t s s' /\
    match redis_content t s k with
    | None => r = ReplyArray []
    | Some (SetContent X) => exists l, r = ReplyArray l /\ l ≡ₚ elements X
    | Some (StringContent _) => exists text, r = ReplyError text
    end;
  redis_scan t s cursor pattern n r s' : redis_exec t (SCAN cursor pattern n) s = (r, s') -> same_content t s s';
  redis_ping t s r s' : redis_exec t PING_SERVER s = (r, s') -> same_content t s s'
}.

(** ** The client

    The program's side: its database world, the server's state and the number
    of commands sent.  [re_redis] says how the [n]-th command ends, [re_time]
    when the server runs it. *)

Record REnv := mkREnv {
  re_db : Env;
  re_redis : nat -> outcome;
  re_time : nat -> Z
}.

Section Client.
Context `{RedisServer}.

Record rworld := mkRworld {
  rw_world : world;
  rw_redis : redis_state;
  rw_cmds : nat
}.

Definition R (A : Type) : Type := SM rworld A.

Definition set_world (w : world) (r : rworld) : rworld := mkRworld w (rw_redis r) (rw_cmds r).

(** Code that only uses the database world. *)
Definition db {A} (m : M A) : R A := zoom rw_world set_world m.

Context (E : REnv).

(** [RedisClient::command]: [None] is a null reply; the command may have been
    executed all the same. *)
Definition command (c : redis_command) : R (option redis_reply) :=
  fun r =>
    let i := rw_cmds r in
    let (reply, s) := redis_exec (re_time E i) c (rw_redis r) in
    match re_redis E i with
    | Done => Some (Some reply, mkRworld (rw_world r) s (S i))
    | Lost => Some (None, mkRworld (rw_world r) s (S i))
    | Refused => Some (None, mkRworld (rw_world r) (rw_redis r) (S i))
    end.

Definition checkStatus (reply : option redis_reply) : bool :=
  match reply with Some (ReplyStatus text) => bool_decide (text = "OK") | _ => false end.

Definition stringReply (reply : option redis_reply) : option string :=
  match reply with
  | Some (ReplyString text) | Some (ReplyStatus text) => Some text
  | _ => None
  end.

Definition arrayReply (reply : option redis_reply) : list string :=
  match reply with Some (ReplyArray elements) => elements | _ => [] end.

(** The reply of a command that answers with an integer. *)
Definition integer_ok (P : Z -> bool) (reply : option redis_reply) : bool :=
  match reply with Some (ReplyInteger n) => P n | _ => false end.

Definition rc_set (key value : string) : R bool :=
  reply ← command (SET key value); mret (checkStatus reply).
Definition rc_setEx (key : string) (ttl_seconds : Z) (value : string) : R bool :=
  reply ← command (SETEX key ttl_seconds value); mret (checkStatus reply).
Definition rc_get (key : string) : R (option string) :=
  reply ← command (GET key); mret (stringReply reply).
Definition rc_del (key : string) : R bool :=
  reply ← command (DEL key); mret (integer_ok (fun n => 0 <=? n) reply).
Definition rc_exists (key : string) : R bool :=
  reply ← command (EXISTS key); mret (integer_ok (fun n => n =? 1) reply).
Definition rc_expire (key : string) (ttl_seconds : Z) : R bool :=
  reply ← command (EXPIRE key ttl_seconds); mret (integer_ok (fun n => n =? 1) reply).
Definition rc_incr (key : string) : R Z :=
  reply ← command (INCR key);
  mret (match reply with Some (ReplyInteger n) => n | _ => -1 end).
Definition rc_sadd (key member : string) : R bool :=
  reply ← command (SADD key member); mret (integer_ok (fun n => 0 <=? n) reply).
Definition rc_srem (key member : string) : R bool :=
  reply ← command (SREM key member); mret (integer_ok (fun n => 0 <=? n) reply).
Definition rc_scard (key : string) : R Z :=
  reply ← command (SCARD key);
  mret (match reply with Some (ReplyInteger n) => n | _ => -1 end).
Definition rc_smembers (key : string) : R (list string) :=
  reply ← command (SMEMBERS key); mret (arrayReply reply).

(** [scan] goes on until the server's cursor is 0 again; [fuel] bounds the
    number of commands, and a loop that needs more does not return. *)
Fixpoint scan_from (fuel : nat) (cursor pattern : string) (count : Z) : R (list string) :=
  match fuel with
  | O => fun _ => None
  | S fuel =>
      reply ← command (SCAN cursor pattern count);
      match reply with
      | Some (ReplyScan cursor keys) =>
          if bool_decide (cursor = "0") then mret keys
          else rest ← scan_from fuel cursor pattern count; mret (keys ++ rest)
      | _ => mret []
      end
  end.
Definition rc_scan (fuel : nat) (pattern : string) (count : Z) : R (list string) :=
  scan_from fuel "0" pattern count.

Definition rc_ping : R bool :=
  reply ← command PING_SERVER;
  mret (match reply with Some (ReplyStatus text) => bool_decide (text = "PONG") | _ => false end).

End Client.

#[global] Arguments rworld {_}.
#[global] Arguments R {_} _.

(** ** A server on a finite map *)

Module MapServer.

(** A value and the time it expires at. *)
Abbreviation store := (gmap string (content * option Z)).

Definition live (t : Z) (deadline : option Z) : bool :=
  match deadline with Some d => t <? d | None => true end.

Definition find (t : Z) (s : store) (k : string) : option (content * option Z) :=
  match s !! k with Some (c, d) => if live t d then Some (c, d) else None | None => None end.

Definition wrong_type : redis_reply := ReplyError "WRONGTYPE".

Definition put_set (k : string) (X : gset string) (d : option Z) (s : store) : store :=
  if bool_decide (X = ∅) then delete k s else <[k := (SetContent X, d)]> s.

(** Patterns of the form [prefix*]; every other one matches itself. *)
Fixpoint matches (pattern k : string) : bool :=
  match pattern, k with
  | String "*" EmptyString, _ => true
  | String c pattern, String c' k => bool_decide (c = c') && matches pattern k
  | EmptyString, EmptyString => true
  | _, _ => false
  end.

Definition exec (t : Z) (c : redis_command) (s : store) : redis_reply * store :=
  match c with
  | SET k v => (ReplyStatus "OK", <[k := (StringContent v, None)]> s)
  | SETEX k ttl v =>
      if 0 <? ttl then (ReplyStatus "OK", <[k := (StringContent v, Some (t + ttl * 1000))]> s)
      else (ReplyError "invalid expire time", s)
  | GET k =>
      match find t s k with
      | Some (StringContent v, _) => (ReplyString v, s)
      | Some (SetContent _, _) => (wrong_type, s)
      | None => (ReplyNil, s)
      end
  | DEL k => (ReplyInteger (if is_some (find t s k) then 1 else 0), delete k s)
  | EXISTS k => (ReplyInteger (if is_some (find t s k) then 1 else 0), s)
  | EXPIRE k ttl =>
      match find t s k with
      | Some (c, _) => (ReplyInteger 1, if 0 <? ttl then <[k := (c, Some (t + ttl * 1000))]> s else delete k s)
      | None => (ReplyInteger 0, s)
      end
  | INCR k =>
      match find t s k with
      | None => (ReplyInteger 1, <[k := (StringContent "1", None)]> s)
      | Some (StringContent v, d) =>
          match redis_integer v with
          | Some n => (ReplyInteger (n + 1), <[k := (StringContent (to_string (n + 1)), d)]> s)
          | None => (ReplyError "not an integer", s)
          end
      | Some (SetContent _, _) => (wrong_type, s)
      end
  | SADD k m =>
      match find t s k with
      | None => (ReplyInteger 1, <[k := (SetContent {[m]}, None)]> s)
      | Some (SetContent X, d) =>
          (ReplyInteger (if bool_decide (m ∈ X) then 0 else 1), <[k := (SetContent ({[m]} ∪ X), d)]> s)
      | Some (StringContent _, _) => (wrong_type, s)
      end
  | SREM k m =>
      match find t s k with
      | None => (ReplyInteger 0, s)
      | Some (SetContent X, d) =>
          (ReplyInteger (if bool_decide (m ∈ X) then 1 else 0), put_set k (X ∖ {[m]}) d s)
      | Some (StringContent _, _) => (wrong_type, s)
      end
  | SMEMBERS k =>
      match find t s k with
      | None => (ReplyArray [], s)
      | Some (SetContent X, _) => (ReplyArray (elements X), s)
      | Some (StringContent _, _) => (wrong_type, s)
      end
  | SCARD k =>
      match find t s k with
      | None => (ReplyInteger 0, s)
      | Some (SetContent X, _) => (ReplyInteger (Z.of_nat (size X)), s)
      | Some (StringContent _, _) => (wrong_type, s)
      end
  | SCAN _ pattern _ => (ReplyScan "0" (filter (fun k => matches pattern k = true) (fst <$> map_to_list s)), s)
  | PING_SERVER => (ReplyStatus "PONG", s)
  end.

#[export] Instance server : RedisServer := {|
  redis_state := store;
  redis_exec := exec;
  redis_content t s k := fst <$> find t s k
|}.

Lemma find_insert t s k c d k' :
  find t (<[k := (c, d)]> s) k' =
  if bool_decide (k' = k) then (if live t d then Some (c, d) else None) else find t s k'.
Proof.
  unfold find. case_bool_decide as Hk; [subst; by rewrite lookup_insert_eq|].
  by rewrite lookup_insert_ne by done.
Qed.

Lemma find_delete t s k k' :
  find t (delete k s) k' = if bool_decide (k' = k) then None else find t s k'.
Proof.
  unfold find. case_bool_decide as Hk; [subst; by rewrite lookup_delete_eq|].
  by rewrite lookup_delete_ne by done.
Qed.

(** A key that is seen later is seen before, with the same deadline. *)
Lemma find_later t t' s k x : t <= t' -> find t' s k = Some x -> find t s k = Some x.
Proof.
  unfold find. intros Ht. destruct (s !! k) as [[c [d|]]|]; cbn; [|done|done].
  destruct (t' <? d) eqn:H'; [|done]. assert ((t <? d) = true) as -> by lia. done.
Qed.

(** What is read at [t] is there until its deadline. *)
Lemma find_until t t' s k c d :
  t <= t' -> find t s k = Some (c, d) -> find t' s k = if live t' d then Some (c, d) else None.
Proof.
  unfold find. intros Ht. destruct (s !! k) as [[c' d']|]; [|done].
  destruct (live t d'); [|done]. by intros [= -> ->].
Qed.

#[local] Ltac serve :=
  intros t' k' Ht'; cbn; rewrite ?find_insert, ?find_delete;
  case_bool_decide; subst; try done.

#[export] Instance laws : RedisLaws server.
Proof.
  split; cbn; unfold only_key, same_content; cbn.
  - intros t t' s k c Ht Hc. apply fmap_Some in Hc as (x&Hx&->). by rewrite (find_later _ _ _ _ _ Ht Hx).
  - intros t s k r s'. destruct (find t s k) as [[[v|X] d]|]; intros [= <- <-]; cbn; eauto.
  - intros t s k ttl v r s'. destruct (0 <? ttl); intros [= <- <-]; [|eauto].
    split; [done|]. serve. unfold until. cbn. by destruct (t' <? _).
  - intros t s k r s' [= <- <-]. split; [by destruct (find t s k)|serve].
  - intros t s k r s' [= <- <-]. split; [by destruct (find t s k)|done].
  - intros t s k ttl r s' Hx Hl. apply Z.ltb_lt in Hl. rewrite Hl in Hx.
    destruct (find t s k) as [[c d]|]; injection Hx as <- <-; cbn; [|done].
    split; [done|]. serve. unfold until. cbn. by destruct (t' <? _).
  - intros t s k r s'. destruct (find t s k) as [[[v|X] d]|] eqn:Hf; cbn.
    + destruct (redis_integer v) as [n|]; intros [= <- <-]; [|eauto]. split; [done|]. serve.
      rewrite (find_until _ _ _ _ _ _ Ht' Hf). by destruct (live t' d).
    + intros [= <- <-]. eauto.
    + intros [= <- <-]. split; [done|serve].
  - intros t s k m r s'. destruct (find t s k) as [[[v|X] d]|] eqn:Hf; cbn; intros [= <- <-].
    + eauto.
    + split; [done|]. serve. rewrite (find_until _ _ _ _ _ _ Ht' Hf). by destruct (live t' d).
    + split; [done|serve].
  - intros t s k m r s'. destruct (find t s k) as [[[v|X] d]|] eqn:Hf; cbn; intros [= <- <-].
    + eauto.
    + split; [done|]. unfold put_set. intros t' k' Ht'. cbn.
      case_bool_decide as HX; rewrite ?find_delete, ?find_insert;
        case_bool_decide; subst; try done.
      all: rewrite (find_until _ _ _ _ _ _ Ht' Hf); by destruct (live t' d).
    + done.
  - intros t s k r s'. destruct (find t s k) as [[[v|X] d]|]; intros [= <- <-]; cbn; eauto.
  - by intros t s cursor pattern n r s' [= _ <-].
  - by intros t s r s' [= _ <-].
Qed.

End MapServer.
