(* ===== verification/Push.v ===== *)
(** * The push service

    push_service/src/PushWorker.cpp and PushServiceImpl.cpp, and
    common/push: [OnlineStatusManager], [PushRetryManager], [GatewayClient],
    [GatewayClientManager] and [PushDispatcher].  Kafka's log and the answers
    of the gateways are parameters; log lines and trace spans are left out. *)

From S2P Require Import Prelude Words Text MessageId Rpc Db MessageStore Directory MessageService.
From S2P Require Import Breaker Redis.

Module OnlineStatusManager.

Record OnlineStatus := mkOnlineStatus {
  os_online : bool; os_gateway_id : string; os_connection_id : string; os_device_id : string
}.

Definition devicesKey (user_id : Z) : string := "nebula:user:devices:" +:+ to_string user_id.
Definition onlineKey (user_id : Z) (device_id : string) : string :=
  "nebula:user:online:" +:+ to_string user_id +:+ ":" +:+ device_id.
Definition connKey (user_id : Z) (device_id : string) : string :=
  "nebula:user:conn:" +:+ to_string user_id +:+ ":" +:+ device_id.

Section Manager.
Context `{RedisServer} (E : REnv) (no_redis : bool).

(** One turn of the loop over the devices; a device without both keys is
    taken off the set. *)
Definition device_status (user_id : Z) (device_id : string) : R (list OnlineStatus) :=
  gateway ← rc_get E (onlineKey user_id device_id);
  conn ← rc_get E (connKey user_id device_id);
  match gateway, conn with
  | Some gateway, Some conn => mret [mkOnlineStatus true gateway conn device_id]
  | _, _ => rc_srem E (devicesKey user_id) device_id;; mret []
  end.

Definition getOnlineStatuses (user_id : Z) : R (list OnlineStatus) :=
  if no_redis || (user_id =? 0) then mret []
  else
    devices ← rc_smembers E (devicesKey user_id);
    statuses ← mapM (device_status user_id) devices;
    mret (concat statuses).

Definition getOnlineStatus (user_id : Z) : R OnlineStatus :=
  let offline := mkOnlineStatus false EmptyString EmptyString EmptyString in
  if no_redis || (user_id =? 0) then mret offline
  else
    statuses ← getOnlineStatuses user_id;
    mret (default offline (head statuses)).

Definition osm_setOnline (user_id : Z) (device_id gateway_id connection_id : string)
    (ttl_seconds : Z) : R bool :=
  if no_redis || (user_id =? 0) || bool_decide (device_id = EmptyString) ||
     bool_decide (gateway_id = EmptyString) || bool_decide (connection_id = EmptyString)
  then mret false
  else
    ok ← (rc_sadd E (devicesKey user_id) device_id &&&
          rc_expire E (devicesKey user_id) ttl_seconds &&&
          rc_setEx E (onlineKey user_id device_id) ttl_seconds gateway_id &&&
          rc_setEx E (connKey user_id device_id) ttl_seconds connection_id);
    if negb ok then
      rc_del E (onlineKey user_id device_id);;
      rc_del E (connKey user_id device_id);;
      rc_srem E (devicesKey user_id) device_id;;
      mret false
    else mret true.

Fixpoint drop_devices (user_id : Z) (devices : list string) (ok : bool) : R bool :=
  match devices with
  | [] => mret ok
  | device_id :: devices =>
      ok1 ← rc_del E (onlineKey user_id device_id);
      ok2 ← rc_del E (connKey user_id device_id);
      drop_devices user_id devices (ok2 && (ok1 && ok))
  end.

Definition osm_setOffline (user_id : Z) : R bool :=
  if no_redis || (user_id =? 0) then mret false
  else
    devices ← rc_smembers E (devicesKey user_id);
    ok ← drop_devices user_id devices true;
    rc_del E (devicesKey user_id);;
    mret ok.

End Manager.
End OnlineStatusManager.
Export OnlineStatusManager.

Module PushRetryManager.

Record PushRetryManager := mkRetryManager {
  rm_no_redis : bool; rm_max_retry_count : Z; rm_ttl_seconds : Z
}.

Definition PushRetryManager_new (no_redis : bool) (max_retry_count ttl_seconds : Z) : PushRetryManager :=
  mkRetryManager no_redis (if 0 <? max_retry_count then max_retry_count else 3)
    (if 0 <? ttl_seconds then ttl_seconds else 86400).

Definition retryKey (message_id user_id : Z) : string :=
  "nebula:push:retry:" +:+ to_string message_id +:+ ":" +:+ to_string user_id.

Section Manager.
Context `{RedisServer} (E : REnv) (rm : PushRetryManager).

Definition increaseRetryCount (message_id user_id : Z) : R Z :=
  if rm_no_redis rm then mret (rm_max_retry_count rm + 1)
  else
    let key := retryKey message_id user_id in
    count ← rc_incr E key;
    (if count =? 1 then rc_expire E key (rm_ttl_seconds rm);; mret tt else mret tt);;
    mret (s32 count).

Definition shouldRetry (message_id user_id : Z) : R bool :=
  if rm_no_redis rm then mret false
  else
    value ← rc_get E (retryKey message_id user_id);
    mret (match value with
          | None => true
          | Some v => match fst <$> stoi v with Some count => count <? rm_max_retry_count rm | None => false end
          end).

Definition clearRetry (message_id user_id : Z) : R bool :=
  if rm_no_redis rm then mret false else rc_del E (retryKey message_id user_id).

End Manager.
End PushRetryManager.
Export PushRetryManager.

(** ** The state of the push service *)

Module GatewayClient.
(** [gc_stub] is false when no channel could be created. *)
Record GatewayClient := mkGatewayClient { gc_stub : bool; gc_breaker : CircuitBreaker }.
End GatewayClient.
Export GatewayClient.

(** A message a gateway has acknowledged for a connection of a user. *)
Record delivery := mkDelivery {
  dl_gateway_id : string; dl_user_id : Z; dl_connection_id : string; dl_message : MessageData
}.

(** A position in Kafka: topic and partition. *)
Abbreviation partition := (string * Z)%type.

Section State.
Context `{RedisServer}.

Record pworld := mkPworld {
  pw_node : rworld;
  pw_clients : gmap string GatewayClient;  (** [GatewayClientManager::clients_] *)
  pw_rpcs : nat;                           (** calls to gateways so far *)
  pw_steady : nat;                         (** readings of the steady clock so far *)
  pw_delivered : list delivery             (** latest first *)
}.

Definition P (A : Type) : Type := SM pworld A.

Definition set_node (r : rworld) (p : pworld) : pworld :=
  mkPworld r (pw_clients p) (pw_rpcs p) (pw_steady p) (pw_delivered p).
Definition set_clients (c : gmap string GatewayClient) (p : pworld) : pworld :=
  mkPworld (pw_node p) c (pw_rpcs p) (pw_steady p) (pw_delivered p).

(** Code that only uses Redis and the database, or only the database. *)
Definition node {A} (m : R A) : P A := zoom pw_node set_node m.
Definition pdb {A} (m : M A) : P A := node (db m).

End State.

#[global] Arguments pworld {_}.
#[global] Arguments P {_} _.

(** What is outside: the status and code the [n]-th call to a gateway ends
    with ([None] when the call itself fails), and the steady clock. *)
Record PEnv := mkPEnv {
  pe_redis : REnv;
  pe_rpc : nat -> string -> Z -> string -> option Z;
  pe_steady : nat -> Z
}.

Definition pe_db (E : PEnv) : Env := re_db (pe_redis E).

(** [TraceContext::ensureTraceId] *)
Definition ensure_trace (E : Env) (candidate : string) : M string :=
  w ← get_state;
  id ← (if isValid candidate then mret candidate
        else if bool_decide (w_trace w = EmptyString) then generate_trace E
        else mret (w_trace w));
  modify (fun w => set_trace id (w_traces w) w);;
  mret id.

Section Dispatcher.
Context `{RedisServer} (E : PEnv).

Definition steady_now : P Z :=
  fun p => Some (pe_steady E (pw_steady p),
                 mkPworld (pw_node p) (pw_clients p) (pw_rpcs p) (S (pw_steady p)) (pw_delivered p)).

(** [stub_->DeliverToConnection]: a gateway that answers with code 0 has
    taken the message. *)
Definition rpc_deliver (gateway_id : string) (user_id : Z) (connection_id : string)
    (message : MessageData) : P bool :=
  fun p =>
    let ok := match pe_rpc E (pw_rpcs p) gateway_id user_id connection_id with
              | Some code => code =? 0
              | None => false
              end in
    Some (ok, mkPworld (pw_node p) (pw_clients p) (S (pw_rpcs p)) (pw_steady p)
                (if ok then mkDelivery gateway_id user_id connection_id message :: pw_delivered p
                 else pw_delivered p)).

Definition set_breaker (gateway_id : string) (b : CircuitBreaker) : P unit :=
  modify (fun p => set_clients (<[gateway_id := mkGatewayClient true b]> (pw_clients p)) p).

(** [deliverToConnection] of the client for [gateway_id]. *)
Definition deliverToConnection (gateway_id : string) (client : GatewayClient) (request_id : string)
    (user_id : Z) (connection_id : string) (message : MessageData) : P bool :=
  if negb (gc_stub client) then mret false
  else
    now ← steady_now;
    let (allowed, b) := allowRequest now (gc_breaker client) in
    set_breaker gateway_id b;;
    if negb allowed then mret false
    else
      pdb (ensure_trace (pe_db E) request_id);;
      ok ← rpc_deliver gateway_id user_id connection_id message;
      if negb ok then
        now ← steady_now;
        set_breaker gateway_id (recordFailure now b);;
        mret false
      else
        set_breaker gateway_id (recordSuccess b);;
        mret true.

Record PushOptions := mkPushOptions {
  po_topic_retry : string; po_topic_dlq : string; po_skip_sender_for_group : bool
}.

(** [PushDispatcher]: what may be null, and the options. *)
Record PushDispatcher := mkDispatcher {
  pd_online : option bool;      (** the online status manager; whether it has no Redis *)
  pd_clients : bool;            (** there is a gateway client manager *)
  pd_offline : bool;            (** there is an offline message DAO *)
  pd_groups : bool;             (** there is a group DAO *)
  pd_kafka : bool;              (** there is a producer *)
  pd_retry : option PushRetryManager;
  pd_options : PushOptions;
  pd_serialize : MessageData -> string
}.

Record PushResult := mkPushResult { success_count : Z; failed_count : Z }.

Context (D : PushDispatcher).

Definition messageForRecipient (user_id : Z) (message : MessageData) : MessageData :=
  if d_to_user_id message =? 0 then
    mkMessageData (d_message_id message) (d_conversation_id message) (d_from_user_id message)
      user_id (d_group_id message) (d_content_type message) (d_content message) (d_status message)
      (d_timestamp message) (d_recalled message) (d_recalled_at message) (d_trace_id message)
  else message.

Definition deliverOnline (request_id : string) (user_id : Z) (status : OnlineStatus)
    (message : MessageData) : P bool :=
  if negb (pd_clients D) then mret false
  else
    p ← get_state;
    match pw_clients p !! os_gateway_id status with
    | None => mret false
    | Some client =>
        deliverToConnection (os_gateway_id status) client request_id user_id
          (os_connection_id status) message
    end.

Definition saveOffline (user_id : Z) (message : MessageData) : P bool :=
  if negb (pd_offline D) then mret false
  else
    let scoped := messageForRecipient user_id message in
    now ← pdb (nowMs (pe_db E));
    pdb (insertOfflineMessage (pe_db E)
           (mkOffline user_id (d_message_id scoped) (pd_serialize D scoped) 0 now now)).

Definition sendToRetryTopic (user_id : Z) (message : MessageData) : P bool :=
  if negb (pd_kafka D) then mret false
  else pdb (produce (pe_db E) (po_topic_retry (pd_options D)) (to_string user_id)
              (pd_serialize D (messageForRecipient user_id message))).

(** The flush that follows waits for records whose delivery [produce] has
    already waited for. *)
Definition sendToDlqTopic (user_id : Z) (message : MessageData) : P bool :=
  if negb (pd_kafka D) then mret false
  else pdb (produce (pe_db E) (po_topic_dlq (pd_options D)) (to_string user_id)
              (pd_serialize D (messageForRecipient user_id message))).

Definition handlePushFailure (user_id : Z) (message : MessageData) : P bool :=
  count ← match pd_retry D with
          | Some rm => node (increaseRetryCount (pe_redis E) rm (d_message_id message) user_id)
          | None => mret 999
          end;
  if match pd_retry D with Some rm => count <=? rm_max_retry_count rm | None => false end
  then sendToRetryTopic user_id message
  else
    dlq_ok ← sendToDlqTopic user_id message;
    saveOffline user_id message;;
    mret dlq_ok.

(** The loop over the devices: every one is tried. *)
Fixpoint deliver_all (request_id : string) (user_id : Z) (statuses : list OnlineStatus)
    (message : MessageData) (delivered : bool) : P bool :=
  match statuses with
  | [] => mret delivered
  | status :: statuses =>
      ok ← deliverOnline request_id user_id status message;
      deliver_all request_id user_id statuses message (ok || delivered)
  end.

Definition pushToUser (request_id : string) (user_id : Z) (message : MessageData) : P bool :=
  if (user_id =? 0) || (d_message_id message =? 0) then mret false
  else
    statuses ← match pd_online D with
               | Some no_redis => node (getOnlineStatuses (pe_redis E) no_redis user_id)
               | None => mret []
               end;
    if negb (bool_decide (statuses = [])) then
      delivered ← deliver_all request_id user_id statuses message false;
      if (delivered : bool) then
        match pd_retry D with
        | Some rm => node (clearRetry (pe_redis E) rm (d_message_id message) user_id);; mret true
        | None => mret true
        end
      else handlePushFailure user_id message
    else saveOffline user_id message.

(** The loop over the members; the counters are [uint32_t]. *)
Fixpoint push_members (request_id : string) (members : list Z) (message : MessageData)
    (result : PushResult) : P PushResult :=
  match members with
  | [] => mret result
  | user_id :: members =>
      if po_skip_sender_for_group (pd_options D) && (user_id =? d_from_user_id message)
      then push_members request_id members message result
      else
        ok ← pushToUser request_id user_id message;
        push_members request_id members message
          (if (ok : bool) then mkPushResult (u32 (success_count result + 1)) (failed_count result)
           else mkPushResult (success_count result) (u32 (failed_count result + 1)))
  end.

Definition pushToGroup (request_id : string) (group_id : Z) (message : MessageData) : P PushResult :=
  if (group_id =? 0) || negb (pd_groups D) then mret (mkPushResult 0 1)
  else
    members ← pdb (listMembers (pe_db E) group_id);
    match members with
    | [] => mret (mkPushResult 0 1)
    | _ => push_members request_id members message (mkPushResult 0 0)
    end.

End Dispatcher.

(** ** The worker *)

Module PushWorker.

Record KafkaMessage := mkKafkaMessage {
  km_topic : string; km_key : string; km_payload : string; km_partition : Z; km_offset : Z
}.

Record PushWorkerOptions := mkPushWorkerOptions {
  wo_topic_single : string; wo_topic_group : string; wo_topic_retry : string; wo_topic_dlq : string
}.

(** The broker as the worker sees it: which partition the [n]-th poll serves
    ([None] for a timeout or an error), the record at an offset of a
    partition, how the [n]-th commit ends, whether the [n]-th seek succeeds;
    and whether [stop] was called by the [n]-th poll. *)
Record KEnv := mkKEnv {
  ke_poll : nat -> option partition;
  ke_log : partition -> Z -> option (string * string);
  ke_commit : nat -> outcome;
  ke_seek : nat -> bool;
  ke_stop : nat -> bool
}.

Section Worker.
Context `{RedisServer} (E : PEnv) (K : KEnv) (D : PushDispatcher) (o : PushWorkerOptions).
Context (deserialize : string -> option MessageData).

Record worker := mkWorker {
  wk_state : pworld;
  wk_position : gmap partition Z;    (** the next offset the consumer reads *)
  wk_committed : gmap partition Z;   (** the offsets committed for the group *)
  wk_calls : nat;                    (** calls to the consumer so far *)
  wk_running : bool
}.

Definition W (A : Type) : Type := SM worker A.

Definition set_state (p : pworld) (k : worker) : worker :=
  mkWorker p (wk_position k) (wk_committed k) (wk_calls k) (wk_running k).
Definition push {A} (m : P A) : W A := zoom wk_state set_state m.

Definition offset_of (m : gmap partition Z) (tp : partition) : Z := default 0 (m !! tp).

(** [KafkaConsumer::poll], [commit] and [seek] *)
Definition poll : W (option KafkaMessage) :=
  fun k =>
    let next position := mkWorker (wk_state k) position (wk_committed k) (S (wk_calls k)) (wk_running k) in
    match ke_poll K (wk_calls k) with
    | None => Some (None, next (wk_position k))
    | Some tp =>
        let offset := offset_of (wk_position k) tp in
        match ke_log K tp offset with
        | None => Some (None, next (wk_position k))
        | Some (key, payload) =>
            Some (Some (mkKafkaMessage tp.1 key payload tp.2 offset),
                  next (<[tp := offset + 1]> (wk_position k)))
        end
    end.

Definition commit (message : KafkaMessage) : W bool :=
  fun k =>
    let next committed := mkWorker (wk_state k) (wk_position k) committed (S (wk_calls k)) (wk_running k) in
    let done := <[(km_topic message, km_partition message) := km_offset message + 1]> (wk_committed k) in
    match ke_commit K (wk_calls k) with
    | Done => Some (true, next done)
    | Lost => Some (false, next done)
    | Refused => Some (false, next (wk_committed k))
    end.

Definition seek (message : KafkaMessage) : W bool :=
  fun k =>
    let next position := mkWorker (wk_state k) position (wk_committed k) (S (wk_calls k)) (wk_running k) in
    if ke_seek K (wk_calls k)
    then Some (true, next (<[(km_topic message, km_partition message) := km_offset message]>
                             (wk_position k)))
    else Some (false, next (wk_position k)).

Definition stop_running : W unit :=
  modify (fun k => mkWorker (wk_state k) (wk_position k) (wk_committed k) (wk_calls k) false).

Definition to_dlq (key payload : string) : P bool :=
  pdb (produce (pe_db E) (wo_topic_dlq o) key payload).

Definition handleSingleMessage (data : MessageData) : P bool :=
  if (d_message_id data =? 0) || (d_from_user_id data =? 0) || (d_to_user_id data =? 0)
  then to_dlq (to_string (d_message_id data)) (pd_serialize D data)
  else pushToUser E D "kafka-single" (d_to_user_id data) data.

Definition handleGroupMessage (data : MessageData) : P bool :=
  if (d_message_id data =? 0) || (d_from_user_id data =? 0) || (d_group_id data =? 0)
  then to_dlq (to_string (d_message_id data)) (pd_serialize D data)
  else
    result ← pushToGroup E D "kafka-group" (d_group_id data) data;
    mret (failed_count result =? 0).

Definition handleRetryMessage (data : MessageData) : P bool :=
  if negb (d_to_user_id data =? 0) then pushToUser E D "kafka-retry" (d_to_user_id data) data
  else if negb (d_group_id data =? 0) then
    result ← pushToGroup E D "kafka-retry" (d_group_id data) data;
    mret (failed_count result =? 0)
  else to_dlq (to_string (d_message_id data)) (pd_serialize D data).

(** The producer is not null: [start] has checked it. *)
Definition handleKafkaMessage (message : KafkaMessage) : P bool :=
  match deserialize (km_payload message) with
  | None => to_dlq (km_key message) (km_payload message)
  | Some data =>
      id ← pdb (ensure_trace (pe_db E) (d_trace_id data));
      ok ← (if bool_decide (km_topic message = wo_topic_single o) then handleSingleMessage data
            else if bool_decide (km_topic message = wo_topic_group o) then handleGroupMessage data
            else if bool_decide (km_topic message = wo_topic_retry o) then handleRetryMessage data
            else to_dlq (km_key message) (km_payload message));
      pdb (modify (fun w => set_trace id (w_traces w) w));;
      mret ok
  end.

Definition metric (name : string) : W unit := push (pdb (inc_metric name)).

(** One turn of [run]; the pauses after a failure are left out. *)
Definition run_turn : W unit :=
  k ← get_state;
  message ← poll;
  if ke_stop K (wk_calls k) then stop_running
  else
    match message with
    | None => mret tt
    | Some message =>
        metric "nebula_push_kafka_consume_total";;
        ok ← push (handleKafkaMessage message);
        if (ok : bool) then
          metric "nebula_push_kafka_handle_success_total";;
          committed ← commit message;
          if (committed : bool) then metric "nebula_push_kafka_commit_total"
          else
            metric "nebula_push_kafka_commit_failed_total";;
            rewound ← seek message;
            if negb rewound then stop_running else mret tt
        else
          metric "nebula_push_kafka_handle_failed_total";;
          rewound ← seek message;
          if negb rewound then stop_running else mret tt
    end.

(** [run], for [fuel] turns. *)
Fixpoint run (fuel : nat) : W unit :=
  match fuel with
  | O => mret tt
  | S fuel =>
      k ← get_state;
      if wk_running k then run_turn;; run fuel else mret tt
  end.

(** A new process, or the partitions assigned anew: reading goes on from the
    committed offsets. *)
Definition restart (k : worker) : worker :=
  mkWorker (wk_state k) (wk_committed k) (wk_committed k) (wk_calls k) true.

End Worker.
End PushWorker.
Export PushWorker.

(** ** The service's own RPCs *)

Section Service.
Context `{RedisServer} (E : PEnv) (D : option PushDispatcher).
Context (auth : InternalRpcAuth) (sha256Hex : string -> string).

Definition PushToUser (context : ServerContext) (request_id : string) (user_id : Z)
    (message : MessageData) : P CommonResponse :=
  if negb (authorize sha256Hex auth context) then mret (unauthenticated request_id)
  else match D with
  | None => mret (fail request_id EC_INTERNAL_ERROR)
  | Some D =>
      if (user_id =? 0) || (d_message_id message =? 0)
      then mret (fail request_id PUSH_INVALID_MESSAGE)
      else
        ok ← pushToUser E D request_id user_id message;
        mret (if (ok : bool) then fillResponse request_id EC_OK "OK"
              else fillResponse request_id PUSH_FAILED "PUSH_FAILED")
  end.

Definition PushToGroup (context : ServerContext) (request_id : string) (group_id : Z)
    (message : MessageData) : P (CommonResponse * PushResult) :=
  let none := mkPushResult 0 0 in
  if negb (authorize sha256Hex auth context) then mret (unauthenticated request_id, none)
  else match D with
  | None => mret (fail request_id EC_INTERNAL_ERROR, none)
  | Some D =>
      if (group_id =? 0) || (d_message_id message =? 0)
      then mret (fail request_id PUSH_INVALID_MESSAGE, none)
      else
        result ← pushToGroup E D request_id group_id message;
        mret (if failed_count result =? 0 then fillResponse request_id EC_OK "OK"
              else fillResponse request_id PUSH_FAILED "PUSH_FAILED", result)
  end.

End Service.
