(* ===== verification/PushSafety.v ===== *)
(** * No message is lost on the way to its recipients

    A record of Kafka counts as handled only when each of its recipients has
    it: a gateway took it for one of the user's connections, it waits in the
    offline table, or it is on the retry or dead letter topic.  The worker
    commits an offset only after that, whatever fails and however often it is
    restarted. *)

From S2P Require Import Prelude Words Text MessageId Rpc Db MessageStore Directory DbLogic.
From S2P Require Import MessageService MessageSend Sample Breaker Redis Push.

(** ** What push leaves in place *)

Definition has_offline (d : Db) (user_id message_id : Z) : Prop :=
  exists r, r ∈ offline_messages d /\ om_user_id r = user_id /\ om_message_id r = message_id.

(** Nothing that was stored or sent is taken back. *)
Record adds (w w' : world) : Prop := {
  adds_offline : forall u m, has_offline (w_db w) u m -> has_offline (w_db w') u m;
  adds_kafka : forall x, x ∈ w_kafka w -> x ∈ w_kafka w'
}.

#[global] Instance adds_preorder : PreOrder adds.
Proof.
  split; [done|]. intros x y z [Ha1 Ha2] [Hb1 Hb2]. split; auto.
Qed.

(** Rows an upsert keeps, and the row it leaves for its key. *)
Lemma upsert_elem {A} (same : A -> bool) row f t r :
  r ∈ t -> exists r', r' ∈ sql_upsert same row f t /\ (r' = r \/ r' = f r).
Proof.
  intros Hr. unfold sql_upsert. destruct (existsb same t).
  - unfold sql_update. exists (if same r then f r else r). split; [apply list_elem_of_fmap; by exists r|].
    destruct (same r); auto.
  - exists r. split; [|by left]. apply elem_of_app. by left.
Qed.

Lemma upsert_has {A} (same : A -> bool) row f t :
  exists r', r' ∈ sql_upsert same row f t /\
    (r' = row \/ exists r, same r = true /\ r' = f r).
Proof.
  unfold sql_upsert. destruct (existsb same t) eqn:He.
  - apply existsb_exists in He as (r&Hin%list_elem_of_In&Hs). exists (f r).
    split; [|by right; exists r]. unfold sql_update. apply list_elem_of_fmap. exists r. by rewrite Hs.
  - exists row. split; [|by left]. apply elem_of_app. right. by apply list_elem_of_singleton.
Qed.

Class Adds {A} (m : M A) : Prop := adding : forall w a w', m w = Some (a, w') -> adds w w'.
#[global] Hint Mode Adds + ! : typeclass_instances.

Lemma adds_quiet {A} (m : M A) : Quiet m -> Silent m -> Adds m.
Proof.
  intros Hq Hs w a w' H. destruct (Hq _ _ _ H) as [Hd _]. specialize (Hs _ _ _ H).
  split; [by rewrite Hd|by rewrite Hs].
Qed.

Section Calls.
Context (E : Env).

#[global] Instance adds_nowMs : Adds (nowMs E).
Proof. apply adds_quiet; apply _. Qed.
#[global] Instance adds_listMembers g : Adds (listMembers E g).
Proof. apply adds_quiet; unfold listMembers; apply _. Qed.
#[global] Instance adds_set_trace id : Adds (modify (fun w => set_trace id (w_traces w) w)).
Proof. by intros w ? w' [= <- <-]. Qed.
#[global] Instance adds_ensure_trace c : Adds (ensure_trace E c).
Proof.
  unfold ensure_trace. intros w a w' (w0&w1&[= <- <-]&H)%run_bind_Some.
  apply run_bind_Some in H as (i&w2&H2&H). munfold H. simplify_eq/=.
  assert (adds w w2) as Ha; [|by destruct Ha].
  eapply (adds_quiet _); [..|exact H2]; apply _.
Qed.
Lemma ensure_trace_db c w a w' : ensure_trace E c w = Some (a, w') -> w_db w' = w_db w.
Proof.
  unfold ensure_trace. intros (w0&w1&[= <- <-]&H)%run_bind_Some.
  apply run_bind_Some in H as (i&w2&H2&H). munfold H. simplify_eq/=. by destruct (quiet _ _ _ H2).
Qed.
#[global] Instance adds_inc_metric n : Adds (inc_metric n).
Proof. by intros w ? w' [= <- <-]. Qed.

Lemma produce_run topic key payload w b w' :
  produce E topic key payload w = Some (b, w') ->
  adds w w' /\ (b = true -> (topic, key, payload) ∈ w_kafka w').
Proof.
  unfold produce. cbv zeta. destruct (env_kafka E (w_ops w)); intros [= <- <-].
  - split; [split; [done|by right]|left].
  - done.
  - split; [split; [done|by right]|done].
Qed.

Lemma insert_offline_has m d d' :
  executes (insert_offline m) d d' ->
  has_offline d' (om_user_id m) (om_message_id m) /\
  (forall u i, has_offline d u i -> has_offline d' u i).
Proof.
  intros [n Hn]. unfold insert_offline in Hn. injection Hn as <- _. unfold has_offline. cbn.
  split.
  - match goal with |- context [sql_upsert ?s ?r ?f ?t] =>
      destruct (upsert_has s r f t) as (y&Hin&[->|(x&Hs&->)]) end; (eexists; split; [exact Hin|]); [done|].
    unfold same_offline in Hs. bools. by destruct (om_status x =? 2).
  - intros u i (r&Hr&Hu&Hi).
    match goal with |- context [sql_upsert ?s ?w ?f ?t] =>
      destruct (upsert_elem s w f t r Hr) as (y&Hin&[->| ->]) end; (eexists; split; [exact Hin|]); [done|].
    by destruct (om_status r =? 2).
Qed.

Lemma insertOfflineMessage_run m w b w' :
  insertOfflineMessage E m w = Some (b, w') ->
  adds w w' /\ (b = true -> has_offline (w_db w') (om_user_id m) (om_message_id m)).
Proof.
  intros H. pose proof (settles_conn E false _ id _ eq_refl (settles_update E _) _ _ _ H) as Hs.
  assert (w_kafka w' = w_kafka w) as Hk.
  { revert H. apply (silent_with_conn E false). apply _. }
  destruct Hs as [[Hm Hu]%insert_offline_has|[Hb Hd]]; [|cbn in Hb; subst b].
  - split; [|done]. split; [done|by rewrite Hk].
  - split; [|done]. split; [by rewrite Hd|by rewrite Hk].
Qed.

End Calls.

(** ** The same for the whole state *)

Section Push.
Context `{RedisServer}.

Definition pw_world (p : pworld) : world := rw_world (pw_node p).

Record extends (p p' : pworld) : Prop := {
  ext_world : adds (pw_world p) (pw_world p');
  ext_delivered : forall x, x ∈ pw_delivered p -> x ∈ pw_delivered p'
}.

#[global] Instance extends_preorder : PreOrder extends.
Proof. split; [by split|]. intros x y z [??] [??]. split; [by etrans|auto]. Qed.

Class Extends {A} (m : P A) : Prop := extending : forall p a p', m p = Some (a, p') -> extends p p'.
#[global] Hint Mode Extends + ! : typeclass_instances.

(** Code on Redis alone. *)
Class Apart {A} (m : R A) : Prop :=
  apart : forall r a r', m r = Some (a, r') -> rw_world r' = rw_world r.
#[global] Hint Mode Apart + ! : typeclass_instances.

Section Apart.
Context {A B : Type}.

#[global] Instance apart_ret (a : A) : Apart (mret a : R A).
Proof. by intros r ? r' [= <- <-]. Qed.
#[global] Instance apart_bind (m : R A) (k : A -> R B) :
  Apart m -> (forall a, Apart (k a)) -> Apart (m ≫= k).
Proof.
  intros Hm Hk r b r' (a&r1&H1&H2)%run_bind_Some. by rewrite (Hk _ _ _ _ H2), (Hm _ _ _ H1).
Qed.
#[global] Instance apart_if (b : bool) (m1 m2 : R A) :
  Apart m1 -> Apart m2 -> Apart (if b then m1 else m2).
Proof. by destruct b. Qed.
#[global] Instance apart_option (o : option B) (f : B -> R A) (m : R A) :
  (forall b, Apart (f b)) -> Apart m -> Apart (match o with Some b => f b | None => m end).
Proof. by destruct o. Qed.
#[global] Instance apart_command E c : Apart (command E c).
Proof.
  intros r a r'. unfold command. destruct (redis_exec _ _ _) as [reply s].
  destruct (re_redis E (rw_cmds r)); by intros [= <- <-].
Qed.

End Apart.

#[global] Instance apart_mapM {A B} (f : A -> R B) l : (forall a, Apart (f a)) -> Apart (mapM f l).
Proof. intros Hf. induction l; simpl; apply _. Qed.

#[global] Instance apart_statuses E b u : Apart (getOnlineStatuses E b u).
Proof. unfold getOnlineStatuses, device_status, rc_smembers, rc_get, rc_srem. apply _. Qed.
#[global] Instance apart_increase E rm m u : Apart (increaseRetryCount E rm m u).
Proof. unfold increaseRetryCount, rc_incr, rc_expire. apply _. Qed.
#[global] Instance apart_clear E rm m u : Apart (clearRetry E rm m u).
Proof. unfold clearRetry, rc_del. apply _. Qed.

Section Extends.
Context {A B : Type}.

#[global] Instance extends_ret (a : A) : Extends (mret a : P A).
Proof. by intros p ? p' [= <- <-]. Qed.
#[global] Instance extends_bind (m : P A) (k : A -> P B) :
  Extends m -> (forall a, Extends (k a)) -> Extends (m ≫= k).
Proof.
  intros Hm Hk p b p' (a&p1&H1&H2)%run_bind_Some. etrans; [by eapply Hm|by eapply Hk].
Qed.
#[global] Instance extends_if (b : bool) (m1 m2 : P A) :
  Extends m1 -> Extends m2 -> Extends (if b then m1 else m2).
Proof. by destruct b. Qed.
#[global] Instance extends_option (o : option B) (f : B -> P A) (m : P A) :
  (forall b, Extends (f b)) -> Extends m -> Extends (match o with Some b => f b | None => m end).
Proof. by destruct o. Qed.
#[global] Instance extends_get : Extends (get_state : P pworld).
Proof. by intros p ? p' [= <- <-]. Qed.

#[global] Instance extends_node (m : R A) : Apart m -> Extends (node m).
Proof.
  intros Hm p a p' (r&Hr&->)%run_zoom. specialize (Hm _ _ _ Hr). split; [|done].
  unfold pw_world. cbn. by rewrite Hm.
Qed.

Lemma pdb_run (m : M A) p a p' :
  pdb m p = Some (a, p') ->
  m (pw_world p) = Some (a, pw_world p') /\ pw_delivered p' = pw_delivered p.
Proof. intros (r&(w&Hw&->)%run_zoom&->)%run_zoom. done. Qed.

#[global] Instance extends_pdb (m : M A) : Adds m -> Extends (pdb m).
Proof. intros Hm p a p' [Hr Hd]%pdb_run. split; [by eapply Hm|by rewrite Hd]. Qed.

End Extends.
(** ** A recipient has the message *)

Context (E : PEnv) (D : PushDispatcher).

Definition user_safe (p : pworld) (user_id : Z) (data : MessageData) : Prop :=
  (exists x, x ∈ pw_delivered p /\ dl_user_id x = user_id /\ dl_message x = data) \/
  has_offline (w_db (pw_world p)) user_id (d_message_id data) \/
  (exists topic, (topic = po_topic_retry (pd_options D) \/ topic = po_topic_dlq (pd_options D)) /\
     (topic, to_string user_id, pd_serialize D (messageForRecipient user_id data))
       ∈ w_kafka (pw_world p)).

Lemma user_safe_extends p p' u data : extends p p' -> user_safe p u data -> user_safe p' u data.
Proof.
  intros [[Ho Hk] Hd] [(x&Hx&?)|[?|(t&Ht&Hx)]]; [left; eauto|right; left; auto|].
  right; right. eauto.
Qed.

#[global] Instance extends_steady : Extends (steady_now E).
Proof. by intros p ? p' [= <- <-]. Qed.
#[global] Instance extends_breaker g b : Extends (set_breaker g b).
Proof. by intros p ? p' [= <- <-]. Qed.

Lemma rpc_deliver_run g u c m p b p' :
  rpc_deliver E g u c m p = Some (b, p') ->
  extends p p' /\ (b = true -> mkDelivery g u c m ∈ pw_delivered p').
Proof.
  unfold rpc_deliver. cbv zeta. intros [= <- <-].
  destruct (pe_rpc E (pw_rpcs p) g u c) as [code|]; [destruct (code =? 0)|]; [|done|done].
  split; [split; [done|by right]|left].
Qed.

Lemma deliverToConnection_run g client id u c m p b p' :
  deliverToConnection E g client id u c m p = Some (b, p') ->
  extends p p' /\ (b = true -> user_safe p' u m).
Proof.
  unfold deliverToConnection. destruct (gc_stub client); cbn [negb]; [|by intros [= <- <-]].
  intros (now&p1&H1&H2)%run_bind_Some. apply extending in H1.
  destruct (allowRequest now (gc_breaker client)) as [allowed b'].
  apply run_bind_Some in H2 as (?&p2&H2&H3). apply extending in H2.
  destruct allowed; cbn [negb] in H3; [|injection H3 as <- <-; split; [by etrans|done]].
  apply run_bind_Some in H3 as (?&p3&H3&H4). apply extending in H3.
  apply run_bind_Some in H4 as (ok&p4&H4&H5). apply rpc_deliver_run in H4 as [H4 Hok].
  assert (extends p4 p') as H6 by (destruct ok; by apply extending in H5).
  split; [by repeat (etrans; [eassumption|])|]. intros ->.
  destruct ok; cbn [negb] in H5.
  - eapply user_safe_extends; [exact H6|]. left. eexists. split; [by apply Hok|done].
  - apply run_bind_Some in H5 as (?&p5&_&H5). by apply run_bind_Some in H5 as (?&p6&_&?).
Qed.

Lemma deliverOnline_run id u st m p b p' :
  deliverOnline E D id u st m p = Some (b, p') -> extends p p' /\ (b = true -> user_safe p' u m).
Proof.
  unfold deliverOnline. destruct (pd_clients D); cbn [negb]; [|by intros [= <- <-]].
  intros (q&p1&[= <- <-]&H2)%run_bind_Some.
  destruct (pw_clients p !! _); [by apply deliverToConnection_run in H2|by injection H2 as <- <-].
Qed.

Lemma deliver_all_run id u sts m d0 p b p' :
  deliver_all E D id u sts m d0 p = Some (b, p') ->
  extends p p' /\ (b = true -> d0 = true \/ user_safe p' u m).
Proof.
  revert d0 p. induction sts as [|st sts IH]; intros d0 p; cbn [deliver_all].
  { intros [= <- <-]. split; [done|by left]. }
  intros (ok&p1&H1&H2)%run_bind_Some. apply deliverOnline_run in H1 as [H1 Hok].
  apply IH in H2 as [H2 Hb]. split; [by etrans|]. intros [Hx|?]%Hb; [|by right].
  destruct ok; [right|by left]. eapply user_safe_extends; [exact H2|auto].
Qed.

Lemma saveOffline_run u m p b p' :
  saveOffline E D u m p = Some (b, p') -> extends p p' /\ (b = true -> user_safe p' u m).
Proof.
  unfold saveOffline. destruct (pd_offline D); cbn [negb]; [|by intros [= <- <-]].
  cbv zeta. intros (now&p1&H1&H2)%run_bind_Some. apply extending in H1.
  apply pdb_run in H2 as [H2 Hd]. apply insertOfflineMessage_run in H2 as [Ha Hb].
  split; [etrans; [exact H1|]; split; [done|by rewrite Hd]|]. intros Ht. right; left.
  specialize (Hb Ht). cbn in Hb. unfold messageForRecipient in Hb. by destruct (d_to_user_id m =? 0).
Qed.

Lemma sendToTopic_run topic u m p b p' :
  topic = po_topic_retry (pd_options D) \/ topic = po_topic_dlq (pd_options D) ->
  pdb (produce (pe_db E) topic (to_string u) (pd_serialize D (messageForRecipient u m))) p
  = Some (b, p') -> extends p p' /\ (b = true -> user_safe p' u m).
Proof.
  intros Ht H1. apply pdb_run in H1 as [H1 Hd]. apply produce_run in H1 as [Ha Hb].
  split; [by split; [|rewrite Hd]|]. intros ?%Hb. right; right. eauto.
Qed.

Lemma handlePushFailure_run u m p b p' :
  handlePushFailure E D u m p = Some (b, p') -> extends p p' /\ (b = true -> user_safe p' u m).
Proof.
  unfold handlePushFailure. intros (count&p1&H1&H2)%run_bind_Some.
  assert (extends p p1) as H1' by (destruct (pd_retry D); by apply extending in H1). clear H1.
  destruct (if pd_retry D is Some rm then count <=? rm_max_retry_count rm else false).
  - unfold sendToRetryTopic in H2. destruct (pd_kafka D); cbn [negb] in H2; [|by injection H2 as <- <-].
    apply sendToTopic_run in H2 as [H2 Hb]; [|by left]. split; [by etrans|done].
  - apply run_bind_Some in H2 as (dlq&p2&H2&H3). apply run_bind_Some in H3 as (off&p3&H3&H4).
    injection H4 as <- <-. apply saveOffline_run in H3 as [H3 _].
    unfold sendToDlqTopic in H2. destruct (pd_kafka D); cbn [negb] in H2.
    + apply sendToTopic_run in H2 as [H2 Hb]; [|by right].
      split; [by repeat (etrans; [eassumption|])|]. intros ?%Hb. by eapply user_safe_extends.
    + injection H2 as <- <-. split; [by etrans|done].
Qed.

Lemma pushToUser_run id u m p b p' :
  pushToUser E D id u m p = Some (b, p') -> extends p p' /\ (b = true -> user_safe p' u m).
Proof.
  unfold pushToUser. destruct (_ || _); [by intros [= <- <-]|].
  intros (sts&p1&H1&H2)%run_bind_Some.
  assert (extends p p1) as H1' by (destruct (pd_online D); by apply extending in H1). clear H1.
  destruct (negb _).
  - apply run_bind_Some in H2 as (dv&p2&H2&H3). apply deliver_all_run in H2 as [H2 Hd]. destruct dv.
    + assert (extends p2 p' /\ b = true) as [H3' ->].
      { destruct (pd_retry D); [|by injection H3 as <- <-].
        apply run_bind_Some in H3 as (?&p3&H3&[= <- <-]). split; [by apply extending in H3|done]. }
      split; [by repeat (etrans; [eassumption|])|]. intros _. destruct (Hd eq_refl) as [?|?]; [done|].
      by eapply user_safe_extends.
    + apply handlePushFailure_run in H3 as [H3 Hb]. split; [by repeat (etrans; [eassumption|])|done].
  - apply saveOffline_run in H2 as [H2 Hb]. split; [by etrans|done].
Qed.

(** ** Groups *)

(** The group may skip the sender; everybody else on the list has the message. *)
Definition member_safe (p : pworld) (data : MessageData) (user_id : Z) : Prop :=
  (po_skip_sender_for_group (pd_options D) = true /\ user_id = d_from_user_id data) \/
  user_safe p user_id data.

Lemma member_safe_extends p p' u data : extends p p' -> member_safe p data u -> member_safe p' data u.
Proof. intros He [?|?]; [by left|right; by eapply user_safe_extends]. Qed.

Lemma push_members_run id us m r0 p r p' :
  push_members E D id us m r0 p = Some (r, p') ->
  0 <= failed_count r0 -> failed_count r0 + Z.of_nat (length us) < 4294967296 ->
  extends p p' /\ failed_count r0 <= failed_count r /\
  (failed_count r = 0 -> forall u, u ∈ us -> member_safe p' m u).
Proof.
  revert r0 p. induction us as [|u us IH]; intros r0 p; cbn [push_members length].
  { intros [= <- <-] ??. split_and!; [done|lia|]. intros _ u Hu. by inversion Hu. }
  intros Hr H0 Hlt. destruct (_ && _) eqn:Hs.
  - apply IH in Hr as (He&Hf&Hm); [|lia|lia]. split_and!; [done|done|].
    intros Hz v [->|Hv]%elem_of_cons; [left; bools; done|auto].
  - apply run_bind_Some in Hr as (ok&p1&H1&Hr). apply pushToUser_run in H1 as [He1 Hok].
    assert (failed_count r0 + 1 < 4294967296) as Hb by lia.
    apply IH in Hr as (He&Hf&Hm).
    + split_and!; [by etrans|destruct ok; cbn in Hf; [lia|]; unfold u32 in Hf;
        rewrite Z.mod_small in Hf by lia; lia|].
      intros Hz v [->|Hv]%elem_of_cons; [right|auto]. destruct ok.
      * eapply user_safe_extends; [exact He|auto].
      * cbn in Hf. unfold u32 in Hf. rewrite Z.mod_small in Hf by lia. lia.
    + destruct ok; cbn; [lia|]. unfold u32. rewrite Z.mod_small by lia. lia.
    + destruct ok; cbn; [lia|]. unfold u32. rewrite Z.mod_small by lia. lia.
Qed.

(** Every member of the group in the tables [d]. *)
Definition group_safe (d : Db) (p : pworld) (data : MessageData) : Prop :=
  forall row, row ∈ group_members d -> gm_group_id row = d_group_id data ->
  member_safe p data (gm_user_id row).

Lemma pushToGroup_run id data p r p' :
  pushToGroup E D id (d_group_id data) data p = Some (r, p') ->
  Z.of_nat (length (group_members (w_db (pw_world p)))) < 4294967296 ->
  extends p p' /\ (failed_count r = 0 -> group_safe (w_db (pw_world p)) p' data).
Proof.
  unfold pushToGroup. destruct (_ || _); [by intros [= <- <-]|].
  intros (us&p1&H1&H2)%run_bind_Some Hlen. pose proof (extending _ _ _ H1) as He1.
  apply pdb_run in H1 as [H1 _]. apply read_rows_run in H1.
  destruct us as [|u us]; [by injection H2 as <- <-|].
  destruct H1 as [Hus|?]; [|done]. change (u :: us = member_ids (w_db (pw_world p)) (d_group_id data)) in Hus.
  assert (length (u :: us) <= length (group_members (w_db (pw_world p))))%nat as Hl.
  { rewrite Hus. unfold member_ids. rewrite length_map, sort_by_perm. unfold sql_select.
    apply length_filter. }
  apply push_members_run in H2 as (He&_&Hm); [|done|cbn [failed_count]; lia].
  split; [by etrans|]. intros Hz row Hin Hg. apply Hm; [done|]. rewrite Hus. unfold member_ids.
  apply list_elem_of_fmap. exists row. split; [done|]. rewrite sort_by_perm. unfold sql_select.
  apply list_elem_of_filter. split; [by apply Z.eqb_eq|done].
Qed.

(** ** Records *)

Context (o : PushWorkerOptions) (deserialize : string -> option MessageData).

Definition on_dlq (p : pworld) (key payload : string) : Prop :=
  (wo_topic_dlq o, key, payload) ∈ w_kafka (pw_world p).

Definition bad_dlq (p : pworld) (data : MessageData) : Prop :=
  on_dlq p (to_string (d_message_id data)) (pd_serialize D data).

(** What it means for a record that nothing of it is lost; [d] are the tables
    its recipients are taken from. *)
Definition record_safe (d : Db) (p : pworld) (message : KafkaMessage) : Prop :=
  match deserialize (km_payload message) with
  | None => on_dlq p (km_key message) (km_payload message)
  | Some data =>
      if bool_decide (km_topic message = wo_topic_single o) then
        if (d_message_id data =? 0) || (d_from_user_id data =? 0) || (d_to_user_id data =? 0)
        then bad_dlq p data else user_safe p (d_to_user_id data) data
      else if bool_decide (km_topic message = wo_topic_group o) then
        if (d_message_id data =? 0) || (d_from_user_id data =? 0) || (d_group_id data =? 0)
        then bad_dlq p data else group_safe d p data
      else if bool_decide (km_topic message = wo_topic_retry o) then
        if negb (d_to_user_id data =? 0) then user_safe p (d_to_user_id data) data
        else if negb (d_group_id data =? 0) then group_safe d p data else bad_dlq p data
      else on_dlq p (km_key message) (km_payload message)
  end.

Lemma record_safe_extends d p p' message :
  extends p p' -> record_safe d p message -> record_safe d p' message.
Proof.
  intros He. assert (forall k x, on_dlq p k x -> on_dlq p' k x) as Hd
    by (intros k x; apply (adds_kafka _ _ (ext_world _ _ He))).
  assert (forall data, group_safe d p data -> group_safe d p' data) as Hg
    by (intros data Hs row Hin Hr; eapply member_safe_extends; eauto).
  assert (forall u data, user_safe p u data -> user_safe p' u data) as Hu
    by (intros; by eapply user_safe_extends).
  unfold record_safe, bad_dlq. destruct (deserialize _) as [data|]; [|auto].
  repeat case_match; auto.
Qed.

Lemma to_dlq_run key payload p b p' :
  to_dlq E o key payload p = Some (b, p') -> extends p p' /\ (b = true -> on_dlq p' key payload).
Proof.
  intros H1. apply pdb_run in H1 as [H1 Hd]. apply produce_run in H1 as [Ha Hb].
  split; [by split; [|rewrite Hd]|exact Hb].
Qed.

(** A record that was handled is safe. *)
Lemma handleKafkaMessage_run message p b p' :
  handleKafkaMessage E D o deserialize message p = Some (b, p') ->
  Z.of_nat (length (group_members (w_db (pw_world p)))) < 4294967296 ->
  extends p p' /\ (b = true -> record_safe (w_db (pw_world p)) p' message).
Proof.
  unfold handleKafkaMessage, record_safe. intros Hr Hlen.
  destruct (deserialize (km_payload message)) as [data|]; [|by apply to_dlq_run in Hr].
  apply run_bind_Some in Hr as (i&p1&H1&Hr). pose proof (extending _ _ _ H1) as He1.
  apply pdb_run in H1 as [H1 _]. apply ensure_trace_db in H1 as Hd1.
  apply run_bind_Some in Hr as (ok&p2&H2&Hr). apply run_bind_Some in Hr as (u3&p3&H3&[= <- <-]).
  pose proof (extending _ _ _ H3) as He3. rewrite <- Hd1 in *.
  assert (forall u, extends p1 p2 /\ (ok = true -> user_safe p2 u data) ->
            extends p p3 /\ (ok = true -> user_safe p3 u data)) as Hu.
  { intros u [He Hs]. split; [by repeat (etrans; [eassumption|])|]. intros ?%Hs.
    by eapply user_safe_extends. }
  assert (forall k x, extends p1 p2 /\ (ok = true -> on_dlq p2 k x) ->
            extends p p3 /\ (ok = true -> on_dlq p3 k x)) as Hq.
  { intros k pl [He Hs]. split; [by repeat (etrans; [eassumption|])|]. intros ?%Hs.
    by apply (adds_kafka _ _ (ext_world _ _ He3)). }
  assert (forall id, (result ← pushToGroup E D id (d_group_id data) data;
            mret (failed_count result =? 0)) p1 = Some (ok, p2) ->
            extends p p3 /\ (ok = true -> group_safe (w_db (pw_world p1)) p3 data)) as Hg.
  { intros id (r&p4&H4&[= <- <-])%run_bind_Some. apply pushToGroup_run in H4 as [He Hs]; [|done].
    split; [by repeat (etrans; [eassumption|])|]. intros Hz%Z.eqb_eq row Hin Hrow.
    eapply member_safe_extends; [exact He3|]. by apply Hs. }
  unfold handleSingleMessage, handleGroupMessage, handleRetryMessage in H2.
  repeat case_match; eauto using pushToUser_run, to_dlq_run.
Qed.

(** ** Offsets *)

Context (K : KEnv).

Definition members_bounded (k : worker) : Prop :=
  Z.of_nat (length (group_members (w_db (pw_world (wk_state k))))) < 4294967296.

(** What happens to the worker: a turn of its loop, a restart, or work of the
    other services, who add to what is stored and sent. *)
Inductive push_step : worker -> worker -> Prop :=
| step_turn k k' :
    wk_running k = true -> members_bounded k ->
    run_turn E K D o deserialize k = Some (tt, k') -> push_step k k'
| step_restart k : push_step k (restart k)
| step_other k p : extends (wk_state k) p -> push_step k (set_state p k).

(** The record at an offset was handled, and nothing was taken back since. *)
Definition handled_at (p : pworld) (tp : partition) (offset : Z) : Prop :=
  exists key payload p1 p2,
    ke_log K tp offset = Some (key, payload) /\
    Z.of_nat (length (group_members (w_db (pw_world p1)))) < 4294967296 /\
    handleKafkaMessage E D o deserialize (mkKafkaMessage tp.1 key payload tp.2 offset) p1
    = Some (true, p2) /\ extends p2 p.

Context (base : partition -> Z).

Record offsets_ok (k : worker) : Prop := {
  off_handled : forall tp offset, base tp <= offset < offset_of (wk_committed k) tp ->
    handled_at (wk_state k) tp offset;
  off_base : forall tp, base tp <= offset_of (wk_committed k) tp;
  off_position : wk_running k = true -> forall tp,
    base tp <= offset_of (wk_position k) tp <= offset_of (wk_committed k) tp
}.

Lemma handled_at_extends p p' tp i : extends p p' -> handled_at p tp i -> handled_at p' tp i.
Proof.
  intros He (key&pl&p1&p2&H1&H2&H3&H4). exists key, pl, p1, p2. split_and!; try done. by etrans.
Qed.

Lemma offset_of_insert m tp tp' i :
  offset_of (<[tp := i]> m) tp' = if bool_decide (tp' = tp) then i else offset_of m tp'.
Proof.
  unfold offset_of. case_bool_decide as Ht; [subst; by rewrite lookup_insert_eq|].
  by rewrite lookup_insert_ne by done.
Qed.

(** A worker whose own state only grew. *)
Lemma offsets_extends k p :
  extends (wk_state k) p -> offsets_ok k -> offsets_ok (set_state p k).
Proof.
  intros He [Hh Hb Hp]. split; cbn; [|done|done]. intros tp i Hi. by eapply handled_at_extends, Hh.
Qed.

Lemma push_run {A} (m : P A) k a k' :
  push m k = Some (a, k') -> exists p, m (wk_state k) = Some (a, p) /\ k' = set_state p k.
Proof. intros (p&Hp&->)%run_zoom. eauto. Qed.

Lemma metric_run n k a k' :
  metric n k = Some (a, k') ->
  exists p, extends (wk_state k) p /\ k' = set_state p k /\
    w_db (pw_world p) = w_db (pw_world (wk_state k)).
Proof.
  intros (p&Hp&->)%push_run. exists p. split_and!; [by apply extending in Hp|done|].
  apply pdb_run in Hp as [Hp _]. by injection Hp as _ <-.
Qed.

(** Between the poll of a record and the commit or the seek that ends the turn. *)
Record in_turn (tp : partition) (offset : Z) (k : worker) : Prop := {
  turn_handled : forall tp' i, base tp' <= i < offset_of (wk_committed k) tp' ->
    handled_at (wk_state k) tp' i;
  turn_base : forall tp', base tp' <= offset_of (wk_committed k) tp';
  turn_offset : base tp <= offset <= offset_of (wk_committed k) tp;
  turn_position : offset_of (wk_position k) tp = offset + 1;
  turn_others : forall tp', tp' <> tp ->
    base tp' <= offset_of (wk_position k) tp' <= offset_of (wk_committed k) tp'
}.

Lemma in_turn_extends tp i k p :
  extends (wk_state k) p -> in_turn tp i k -> in_turn tp i (set_state p k).
Proof.
  intros He [H1 H2 H3 H4 H5]. split; cbn; try done. intros tp' j Hj. by eapply handled_at_extends, H1.
Qed.

Lemma in_turn_stop tp i k u k' : in_turn tp i k -> stop_running k = Some (u, k') -> offsets_ok k'.
Proof. intros [H1 H2 H3 H4 H5] [= <- <-]. by split. Qed.

Section Message.
Context (tp : partition) (key payload : string) (offset : Z).
Let message := mkKafkaMessage tp.1 key payload tp.2 offset.

Lemma in_turn_commit k b k' :
  in_turn tp offset k -> handled_at (wk_state k) tp offset -> commit K message k = Some (b, k') ->
  if b then offsets_ok k' else in_turn tp offset k'.
Proof.
  intros [H1 H2 H3 H4 H5] Hh. unfold commit. cbn [km_topic km_partition km_offset message].
  rewrite <- surjective_pairing.
  assert (forall tp' i, base tp' <= i < offset_of (<[tp := offset + 1]> (wk_committed k)) tp' ->
            handled_at (wk_state k) tp' i) as Hnew.
  { intros tp' i. rewrite offset_of_insert. case_bool_decide as Ht; [subst|apply H1].
    intros Hi. destruct (decide (i = offset)) as [->|Hne]; [done|]. apply H1. lia. }
  destruct (ke_commit K (wk_calls k)); intros [= <- <-]; [|done|].
  - split; cbn; [exact Hnew| |intros _]; intros tp'; rewrite offset_of_insert;
      case_bool_decide as Ht; [subst; lia|apply H2|subst; lia|by apply H5].
  - split; cbn; [exact Hnew| | |done|]; [intros tp'| |intros tp' Hne]; rewrite offset_of_insert.
    + case_bool_decide; [subst; lia|apply H2].
    + rewrite bool_decide_true by done. lia.
    + rewrite bool_decide_false by done. auto.
Qed.

Lemma in_turn_seek k b k' :
  in_turn tp offset k -> seek K message k = Some (b, k') ->
  if b then offsets_ok k' else in_turn tp offset k'.
Proof.
  intros [H1 H2 H3 H4 H5]. unfold seek. cbn [km_topic km_partition km_offset message].
  rewrite <- surjective_pairing. destruct (ke_seek K (wk_calls k)); intros [= <- <-].
  - split; cbn; [exact H1|exact H2|]. intros _ tp'. rewrite offset_of_insert.
    case_bool_decide as Ht; [subst; lia|by apply H5].
  - by split.
Qed.

(** The end of a turn that does not commit. *)
Lemma in_turn_rewind k u k' :
  in_turn tp offset k ->
  (rewound ← seek K message; if negb rewound then stop_running else mret tt) k = Some (u, k') ->
  offsets_ok k'.
Proof.
  intros Ht (b&k1&H1&H2)%run_bind_Some. apply in_turn_seek in H1; [|done].
  destruct b; cbn [negb] in H2; [by injection H2 as <- <-|by eapply in_turn_stop].
Qed.

End Message.

Lemma poll_run k m k' :
  wk_running k = true -> offsets_ok k -> poll K k = Some (m, k') ->
  wk_state k' = wk_state k /\
  match m with
  | None => offsets_ok k'
  | Some m => exists tp key payload offset,
      m = mkKafkaMessage tp.1 key payload tp.2 offset /\ ke_log K tp offset = Some (key, payload) /\
      in_turn tp offset k'
  end.
Proof.
  intros Hrun [H1 H2 H3]. specialize (H3 Hrun). unfold poll. cbv zeta.
  destruct (ke_poll K (wk_calls k)) as [tp|]; [|by intros [= <- <-]].
  destruct (ke_log K tp (offset_of (wk_position k) tp)) as [[key payload]|] eqn:Hl;
    intros [= <- <-]; [|done].
  split; [done|]. exists tp, key, payload, (offset_of (wk_position k) tp). split_and!; [done|done|].
  split; cbn; [exact H1|exact H2|apply H3| |].
  - by rewrite offset_of_insert, bool_decide_true.
  - intros tp' Hne. rewrite offset_of_insert, bool_decide_false by done. apply H3.
Qed.

Lemma run_turn_ok k u k' :
  wk_running k = true -> members_bounded k -> offsets_ok k ->
  run_turn E K D o deserialize k = Some (u, k') -> offsets_ok k'.
Proof.
  intros Hrun Hb Hok. unfold run_turn. intros (k0&k1&[= <- <-]&Hr)%run_bind_Some.
  apply run_bind_Some in Hr as (m&k1&H1&Hr). apply poll_run in H1 as [Hs H1]; [|done|done].
  destruct (ke_stop K (wk_calls k)).
  { destruct m; [destruct H1 as (tp&?&?&i&_&_&H1); by eapply in_turn_stop|].
    injection Hr as <- <-. destruct H1. by split. }
  destruct m as [m|]; [|by injection Hr as <- <-].
  destruct H1 as (tp&key&payload&i&->&Hl&H1).
  apply run_bind_Some in Hr as (?&k2&(p2&He2&->&Hd2)%metric_run&Hr).
  apply (in_turn_extends _ _ _ _ He2) in H1.
  apply run_bind_Some in Hr as (ok&k3&(p3&H3&->)%push_run&Hr). cbn [wk_state set_state] in H3.
  assert (Z.of_nat (length (group_members (w_db (pw_world p2)))) < 4294967296) as Hb2
    by (rewrite Hd2, Hs; exact Hb).
  destruct (handleKafkaMessage_run _ _ _ _ H3 Hb2) as [He3 _].
  apply (in_turn_extends _ _ (set_state p2 k1) p3 He3) in H1. destruct ok.
  2:{ apply run_bind_Some in Hr as (?&k4&(p4&He4&->&_)%metric_run&Hr).
      apply (in_turn_extends _ _ _ _ He4) in H1. by eapply in_turn_rewind. }
  assert (handled_at p3 tp i) as Hh.
  { exists key, payload, p2, p3. done. }
  apply run_bind_Some in Hr as (?&k4&(p4&He4&->&_)%metric_run&Hr).
  apply (in_turn_extends _ _ _ _ He4) in H1. apply (handled_at_extends _ _ _ _ He4) in Hh.
  apply run_bind_Some in Hr as (b&k5&H5&Hr). apply in_turn_commit in H5; [|done|done].
  destruct b.
  - apply metric_run in Hr as (p6&He6&->&_). by apply offsets_extends.
  - apply run_bind_Some in Hr as (?&k6&(p6&He6&->&_)%metric_run&Hr).
    apply (in_turn_extends _ _ _ _ He6) in H5. by eapply in_turn_rewind.
Qed.

Lemma push_step_ok k k' : push_step k k' -> offsets_ok k -> offsets_ok k'.
Proof.
  intros [k1 k2 Hr Hb Ht|k1|k1 p He] Hok.
  - by eapply run_turn_ok.
  - destruct Hok as [H1 H2 H3]. split; cbn; [done|done|]. intros _ tp. split; [apply H2|done].
  - by apply offsets_extends.
Qed.

End Push.

(** ** Counting the retries *)

Section Retries.
Context {S : RedisServer} {L : RedisLaws S} (E : PEnv) (D : PushDispatcher) (rm : PushRetryManager).
Context (user_id : Z) (data : MessageData).
Hypothesis has_retry : pd_retry D = Some rm.
Hypothesis has_redis : rm_no_redis rm = false.
Hypothesis ttl_positive : 0 < rm_ttl_seconds rm.
Hypothesis max_int : rm_max_retry_count rm < 2147483647.
(** Redis answers, on a clock that does not go backwards. *)
Hypothesis redis_answers : forall i, re_redis (pe_redis E) i = Done.
Hypothesis redis_clock : forall i j, (i <= j)%nat -> re_time (pe_redis E) i <= re_time (pe_redis E) j.

Let key := retryKey (d_message_id data) user_id.

(** The failures of the same push, one after the other. *)
Fixpoint push_failures (n : nat) : P unit :=
  match n with
  | O => mret tt
  | Datatypes.S n => handlePushFailure E D user_id data;; push_failures n
  end.

(** The records on the retry topic. *)
Definition retries (p : pworld) : nat :=
  length (filter (fun x => x.1.1 = po_topic_retry (pd_options D)) (w_kafka (pw_world p))).

(** The counter shows [count], until [deadline]. *)
Definition counter (deadline count : Z) (r : rworld) : Prop :=
  forall t, re_time (pe_redis E) (rw_cmds r) <= t ->
  redis_content t (rw_redis r) key =
  if count =? 0 then None else until deadline (StringContent (to_string count)) t.

Lemma redis_integer_to_string n : 0 <= n < 9223372036854775807 -> redis_integer (to_string n) = Some n.
Proof.
  intros Hn. unfold redis_integer. rewrite stoull_to_string by (unfold is_u64; lia). cbn.
  rewrite bool_decide_true by done. assert ((n <? 9223372036854775807) = true) as -> by lia. done.
Qed.

(** A command that is answered. *)
Lemma command_run c r reply r' :
  command (pe_redis E) c r = Some (reply, r') ->
  exists x, redis_exec (re_time (pe_redis E) (rw_cmds r)) c (rw_redis r) = (x, rw_redis r') /\
    reply = Some x /\ rw_world r' = rw_world r /\ rw_cmds r' = Datatypes.S (rw_cmds r).
Proof.
  unfold command. destruct (redis_exec _ _ _) as [x s'] eqn:Hx. rewrite redis_answers.
  intros [= <- <-]. by exists x.
Qed.

Lemma incr_counter deadline c r n r1 :
  rc_incr (pe_redis E) key r = Some (n, r1) -> 0 <= c < 2147483647 ->
  (c = 0 \/ re_time (pe_redis E) (rw_cmds r) < deadline) -> counter deadline c r ->
  n = c + 1 /\ rw_world r1 = rw_world r /\ rw_cmds r1 = Datatypes.S (rw_cmds r) /\
  forall t, re_time (pe_redis E) (rw_cmds r) <= t ->
    redis_content t (rw_redis r1) key =
    if c =? 0 then Some (StringContent "1")
    else until deadline (StringContent (to_string (c + 1))) t.
Proof.
  unfold rc_incr. intros (reply&r2&(x&Hx&->&Hw&Hc)%command_run&[= <- <-])%run_bind_Some Hr Hd Hcnt.
  apply redis_incr in Hx. rewrite (Hcnt _ (Z.le_refl _)) in Hx.
  destruct (c =? 0) eqn:Hz; bools.
  - subst c. destruct Hx as [-> Ho]. split_and!; [done|done|done|]. intros t Ht. rewrite (Ho t key Ht).
    by rewrite bool_decide_true.
  - unfold until in Hx at 1. assert ((re_time (pe_redis E) (rw_cmds r) <? deadline) = true) as Hl by lia.
    rewrite Hl in Hx. rewrite redis_integer_to_string in Hx by lia. destruct Hx as [-> Ho].
    split_and!; [done|done|done|]. intros t Ht. rewrite (Ho t key Ht), bool_decide_true by done.
    rewrite (Hcnt _ Ht). assert ((c =? 0) = false) as -> by lia. unfold until. by destruct (t <? deadline).
Qed.

Lemma increase_counter deadline c r n r' :
  increaseRetryCount (pe_redis E) rm (d_message_id data) user_id r = Some (n, r') ->
  0 <= c -> c + 1 < 2147483647 ->
  (c = 0 \/ re_time (pe_redis E) (rw_cmds r) < deadline) -> counter deadline c r ->
  n = c + 1 /\ rw_world r' = rw_world r /\ rw_cmds r' = ((if (c =? 0)%Z then 2 else 1) + rw_cmds r)%nat /\
  exists deadline', counter deadline' (c + 1) r' /\
    (if c =? 0 then re_time (pe_redis E) (rw_cmds r) + rm_ttl_seconds rm * 1000 <= deadline'
     else deadline' = deadline).
Proof.
  unfold increaseRetryCount. rewrite has_redis. cbv zeta. fold key.
  intros (m&r1&H1&H2)%run_bind_Some Hc Hc1 Hd Hcnt.
  destruct (incr_counter deadline c _ _ _ H1 ltac:(lia) Hd Hcnt) as (->&Hw&Hn&Hnew).
  assert (s32 (c + 1) = c + 1) as Hs by (unfold s32; rewrite Z.mod_small; lia).
  destruct (c =? 0) eqn:Hz; bools.
  - subst c. cbn [Z.eqb Z.add Pos.eqb] in H2.
    apply run_bind_Some in H2 as (u2&r2&H2&[= <- <-]).
    apply run_bind_Some in H2 as (b&r3&H2&[= _ <-]). unfold rc_expire in H2.
    apply run_bind_Some in H2 as (reply&r4&(x&Hx&->&Hw2&Hc2)%command_run&[= _ <-]).
    pose proof (redis_clock (rw_cmds r) (rw_cmds r1) ltac:(lia)) as Hm.
    apply redis_expire in Hx; [|done]. rewrite (Hnew _ Hm) in Hx. destruct Hx as [_ Ho].
    split_and!; [exact Hs|congruence|lia|]. exists (re_time (pe_redis E) (rw_cmds r1) + rm_ttl_seconds rm * 1000). split; [|lia].
    intros t Ht. rewrite Ho; [by rewrite bool_decide_true|].
    pose proof (redis_clock (rw_cmds r1) (rw_cmds r4) ltac:(lia)). lia.
  - assert ((c + 1 =? 1) = false) as Hne by lia. rewrite Hne in H2. injection H2 as <- <-.
    split_and!; [exact Hs|done|lia|]. exists deadline. split; [|done].
    intros t Ht. pose proof (redis_clock (rw_cmds r) (rw_cmds r1) ltac:(lia)) as Hm.
    rewrite Hnew by lia. assert ((c + 1 =? 0) = false) as -> by lia. done.
Qed.

(** Redis and the number of its commands stay. *)
Definition same_redis (p p' : pworld) : Prop :=
  rw_redis (pw_node p') = rw_redis (pw_node p) /\ rw_cmds (pw_node p') = rw_cmds (pw_node p).

Lemma pdb_redis {A} (m : M A) p a p' : pdb m p = Some (a, p') -> same_redis p p'.
Proof. by intros (r&(w&Hw&->)%run_zoom&->)%run_zoom. Qed.

Lemma retries_kafka p p' :
  w_kafka (pw_world p') = w_kafka (pw_world p) -> retries p' = retries p.
Proof. unfold retries. by intros ->. Qed.

Lemma produce_retries topic k x p b p' :
  pdb (produce (pe_db E) topic k x) p = Some (b, p') ->
  same_redis p p' /\
  (retries p' <= retries p + if bool_decide (topic = po_topic_retry (pd_options D)) then 1 else 0)%nat.
Proof.
  intros Hr. split; [by eapply pdb_redis|]. apply pdb_run in Hr as [Hr _]. unfold retries.
  unfold produce in Hr. cbv zeta in Hr. set (w' := pw_world p') in *.
  assert (w_kafka w' = w_kafka (pw_world p) \/ w_kafka w' = (topic, k, x) :: w_kafka (pw_world p)) as Hk.
  { destruct (env_kafka _ _); injection Hr as _ <-; auto. }
  destruct Hk as [->| ->]; [lia|]. rewrite filter_cons. cbn [fst].
  destruct (decide (topic = _)) as [Ht|Ht].
  - rewrite bool_decide_true by done. cbn. lia.
  - rewrite bool_decide_false by done. lia.
Qed.

Lemma saveOffline_retries p b p' :
  saveOffline E D user_id data p = Some (b, p') -> same_redis p p' /\ retries p' = retries p.
Proof.
  unfold saveOffline. destruct (pd_offline D); cbn [negb]; [|by intros [= <- <-]].
  cbv zeta. intros (now&p1&H1&H2)%run_bind_Some.
  destruct (pdb_redis _ _ _ _ H1) as [Ha Hb], (pdb_redis _ _ _ _ H2) as [Hc Hd].
  apply pdb_run in H1 as [H1 _], H2 as [H2 _]. split; [split; congruence|]. apply retries_kafka.
  apply silent in H1. assert (w_kafka (pw_world p') = w_kafka (pw_world p1)) as ->; [|done].
  revert H2. apply (silent_with_conn (pe_db E) false). apply _.
Qed.

Context (topics_differ : po_topic_dlq (pd_options D) <> po_topic_retry (pd_options D)).

(** One more failure: the counter goes up, and a retry is sent only while it
    is within the limit. *)
Lemma failure_run deadline c p b p' :
  handlePushFailure E D user_id data p = Some (b, p') ->
  0 <= c -> c + 1 < 2147483647 ->
  (c = 0 \/ re_time (pe_redis E) (rw_cmds (pw_node p)) < deadline) -> counter deadline c (pw_node p) ->
  rw_cmds (pw_node p') = ((if (c =? 0)%Z then 2 else 1) + rw_cmds (pw_node p))%nat /\
  (retries p' <= retries p + if (c <? rm_max_retry_count rm)%Z then 1 else 0)%nat /\
  exists deadline', counter deadline' (c + 1) (pw_node p') /\
    (if c =? 0 then re_time (pe_redis E) (rw_cmds (pw_node p)) + rm_ttl_seconds rm * 1000 <= deadline'
     else deadline' = deadline).
Proof.
  unfold handlePushFailure. rewrite has_retry. intros (n&p1&H1&H2)%run_bind_Some H0 Hc Hd Hcnt.
  apply run_zoom in H1 as (r1&H1&->).
  destruct (increase_counter _ _ _ _ _ H1 H0 Hc Hd Hcnt) as (->&Hw&Hlt&deadline'&Hc'&Hd').
  set (p1 := set_node r1 p) in *.
  assert (retries p1 = retries p) as Hr1 by (apply retries_kafka; unfold pw_world; cbn; by rewrite Hw).
  assert (same_redis p1 p' /\
    (retries p' <= retries p + if (c <? rm_max_retry_count rm)%Z then 1 else 0)%nat) as [[Ha Hb] Hr].
  2:{ split_and!; [rewrite Hb; exact Hlt|done|]. exists deadline'. split; [|done].
      intros t. rewrite Ha, Hb. apply Hc'. }
  destruct (c + 1 <=? rm_max_retry_count rm) eqn:Hm.
  - assert ((c <? rm_max_retry_count rm) = true) as -> by lia. unfold sendToRetryTopic in H2.
    destruct (pd_kafka D); cbn [negb] in H2; [|injection H2 as <- <-; split; [done|lia]].
    apply produce_retries in H2 as [Hs H2]. rewrite bool_decide_true in H2 by done.
    split; [done|lia].
  - assert ((c <? rm_max_retry_count rm) = false) as -> by lia.
    apply run_bind_Some in H2 as (q&p2&H2&H3). apply run_bind_Some in H3 as (off&p3&H3&[= <- <-]).
    apply saveOffline_retries in H3 as [[Hs1 Hs2] Hr3]. unfold sendToDlqTopic in H2.
    destruct (pd_kafka D); cbn [negb] in H2; [|injection H2 as <- <-; split; [done|lia]].
    apply produce_retries in H2 as [[Hs3 Hs4] H2]. rewrite bool_decide_false in H2 by done.
    split; [split; congruence|lia].
Qed.

Lemma push_failures_run n deadline c p u p' :
  push_failures n p = Some (u, p') -> 0 <= c -> c + Z.of_nat n < 2147483647 ->
  counter deadline c (pw_node p) ->
  (forall i, (i < rw_cmds (pw_node p) + n + if (c =? 0)%Z then 1 else 0)%nat ->
     re_time (pe_redis E) i <
     if c =? 0 then re_time (pe_redis E) (rw_cmds (pw_node p)) + rm_ttl_seconds rm * 1000 else deadline) ->
  (retries p' <= retries p + Z.to_nat (rm_max_retry_count rm - c))%nat.
Proof.
  revert deadline c p. induction n as [|n IH]; intros deadline c p; cbn [push_failures].
  { intros [= <- <-]. lia. }
  intros (b&p1&H1&H2)%run_bind_Some H0 Hc Hcnt Hwin.
  assert (c = 0 \/ re_time (pe_redis E) (rw_cmds (pw_node p)) < deadline) as Hd.
  { destruct (c =? 0) eqn:Hz; [bools; by left|right]. apply Hwin. lia. }
  destruct (failure_run deadline c _ _ _ H1 H0 ltac:(lia) Hd Hcnt) as (Hn&Hr&deadline'&Hcnt'&Hdl).
  eapply (IH deadline' (c + 1)) in H2; [|lia|lia|exact Hcnt'|].
  - destruct (c <? rm_max_retry_count rm) eqn:Hm; lia.
  - intros i Hi. assert ((c + 1 =? 0) = false) as Hz by lia. rewrite Hz in *.
    destruct (c =? 0) eqn:Hz0; [|subst deadline'; apply Hwin; lia].
    eapply Z.lt_le_trans; [apply Hwin; lia|exact Hdl].
Qed.

End Retries.
