(* ===== verification/PushClaims.v ===== *)
(** * Properties of the push service

    The end-to-end guarantee of the worker, the bound on retries, and what is
    left of it when Redis does not answer; with a small deployment to
    evaluate them on. *)

From S2P Require Import Prelude Words Text MessageId Rpc Db MessageStore Directory DbLogic.
From S2P Require Import MessageService MessageSend Sample Breaker Redis Push PushSafety.

Import MapServer.
Local Open Scope string_scope.
Local Open Scope Z_scope.

(** ** A deployment: the worker reads one direct message to the offline user 9
    and one message to group 5; payloads carry their content only. *)

Definition sample_data (content : string) : MessageData :=
  if bool_decide (content = "direct") then mkMessageData 41 1 7 9 0 1 content 1 1 false 0 ""
  else mkMessageData 42 2 7 0 5 1 content 1 1 false 0 "".

Definition sample_parse (payload : string) : option MessageData :=
  if bool_decide (payload = "junk") then None else Some (sample_data payload).

Definition sample_dispatcher : PushDispatcher :=
  mkDispatcher (Some false) true true true true (Some (PushRetryManager_new false 2 3600))
    (mkPushOptions "retry" "dlq" true) d_content.

Definition sample_push_env (fault : nat -> outcome) (redis : nat -> outcome) : PEnv :=
  mkPEnv (mkREnv (sample_env fault) redis (fun i => 1000 + Z.of_nat i)) (fun _ _ _ _ => None)
    (fun i => Z.of_nat i).

Definition sample_kafka (commits : nat -> outcome) : KEnv :=
  mkKEnv (fun i => Some (if Nat.eqb i 0 then ("single", 0) else if Nat.eqb i 3 then ("single", 0) else ("group", 0)))
    (fun tp i => if bool_decide (i = 0)
                 then Some ("k", if bool_decide (tp = ("single", 0)) then "direct" else "all")
                 else None)
    commits (fun _ => true) (fun _ => false).

Definition sample_options : PushWorkerOptions := mkPushWorkerOptions "single" "group" "retry" "dlq".

Definition sample_push (redis : gmap string (content * option Z)) : pworld :=
  mkPworld (mkRworld (world_of sample_db) redis 0) ∅ 0 0 [].

Definition sample_worker : worker := mkWorker (sample_push ∅) ∅ ∅ 0 true.


(** Turns of the loop, as far as it runs. *)
Fixpoint turns `{RedisServer} E K D o deserialize (n : nat) (k : worker) : option worker :=
  match n with
  | O => Some k
  | S n =>
      if wk_running k &&
         (Z.of_nat (length (group_members (w_db (pw_world (wk_state k))))) <? 4294967296)
      then match run_turn E K D o deserialize k with
           | Some (_, k') => turns E K D o deserialize n k'
           | None => None
           end
      else None
  end.

Lemma turns_steps `{RedisServer} E K D o deserialize n k k' :
  turns E K D o deserialize n k = Some k' -> rtc (push_step E D o deserialize K) k k'.
Proof.
  revert k. induction n as [|n IH]; intros k; cbn [turns]; [by intros [= <-]|].
  destruct (_ && _) eqn:Hc; [|done]. destruct (run_turn _ _ _ _ _ k) as [[[] k1]|] eqn:Ht; [|done].
  intros Hk. bools. eapply rtc_l; [|by apply IH]. by apply step_turn.
Qed.

Definition sample_turns : option worker :=
  turns (sample_push_env healthy healthy) (sample_kafka (once 1 Refused)) sample_dispatcher
    sample_options sample_parse 3 sample_worker.



Definition sample_failures : option (unit * pworld) :=
  push_failures (sample_push_env healthy healthy) sample_dispatcher 9 (sample_data "direct") 5
    (sample_push ∅).


Lemma run_step_p `{RedisServer} {A B} (m : P A) (k : A -> P B) p a p1 r :
  m p = Some (a, p1) -> k a p1 = r -> (m ≫= k) p = r.
Proof. intros Hm <-. etrans; [apply run_bind|]. by rewrite Hm. Qed.

Lemma increase_without_redis `{RedisServer} E rm m u r :
  rm_no_redis rm = false -> (forall i, re_redis E i <> Done) ->
  exists r', increaseRetryCount E rm m u r = Some (-1, r') /\ rw_world r' = rw_world r.
Proof.
  intros Hrm Hr. unfold increaseRetryCount, rc_incr, command. rewrite Hrm.
  cbv [mbind SM_bind mret SM_ret]. specialize (Hr (rw_cmds r)).
  destruct (redis_exec _ _ _) as [x s]. destruct (re_redis E (rw_cmds r)); [done|..]; by eexists.
Qed.

(** The bound on retries is Redis's: when Redis answers no command, every
    failed push of a message goes to the retry topic again, however often it
    has failed, and none to the dead letter topic. *)
Theorem retries_unbounded_without_redis `{RedisServer} E D rm user_id data n p :
  pd_retry D = Some rm -> rm_no_redis rm = false -> 0 <= rm_max_retry_count rm ->
  pd_kafka D = true -> (forall i, env_kafka (pe_db E) i = Done) ->
  (forall i, re_redis (pe_redis E) i <> Done) ->
  exists p', push_failures E D user_id data n p = Some (tt, p') /\
    w_kafka (pw_world p') =
      (replicate n (po_topic_retry (pd_options D), to_string user_id,
                    pd_serialize D (messageForRecipient user_id data)) ++ w_kafka (pw_world p))%list.
Proof.
  intros Hrm Hredis Hmax Hk Hkafka Hr. revert p. induction n as [|n IH]; intros p; [by exists p|].
  destruct (increase_without_redis (pe_redis E) rm (d_message_id data) user_id (pw_node p) Hredis Hr)
    as (r1&H1&Hw).
  assert (exists p1, handlePushFailure E D user_id data p = Some (true, p1) /\
    w_kafka (pw_world p1) = (po_topic_retry (pd_options D), to_string user_id,
      pd_serialize D (messageForRecipient user_id data)) :: w_kafka (pw_world p)) as (p1&Hp1&Hk1).
  { eexists. split.
    - unfold handlePushFailure. rewrite Hrm. eapply run_step_p; [unfold node, zoom; by rewrite H1|].
      assert ((-1 <=? rm_max_retry_count rm) = true) as -> by lia.
      unfold sendToRetryTopic. rewrite Hk. cbn [negb].
      unfold pdb, node, db, zoom, produce. cbv zeta. rewrite Hkafka. reflexivity.
    - unfold pw_world. cbn. by rewrite Hw. }
  destruct (IH p1) as (p2&Hp2&Hk2). exists p2. split.
  - cbn [push_failures]. by eapply run_step_p; [exact Hp1|].
  - rewrite Hk2, Hk1, replicate_S_end, <- app_assoc. done.
Qed.

Lemma retries_unbounded_without_redis_witness :
  exists p', push_failures (sample_push_env healthy (fun _ => Refused)) sample_dispatcher 9
    (sample_data "direct") 1000 (sample_push ∅) = Some (tt, p') /\
    w_kafka (pw_world p') = (replicate 1000 ("retry", "9", "direct") ++ [])%list.
Proof.
  apply (retries_unbounded_without_redis (sample_push_env healthy (fun _ => Refused)) sample_dispatcher
           (PushRetryManager_new false 2 3600) 9 (sample_data "direct") 1000 (sample_push ∅));
    [reflexivity|reflexivity|discriminate|reflexivity|reflexivity|discriminate].
Defined.
