(* ===== verification/Devices.v ===== *)
(** * The devices of a user (common/dao/DeviceDao.cpp)

    (user_id, device_id) is unique, device ids are compared under the server's
    collation.  The surrogate key of the table is not read by any caller and
    is left out. *)

From S2P Require Import Prelude Words Text MessageId Db MessageStore.

Module DeviceDao.

Definition with_token (hash : string) (active_at updated_at : Z) (r : UserDevice) : UserDevice :=
  mkDevice (ud_user_id r) (ud_device_id r) (ud_platform r) (ud_device_name r) hash
    (ud_last_login_at r) active_at (ud_created_at r) updated_at.

(** [now] for a time that was not given. *)
Definition given_or (now t : Z) : Z := if 0 <? t then t else now.

(** Most recently active first, then by login. *)
Definition recent_first (a b : UserDevice) : bool :=
  (ud_last_active_at b <? ud_last_active_at a) ||
  ((ud_last_active_at a =? ud_last_active_at b) && (ud_last_login_at b <=? ud_last_login_at a)).

Definition set_devices (P : UserDevice -> bool) (f : UserDevice -> UserDevice) (d : Db) : option (Db * Z) :=
  Some (set_user_devices (sql_update P f (user_devices d)) d, sql_affected P f (user_devices d)).

Definition drop_rows (P : UserDevice -> bool) (d : Db) : option (Db * Z) :=
  Some (set_user_devices (sql_select (fun r => negb (P r)) (user_devices d)) d,
        sql_count P (user_devices d)).

Section Dao.
Context (E : Env).

Definition same_device (user_id : Z) (device_id : string) (r : UserDevice) : bool :=
  (ud_user_id r =? user_id) && bool_decide (env_collate E (ud_device_id r) = env_collate E device_id).

(** INSERT ... ON DUPLICATE KEY UPDATE; [row] holds the values. *)
Definition upsert_device (row : UserDevice) (d : Db) : option (Db * Z) :=
  Some (set_user_devices
    (sql_upsert (same_device (ud_user_id row) (ud_device_id row)) row
       (fun r => mkDevice (ud_user_id r) (ud_device_id r) (ud_platform row) (ud_device_name row)
                   (ud_token_hash row) (ud_last_login_at row) (ud_last_active_at row)
                   (ud_created_at r) (ud_updated_at row))
       (user_devices d)) d, 1).

Definition upsertDevice (device : UserDevice) : M bool :=
  if (ud_user_id device =? 0) || bool_decide (ud_device_id device = EmptyString) then mret false
  else with_conn E false
    (now ← nowMs E;
     let login_at := given_or now (ud_last_login_at device) in
     let active_at := given_or login_at (ud_last_active_at device) in
     let created_at := given_or now (ud_created_at device) in
     let updated_at := given_or now (ud_updated_at device) in
     update_ok (auto_update E (upsert_device
       (mkDevice (ud_user_id device) (ud_device_id device) (ud_platform device) (ud_device_name device)
          (ud_token_hash device) login_at active_at created_at updated_at)))).

Definition getDevice (user_id : Z) (device_id : string) : M (option UserDevice) :=
  if (user_id =? 0) || bool_decide (device_id = EmptyString) then mret None
  else with_conn E None
    (row (auto_query E (fun d => sql_first (same_device user_id device_id) (user_devices d)))).

Definition listDevices (user_id : Z) : M (list UserDevice) :=
  if user_id =? 0 then mret []
  else with_conn E []
    (rows (auto_query E (fun d =>
       sort_by recent_first (sql_select (fun r => ud_user_id r =? user_id) (user_devices d))))).

Definition updateLastActive (user_id : Z) (device_id : string) (last_active_at : Z) : M bool :=
  if (user_id =? 0) || bool_decide (device_id = EmptyString) then mret false
  else with_conn E false
    (now ← nowMs E;
     let active_at := given_or now last_active_at in
     update_ok (auto_update E (set_devices (same_device user_id device_id)
       (fun r => with_token (ud_token_hash r) active_at now r)))).

Definition clearDeviceToken (user_id : Z) (device_id : string) (updated_at : Z) : M bool :=
  if (user_id =? 0) || bool_decide (device_id = EmptyString) then mret false
  else with_conn E false
    (now ← (if 0 <? updated_at then mret updated_at else nowMs E);
     update_ok (auto_update E (set_devices (same_device user_id device_id)
       (with_token EmptyString now now)))).

Definition clearAllDeviceTokens (user_id updated_at : Z) : M bool :=
  if user_id =? 0 then mret false
  else with_conn E false
    (now ← (if 0 <? updated_at then mret updated_at else nowMs E);
     update_ok (auto_update E (set_devices (fun r => ud_user_id r =? user_id)
       (with_token EmptyString now now)))).

Definition deleteDevice (user_id : Z) (device_id : string) : M bool :=
  if (user_id =? 0) || bool_decide (device_id = EmptyString) then mret false
  else with_conn E false (update_ok (auto_update E (drop_rows (same_device user_id device_id)))).

Definition deleteDevicesByUser (user_id : Z) : M bool :=
  if user_id =? 0 then mret false
  else with_conn E false (update_ok (auto_update E (drop_rows (fun r => ud_user_id r =? user_id)))).

End Dao.
End DeviceDao.
Export DeviceDao.
