(* ===== verification/Passwords.v ===== *)
(** * Password hashes (common/auth/PasswordHasher.cpp)

    The encoding "algorithm$iterations$salt$hash" and its check.  OpenSSL's
    random bytes and PBKDF2 are parameters; the parsing of the stored text
    follows the standard library. *)

From S2P Require Import Prelude Words Text MessageId Db MessageStore.

Local Open Scope Z_scope.

Module PasswordHasher.

Definition kIterations : Z := 100000.
Definition kSaltBytes : Z := 16.
Definition kHashBytes : Z := 32.
Definition kAlgorithm : string := "pbkdf2_sha256".

(** [iss >> std::hex >> value] on the two characters [a] and [b]: leading
    space is skipped, a sign is accepted (a negative value wraps), reading
    stops at what is no digit; "0x" alone and no digit at all are failures. *)
Definition read_hex (a b : ascii) : option Z :=
  if isspace a || bool_decide (a = "+"%char) then (if 0 <=? hexValue b then Some (hexValue b) else None)
  else if bool_decide (a = "-"%char) then (if 0 <=? hexValue b then Some (u32 (- hexValue b)) else None)
  else if hexValue a <? 0 then None
  else if 0 <=? hexValue b then Some (hexValue a * 16 + hexValue b)
  else if bool_decide (a = "0"%char) && (bool_decide (b = "x"%char) || bool_decide (b = "X"%char)) then None
  else Some (hexValue a).

Fixpoint read_octets (hex : string) : option string :=
  match hex with
  | String a (String b rest) =>
      value ← read_hex a b;
      out ← read_octets rest;
      Some (String (ascii_of_N (Z.to_N (u8 value))) out)
  | _ => Some EmptyString
  end.

(** [PasswordHasher::fromHex]: empty when the text cannot be read. *)
Definition hash_fromHex (hex : string) : string :=
  if negb (Z.of_nat (String.length hex) mod 2 =? 0) then EmptyString
  else default EmptyString (read_octets hex).

(** [PasswordHasher::toHex]: two lower case digits per octet. *)
Definition hash_toHex (bytes : string) : string := toHex bytes.

(** The differing bits of two texts of the same length, as the comparison
    loop collects them. *)
Fixpoint octet_diff (a b : string) (diff : Z) : Z :=
  match a, b with
  | String x a, String y b =>
      octet_diff a b (Z.lor diff (Z.lxor (Z.of_N (N_of_ascii x)) (Z.of_N (N_of_ascii y))))
  | _, _ => diff
  end.

Section Hasher.
(** OpenSSL: the octets [RAND_bytes] draws for a buffer of a size, and the key
    [PKCS5_PBKDF2_HMAC] derives with SHA-256 from a password, a salt, an
    iteration count and an output size; [None] when a call fails. *)
Context (RAND_bytes : Z -> option string).
Context (PKCS5_PBKDF2_HMAC : string -> string -> Z -> Z -> option string).

Definition generateSalt (bytes : Z) : string := default EmptyString (RAND_bytes bytes).

Definition pbkdf2Sha256 (password salt : string) (iterations output_len : Z) : string :=
  default EmptyString (PKCS5_PBKDF2_HMAC password salt iterations output_len).

Definition hashPassword (password : string) : string :=
  if bool_decide (password = EmptyString) then EmptyString
  else
    let salt := generateSalt kSaltBytes in
    if bool_decide (salt = EmptyString) then EmptyString
    else
    let hash := pbkdf2Sha256 password salt kIterations kHashBytes in
    if bool_decide (hash = EmptyString) then EmptyString
    else kAlgorithm +:+ "$" +:+ to_string kIterations +:+ "$" +:+ hash_toHex salt +:+ "$" +:+
         hash_toHex hash.

Definition verifyPassword (password encoded_hash : string) : bool :=
  if bool_decide (password = EmptyString) || bool_decide (encoded_hash = EmptyString) then false
  else match split_on "$" encoded_hash with
  | [algorithm; count; salt_hex; hash_hex] =>
      if negb (bool_decide (algorithm = kAlgorithm)) then false
      else match fst <$> stoi count with
      | None => false
      | Some iterations =>
          if iterations <=? 0 then false
          else
            let salt := hash_fromHex salt_hex in
            let expected := hash_fromHex hash_hex in
            if bool_decide (salt = EmptyString) || bool_decide (expected = EmptyString) then false
            else
              let size := Z.of_nat (String.length expected) in
              let actual := pbkdf2Sha256 password salt iterations size in
              if negb (Z.of_nat (String.length actual) =? size) then false
              else octet_diff actual expected 0 =? 0
      end
  | _ => false
  end.

End Hasher.
End PasswordHasher.
Export PasswordHasher.

(** ** The encoding is read back *)

Lemma read_hex_digit hi lo :
  0 <= hi < 16 -> 0 <= lo < 16 -> read_hex (hex_digit hi) (hex_digit lo) = Some (hi * 16 + lo).
Proof.
  intros Hh Hl.
  assert (forall a b, In a (seqZ 0 16) -> In b (seqZ 0 16) ->
            read_hex (hex_digit a) (hex_digit b) = Some (a * 16 + b)) as Hall.
  { intros a b Ha Hb. cbn in Ha, Hb.
    repeat destruct Ha as [<-|Ha]; [..|done]; repeat destruct Hb as [<-|Hb]; done. }
  apply Hall; apply list_elem_of_In, elem_of_seqZ; lia.
Qed.

Lemma octet_halves c :
  let n := Z.of_N (N_of_ascii c) in
  0 <= Z.shiftr n 4 < 16 /\ 0 <= Z.land n 0x0F < 16 /\
  ascii_of_N (Z.to_N (u8 (Z.shiftr n 4 * 16 + Z.land n 0x0F))) = c.
Proof. destruct c as [[] [] [] [] [] [] [] []]; vm_compute; done. Qed.

Lemma read_octets_toHex s : read_octets (hash_toHex s) = Some s.
Proof.
  unfold hash_toHex. induction s as [|c s IH]; [done|]. cbn [toHex read_octets].
  destruct (octet_halves c) as (Hh&Hl&Hc). rewrite read_hex_digit by done. cbn.
  by rewrite IH, Hc.
Qed.

Lemma length_toHex s : String.length (hash_toHex s) = (2 * String.length s)%nat.
Proof. unfold hash_toHex. induction s as [|c s IH]; [done|]. cbn [toHex String.length]. lia. Qed.

Lemma fromHex_toHex s : hash_fromHex (hash_toHex s) = s.
Proof.
  unfold hash_fromHex. rewrite length_toHex, read_octets_toHex.
  replace (Z.of_nat (2 * String.length s) mod 2) with 0; [done|].
  rewrite Nat2Z.inj_mul. rewrite Z.mul_comm, Z.mod_mul; lia.
Qed.

Lemma free_of_toHex s : free_of "$" (hash_toHex s) = true.
Proof.
  unfold hash_toHex. induction s as [|c s IH]; [done|]. cbn [toHex free_of]. rewrite IH.
  by destruct c as [[] [] [] [] [] [] [] []].
Qed.

Lemma octet_diff_zero a b d :
  0 <= d -> String.length a = String.length b -> octet_diff a b d = 0 <-> d = 0 /\ a = b.
Proof.
  revert b d. induction a as [|x a IH]; intros [|y b] d Hd Hl; cbn [octet_diff]; try done.
  { split; [done|by intros [-> _]]. }
  assert (0 <= Z.lxor (Z.of_N (N_of_ascii x)) (Z.of_N (N_of_ascii y))) as Hx
    by (apply Z.lxor_nonneg; lia).
  rewrite IH; [|by apply Z.lor_nonneg|by injection Hl]. rewrite Z.lor_eq_0_iff, Z.lxor_eq_0_iff.
  split; [intros [[-> Hxy] ->]|intros [-> [= -> ->]]; done].
  split; [done|]. f_equal. apply N2Z.inj in Hxy.
  by rewrite <- (ascii_N_embedding x), <- (ascii_N_embedding y), Hxy.
Qed.

Lemma string_length_zero s : s <> EmptyString -> (0 < String.length s)%nat.
Proof. destruct s; cbn; [done|lia]. Qed.

(** The four fields of an encoded hash are read back as they were written. *)
Lemma split_on_encoded salt hash :
  split_on "$" (kAlgorithm +:+ "$" +:+ to_string kIterations +:+ "$" +:+ hash_toHex salt +:+ "$" +:+
                hash_toHex hash) =
  [kAlgorithm; to_string kIterations; hash_toHex salt; hash_toHex hash].
Proof.
  do 2 (rewrite (split_on_app "$"); [f_equal|by vm_compute]).
  rewrite (split_on_app "$") by apply free_of_toHex. f_equal. apply split_on_free, free_of_toHex.
Qed.

Section Check.
Context (RAND_bytes : Z -> option string).
Context (PKCS5_PBKDF2_HMAC : string -> string -> Z -> Z -> option string).

Lemma verify_encoded password salt hash :
  password <> EmptyString -> salt <> EmptyString -> hash <> EmptyString ->
  verifyPassword PKCS5_PBKDF2_HMAC password
    (kAlgorithm +:+ "$" +:+ to_string kIterations +:+ "$" +:+ hash_toHex salt +:+ "$" +:+ hash_toHex hash) =
  (let actual := pbkdf2Sha256 PKCS5_PBKDF2_HMAC password salt kIterations (Z.of_nat (String.length hash)) in
   (Z.of_nat (String.length actual) =? Z.of_nat (String.length hash)) && (octet_diff actual hash 0 =? 0)).
Proof.
  intros Hp Hs Hh. unfold verifyPassword. rewrite split_on_encoded, !fromHex_toHex.
  rewrite (bool_decide_false (password = _)), (bool_decide_false (salt = _)), (bool_decide_false (hash = _)) by done.
  change (fst <$> stoi (to_string kIterations)) with (Some kIterations).
  rewrite (bool_decide_false (_ +:+ _ = EmptyString)), (bool_decide_true (kAlgorithm = kAlgorithm)) by done.
  cbv zeta. cbn [negb orb]. change (kIterations <=? 0) with false. cbv iota. by destruct (_ =? _).
Qed.

Lemma hashPassword_encoded password :
  let salt := generateSalt RAND_bytes kSaltBytes in
  hashPassword RAND_bytes PKCS5_PBKDF2_HMAC password <> EmptyString ->
  exists key, PKCS5_PBKDF2_HMAC password salt kIterations kHashBytes = Some key /\
    salt <> EmptyString /\ key <> EmptyString /\
    hashPassword RAND_bytes PKCS5_PBKDF2_HMAC password =
    kAlgorithm +:+ "$" +:+ to_string kIterations +:+ "$" +:+ hash_toHex salt +:+ "$" +:+ hash_toHex key.
Proof.
  cbv zeta. unfold hashPassword, pbkdf2Sha256. cbv zeta. repeat case_bool_decide; try done. intros _.
  destruct (PKCS5_PBKDF2_HMAC _ _ _ _) as [key|]; [|done]. by exists key.
Qed.

(** A stored hash accepts exactly the passwords that derive its key:
    [hashPassword] gives a text which [verifyPassword] accepts for that
    password, and refuses for every other password whose derived key under
    the stored salt and iteration count is another one.  Of PBKDF2 only the
    size of its result is assumed. *)
Theorem password_check_exact password attempt
  (Hsize : forall p s i n key, PKCS5_PBKDF2_HMAC p s i n = Some key -> Z.of_nat (String.length key) = n)
  (Hhash : hashPassword RAND_bytes PKCS5_PBKDF2_HMAC password <> EmptyString)
  (Hattempt : attempt <> EmptyString) :
  let key p := PKCS5_PBKDF2_HMAC p (generateSalt RAND_bytes kSaltBytes) kIterations kHashBytes in
  verifyPassword PKCS5_PBKDF2_HMAC attempt (hashPassword RAND_bytes PKCS5_PBKDF2_HMAC password) =
  bool_decide (key attempt = key password).
Proof.
  cbv zeta. apply hashPassword_encoded in Hhash as (h&Eh&Hs&Hh&->).
  set (salt := generateSalt RAND_bytes kSaltBytes) in *.
  rewrite verify_encoded by done. cbv zeta. unfold pbkdf2Sha256. rewrite (Hsize _ _ _ _ _ Eh), Eh.
  destruct (PKCS5_PBKDF2_HMAC attempt salt kIterations kHashBytes) as [a|] eqn:Ea; cbn [from_option id].
  - rewrite (Hsize _ _ _ _ _ Ea), Z.eqb_refl. apply eq_true_iff_eq.
    pose proof (Hsize _ _ _ _ _ Ea). pose proof (Hsize _ _ _ _ _ Eh).
    rewrite andb_true_l, Z.eqb_eq, octet_diff_zero, bool_decide_eq_true by lia. split; [by intros [_ ->]|by intros [= ->]].
  - symmetry. by apply bool_decide_eq_false.
Qed.

End Check.

(** A derivation with the documented result size, for the witness: the salt,
    then the password's characters over and over. *)
Fixpoint cycle (p : string) (from : string) (n : nat) : string :=
  match n with
  | O => EmptyString
  | S n => match from with
           | String c from => String c (cycle p from n)
           | EmptyString => match p with
                            | String c p' => String c (cycle p p' n)
                            | EmptyString => String "0" (cycle p p n)
                            end
           end
  end.

Definition sample_derive (p s : string) (i n : Z) : option string :=
  if 0 <=? n then Some (cycle p s (Z.to_nat n)) else None.

Definition sample_random (n : Z) : option string := Some "0123456789abcdef"%string.

Lemma cycle_length p from n : String.length (cycle p from n) = n.
Proof.
  revert from. induction n as [|n IH]; intros [|c from]; cbn; [done..| |by rewrite IH].
  destruct p; cbn; by rewrite IH.
Qed.

Lemma sample_derive_size p s i n key : sample_derive p s i n = Some key -> Z.of_nat (String.length key) = n.
Proof.
  unfold sample_derive. destruct (Z.leb_spec 0 n); [|done]. intros [= <-]. rewrite cycle_length. lia.
Qed.

Lemma password_check_exact_witness :
  verifyPassword sample_derive "secret" (hashPassword sample_random sample_derive "secret") = true /\
  verifyPassword sample_derive "Secret" (hashPassword sample_random sample_derive "secret") = false.
Proof.
  split.
  all: rewrite (password_check_exact sample_random sample_derive "secret" _ sample_derive_size); [by vm_compute|by vm_compute|done].
Defined.
