(* ===== verification/RedisLogic.v ===== *)
(** * Reasoning about a Redis server

    Invariants of the server's state along the commands of a program, whatever
    the outcomes of the commands: [Keeps I m] says that the run of [m] keeps
    the invariant [I], for code over any state that contains a client. *)

From S2P Require Import Prelude Words Text MessageId Db Redis.

Section Invariants.
Context `{RedisServer}.
Implicit Types (I : nat -> redis_state -> Prop).

(** A state with a Redis client. *)
Class HasNode (T : Type) := node_of : T -> rworld.
#[global] Hint Mode HasNode ! : typeclass_instances.

#[global] Instance node_of_rworld : HasNode rworld := fun r => r.

(** An invariant of the number of commands sent and the server's state. *)
Definition at_node `{HasNode T} I (s : T) : Prop := I (rw_cmds (node_of s)) (rw_redis (node_of s)).

Class Keeps `{HasNode T} I {A} (m : SM T A) : Prop :=
  keeping : forall s a s', m s = Some (a, s') -> at_node I s -> at_node I s'.

Section Steps.
Context `{HasNode T} {A B : Type}.
Implicit Types (m : SM T A).

#[global] Instance keeps_ret I (a : A) : Keeps I (mret a : SM T A).
Proof. by intros s ? s' [= <- <-]. Qed.
#[global] Instance keeps_bind I m (k : A -> SM T B) :
  Keeps I m -> (forall a, Keeps I (k a)) -> Keeps I (m ≫= k).
Proof. intros Hm Hk s b s' (a&s1&H1&H2)%run_bind_Some Hi. eapply Hk; [exact H2|]. by eapply Hm. Qed.
#[global] Instance keeps_if I (b : bool) m1 m2 :
  Keeps I m1 -> Keeps I m2 -> Keeps I (if b then m1 else m2).
Proof. by destruct b. Qed.
#[global] Instance keeps_option {C} I (o : option C) (f : C -> SM T A) m :
  (forall c, Keeps I (f c)) -> Keeps I m -> Keeps I (match o with Some c => f c | None => m end).
Proof. by destruct o. Qed.
#[global] Instance keeps_pair {C D} I (p : C * D) (f : C -> D -> SM T A) :
  (forall c d, Keeps I (f c d)) -> Keeps I (let '(c, d) := p in f c d).
Proof. by destruct p. Qed.

End Steps.

#[global] Instance keeps_db I {A} (m : M A) : Keeps I (db m).
Proof. by intros r a r' (w&_&->)%run_zoom. Qed.

(** Code of the client run inside a larger state. *)
Lemma keeps_zoom `{HasNode T} I {A} (get : T -> rworld) (put : rworld -> T -> T) (m : R A) :
  (forall s, node_of s = get s) -> (forall r s, node_of (put r s) = r) ->
  Keeps I m -> Keeps I (zoom get put m).
Proof.
  intros Hg Hp Hm s a s' (r&Hr&->)%run_zoom. unfold at_node. rewrite Hp, Hg. apply (Hm _ _ _ Hr).
Qed.

(** Code that does not touch the client. *)
Lemma keeps_apart `{HasNode T} I {A} (m : SM T A) :
  (forall s a s', m s = Some (a, s') -> node_of s' = node_of s) -> Keeps I m.
Proof. intros Hm s a s' Hr. unfold at_node. by rewrite (Hm _ _ _ Hr). Qed.

(** ** Commands *)

Lemma command_outcome (E : REnv) c r reply r' :
  command E c r = Some (reply, r') ->
  let t := re_time E (rw_cmds r) in
  rw_cmds r' = S (rw_cmds r) /\
  ((re_redis E (rw_cmds r) = Refused /\ reply = None /\ rw_redis r' = rw_redis r) \/
   (exists x, redis_exec t c (rw_redis r) = (x, rw_redis r') /\
      reply = if re_redis E (rw_cmds r) is Done then Some x else None)).
Proof.
  unfold command. destruct (redis_exec _ c _) as [x s] eqn:Hx.
  destruct (re_redis E (rw_cmds r)) eqn:Ho; intros [= <- <-]; cbn; split; auto.
  all: right; exists x; auto.
Qed.

(** A command keeps what both its execution and the passing of time keep. *)
Lemma keeps_command I (E : REnv) {A} c (f : option redis_reply -> A) :
  (forall i s, I i s -> I (S i) s) ->
  (forall i s x s', redis_exec (re_time E i) c s = (x, s') -> I i s -> I (S i) s') ->
  Keeps I (reply ← command E c; mret (f reply)).
Proof.
  intros Hs Hc r a r' (reply&r1&H1&[= <- <-])%run_bind_Some. unfold at_node, node_of, node_of_rworld.
  apply command_outcome in H1 as [-> [(_&_&->)|(x&Hx&_)]]; eauto.
Qed.

End Invariants.

(** ** The content of a key *)

Section Keys.
Context {Srv : RedisServer} {Laws : RedisLaws Srv} (E : REnv).

(** The server's clock does not run backwards. *)
Hypothesis clock : forall i j, (i <= j)%nat -> re_time E i <= re_time E j.

(** From now on the key holds [f]. *)
Definition key_holds (key : string) (f : Z -> option content) (i : nat) (s : redis_state) : Prop :=
  forall t, re_time E i <= t -> redis_content t s key = f t.

(** From now on there is no such key. *)
Abbreviation key_gone key := (key_holds key (fun _ => None)).

Lemma time_next i t : re_time E (S i) <= t -> re_time E i <= t.
Proof. intros Ht. pose proof (clock i (S i)). lia. Qed.

#[local] Hint Resolve time_next : core.

Lemma key_holds_later key f i s : key_holds key f i s -> key_holds key f (S i) s.
Proof. intros Hk t Ht. eauto. Qed.

#[local] Hint Resolve key_holds_later : core.

Lemma keeps_key_get key f key' : Keeps (key_holds key f) (rc_get E key').
Proof. apply keeps_command; [eauto|]. intros i s x s' [Hc _]%redis_get Hh t Ht. rewrite Hc by eauto. eauto. Qed.

(** Another key is left alone. *)
Lemma keeps_key_del key f key' : key <> key' -> Keeps (key_holds key f) (rc_del E key').
Proof.
  intros Hk. apply keeps_command; [eauto|]. intros i s x s' [_ Hc]%redis_del Hh t Ht.
  rewrite Hc, bool_decide_false by eauto. eauto.
Qed.

(** A key that is gone does not come back by a deletion. *)
Lemma keeps_gone_del key key' : Keeps (key_gone key) (rc_del E key').
Proof.
  apply keeps_command; [eauto|]. intros i s x s' [_ Hc]%redis_del Hh t Ht.
  rewrite Hc by eauto. case_bool_decide; [done|]. eauto.
Qed.
Lemma keeps_gone_srem key key' m : Keeps (key_gone key) (rc_srem E key' m).
Proof.
  apply keeps_command; [eauto|]. intros i s x s' Hx%redis_srem Hh t Ht.
  destruct (redis_content (re_time E i) s key') as [[v|X]|]; destruct Hx as [_ Hc]; rewrite Hc by eauto; eauto.
  destruct (decide (key = key')) as [<-|Hk]; [|rewrite bool_decide_false by done; eauto].
  rewrite bool_decide_true, (Hh t) by eauto. done.
Qed.

(** What is known after a write that was confirmed, or a deletion. *)
Lemma setEx_confirmed key ttl v r r' :
  rc_setEx E key ttl v r = Some (true, r') -> 0 < ttl ->
  at_node (key_holds key (until (re_time E (rw_cmds r) + ttl * 1000) (StringContent v))) r'.
Proof.
  intros (reply&r1&H1&[= Hr <-])%run_bind_Some Ht. unfold at_node, node_of, node_of_rworld.
  apply command_outcome in H1 as [Hn [(_&->&_)|(x&Hx&->)]]; [done|]. rewrite Hn.
  apply redis_setex in Hx. apply Z.ltb_lt in Ht. rewrite Ht in Hx. destruct Hx as [_ Hc].
  intros t Hle. rewrite Hc by eauto. by rewrite bool_decide_true.
Qed.

Lemma del_confirmed key r b r' :
  rc_del E key r = Some (b, r') -> re_redis E (rw_cmds r) <> Refused -> at_node (key_gone key) r'.
Proof.
  intros (reply&r1&H1&[= Hr <-])%run_bind_Some Ht. unfold at_node, node_of, node_of_rworld.
  apply command_outcome in H1 as [Hn [(?&_)|(x&[_ Hc]%redis_del&_)]]; [done|]. rewrite Hn.
  intros t Hle. rewrite Hc by eauto. by rewrite bool_decide_true.
Qed.

(** What a GET that is answered returns. *)
Lemma rc_get_run key r v r' :
  rc_get E key r = Some (v, r') ->
  let t := re_time E (rw_cmds r) in
  rw_cmds r' = S (rw_cmds r) /\
  (forall x, v = Some x -> redis_content t (rw_redis r) key = Some (StringContent x)) /\
  (re_redis E (rw_cmds r) = Done ->
   v = match redis_content t (rw_redis r) key with Some (StringContent x) => Some x | _ => None end).
Proof.
  intros (reply&r1&H1&[= <- <-])%run_bind_Some. cbv zeta.
  apply command_outcome in H1 as [Hn [(->&->&_)|(x&[_ Hx]%redis_get&->)]]; [done|]. split; [done|].
  destruct (redis_content _ _ key) as [[y|X]|]; [subst x| |subst x].
  all: destruct (re_redis E _); try (destruct Hx as [text ->]); split; try done; cbn; congruence.
Qed.

End Keys.
