(* ===== verification/UserService.v ===== *)
(** * The user service

    user_service/src/UserServiceImpl.cpp and common/auth/TokenManager.cpp:
    registration, login with a password, and the tokens of sessions, which
    live in Redis under the SHA-256 of the token.  OpenSSL is a parameter: the
    [n]-th call may fail or give any value. *)

From S2P Require Import Prelude Words Text MessageId Rpc Db MessageStore Directory Devices MessageService.
From S2P Require Import RelationService Redis Passwords.

Section State.
Context `{RedisServer}.

(** The node's world and the number of uses of OpenSSL so far. *)
Record uworld := mkUworld { uw_node : rworld; uw_crypto : nat }.

Definition U (A : Type) : Type := SM uworld A.

Definition set_unode (r : rworld) (u : uworld) : uworld := mkUworld r (uw_crypto u).

Definition unode {A} (m : R A) : U A := zoom uw_node set_unode m.
Definition udb {A} (m : M A) : U A := unode (db m).

End State.

#[global] Arguments uworld {_}.
#[global] Arguments U {_} _.

Record UEnv := mkUEnv {
  ue_redis : REnv;
  ue_random : nat -> Z -> option string;                           (** [RAND_bytes] *)
  ue_digest : nat -> string -> option string;                      (** SHA-256 *)
  ue_derive : nat -> string -> string -> Z -> Z -> option string   (** PBKDF2 with SHA-256 *)
}.

Definition ue_db (E : UEnv) : Env := re_db (ue_redis E).

Section Crypto.
Context `{RedisServer}.

(** A use of OpenSSL. *)
Definition crypto {A} (f : nat -> A) : U A :=
  fun u => Some (f (uw_crypto u), mkUworld (uw_node u) (S (uw_crypto u))).

End Crypto.

Module TokenManager.

Record TokenManager := mkTokenManager { tm_ttl_seconds : Z }.

Definition TokenManager_new (ttl_seconds : Z) : TokenManager :=
  mkTokenManager (if 0 <? ttl_seconds then ttl_seconds else 7 * 24 * 3600).

Section Manager.
Context `{RedisServer} (E : UEnv).

(** The empty string when no random bytes can be had. *)
Definition randomHex (bytes : Z) : U string :=
  crypto (fun n => match ue_random E n bytes with Some data => toHex data | None => EmptyString end).

(** The empty string when the digest cannot be computed. *)
Definition sha256Hex (input : string) : U string :=
  crypto (fun n => match ue_digest E n input with Some digest => toHex digest | None => EmptyString end).

Definition generateToken (user_id : Z) : U string := randomHex 32.

Definition tokenHash (token : string) : U string := sha256Hex token.

Definition tokenKey (token : string) : U string :=
  hash ← sha256Hex token; mret ("nebula:token:" +:+ hash).

Definition ttlSeconds (tm : TokenManager) : Z := tm_ttl_seconds tm.

Definition expireAtMs (tm : TokenManager) : U Z :=
  now ← udb (nowMs (ue_db E)); mret (now + tm_ttl_seconds tm * 1000).

End Manager.
End TokenManager.
Export TokenManager.

(** ** Requests and answers *)

Record RegisterRequest := mkRegister {
  rq_request_id : string; rq_username : string; rq_password : string; rq_nickname : string
}.

Record LoginRequest := mkLogin {
  lq_request_id : string; lq_username : string; lq_password : string; lq_device_id : string;
  lq_platform : string; lq_device_name : string
}.

(** [LoginResponse] and [RefreshTokenResponse]. *)
Record LoginResponse := mkLoginResponse {
  lg_response : CommonResponse; lg_user_id : Z; lg_token : string; lg_expire_at : Z
}.

Record ValidateTokenRequest := mkValidate { vq_request_id : string; vq_token : string }.

Record ValidateTokenResponse := mkValidateResponse {
  vt_response : CommonResponse; vt_valid : bool; vt_user_id : Z
}.

Record GetUserByUsernameRequest := mkGetUserByUsername { nq_request_id : string; nq_username : string }.

Record RefreshTokenRequest := mkRefresh {
  fq_request_id : string; fq_token : string; fq_device_id : string
}.

Module UserServiceImpl.

Definition kMaxUsernameLength : Z := 64.
Definition kMaxPasswordLength : Z := 256.
Definition kMaxNicknameLength : Z := 64.
Definition kMaxDeviceIdLength : Z := 128.
Definition kMaxPlatformLength : Z := 32.
Definition kMaxDeviceNameLength : Z := 128.
Definition kMaxTokenLength : Z := 256.

(** Which dependencies are null, and the settings. *)
Record UserServiceImpl := mkUserService {
  us_auth : InternalRpcAuth;
  us_sha256Hex : string -> string;
  us_no_users : bool;
  us_no_devices : bool;
  us_no_redis : bool;
  us_tokens : option TokenManager;
  us_password_min_length : Z
}.

Definition UserServiceImpl_new (auth : InternalRpcAuth) (sha : string -> string)
    (no_users no_devices no_redis : bool) (tokens : option TokenManager) (password_min_length : Z)
  : UserServiceImpl :=
  mkUserService auth sha no_users no_devices no_redis tokens
    (if 0 <? password_min_length then password_min_length else 6).

(** The text is longer than [limit] octets. *)
Definition longer (limit : Z) (s : string) : bool := limit <? Z.of_nat (String.length s).

Definition login_failed (r : CommonResponse) : LoginResponse := mkLoginResponse r 0 EmptyString 0.
Definition not_valid (r : CommonResponse) : ValidateTokenResponse := mkValidateResponse r false 0.
Definition absent (s : string) : bool := bool_decide (s = EmptyString).

Section Service.
Context `{RedisServer} (E : UEnv) (svc : UserServiceImpl).

Definition trusted_caller (context : ServerContext) : bool :=
  authorize (us_sha256Hex svc) (us_auth svc) context.

Definition redis (m : R bool) : U bool := unode m.

(** The answer and the id of the new user. *)
Definition Register (context : ServerContext) (q : RegisterRequest) : U (CommonResponse * Z) :=
  let id := rq_request_id q in
  udb (inc_metric "nebula_user_register_total");;
  if negb (trusted_caller context) then mret (unauthenticated id, 0)
  else if us_no_users svc then mret (fail id EC_INTERNAL_ERROR, 0)
  else if absent (rq_username q) then mret (fail id USERNAME_EMPTY, 0)
  else if absent (rq_password q) then mret (fail id PASSWORD_EMPTY, 0)
  else if s32 (Z.of_nat (String.length (rq_password q))) <? us_password_min_length svc
  then mret (fail id PASSWORD_TOO_SHORT, 0)
  else if longer kMaxUsernameLength (rq_username q) || longer kMaxPasswordLength (rq_password q) ||
          longer kMaxNicknameLength (rq_nickname q)
  then mret (fillResponse id INVALID_ARGUMENT "registration field exceeds size limit", 0)
  else
    known ← udb (getUserByUsername (ue_db E) (rq_username q));
    if is_some known then mret (fail id USER_ALREADY_EXISTS, 0)
    else
      password_hash ← crypto (fun n => hashPassword (ue_random E n) (ue_derive E n) (rq_password q));
      if absent password_hash then mret (fail id EC_INTERNAL_ERROR, 0)
      else
        now ← udb (nowMs (ue_db E));
        created ← udb (createUser (ue_db E) (rq_username q) password_hash (rq_nickname q) EmptyString now now);
        match created with
        | None =>
            known ← udb (getUserByUsername (ue_db E) (rq_username q));
            mret (fail id (if is_some known then USER_ALREADY_EXISTS else DB_ERROR), 0)
        | Some user_id =>
            udb (inc_metric "nebula_user_register_success_total");;
            mret (granted id, user_id)
        end.

(** The device of a login is recorded, and the token it had before revoked;
    true when the row was written. *)
Definition record_login (user_id : Z) (q : LoginRequest) (token : string) : U bool :=
  now ← udb (nowMs (ue_db E));
  token_hash ← tokenHash E token;
  existing_device ← udb (getDevice (ue_db E) user_id (lq_device_id q));
  match existing_device with
  | Some r =>
      if negb (absent (ud_token_hash r)) && negb (bool_decide (ud_token_hash r = token_hash))
      then redis (rc_del (ue_redis E) ("nebula:token:" +:+ ud_token_hash r));; mret tt
      else mret tt
  | None => mret tt
  end;;
  udb (upsertDevice (ue_db E) (mkDevice user_id (lq_device_id q) (lq_platform q) (lq_device_name q)
                                 token_hash now now now now)).

(** The rest of a login once the token is stored. *)
Definition finish_login (tm : TokenManager) (q : LoginRequest) (user_id : Z) (token : string)
  : U LoginResponse :=
  let id := lq_request_id q in
  recorded ← (if negb (us_no_devices svc) && negb (absent (lq_device_id q))
              then record_login user_id q token else mret true);
  if negb recorded then
    key ← tokenKey E token;
    redis (rc_del (ue_redis E) key);;
    mret (login_failed (fillResponse id DB_ERROR "device metadata persist failed"))
  else
    expire_at ← expireAtMs E tm;
    udb (inc_metric "nebula_user_login_success_total");;
    mret (mkLoginResponse (granted id) user_id token expire_at).

Definition Login (context : ServerContext) (q : LoginRequest) : U LoginResponse :=
  let id := lq_request_id q in
  let failed code := mret (login_failed (fail id code)) in
  udb (inc_metric "nebula_user_login_total");;
  if negb (trusted_caller context) then mret (login_failed (unauthenticated id))
  else
  match us_tokens svc with
  | None => failed EC_INTERNAL_ERROR
  | Some tm =>
  if us_no_users svc || us_no_redis svc then failed EC_INTERNAL_ERROR
  else if absent (lq_username q) then failed USERNAME_EMPTY
  else if absent (lq_password q) then failed PASSWORD_EMPTY
  else if longer kMaxUsernameLength (lq_username q) || longer kMaxPasswordLength (lq_password q) ||
          longer kMaxDeviceIdLength (lq_device_id q) || longer kMaxPlatformLength (lq_platform q) ||
          longer kMaxDeviceNameLength (lq_device_name q)
  then mret (login_failed (fillResponse id INVALID_ARGUMENT "login field exceeds size limit"))
  else
    user ← udb (getUserByUsername (ue_db E) (lq_username q));
    verified ← match user with
               | Some u => crypto (fun n => verifyPassword (ue_derive E n) (lq_password q) (u_password_hash u))
               | None => mret false
               end;
    match user, verified with
    | Some user, true =>
        token ← generateToken E (u_id user);
        if absent token then failed EC_INTERNAL_ERROR
        else
          key ← tokenKey E token;
          stored ← redis (rc_setEx (ue_redis E) key (ttlSeconds tm) (to_string (u_id user)));
          if negb stored then failed REDIS_ERROR else finish_login tm q (u_id user) token
    | _, _ =>
        udb (inc_metric "nebula_user_login_failed_total");;
        mret (login_failed (fillResponse id AUTH_FAILED "auth failed"))
    end
  end.

Definition ValidateToken (context : ServerContext) (q : ValidateTokenRequest) : U ValidateTokenResponse :=
  let id := vq_request_id q in
  if negb (trusted_caller context) then mret (not_valid (unauthenticated id))
  else if us_no_redis svc || negb (is_some (us_tokens svc)) then mret (not_valid (fail id EC_INTERNAL_ERROR))
  else if absent (vq_token q) || longer kMaxTokenLength (vq_token q)
  then mret (not_valid (fail id TOKEN_INVALID))
  else
    key ← tokenKey E (vq_token q);
    value ← unode (rc_get (ue_redis E) key);
    mret match value with
         | None => not_valid (granted id)
         | Some value =>
             match stoull value with
             | None => not_valid (fail id TOKEN_INVALID)
             | Some user_id => mkValidateResponse (granted id) true user_id
             end
         end.

Definition GetUserInfo (context : ServerContext) (q : UserRequest) : U (CommonResponse * option UserInfo) :=
  let id := uq_request_id q in
  if negb (trusted_caller context) then mret (unauthenticated id, None)
  else if us_no_users svc then mret (fail id EC_INTERNAL_ERROR, None)
  else if uq_user_id q =? 0 then mret (fail id INVALID_ARGUMENT, None)
  else
    user ← udb (getUserById (ue_db E) (uq_user_id q));
    mret match user with
         | None => (fail id USER_NOT_FOUND, None)
         | Some user => (granted id, Some (fillUser user))
         end.

Definition GetUserByUsername (context : ServerContext) (q : GetUserByUsernameRequest)
  : U (CommonResponse * option UserInfo) :=
  let id := nq_request_id q in
  if negb (trusted_caller context) then mret (unauthenticated id, None)
  else if us_no_users svc then mret (fail id EC_INTERNAL_ERROR, None)
  else if absent (nq_username q) then mret (fail id USERNAME_EMPTY, None)
  else if longer kMaxUsernameLength (nq_username q)
  then mret (fillResponse id INVALID_ARGUMENT "username exceeds size limit", None)
  else
    user ← udb (getUserByUsername (ue_db E) (nq_username q));
    mret match user with
         | None => (fail id USER_NOT_FOUND, None)
         | Some user => (granted id, Some (fillUser user))
         end.

(** The device's row gets the new hash: the hash it had before, and whether
    the row could be written. *)
Definition record_refresh (user_id : Z) (device_id new_token_hash : string) : U (string * bool) :=
  if us_no_devices svc || absent device_id then mret (EmptyString, true)
  else
    device ← udb (getDevice (ue_db E) user_id device_id);
    match device with
    | None => mret (EmptyString, true)
    | Some device =>
        now ← udb (nowMs (ue_db E));
        ok ← udb (upsertDevice (ue_db E) (with_token new_token_hash now now device));
        mret (ud_token_hash device, ok)
    end.

(** The rest of a refresh once the new token is stored. *)
Definition finish_refresh (tm : TokenManager) (q : RefreshTokenRequest) (user_id : Z) (new_token : string)
  : U LoginResponse :=
  new_token_hash ← tokenHash E new_token;
  '(previous, recorded) ← record_refresh user_id (fq_device_id q) new_token_hash;
  if negb (recorded : bool) then
    new_key ← tokenKey E new_token;
    redis (rc_del (ue_redis E) new_key);;
    mret (login_failed (fail (fq_request_id q) TOKEN_REFRESH_FAILED))
  else
    (if negb (absent previous) && negb (bool_decide (previous = new_token_hash))
     then redis (rc_del (ue_redis E) ("nebula:token:" +:+ previous)) else mret true);;
    key ← tokenKey E (fq_token q);
    redis (rc_del (ue_redis E) key);;
    expire_at ← expireAtMs E tm;
    mret (mkLoginResponse (granted (fq_request_id q)) user_id new_token expire_at).

Definition RefreshToken (context : ServerContext) (q : RefreshTokenRequest) : U LoginResponse :=
  let id := fq_request_id q in
  let failed code := mret (login_failed (fail id code)) in
  if negb (trusted_caller context) then mret (login_failed (unauthenticated id))
  else
  match us_tokens svc with
  | None => failed EC_INTERNAL_ERROR
  | Some tm =>
  if us_no_redis svc then failed EC_INTERNAL_ERROR
  else if absent (fq_token q) || longer kMaxTokenLength (fq_token q) || longer kMaxDeviceIdLength (fq_device_id q)
  then failed TOKEN_INVALID
  else
    key ← tokenKey E (fq_token q);
    value ← unode (rc_get (ue_redis E) key);
    match value with
    | None => failed TOKEN_REFRESH_FAILED
    | Some value =>
        match stoull value with
        | None => failed TOKEN_INVALID
        | Some user_id =>
            new_token ← generateToken E user_id;
            stored ← (if absent new_token then mret false
                      else new_key ← tokenKey E new_token;
                           redis (rc_setEx (ue_redis E) new_key (ttlSeconds tm) (to_string user_id)));
            if negb stored then failed TOKEN_REFRESH_FAILED else finish_refresh tm q user_id new_token
        end
    end
  end.

End Service.
End UserServiceImpl.
Export UserServiceImpl.
