(* ===== verification/Sessions.v ===== *)
(** * Sessions are opened by a password

    What the tokens of the user service are worth: a token is accepted only
    for a user whose password was checked by a login, an accepted login and an
    accepted refresh leave a token that is accepted until its deadline, and a
    refresh takes the old one out of use. *)

From S2P Require Import Prelude Words Text MessageId Rpc Db MessageStore Directory Devices DbLogic.
From S2P Require Import MessageService RelationService Redis Passwords UserService RedisLogic.

(** ** Invariants of the Redis server *)

Definition token_key (hash : string) : string := "nebula:token:" +:+ hash.

Lemma token_key_inj h h' : token_key h = token_key h' -> h = h'.
Proof. apply (inj (String.append "nebula:token:")). Qed.

(** The hash [sha256Hex] gives at its [n]-th call. *)
Definition digest_at (E : UEnv) (n : nat) (input : string) : string :=
  match ue_digest E n input with Some d => toHex d | None => EmptyString end.

Section Steps.
Context `{RedisServer}.
Implicit Types (I : nat -> redis_state -> Prop).

#[global] Instance node_of_uworld : HasNode uworld := uw_node.

#[global] Instance keeps_unode I {A} (m : R A) : Keeps I m -> Keeps I (unode m).
Proof. by apply keeps_zoom. Qed.
#[global] Instance keeps_redis I (m : R bool) : Keeps I m -> Keeps I (redis m).
Proof. apply keeps_unode. Qed.
#[global] Instance keeps_udb I {A} (m : M A) : Keeps I (udb m).
Proof. unfold udb. apply _. Qed.
#[global] Instance keeps_crypto I {A} (f : nat -> A) : Keeps I (crypto f).
Proof. apply keeps_apart. by intros u ? u' [= <- <-]. Qed.
#[global] Instance keeps_randomHex I E n : Keeps I (randomHex E n).
Proof. unfold randomHex. apply _. Qed.
#[global] Instance keeps_sha256Hex I E s : Keeps I (sha256Hex E s).
Proof. unfold sha256Hex. apply _. Qed.
#[global] Instance keeps_tokenKey I E s : Keeps I (tokenKey E s).
Proof. unfold tokenKey. apply _. Qed.
#[global] Instance keeps_tokenHash I E s : Keeps I (tokenHash E s).
Proof. unfold tokenHash. apply _. Qed.
#[global] Instance keeps_generateToken I E s : Keeps I (generateToken E s).
Proof. unfold generateToken. apply _. Qed.
#[global] Instance keeps_expireAtMs I E tm : Keeps I (expireAtMs E tm).
Proof. unfold expireAtMs. apply _. Qed.

End Steps.

(** ** What a session's key may hold *)

Section Session.
Context {Srv : RedisServer} {Laws : RedisLaws Srv} (E : UEnv).
Abbreviation RE := (ue_redis E).

(** The server's clock does not run backwards. *)
Hypothesis clock : forall i j, (i <= j)%nat -> re_time RE i <= re_time RE j.

(** Every token the server holds, now or later, satisfies [Q]. *)
Definition tokens_are (Q : string -> content -> Prop) (i : nat) (s : redis_state) : Prop :=
  forall t hash c, re_time RE i <= t -> redis_content t s (token_key hash) = Some c -> Q hash c.

#[local] Hint Extern 1 (re_time RE _ <= _) => (by eapply time_next) : core.

Lemma tokens_are_later Q i s : tokens_are Q i s -> tokens_are Q (S i) s.
Proof. intros Hq t hash c Ht. eauto. Qed.

#[local] Hint Resolve tokens_are_later : core.

#[local] Instance keeps_tokens_get Q key : Keeps (tokens_are Q) (rc_get RE key).
Proof.
  apply keeps_command; [eauto|]. intros i s x s' [Hc _]%redis_get Hq t hash c Ht. rewrite Hc by eauto. eauto.
Qed.
#[local] Instance keeps_tokens_del Q key : Keeps (tokens_are Q) (rc_del RE key).
Proof.
  apply keeps_command; [eauto|]. intros i s x s' [_ Hc]%redis_del Hq t hash c Ht. rewrite Hc by eauto.
  case_bool_decide; [done|]. eauto.
Qed.
Lemma keeps_tokens_setEx Q hash ttl v :
  Q hash (StringContent v) -> Keeps (tokens_are Q) (rc_setEx RE (token_key hash) ttl v).
Proof.
  intros HQ. apply keeps_command; [eauto|]. intros i s x s' Hx%redis_setex Hq t h c Ht.
  destruct (0 <? ttl); destruct Hx as [_ Hc]; rewrite Hc by eauto; [|eauto].
  case_bool_decide as Hk; [|eauto]. apply token_key_inj in Hk as ->.
  unfold until. destruct (t <? _); [|done]. by intros [= <-].
Qed.

(** ** The handlers up to their first write *)

Context (svc : UserServiceImpl).

Definition u_world (u : uworld) : world := rw_world (uw_node u).
Definition u_db (u : uworld) : Db := w_db (u_world u).

(** Redis is as it was. *)
Definition same_redis (u u' : uworld) : Prop :=
  rw_redis (uw_node u') = rw_redis (uw_node u) /\ rw_cmds (uw_node u') = rw_cmds (uw_node u).

Lemma same_redis_at u u' I : same_redis u u' -> at_node I u -> at_node I u'.
Proof. intros [Hr Hc]. unfold at_node, node_of, node_of_uworld. by rewrite Hr, Hc. Qed.

Lemma keeps_same {A} (m : U A) u a u' : (forall I, Keeps I m) -> m u = Some (a, u') -> same_redis u u'.
Proof.
  intros Hm H. by apply (Hm (fun n s => s = rw_redis (uw_node u) /\ n = rw_cmds (uw_node u)) _ _ _ H).
Qed.

#[local] Instance same_redis_preorder : PreOrder same_redis.
Proof. split; [done|]. intros x y z [??] [??]. split; congruence. Qed.

Lemma udb_run {A} (m : M A) u a u' :
  udb m u = Some (a, u') -> exists w', m (u_world u) = Some (a, w') /\ u_world u' = w'.
Proof. intros (r&(w&Hm&->)%run_zoom&->)%run_zoom. eauto. Qed.

Lemma crypto_run {A} (f : nat -> A) u a u' : crypto f u = Some (a, u') -> exists n, a = f n.
Proof. intros [= <- _]. eauto. Qed.

Lemma tokenKey_run token u key u' :
  tokenKey E token u = Some (key, u') -> exists n, key = token_key (digest_at E n token).
Proof. intros (h&u1&[= <- <-]&[= <- <-])%run_bind_Some. eauto. Qed.

(** [usr] is the user a login names, and the password is theirs. *)
Definition proves_identity (d : Db) (q : LoginRequest) (usr : User) : Prop :=
  usr ∈ users d /\
  env_collate (ue_db E) (u_username usr) = env_collate (ue_db E) (lq_username q) /\
  exists n, verifyPassword (ue_derive E n) (lq_password q) (u_password_hash usr) = true.

(** The caller is trusted and Redis is configured. *)
Definition serves (context : ServerContext) : Prop :=
  trusted_caller svc context = true /\ us_no_redis svc = false.

(** A token that a handler looks up. *)
Definition token_ok (token : string) : Prop :=
  token <> EmptyString /\ Z.of_nat (String.length token) <= 256.

Definition refused (resp : LoginResponse) : Prop := r_code (lg_response resp) <> 0.

#[local] Tactic Notation "ustep" hyp(H) ident(x) ident(u) ident(H1) :=
  apply run_bind_Some in H as (x&u&H1&H).
#[local] Ltac answered H := injection H as <- <-; left; split; [done|].

Lemma Login_run context q u resp u' :
  Login E svc context q u = Some (resp, u') ->
  (refused resp /\ same_redis u u') \/
  exists tm usr k data m u1 stored u2,
    serves context /\
    us_tokens svc = Some tm /\ proves_identity (u_db u) q usr /\ ue_random E k 32 = Some data /\
    same_redis u u1 /\
    redis (rc_setEx RE (token_key (digest_at E m (toHex data))) (ttlSeconds tm) (to_string (u_id usr))) u1
    = Some (stored, u2) /\
    if stored then finish_login E svc tm q (u_id usr) (toHex data) u2 = Some (resp, u')
    else refused resp /\ u' = u2.
Proof.
  unfold Login. intros H. ustep H x0 u0 H0. pose proof (keeps_same _ _ _ _ _ H0) as S0.
  destruct (negb _) eqn:Htc; [answered H; done|]. destruct (us_tokens svc) as [tm|]; [|answered H; done].
  destruct (us_no_users svc || us_no_redis svc) eqn:Hnr; [answered H; done|].
  apply orb_false_elim in Hnr as [_ Hnr].
  repeat (destruct (_ || _) || destruct (absent _)); try (answered H; done).
  ustep H user u1 H1. assert (same_redis u u1) as S1 by (etrans; [exact S0|exact (keeps_same _ _ _ _ _ H1)]).
  apply udb_run in H0 as (w0&[= _ <-]&Hw0). apply udb_run in H1 as (w1&H1&_).
  ustep H verified u2 H2. assert (same_redis u u2) as S2.
  { etrans; [exact S1|]. refine (keeps_same _ _ _ _ _ H2). }
  destruct user as [usr|]; cycle 1.
  { ustep H x3 u3 H3. answered H. etrans; [exact S2|exact (keeps_same _ _ _ _ _ H3)]. }
  apply crypto_run in H2 as (n&->). destruct (verifyPassword _ _ _) eqn:Hv; cycle 1.
  { ustep H x3 u3 H3. answered H. etrans; [exact S2|exact (keeps_same _ _ _ _ _ H3)]. }
  ustep H token u3 H3. assert (same_redis u u3) as S3 by (etrans; [exact S2|exact (keeps_same _ _ _ _ _ H3)]).
  apply crypto_run in H3 as (k&->). destruct (ue_random E k 32) as [data|] eqn:Hr; [|answered H; done].
  destruct (absent _); [answered H; done|].
  ustep H key u4 H4. assert (same_redis u u4) as S4 by (etrans; [exact S3|exact (keeps_same _ _ _ _ _ H4)]).
  apply tokenKey_run in H4 as (m&->). ustep H stored u5 H5. right.
  exists tm, usr, k, data, m, u4, stored, u5. split; [split; by bools|].
  split_and!; [done| |done|done|exact H5|].
  - apply read_row_run in H1 as [H1|?]; [|done]. symmetry in H1. apply sql_first_spec in H1 as [Hin Hn].
    rewrite Hw0 in Hin. bools. split_and!; [done|done|by exists n].
  - destruct stored; [done|]. by injection H as <- <-.
Qed.

Lemma RefreshToken_run context q u resp u' :
  RefreshToken E svc context q u = Some (resp, u') ->
  (refused resp /\ forall Q, at_node (tokens_are Q) u -> at_node (tokens_are Q) u') \/
  exists tm n v user_id k data m u1 stored u2,
    serves context /\ token_ok (fq_token q) /\ us_tokens svc = Some tm /\
    redis_content (re_time RE (rw_cmds (uw_node u))) (rw_redis (uw_node u))
      (token_key (digest_at E n (fq_token q))) = Some (StringContent v) /\
    stoull v = Some user_id /\ ue_random E k 32 = Some data /\
    (forall Q, at_node (tokens_are Q) u -> at_node (tokens_are Q) u1) /\
    redis (rc_setEx RE (token_key (digest_at E m (toHex data))) (ttlSeconds tm) (to_string user_id)) u1
    = Some (stored, u2) /\
    rw_cmds (uw_node u1) = S (rw_cmds (uw_node u)) /\
    if stored then finish_refresh E svc tm q user_id (toHex data) u2 = Some (resp, u')
    else refused resp /\ u' = u2.
Proof.
  unfold RefreshToken. intros H. destruct (negb _) eqn:Htc; [by answered H|].
  destruct (us_tokens svc) as [tm|]; [|by answered H].
  destruct (us_no_redis svc) eqn:Hnr; [by answered H|].
  destruct (absent (fq_token q) || _ || _) eqn:Htk; [by answered H|].
  ustep H key u1 H1. pose proof (keeps_same _ _ _ _ _ H1) as S1.
  apply tokenKey_run in H1 as (n&->). ustep H value u2 H2.
  assert (forall Q, at_node (tokens_are Q) u -> at_node (tokens_are Q) u2) as K2.
  { intros Q Hu. refine (keeping _ _ _ H2 _). by eapply same_redis_at. }
  apply run_zoom in H2 as (r2&(C2&Hv&_)%rc_get_run&->). destruct value as [v|]; [|by answered H].
  destruct (stoull v) as [user_id|] eqn:Hu; [|by answered H].
  ustep H token u3 H3. pose proof (keeps_same _ _ _ _ _ H3) as S3. apply crypto_run in H3 as (k&->).
  destruct (ue_random E k 32) as [data|] eqn:Hr; cycle 1.
  { ustep H st u4 H4. injection H4 as <- <-. answered H. eauto using same_redis_at. }
  destruct (absent (toHex data)); ustep H stored u4 H4.
  { injection H4 as <- <-. answered H. eauto using same_redis_at. }
  ustep H4 key u5 H5. pose proof (keeps_same _ _ _ _ _ H5) as S5. apply tokenKey_run in H5 as (m&->). right.
  destruct S1 as [R1 C1]. rewrite R1, C1 in Hv.
  exists tm, n, v, user_id, k, data, m, u5, stored, u4.
  split; [split; by bools|].
  split; [unfold absent, longer, kMaxTokenLength in Htk; bools; split; [done|lia]|].
  split_and!; [done|eauto|done|done|eauto using same_redis_at|done| |].
  - destruct S3 as [_ S3], S5 as [_ S5]. cbn in S3. congruence.
  - destruct stored; [done|]. by injection H as <- <-.
Qed.

(** ** Histories of the service *)

Inductive UserCall :=
| CRegister (q : RegisterRequest)
| CLogin (q : LoginRequest)
| CValidateToken (q : ValidateTokenRequest)
| CGetUserInfo (q : UserRequest)
| CGetUserByUsername (q : GetUserByUsernameRequest)
| CRefreshToken (q : RefreshTokenRequest).

Definition serve (context : ServerContext) (c : UserCall) : U unit :=
  match c with
  | CRegister q => Register E svc context q;; mret tt
  | CLogin q => Login E svc context q;; mret tt
  | CValidateToken q => ValidateToken E svc context q;; mret tt
  | CGetUserInfo q => GetUserInfo E svc context q;; mret tt
  | CGetUserByUsername q => GetUserByUsername E svc context q;; mret tt
  | CRefreshToken q => RefreshToken E svc context q;; mret tt
  end.

(** The calls served so far, latest first, each with the state before it.
    Between the calls other programs may change the tables at will and remove
    tokens from Redis; they do not add any. *)
Inductive history (u0 : uworld) : list (UserCall * uworld) -> uworld -> Prop :=
| history_start : history u0 [] u0
| history_call h u context c u' :
    history u0 h u -> serve context c u = Some (tt, u') -> history u0 ((c, u) :: h) u'
| history_other h u u' :
    history u0 h u -> (rw_cmds (uw_node u) <= rw_cmds (uw_node u'))%nat ->
    (forall t hash c, redis_content t (rw_redis (uw_node u')) (token_key hash) = Some c ->
                      redis_content t (rw_redis (uw_node u)) (token_key hash) = Some c) ->
    history u0 h u'.

(** A login of the history proved to be the user [x]. *)
Definition authenticated (h : list (UserCall * uworld)) (x : Z) : Prop :=
  exists q u usr, (CLogin q, u) ∈ h /\ proves_identity (u_db u) q usr /\
                  stoull (to_string (u_id usr)) = Some x.

(** [hash] is the digest of a token that was drawn at random. *)
Definition drawn (hash : string) : Prop :=
  exists k data m, ue_random E k 32 = Some data /\ hash = digest_at E m (toHex data).

Definition earned (h : list (UserCall * uworld)) (hash : string) (c : content) : Prop :=
  drawn hash /\ exists v, c = StringContent v /\ forall x, stoull v = Some x -> authenticated h x.

Lemma tokens_are_weaken (Q Q' : string -> content -> Prop) i s :
  (forall hash c, Q hash c -> Q' hash c) -> tokens_are Q i s -> tokens_are Q' i s.
Proof. intros HQ Hq t hash c Ht Hc. eauto. Qed.

Lemma earned_more e h hash c : earned h hash c -> earned (e :: h) hash c.
Proof.
  intros [Hd (v&->&Hv)]. split; [done|]. exists v. split; [done|].
  intros x (q&u&usr&Hin&Hp)%Hv. exists q, u, usr. split; [by right|done].
Qed.

#[local] Instance keeps_finish_login Q tm q id token : Keeps (tokens_are Q) (finish_login E svc tm q id token).
Proof. unfold finish_login, record_login. apply _. Qed.
#[local] Instance keeps_finish_refresh Q tm q id token : Keeps (tokens_are Q) (finish_refresh E svc tm q id token).
Proof. unfold finish_refresh, record_refresh. apply _. Qed.


(** A call leaves only tokens that were earned. *)
Lemma serve_earned h context c u u' :
  serve context c u = Some (tt, u') ->
  at_node (tokens_are (earned h)) u -> at_node (tokens_are (earned ((c, u) :: h))) u'.
Proof.
  intros H Hu. apply (tokens_are_weaken _ (earned ((c, u) :: h))) in Hu; [|apply earned_more].
  destruct c as [q|q|q|q|q|q]; cbn in H; ustep H resp u1 H1; injection H as <-.
  - exact (keeping _ _ _ H1 Hu).
  - apply Login_run in H1 as [[_ Hs]|(tm&usr&k&data&m&u2&stored&u3&_&_&Hp&Hr&Hs&H1&H2)];
      [by eapply same_redis_at|].
    assert (at_node (tokens_are (earned ((CLogin q, u) :: h))) u3) as H3.
    { refine (keeps_redis _ _ (keeps_tokens_setEx _ _ _ _ _) _ _ _ H1 (same_redis_at _ _ _ Hs Hu)).
      split; [by exists k, data, m|]. eexists. split; [done|]. intros x Hx. exists q, u, usr.
      split; [by left|done]. }
    destruct stored; [exact (keeping _ _ _ H2 H3)|by destruct H2 as [_ ->]].
  - exact (keeping _ _ _ H1 Hu).
  - exact (keeping _ _ _ H1 Hu).
  - exact (keeping _ _ _ H1 Hu).
  - apply RefreshToken_run in H1
      as [[_ Hs]|(tm&n&v&user_id&k&data&m&u2&stored&u3&_&_&_&Hc&Hv&Hr&Hs&H1&_&H2)]; [by apply Hs|].
    assert (at_node (tokens_are (earned ((CRefreshToken q, u) :: h))) u3) as H3.
    { refine (keeps_redis _ _ (keeps_tokens_setEx _ _ _ _ _) _ _ _ H1 (Hs _ Hu)). split; [by exists k, data, m|].
      eexists. split; [done|]. rewrite stoull_to_string by eauto using stoull_u64. intros x [= <-].
      destruct (Hu _ _ _ (Z.le_refl _) Hc) as (_&y&[= <-]&Hy). by apply Hy. }
    destruct stored; [exact (keeping _ _ _ H2 H3)|by destruct H2 as [_ ->]].
Qed.

Lemma history_earned u0 h u :
  (forall t hash, redis_content t (rw_redis (uw_node u0)) (token_key hash) = None) ->
  history u0 h u -> at_node (tokens_are (earned h)) u.
Proof.
  intros H0. induction 1 as [|h u context c u' _ IH Hc|h u u' _ IH Hn Hc].
  - intros t hash c _. by rewrite H0.
  - by eapply serve_earned.
  - intros t hash c Ht Hk. apply (IH t); [|by apply Hc]. etrans; [|exact Ht]. by apply clock.
Qed.

(** ** What a token is worth *)

Lemma ValidateToken_run context q u resp u' :
  ValidateToken E svc context q u = Some (resp, u') ->
  vt_valid resp = true ->
  exists n v, stoull v = Some (vt_user_id resp) /\
    redis_content (re_time RE (rw_cmds (uw_node u))) (rw_redis (uw_node u))
      (token_key (digest_at E n (vq_token q))) = Some (StringContent v).
Proof.
  unfold ValidateToken. intros H Hv. destruct (negb (trusted_caller _ _)); [by injection H as <- _|].
  do 2 (destruct (_ || _); [by injection H as <- _|]).
  ustep H key u1 H1. destruct (keeps_same _ _ _ _ _ H1) as [R1 C1]. apply tokenKey_run in H1 as (n&->).
  ustep H value u2 H2. apply run_zoom in H2 as (r2&(_&Hg&_)%rc_get_run&->). rewrite R1, C1 in Hg.
  injection H as <- _. destruct value as [v|]; [|done]. exists n, v.
  destruct (stoull v); [|done]. split; [done|]. by apply Hg.
Qed.

(** The answer for a token whose key is known to hold [f]. *)
Lemma ValidateToken_answer context q u sha f :
  trusted_caller svc context = true -> us_no_redis svc = false -> is_some (us_tokens svc) = true ->
  token_ok (vq_token q) ->
  (forall n s, ue_digest E n s = Some (sha s)) ->
  re_redis RE (rw_cmds (uw_node u)) = Done ->
  at_node (key_holds RE (token_key (toHex (sha (vq_token q)))) f) u ->
  exists u', ValidateToken E svc context q u
    = Some (match f (re_time RE (rw_cmds (uw_node u))) with
            | Some (StringContent v) =>
                match stoull v with
                | Some user_id => mkValidateResponse (granted (vq_request_id q)) true user_id
                | None => not_valid (fail (vq_request_id q) TOKEN_INVALID)
                end
            | _ => not_valid (granted (vq_request_id q))
            end, u').
Proof.
  intros Hc Hr Ht [Hne Hl] Hd Ho Hk. unfold ValidateToken. rewrite Hc, Hr, Ht. cbn [negb orb].
  unfold absent. rewrite bool_decide_false by done. unfold longer.
  replace (kMaxTokenLength <? _) with false by (unfold kMaxTokenLength; lia). cbn [orb].
  destruct (unode (rc_get RE (token_key (toHex (sha (vq_token q))))) (mkUworld (uw_node u) (S (uw_crypto u))))
    as [[v u2]|] eqn:Hg; cycle 1.
  { exfalso. revert Hg. unfold unode, zoom, rc_get, mbind, SM_bind, command. cbn.
    destruct (redis_exec _ _ _), (re_redis RE _); done. }
  exists u2. unfold tokenKey, sha256Hex, crypto, mbind, SM_bind, mret, SM_ret in *. rewrite Hd.
  fold (token_key (toHex (sha (vq_token q)))). rewrite Hg. do 2 f_equal.
  apply run_zoom in Hg as (r2&(_&_&Hs)%rc_get_run&->). cbn [uw_node] in Hs. specialize (Hk _ (Z.le_refl _)). unfold node_of, node_of_uworld in Hk.
  rewrite (Hs Ho), Hk.
  by destruct (f _) as [[x|X]|].
Qed.

(** ** What the end of a login and of a refresh leaves *)

Lemma toHex_inj s s' : toHex s = toHex s' -> s = s'.
Proof. intros Heq%(f_equal hash_fromHex). by rewrite !fromHex_toHex in Heq. Qed.

Section Digest.
Context (sha : string -> string).
Hypothesis digests : forall n s, ue_digest E n s = Some (sha s).

Lemma digest_at_sha n s : digest_at E n s = toHex (sha s).
Proof. unfold digest_at. by rewrite digests. Qed.

Lemma tokenHash_sha s u h u' : tokenHash E s u = Some (h, u') -> h = toHex (sha s).
Proof. intros [= <- _]. by rewrite digests. Qed.

Lemma tokenKey_sha s u h u' : tokenKey E s u = Some (h, u') -> h = token_key (toHex (sha s)).
Proof. intros (n&->)%tokenKey_run. by rewrite digest_at_sha. Qed.

Lemma record_login_holds f user_id q token u ok u' :
  record_login E user_id q token u = Some (ok, u') ->
  at_node (key_holds RE (token_key (toHex (sha token))) f) u ->
  at_node (key_holds RE (token_key (toHex (sha token))) f) u'.
Proof.
  unfold record_login. intros H Hu. ustep H now u1 H1. apply (keeping _ _ _ H1) in Hu.
  ustep H hash u2 H2. apply (keeping _ _ _ H2) in Hu. apply tokenHash_sha in H2 as ->.
  ustep H device u3 H3. apply (keeping _ _ _ H3) in Hu.
  ustep H x u4 H4. apply (keeping _ _ _ H) . clear H. revert H4.
  destruct device as [r|]; [|by intros [= _ <-]].
  destruct (negb (absent (ud_token_hash r))); [|by intros [= _ <-]].
  case_bool_decide as Hh; [by intros [= _ <-]|]. intros (b&u5&H5&[= _ <-])%run_bind_Some.
  refine (keeps_redis _ _ (keeps_key_del RE clock _ _ _ _) _ _ _ H5 Hu). intros Heq%token_key_inj. congruence.
Qed.

Lemma finish_login_holds f tm q user_id token u resp u' :
  finish_login E svc tm q user_id token u = Some (resp, u') -> r_code (lg_response resp) = 0 ->
  at_node (key_holds RE (token_key (toHex (sha token))) f) u ->
  lg_user_id resp = user_id /\ lg_token resp = token /\
  at_node (key_holds RE (token_key (toHex (sha token))) f) u'.
Proof.
  unfold finish_login. intros H Hok Hu. ustep H recorded u1 H1.
  assert (at_node (key_holds RE (token_key (toHex (sha token))) f) u1) as K1.
  { destruct (_ && _); [by eapply record_login_holds|by injection H1 as _ <-]. }
  destruct recorded; cbn [negb] in H.
  - ustep H at_ u2 H2. apply (keeping _ _ _ H2) in K1. ustep H x u3 H3. apply (keeping _ _ _ H3) in K1.
    injection H as <- <-. done.
  - ustep H key u2 H2. ustep H x u3 H3. by injection H as <- <-.
Qed.

Lemma finish_refresh_holds f tm q user_id token u resp u' :
  finish_refresh E svc tm q user_id token u = Some (resp, u') -> r_code (lg_response resp) = 0 ->
  sha (fq_token q) <> sha (lg_token resp) ->
  at_node (key_holds RE (token_key (toHex (sha token))) f) u ->
  lg_user_id resp = user_id /\ lg_token resp = token /\
  at_node (key_holds RE (token_key (toHex (sha token))) f) u' /\
  ((forall i, re_redis RE i <> Refused) ->
   at_node (key_holds RE (token_key (toHex (sha (fq_token q)))) (fun _ => None)) u').
Proof.
  unfold finish_refresh. intros H Hok Hne Hu. ustep H hash u1 H1. apply (keeping _ _ _ H1) in Hu.
  apply tokenHash_sha in H1 as ->. ustep H pr u2 H2. destruct pr as [previous recorded].
  assert (at_node (key_holds RE (token_key (toHex (sha token))) f) u2) as K2.
  { exact (keeping _ _ _ H2 Hu). }
  destruct recorded; cbn [negb] in H; cycle 1.
  { ustep H key u3 H3. ustep H x u4 H4. by injection H as <- <-. }
  ustep H x u3 H3. assert (at_node (key_holds RE (token_key (toHex (sha token))) f) u3) as K3.
  { destruct (negb (absent previous)); [|by injection H3 as _ <-].
    case_bool_decide as Hh; [by injection H3 as _ <-|].
    refine (keeps_redis _ _ (keeps_key_del RE clock _ _ _ _) _ _ _ H3 K2). intros Heq%token_key_inj. congruence. }
  ustep H key u4 H4. apply (keeping _ _ _ H4) in K3. apply tokenKey_sha in H4 as ->. ustep H y u5 H5.
  ustep H at_ u6 H6. injection H as <- <-. cbn in Hne.
  assert (at_node (key_holds RE (token_key (toHex (sha token))) f) u5) as K5.
  { refine (keeps_redis _ _ (keeps_key_del RE clock _ _ _ _) _ _ _ H5 K3). intros Heq%token_key_inj%toHex_inj. congruence. }
  apply (keeping _ _ _ H6) in K5. split_and!; [done..|].
  intros Hd. refine (keeping _ _ _ H6 _). apply run_zoom in H5 as (r5&H5&->). eapply (del_confirmed RE clock); [exact H5|apply Hd].
Qed.

End Digest.

End Session.
