(* ===== verification/SessionClaims.v ===== *)
(** * Sessions: the claims

    The properties of the user service's tokens, and a deployment on which
    they are evaluated. *)

From S2P Require Import Prelude Words Text MessageId Rpc Db MessageStore Directory Devices DbLogic.
From S2P Require Import MessageService RelationService Redis Passwords UserService RedisLogic Sessions Sample.

Section Claims.
Context {Srv : RedisServer} {Laws : RedisLaws Srv} (E : UEnv) (svc : UserServiceImpl).
Context (clock : forall i j, (i <= j)%nat -> re_time (ue_redis E) i <= re_time (ue_redis E) j).

(** C14: nobody is taken for a user without that user's password.  In every
    history of the service, with any failures of Redis, of the database and of
    OpenSSL, and with other programs changing the tables and removing tokens
    in between: when [ValidateToken] accepts a token for a user, a login of
    the history named that user and its password passed the check, and the
    digest of the token is the digest of a token that was drawn at random.
    (The history starts without tokens; the server's clock does not run
    backwards.) *)
Theorem valid_token_was_issued u0 h u context q resp u'
  (Hempty : forall t hash, redis_content t (rw_redis (uw_node u0)) (token_key hash) = None)
  (Hhistory : history E svc u0 h u)
  (Hcheck : ValidateToken E svc context q u = Some (resp, u'))
  (Hvalid : vt_valid resp = true) :
  (exists n, drawn E (digest_at E n (vq_token q))) /\
  exists login before usr,
    (CLogin login, before) ∈ h /\ proves_identity E (u_db before) login usr /\
    (is_u64 (u_id usr) -> vt_user_id resp = u_id usr).
Proof.
  apply (history_earned E clock svc) in Hhistory; [|done].
  destruct (ValidateToken_run E svc _ _ _ _ _ Hcheck Hvalid) as (n&v&Hv&Hc).
  destruct (Hhistory _ _ _ (Z.le_refl _) Hc) as (Hd&y&[= <-]&Hy). split; [by exists n|].
  destruct (Hy _ Hv) as (login&before&usr&Hin&Hp&Hs). exists login, before, usr.
  split_and!; [done|done|]. intros Hu. rewrite stoull_to_string in Hs by done. congruence.
Qed.

Section Digest.
Context (sha : string -> string).
Context (digests : forall n s, ue_digest E n s = Some (sha s)).
Context (random_size : forall n data, ue_random E n 32 = Some data -> String.length data = 32%nat).

(** A token that was drawn is neither empty nor too long. *)
Lemma drawn_token_size data k : ue_random E k 32 = Some data ->
  token_ok (toHex data).
Proof.
  intros Hr%random_size. pose proof (length_toHex data) as Hl. unfold hash_toHex in Hl.
  split; [|lia]. intros Hn. rewrite Hn in Hl. cbn in Hl. lia.
Qed.

(** The answer to a token whose key holds the user until a deadline. *)
Lemma stored_token_answer tm context id token user_id deadline u :
  serves svc context -> us_tokens svc = Some tm -> is_u64 user_id ->
  token_ok token ->
  re_redis (ue_redis E) (rw_cmds (uw_node u)) = Done ->
  at_node (key_holds (ue_redis E) (token_key (toHex (sha token))) (until deadline (StringContent (to_string user_id)))) u ->
  exists u', ValidateToken E svc context (mkValidate id token) u
    = Some (if re_time (ue_redis E) (rw_cmds (uw_node u)) <? deadline
            then mkValidateResponse (granted id) true user_id
            else not_valid (granted id), u').
Proof.
  intros [Hc Hr] Ht Hu Hne Hd Hk.
  destruct (ValidateToken_answer E svc context (mkValidate id token) u sha
              (until deadline (StringContent (to_string user_id)))) as [u' H']; try done; [by rewrite Ht|].
  exists u'. rewrite H'. unfold until. destruct (_ <? _); [|done]. by rewrite stoull_to_string.
Qed.

(** An accepted login opens a session.  When [Login] answers OK, however
    the database and Redis behaved on the way, [ValidateToken] accepts the
    token it returned, for the user it returned, until the lifetime of a token
    has passed since the login stored it, and refuses it from then on. *)
Theorem login_opens_session tm context q u resp u' id
  (Htokens : us_tokens svc = Some tm) (Hlife : 0 < ttlSeconds tm)
  (Hlogin : Login E svc context q u = Some (resp, u'))
  (Hok : r_code (lg_response resp) = 0) (Huser : is_u64 (lg_user_id resp))
  (Hget : re_redis (ue_redis E) (rw_cmds (uw_node u')) = Done) :
  let stored := re_time (ue_redis E) (rw_cmds (uw_node u)) in
  let checked := re_time (ue_redis E) (rw_cmds (uw_node u')) in
  exists u'', ValidateToken E svc context (mkValidate id (lg_token resp)) u'
    = Some (if checked <? stored + ttlSeconds tm * 1000
            then mkValidateResponse (granted id) true (lg_user_id resp)
            else not_valid (granted id), u'').
Proof.
  cbv zeta. apply Login_run in Hlogin
    as [[Hr _]|(tm'&usr&k&data&m&u1&stored&u2&Hs&Ht&_&Hr&[_ Hn]&H1&H2)]; [done|].
  rewrite Htokens in Ht. injection Ht as <-. destruct stored; [|by destruct H2].
  rewrite (digest_at_sha E sha digests) in H1. apply run_zoom in H1 as (r2&H1&->). pose proof (setEx_confirmed _ clock _ _ _ _ _ H1 Hlife) as K2.
  rewrite Hn in K2. destruct (finish_login_holds E clock svc sha digests _ _ _ _ _ _ _ _ H2 Hok K2) as (Hu&Htk&K).
  rewrite Htk, Hu in *. pose proof (drawn_token_size _ _ Hr). by eapply stored_token_answer.
Qed.

(** A refresh replaces a token.  When [RefreshToken] answers OK, the token
    that was presented was the token of the user it names, [ValidateToken]
    accepts the new token for that user until its lifetime has passed, and, if
    Redis executes the commands it is sent, refuses the old one.  (The two
    tokens have different digests.) *)
Theorem refresh_replaces_token tm context q u resp u' id
  (Htokens : us_tokens svc = Some tm) (Hlife : 0 < ttlSeconds tm)
  (Hrefresh : RefreshToken E svc context q u = Some (resp, u'))
  (Hok : r_code (lg_response resp) = 0) (Hdistinct : sha (fq_token q) <> sha (lg_token resp))
  (Hget : re_redis (ue_redis E) (rw_cmds (uw_node u')) = Done) :
  let stored := re_time (ue_redis E) (S (rw_cmds (uw_node u))) in
  let checked := re_time (ue_redis E) (rw_cmds (uw_node u')) in
  (exists v, redis_content (re_time (ue_redis E) (rw_cmds (uw_node u))) (rw_redis (uw_node u))
               (token_key (toHex (sha (fq_token q)))) = Some (StringContent v) /\
             stoull v = Some (lg_user_id resp)) /\
  (exists u'', ValidateToken E svc context (mkValidate id (lg_token resp)) u'
     = Some (if checked <? stored + ttlSeconds tm * 1000
             then mkValidateResponse (granted id) true (lg_user_id resp)
             else not_valid (granted id), u'')) /\
  ((forall i, re_redis (ue_redis E) i <> Refused) ->
   exists u'', ValidateToken E svc context (mkValidate id (fq_token q)) u'
     = Some (not_valid (granted id), u'')).
Proof.
  cbv zeta. apply RefreshToken_run in Hrefresh; [|done..].
  destruct Hrefresh
    as [[Hr _]|(tm'&n&v&user_id&k&data&m&u1&stored&u2&Hs&Hq&Ht&Hc&Hv&Hr&_&H1&Hn&H2)]; [done|].
  rewrite Htokens in Ht. injection Ht as <-. destruct stored; [|by destruct H2].
  rewrite (digest_at_sha E sha digests) in H1, Hc.
  apply run_zoom in H1 as (r2&H1&->). pose proof (setEx_confirmed _ clock _ _ _ _ _ H1 Hlife) as K2. rewrite Hn in K2.
  destruct (finish_refresh_holds E clock svc sha digests _ _ _ _ _ _ _ _ H2 Hok Hdistinct K2)
    as (Hu&Htk&K&Kold). rewrite Hu, Htk in *. split_and!.
  - by exists v.
  - eapply stored_token_answer; eauto using drawn_token_size, stoull_u64.
  - intros Hall. destruct Hs as [Hs1 Hs2].
    apply (ValidateToken_answer E svc context (mkValidate id (fq_token q)) u' sha (fun _ => None)); try done.
    + by rewrite Htokens.
    + by apply Kold.
Qed.

End Digest.
End Claims.

(** ** A deployment: a user registers, logs in from a phone and refreshes the
    token.  Random bytes repeat the number of the draw; the digest is the
    identity. *)

Import MapServer.
Local Open Scope string_scope.
Local Open Scope Z_scope.

Definition sample_bytes (n : nat) (size : Z) : option string :=
  Some (cycle (to_string (Z.of_nat n)) EmptyString (Z.to_nat size)).

Definition sample_uenv : UEnv :=
  mkUEnv (mkREnv (sample_env healthy) healthy (fun i => 1000 + Z.of_nat i)) sample_bytes
    (fun _ s => Some s) (fun _ => sample_derive).

Definition sample_users : UserServiceImpl :=
  UserServiceImpl_new (mkInternalRpcAuth true "secret" "") (fun s => s) false false false
    (Some (TokenManager_new 3600)) 6.

Definition sample_start : uworld := mkUworld (mkRworld (world_of sample_db) ∅ 0) 0.

Definition sample_register : RegisterRequest := mkRegister "r1" "alice" "secret" "Al".
Definition sample_login : LoginRequest := mkLogin "r2" "alice" "secret" "phone" "ios" "Phone".

(** The state a run leaves, and its answer. *)
Definition left_by {A} (r : option (A * uworld)) (u : uworld) : uworld :=
  match r with Some (_, u') => u' | None => u end.

Definition sample_registered : uworld :=
  left_by (serve sample_uenv sample_users sample_context (CRegister sample_register) sample_start) sample_start.
Definition sample_logged_in : uworld :=
  left_by (serve sample_uenv sample_users sample_context (CLogin sample_login) sample_registered) sample_registered.

Definition sample_history : list (UserCall * uworld) :=
  [(CLogin sample_login, sample_registered); (CRegister sample_register, sample_start)].

Definition sample_session : LoginResponse :=
  match Login sample_uenv sample_users sample_context sample_login sample_registered with
  | Some (r, _) => r
  | None => login_failed (granted "")
  end.

Abbreviation sample_token := (lg_token sample_session).

Lemma left_by_run {A} (r : option (A * uworld)) u :
  is_some r = true -> exists a, r = Some (a, left_by r u).
Proof. destruct r as [[a u']|]; [|done]. by exists a. Qed.

Lemma sample_history_runs : history sample_uenv sample_users sample_start sample_history sample_logged_in.
Proof.
  eapply (history_call _ _ _ _ _ sample_context); [eapply (history_call _ _ _ _ _ sample_context); [apply history_start|]|].
  - destruct (left_by_run (serve sample_uenv sample_users sample_context (CRegister sample_register) sample_start)
                sample_start) as [[] Hr]; [by vm_compute|exact Hr].
  - destruct (left_by_run (serve sample_uenv sample_users sample_context (CLogin sample_login) sample_registered)
                sample_registered) as [[] Hr]; [by vm_compute|exact Hr].
Qed.

Lemma sample_time i : re_time (ue_redis sample_uenv) i = 1000 + Z.of_nat i.
Proof. reflexivity. Qed.

Lemma session_clock i j : (i <= j)%nat -> re_time (ue_redis sample_uenv) i <= re_time (ue_redis sample_uenv) j.
Proof. cbn. lia. Qed.

Lemma sample_bytes_size n data : ue_random sample_uenv n 32 = Some data -> String.length data = 32%nat.
Proof. intros Hd%(inj Some). rewrite <- Hd. apply cycle_length. Qed.

Abbreviation sample_check token u :=
  (ValidateToken sample_uenv sample_users sample_context (mkValidate "r3" token) u).

Lemma sample_empty t hash : redis_content t (rw_redis (uw_node sample_start)) (token_key hash) = None.
Proof. reflexivity. Qed.

Lemma valid_token_was_issued_witness :
  exists resp u', sample_check sample_token sample_logged_in = Some (resp, u') /\ vt_valid resp = true /\
  exists login before usr, (CLogin login, before) ∈ sample_history /\
    proves_identity sample_uenv (u_db before) login usr /\
    (is_u64 (u_id usr) -> vt_user_id resp = u_id usr).
Proof.
  destruct (sample_check sample_token sample_logged_in) as [[resp u']|] eqn:Hr; cycle 1.
  { assert (is_some (sample_check sample_token sample_logged_in) = true) by by vm_compute.
    by rewrite Hr in *. }
  assert (vt_valid resp = true) as Hv.
  { assert (match sample_check sample_token sample_logged_in with
            | Some (r, _) => vt_valid r | None => false end = true) as Hb by by vm_compute.
    by rewrite Hr in Hb. }
  exists resp, u'. split; [done|]. split; [done|].
  pose proof (valid_token_was_issued sample_uenv sample_users session_clock sample_start sample_history
    sample_logged_in sample_context) as H1.
  by destruct (H1 _ resp u' sample_empty sample_history_runs Hr Hv) as [_ Hw].
Defined.

Lemma login_opens_session_witness :
  lg_user_id sample_session = 10 /\
  exists u'', sample_check sample_token sample_logged_in
    = Some (mkValidateResponse (granted "r3") true (lg_user_id sample_session), u'').
Proof.
  assert (lg_user_id sample_session = 10) as Hid by by vm_compute. split; [exact Hid|].
  destruct (Login sample_uenv sample_users sample_context sample_login sample_registered) as [[r u]|] eqn:Hl; cycle 1.
  { assert (is_some (Login sample_uenv sample_users sample_context sample_login sample_registered) = true)
      by by vm_compute. by rewrite Hl in *. }
  assert (r = sample_session) as -> by (unfold sample_session; by rewrite Hl).
  assert (u = sample_logged_in) as -> by (unfold sample_logged_in, serve, mbind, SM_bind; by rewrite Hl).
  assert (r_code (lg_response sample_session) = 0) as Hok by by vm_compute.
  assert (is_u64 (lg_user_id sample_session)) as Hu by (rewrite Hid; by split).
  pose proof (login_opens_session sample_uenv sample_users session_clock (fun s => s) (fun _ _ => eq_refl)
    sample_bytes_size (TokenManager_new 3600) sample_context sample_login sample_registered sample_session
    sample_logged_in "r3" eq_refl eq_refl Hl Hok Hu eq_refl) as [u'' Hv].
  exists u''. rewrite Hv.
  assert ((re_time (ue_redis sample_uenv) (rw_cmds (uw_node sample_logged_in)) <?
           re_time (ue_redis sample_uenv) (rw_cmds (uw_node sample_registered)) +
           ttlSeconds (TokenManager_new 3600) * 1000) = true) as -> by by vm_compute.
  reflexivity.
Defined.

Lemma fq_token_eq id token device : fq_token (mkRefresh id token device) = token.
Proof. reflexivity. Qed.

Lemma early_enough (i j : nat) :
  (i < 100)%nat ->
  (1000 + Z.of_nat i <? 1000 + Z.of_nat (S j) + ttlSeconds (TokenManager_new 3600) * 1000) = true.
Proof. intros Hi. apply Z.ltb_lt. change (ttlSeconds _) with 3600. lia. Qed.

Abbreviation sample_refresh := (mkRefresh "r4" sample_token "phone").

Abbreviation sample_refreshed :=
  (RefreshToken sample_uenv sample_users sample_context sample_refresh sample_logged_in).

Lemma refresh_replaces_token_witness :
  exists resp u', sample_refreshed = Some (resp, u') /\ lg_user_id resp = 10 /\
    (exists u'', sample_check (lg_token resp) u' = Some (mkValidateResponse (granted "r3") true 10, u'')) /\
    (exists u'', sample_check sample_token u' = Some (not_valid (granted "r3"), u'')).
Proof.
  destruct sample_refreshed as [[resp u']|] eqn:Hr; cycle 1.
  { assert (is_some sample_refreshed = true) by by vm_compute. by rewrite Hr in *. }
  assert (match sample_refreshed with
          | Some (r, u) => (lg_user_id r =? 10) && (r_code (lg_response r) =? 0) &&
                           negb (bool_decide (sample_token = lg_token r)) &&
                           (rw_cmds (uw_node u) <? 100)%nat
          | None => false end = true) as Hb by by vm_compute.
  rewrite Hr in Hb. apply andb_prop in Hb as [[[Hid%Z.eqb_eq Hok%Z.eqb_eq]%andb_prop Hne]%andb_prop Hn%Nat.ltb_lt].
  apply negb_true_iff, bool_decide_eq_false in Hne.
  destruct (refresh_replaces_token sample_uenv sample_users session_clock (fun s => s) (fun _ _ => eq_refl)
    sample_bytes_size (TokenManager_new 3600) sample_context sample_refresh sample_logged_in resp u'
    "r3" eq_refl eq_refl Hr Hok Hne eq_refl) as (_&[u1 Hnew]&Hold).
  exists resp, u'. split; [done|]. split; [done|]. split; cycle 1.
  { destruct Hold as [u2 Hold]; [by intros i|]. rewrite fq_token_eq in Hold. by exists u2. }
  exists u1. rewrite Hnew, Hid, !sample_time.
  by rewrite (early_enough _ _ Hn).
Defined.
