(* ===== verification/DeviceService.v ===== *)
(** * The device service

    device_service/src/DeviceServiceImpl.cpp, with the calls of
    [GatewayClient] that end connections (common/push/GatewayClient.cpp).
    Log lines are left out. *)

From S2P Require Import Prelude Words Text MessageId Rpc Db MessageStore Directory Devices MessageService.
From S2P Require Import RelationService Breaker Redis Push.

Record ListDevicesRequest := mkListDevices { ldq_request_id : string; ldq_user_id : Z }.
Record KickDeviceRequest := mkKickDevice {
  kd_request_id : string; kd_user_id : Z; kd_device_id : string
}.
Record KickAllDevicesRequest := mkKickAllDevices { ka_request_id : string; ka_user_id : Z }.

Record DeviceInfo := mkDeviceInfo {
  di_user_id : Z; di_device_id : string; di_platform : string; di_device_name : string;
  di_last_login_at : Z; di_last_active_at : Z; di_online : bool
}.

Module DeviceServiceImpl.

(** Which dependencies are null, and the caller check. *)
Record DeviceServiceImpl := mkDeviceService {
  ds_auth : InternalRpcAuth;
  ds_sha256Hex : string -> string;
  ds_no_users : bool;
  ds_no_devices : bool;
  ds_no_redis : bool;
  ds_no_gateways : bool
}.

Definition fillDevice (device : UserDevice) (online : bool) : DeviceInfo :=
  mkDeviceInfo (ud_user_id device) (ud_device_id device) (ud_platform device) (ud_device_name device)
    (ud_last_login_at device) (ud_last_active_at device) online.

Section Service.
Context `{RedisServer} (E : PEnv) (svc : DeviceServiceImpl).

(** A call to the gateway that ends connections: true when the gateway
    answers with code 0. *)
Definition rpc_kick (gateway_id : string) (user_id : Z) (connection_id : string) : P bool :=
  fun p =>
    let ok := match pe_rpc E (pw_rpcs p) gateway_id user_id connection_id with
              | Some code => code =? 0
              | None => false
              end in
    Some (ok, mkPworld (pw_node p) (pw_clients p) (S (pw_rpcs p)) (pw_steady p) (pw_delivered p)).

Definition kickConnection (gateway_id : string) (client : GatewayClient) (request_id : string)
    (user_id : Z) (connection_id : string) : P bool :=
  if negb (gc_stub client) then mret false
  else
    now ← steady_now E;
    let (allowed, b) := allowRequest now (gc_breaker client) in
    set_breaker gateway_id b;;
    if negb allowed then mret false
    else
      pdb (ensure_trace (pe_db E) request_id);;
      ok ← rpc_kick gateway_id user_id connection_id;
      (if (ok : bool) then set_breaker gateway_id (recordSuccess b)
       else now ← steady_now E; set_breaker gateway_id (recordFailure now b));;
      mret ok.

(** Every connection of the user: the request names no connection. *)
Definition kickUser (gateway_id : string) (client : GatewayClient) (request_id : string)
    (user_id : Z) : P bool :=
  kickConnection gateway_id client request_id user_id EmptyString.

Definition ds_authorized (context : ServerContext) : bool :=
  authorize (ds_sha256Hex svc) (ds_auth svc) context.

(** The gateway and the connection of a device that is online; what is left
    of a half-registered device is removed. *)
Definition isOnline (user_id : Z) (device_id : string) : R (option (string * string)) :=
  if ds_no_redis svc || (user_id =? 0) || bool_decide (device_id = EmptyString) then mret None
  else
    gateway ← rc_get (pe_redis E) (onlineKey user_id device_id);
    conn ← rc_get (pe_redis E) (connKey user_id device_id);
    match gateway, conn with
    | Some gateway, Some conn => mret (Some (gateway, conn))
    | _, _ =>
        rc_del (pe_redis E) (onlineKey user_id device_id);;
        rc_del (pe_redis E) (connKey user_id device_id);;
        rc_srem (pe_redis E) (devicesKey user_id) device_id;;
        mret None
    end.

(** The live connection, when there is one, is closed by its gateway. *)
Definition kick_live (request_id : string) (user_id : Z) (device_id : string) : P bool :=
  online ← node (isOnline user_id device_id);
  match online with
  | None => mret true
  | Some (gateway_id, connection_id) =>
      p ← get_state;
      match (if ds_no_gateways svc then None else pw_clients p !! gateway_id) with
      | None => mret false
      | Some client => kickConnection gateway_id client request_id user_id connection_id
      end
  end.

Definition revokeDevice (request_id : string) (user_id : Z) (device_id token_hash : string) : P bool :=
  live_kick_ok ← kick_live request_id user_id device_id;
  (if bool_decide (token_hash = EmptyString) then mret true
   else node (rc_del (pe_redis E) ("nebula:token:" +:+ token_hash)));;
  node (rc_del (pe_redis E) (onlineKey user_id device_id));;
  node (rc_del (pe_redis E) (connKey user_id device_id));;
  node (rc_srem (pe_redis E) (devicesKey user_id) device_id);;
  device_ok ← (if ds_no_devices svc then mret false
               else now ← pdb (nowMs (pe_db E));
                    pdb (clearDeviceToken (pe_db E) user_id device_id now));
  mret (device_ok && live_kick_ok).

Definition ListDevices (context : ServerContext) (q : ListDevicesRequest)
  : P (CommonResponse * list DeviceInfo) :=
  let id := ldq_request_id q in
  if negb (ds_authorized context) then mret (unauthenticated id, [])
  else
  pdb (inc_metric "nebula_device_list_total");;
  if ds_no_users svc || ds_no_devices svc || ds_no_redis svc then mret (fail id EC_INTERNAL_ERROR, [])
  else if ldq_user_id q =? 0 then mret (fail id INVALID_ARGUMENT, [])
  else
    user ← pdb (getUserById (pe_db E) (ldq_user_id q));
    if negb (is_some user) then mret (fail id USER_NOT_FOUND, [])
    else
      devices ← pdb (listDevices (pe_db E) (ldq_user_id q));
      infos ← mapM (fun device =>
                      online ← node (isOnline (ud_user_id device) (ud_device_id device));
                      mret (fillDevice device (is_some online))) devices;
      pdb (inc_metric "nebula_device_list_success_total");;
      mret (granted id, infos).

Definition KickDevice (context : ServerContext) (q : KickDeviceRequest) : P CommonResponse :=
  let id := kd_request_id q in
  if negb (ds_authorized context) then mret (unauthenticated id)
  else
  pdb (inc_metric "nebula_device_kick_total");;
  if ds_no_users svc || ds_no_devices svc || ds_no_redis svc then mret (fail id EC_INTERNAL_ERROR)
  else if (kd_user_id q =? 0) || bool_decide (kd_device_id q = EmptyString)
  then mret (fail id INVALID_ARGUMENT)
  else
    user ← pdb (getUserById (pe_db E) (kd_user_id q));
    if negb (is_some user) then mret (fail id USER_NOT_FOUND)
    else
      device ← pdb (getDevice (pe_db E) (kd_user_id q) (kd_device_id q));
      match device with
      | None => mret (fail id DEVICE_NOT_FOUND)
      | Some device =>
          ok ← revokeDevice id (kd_user_id q) (kd_device_id q) (ud_token_hash device);
          if negb ok then mret (fillResponse id SERVICE_UNAVAILABLE "device connection revoke failed")
          else
            pdb (inc_metric "nebula_device_kick_success_total");;
            mret (granted id)
      end.

(** Every device is revoked, also after one that failed. *)
Fixpoint revoke_all (request_id : string) (user_id : Z) (devices : list UserDevice) (ok : bool) : P bool :=
  match devices with
  | [] => mret ok
  | device :: devices =>
      revoked ← revokeDevice request_id user_id (ud_device_id device) (ud_token_hash device);
      revoke_all request_id user_id devices (revoked && ok)
  end.

Definition KickAllDevices (context : ServerContext) (q : KickAllDevicesRequest) : P CommonResponse :=
  let id := ka_request_id q in
  if negb (ds_authorized context) then mret (unauthenticated id)
  else
  pdb (inc_metric "nebula_device_kick_all_total");;
  if ds_no_users svc || ds_no_devices svc || ds_no_redis svc then mret (fail id EC_INTERNAL_ERROR)
  else if ka_user_id q =? 0 then mret (fail id INVALID_ARGUMENT)
  else
    user ← pdb (getUserById (pe_db E) (ka_user_id q));
    if negb (is_some user) then mret (fail id USER_NOT_FOUND)
    else
      devices ← pdb (listDevices (pe_db E) (ka_user_id q));
      ok ← revoke_all id (ka_user_id q) devices true;
      if negb ok
      then mret (fillResponse id SERVICE_UNAVAILABLE "one or more device connections failed to revoke")
      else
        pdb (inc_metric "nebula_device_kick_all_success_total");;
        mret (granted id).

End Service.
End DeviceServiceImpl.
Export DeviceServiceImpl.
