(* ===== verification/DeviceClaims.v ===== *)
(** * A revoked device is out

    What an accepted [KickDevice] leaves behind: the device's row without a
    token, no token and no online state in Redis, and a connection that its
    gateway has closed. *)

From S2P Require Import Prelude Words Text MessageId Rpc Db MessageStore Directory Devices DbLogic.
From S2P Require Import MessageService RelationService Breaker Redis RedisLogic Push PushSafety DeviceService Sample.

Section Steps.
Context `{Srv : RedisServer}.
Implicit Types (I : nat -> redis_state -> Prop).

#[global] Instance node_of_pworld : HasNode pworld := pw_node.

#[global] Instance keeps_node I {A} (m : R A) : Keeps I m -> Keeps I (node m).
Proof. by apply keeps_zoom. Qed.
#[global] Instance keeps_pdb I {A} (m : M A) : Keeps I (pdb m).
Proof. unfold pdb. apply _. Qed.
#[global] Instance keeps_get_state I : Keeps I (get_state : P pworld).
Proof. by intros p ? p' [= <- <-]. Qed.
#[global] Instance keeps_steady I E : Keeps I (steady_now E).
Proof. apply keeps_apart. by intros p a p' [= _ <-]. Qed.
#[global] Instance keeps_breaker I g b : Keeps I (set_breaker g b).
Proof. apply keeps_apart. by intros p a p' [= _ <-]. Qed.
#[global] Instance keeps_kick I E g u k : Keeps I (rpc_kick E g u k).
Proof. apply keeps_apart. by intros p a p' [= _ <-]. Qed.
#[global] Instance keeps_kickConnection I E g c id u k : Keeps I (kickConnection E g c id u k).
Proof. unfold kickConnection. apply _. Qed.

(** The tables stay as they are. *)
Definition same_tables (p p' : pworld) : Prop := w_db (pw_world p') = w_db (pw_world p).

#[global] Instance same_tables_preorder : PreOrder same_tables.
Proof. split; [done|]. intros x y z. unfold same_tables. congruence. Qed.

Lemma node_tables {A} (m : R A) p a p' : Apart m -> node m p = Some (a, p') -> same_tables p p'.
Proof.
  intros Hm (r&Hr&->)%run_zoom. unfold same_tables, pw_world. cbn. by rewrite (Hm _ _ _ Hr).
Qed.

Lemma kickConnection_run E g c id u k p ok p' :
  kickConnection E g c id u k p = Some (ok, p') ->
  same_tables p p' /\ (ok = true -> exists n, pe_rpc E n g u k = Some 0).
Proof.
  unfold kickConnection. destruct (negb _); [by intros [= <- <-]|].
  intros (now&p1&[= _ <-]&H)%run_bind_Some. destruct (allowRequest _ _) as [allowed b].
  apply run_bind_Some in H as (x&p2&[= _ <-]&H). destruct (negb allowed); [by injection H as <- <-|].
  apply run_bind_Some in H as (tr&p3&H3&H). apply pdb_run in H3 as [H3%ensure_trace_db _].
  apply run_bind_Some in H as (ok1&p4&[= Hok <-]&H). apply run_bind_Some in H as (y&p5&H5&[= <- <-]).
  split.
  - assert (w_db (pw_world p5) = w_db (pw_world p3)) as H6; [|unfold same_tables; by rewrite H6, H3].
    destruct ok1; [by injection H5 as _ <-|]. apply run_bind_Some in H5 as (n&p6&[= _ <-]&[= _ <-]). done.
  - intros ->. exists (pw_rpcs p3). destruct (pe_rpc _ _ _ _ _) as [code|]; [|done].
    apply Z.eqb_eq in Hok. congruence.
Qed.

End Steps.

Lemma getDevice_run E user_id device_id w device w' :
  getDevice E user_id device_id w = Some (Some device, w') ->
  sql_first (same_device E user_id device_id) (user_devices (w_db w)) = Some device.
Proof. unfold getDevice. destruct (_ || _); [done|]. by intros [?|?]%read_row_run. Qed.

Lemma clearDeviceToken_run E user_id device_id t w w' :
  clearDeviceToken E user_id device_id t w = Some (true, w') ->
  exists now n, set_devices (same_device E user_id device_id) (with_token EmptyString now now) (w_db w)
                = Some (w_db w', n).
Proof.
  unfold clearDeviceToken, with_conn. destruct (_ || _); [done|].
  intros (b&w1&H1&H)%run_bind_Some. destruct (quiet _ _ _ H1) as [Hd1 _]. destruct b; [|done].
  apply run_bind_Some in H as (now&w2&H2&H).
  assert (w_db w2 = w_db w1) as Hd2 by (destruct (0 <? t); [by injection H2 as _ <-|by destruct (quiet _ _ _ H2)]).
  apply run_bind_Some in H as (r&w3&(_&_&H3)%auto_update_run&[= Hr <-]). destruct r as [n|]; [|done].
  exists now, n. rewrite <- Hd1, <- Hd2. by apply H3.
Qed.

(** No device the statement is about keeps a token. *)
Lemma cleared_rows (P : UserDevice -> bool) now n d d' r :
  set_devices P (with_token EmptyString now now) d = Some (d', n) ->
  (forall r, P (with_token EmptyString now now r) = P r) ->
  r ∈ user_devices d' -> P r = true -> ud_token_hash r = EmptyString.
Proof.
  intros [= <- _] HP Hin Hr. cbn in Hin. unfold sql_update in Hin.
  apply list_elem_of_fmap in Hin as (x&->&_). destruct (P x) eqn:Hx; [done|congruence].
Qed.

Section Revoke.
Context {Srv : RedisServer} {Laws : RedisLaws Srv} (E : PEnv) (svc : DeviceServiceImpl).
Abbreviation RE := (pe_redis E).
Context (clock : forall i j, (i <= j)%nat -> re_time RE i <= re_time RE j).
Context (user_id : Z) (device_id : string).
Context (Huser : user_id <> 0) (Hdevice : device_id <> EmptyString) (Hredis : ds_no_redis svc = false).

#[local] Instance apart_isOnline u d : Apart (isOnline E svc u d).
Proof.
  unfold isOnline. destruct (_ || _); [apply _|]. unfold rc_get, rc_del, rc_srem.
  apply apart_bind; [apply _|intros [g|]]; (apply apart_bind; [apply _|intros [c|]]); apply _.
Qed.

#[local] Instance gone_del key key' : Keeps (key_holds RE key (fun _ => None)) (rc_del RE key') :=
  keeps_gone_del RE clock key key'.
#[local] Instance gone_srem key key' m : Keeps (key_holds RE key (fun _ => None)) (rc_srem RE key' m) :=
  keeps_gone_srem RE clock key key' m.

(** What the keys of the device say when Redis answers. *)
Lemma isOnline_run r x r' gateway conn :
  isOnline E svc user_id device_id r = Some (x, r') ->
  (forall i, re_redis RE i = Done) ->
  redis_content (re_time RE (rw_cmds r)) (rw_redis r) (onlineKey user_id device_id) = Some (StringContent gateway) ->
  redis_content (re_time RE (S (rw_cmds r))) (rw_redis r) (connKey user_id device_id) = Some (StringContent conn) ->
  x = Some (gateway, conn).
Proof.
  unfold isOnline. rewrite Hredis. apply Z.eqb_neq in Huser. rewrite Huser, bool_decide_false by done. cbn [orb].
  intros (g&r1&H1&H)%run_bind_Some Hd Hg Hc. apply run_bind_Some in H as (c&r2&H2&H).
  assert (redis_content (re_time RE (S (rw_cmds r))) (rw_redis r1) (connKey user_id device_id)
          = Some (StringContent conn)) as Hc1.
  { apply run_bind_Some in H1 as (reply&r3&H1&[= _ <-]).
    apply command_outcome in H1 as [_ [(_&_&He)|(y&[Hs _]%redis_get&_)]].
    - by rewrite He.
    - rewrite Hs; [done|]. apply clock. lia. }
  apply (rc_get_run RE) in H1 as (Hn&_&Hv). rewrite Hg in Hv. specialize (Hv (Hd _)). subst g.
  apply (rc_get_run RE) in H2 as (_&_&Hv). rewrite Hn, Hc1 in Hv. specialize (Hv (Hd _)). subst c.
  by injection H as <- _.
Qed.

Lemma kick_live_run id p ok p' :
  kick_live E svc id user_id device_id p = Some (ok, p') ->
  same_tables p p' /\
  (ok = true -> (forall i, re_redis RE i = Done) -> forall gateway conn,
   let i := rw_cmds (pw_node p) in let s := rw_redis (pw_node p) in
   redis_content (re_time RE i) s (onlineKey user_id device_id) = Some (StringContent gateway) ->
   redis_content (re_time RE (S i)) s (connKey user_id device_id) = Some (StringContent conn) ->
   exists n, pe_rpc E n gateway user_id conn = Some 0).
Proof.
  unfold kick_live. intros (online&p1&H1&H)%run_bind_Some. pose proof (node_tables _ _ _ _ _ H1) as T1.
  apply run_zoom in H1 as (r&H1&->). set (p1 := set_node r p) in *.
  assert (same_tables p p' /\ (ok = true -> forall g c, online = Some (g, c) ->
            exists n, pe_rpc E n g user_id c = Some 0)) as [Ht Hk].
  { destruct online as [[g c]|]; [|by injection H as <- <-].
    apply run_bind_Some in H as (p2&p3&[= <- <-]&H).
    destruct (if ds_no_gateways svc then _ else _) as [client|]; [|by injection H as <- <-].
    apply kickConnection_run in H as [T2 Hk]. split; [by etrans|]. intros Hok g' c' [= <- <-]. auto. }
  split; [done|]. intros Hok Hd g c Hg Hc. apply Hk; [done|]. by eapply isOnline_run.
Qed.

Lemma revokeDevice_run id hash p p' :
  revokeDevice E svc id user_id device_id hash p = Some (true, p') ->
  (exists p1, kick_live E svc id user_id device_id p = Some (true, p1)) /\
  (exists now n, set_devices (same_device (pe_db E) user_id device_id) (with_token EmptyString now now)
                   (w_db (pw_world p)) = Some (w_db (pw_world p'), n)) /\
  ((forall i, re_redis RE i <> Refused) ->
   (hash <> EmptyString -> at_node (key_holds RE ("nebula:token:" +:+ hash) (fun _ => None)) p') /\
   at_node (key_holds RE (onlineKey user_id device_id) (fun _ => None)) p' /\
   at_node (key_holds RE (connKey user_id device_id) (fun _ => None)) p').
Proof.
  unfold revokeDevice. intros (live&p1&H1&H)%run_bind_Some. pose proof (kick_live_run _ _ _ _ H1) as [T1 _].
  apply run_bind_Some in H as (x2&p2&H2&H). apply run_bind_Some in H as (x3&p3&H3&H).
  apply run_bind_Some in H as (x4&p4&H4&H). apply run_bind_Some in H as (x5&p5&H5&H).
  apply run_bind_Some in H as (ok&p6&H6&[= Hok <-]). apply andb_prop in Hok as [-> ->].
  assert (same_tables p1 p2) as T2.
  { case_bool_decide; [by injection H2 as _ <-|]. eapply node_tables; [|exact H2]. unfold rc_del. apply _. }
  assert (same_tables p p5) as T5.
  { do 2 (etrans; [eassumption|]). etrans; [eapply node_tables; [|exact H3]; unfold rc_del; apply _|].
    etrans; [eapply node_tables; [|exact H4]; unfold rc_del; apply _|].
    eapply node_tables; [|exact H5]; unfold rc_srem; apply _. }
  destruct (ds_no_devices svc); [by injection H6|]. apply run_bind_Some in H6 as (t&p7&H7&H6).
  split; [by exists p1|]. split.
  - apply pdb_run in H7 as [H7 _], H6 as [H6 _]. destruct (quiet _ _ _ H7) as [Hd _].
    rewrite <- T5, <- Hd. by apply clearDeviceToken_run in H6.
  - intros Hr. assert (forall key, at_node (key_holds RE key (fun _ => None)) p5 ->
                        at_node (key_holds RE key (fun _ => None)) p6) as K6.
    { intros key Hk. by apply (keeping _ _ _ H6), (keeping _ _ _ H7). }
    split_and!.
    + intros Hh. apply K6. rewrite bool_decide_false in H2 by done.
      apply (keeping _ _ _ H5), (keeping _ _ _ H4), (keeping _ _ _ H3). apply run_zoom in H2 as (r2&H2&->).
      eapply (del_confirmed RE clock); [exact H2|apply Hr].
    + apply K6, (keeping _ _ _ H5), (keeping _ _ _ H4). apply run_zoom in H3 as (r3&H3&->).
      eapply (del_confirmed RE clock); [exact H3|apply Hr].
    + apply K6, (keeping _ _ _ H5). apply run_zoom in H4 as (r4&H4&->).
      eapply (del_confirmed RE clock); [exact H4|apply Hr].
Qed.

End Revoke.

(** Neither the tables nor Redis changed. *)
Definition unchanged `{RedisServer} (p p' : pworld) : Prop :=
  same_tables p p' /\ rw_redis (pw_node p') = rw_redis (pw_node p) /\ rw_cmds (pw_node p') = rw_cmds (pw_node p).

#[global] Instance unchanged_preorder `{RedisServer} : PreOrder unchanged.
Proof. split; [done|]. intros x y z (?&?&?) (?&?&?). split_and!; [by etrans|congruence..]. Qed.

Lemma pdb_unchanged `{RedisServer} {A} (m : M A) p a p' : Quiet m -> pdb m p = Some (a, p') -> unchanged p p'.
Proof.
  intros Hm (r&(w&Hw&->)%run_zoom&->)%run_zoom. destruct (Hm _ _ _ Hw) as [Hd _]. split_and!; done.
Qed.


(** ** A deployment: user 7 is online with a phone at gateway "g1" *)

Import MapServer.
Local Open Scope string_scope.
Local Open Scope Z_scope.

Definition sample_phone : UserDevice := mkDevice 7 "phone" "ios" "Phone" "abc" 1 1 1 1.

Definition sample_device_env : PEnv :=
  mkPEnv (mkREnv (sample_env healthy) healthy (fun i => 1000 + Z.of_nat i)) (fun _ _ _ _ => Some 0)
    (fun i => Z.of_nat i).

Definition sample_devices : DeviceServiceImpl :=
  mkDeviceService (mkInternalRpcAuth true "secret" "") (fun s => s) false false false false.

Definition sample_online : gmap string (content * option Z) :=
  <[onlineKey 7 "phone" := (StringContent "g1", None)]>
  (<[connKey 7 "phone" := (StringContent "c1", None)]>
  (<["nebula:token:abc" := (StringContent "7", None)]> ∅)).

Definition sample_device_world : pworld :=
  mkPworld (mkRworld (world_of (set_user_devices [sample_phone] sample_db)) sample_online 0)
    {["g1" := mkGatewayClient true (CircuitBreaker_new 3 1000)]} 0 0 [].

Lemma device_clock i j :
  (i <= j)%nat -> re_time (pe_redis sample_device_env) i <= re_time (pe_redis sample_device_env) j.
Proof. cbn. lia. Qed.

