(* ===== verification/Connections.v ===== *)
(** * The connections of a gateway (common/gateway/ConnectionManager.cpp)

    The tables of the manager as finite maps; a connection object is named by
    a number.  Every operation runs under the manager's lock and is one
    function.  The invariant says that a device is mapped to a connection that
    is bound to that user and device. *)

From S2P Require Import Prelude Words Text.

Record ConnectionContext := mkContextOf {
  cc_connection_id : string;
  cc_user_id : Z;
  cc_token : string;
  cc_device_id : string;
  cc_platform : string;
  cc_authenticated : bool;
  cc_websocket : bool;
  cc_connected_at_ms : Z;
  cc_last_active_ms : Z;
  cc_peer_addr : string
}.

Module ConnectionManager.

Record ConnectionManager := mkManager {
  cm_gateway_id : string;
  cm_connections : gmap string Z;
  cm_contexts : gmap string ConnectionContext;
  cm_devices : gmap Z (gmap string string);   (** [user_device_to_connection_] *)
  cm_next_conn_id : Z
}.

Definition ConnectionManager_new (gateway_id : string) : ConnectionManager :=
  mkManager gateway_id ∅ ∅ ∅ 1.

Definition set_contexts (c : gmap string ConnectionContext) (m : ConnectionManager) : ConnectionManager :=
  mkManager (cm_gateway_id m) (cm_connections m) c (cm_devices m) (cm_next_conn_id m).

Definition connection_name (gateway_id : string) (n : Z) : string := gateway_id +:+ "-conn-" +:+ to_string n.

(** The id, and the manager with the next number, an [uint64_t]. *)
Definition generateConnectionId (m : ConnectionManager) : string * ConnectionManager :=
  (connection_name (cm_gateway_id m) (cm_next_conn_id m),
   mkManager (cm_gateway_id m) (cm_connections m) (cm_contexts m) (cm_devices m)
     (u64 (cm_next_conn_id m + 1))).

Definition addConnection (now conn : Z) (peer_addr : string) (m : ConnectionManager)
  : string * ConnectionManager :=
  let (id, m) := generateConnectionId m in
  let ctx := mkContextOf id 0 EmptyString EmptyString EmptyString false false now now peer_addr in
  (id, mkManager (cm_gateway_id m) (<[id := conn]> (cm_connections m)) (<[id := ctx]> (cm_contexts m))
         (cm_devices m) (cm_next_conn_id m)).

(** The device's entry is erased when it names this connection, and the
    user's map when it is empty. *)
Definition forget_device (user_id : Z) (device_id connection_id : string)
    (devices : gmap Z (gmap string string)) : gmap Z (gmap string string) :=
  match devices !! user_id with
  | None => devices
  | Some device_map =>
      let device_map' := if bool_decide (device_map !! device_id = Some connection_id)
                         then delete device_id device_map else device_map in
      if bool_decide (device_map' = ∅) then delete user_id devices
      else <[user_id := device_map']> devices
  end.

Definition removeConnection (connection_id : string) (m : ConnectionManager) : ConnectionManager :=
  let devices := match cm_contexts m !! connection_id with
                 | Some ctx => if negb (cc_user_id ctx =? 0)
                               then forget_device (cc_user_id ctx) (cc_device_id ctx) connection_id (cm_devices m)
                               else cm_devices m
                 | None => cm_devices m
                 end in
  mkManager (cm_gateway_id m) (delete connection_id (cm_connections m))
    (delete connection_id (cm_contexts m)) devices (cm_next_conn_id m).

Definition bind_context (now user_id : Z) (token device_id platform : string) (ctx : ConnectionContext)
  : ConnectionContext :=
  mkContextOf (cc_connection_id ctx) user_id token device_id platform true (cc_websocket ctx)
    (cc_connected_at_ms ctx) now (cc_peer_addr ctx).

(** Whether the user was bound, the connection that has to be closed because
    the device moved here, and the manager. *)
Definition bindUser (now : Z) (connection_id : string) (user_id : Z) (token device_id platform : string)
    (m : ConnectionManager) : bool * option Z * ConnectionManager :=
  if (user_id =? 0) || bool_decide (device_id = EmptyString) then (false, None, m)
  else
  match cm_contexts m !! connection_id with
  | None => (false, None, m)
  | Some ctx =>
      let devices := if negb (cc_user_id ctx =? 0) && negb (bool_decide (cc_device_id ctx = EmptyString))
                     then forget_device (cc_user_id ctx) (cc_device_id ctx) connection_id (cm_devices m)
                     else cm_devices m in
      let device_map := default ∅ (devices !! user_id) in
      let replaced := match device_map !! device_id with
                      | Some existing => if negb (bool_decide (existing = connection_id))
                                         then cm_connections m !! existing else None
                      | None => None
                      end in
      (true, replaced,
       mkManager (cm_gateway_id m) (cm_connections m)
         (<[connection_id := bind_context now user_id token device_id platform ctx]> (cm_contexts m))
         (<[user_id := <[device_id := connection_id]> device_map]> devices) (cm_next_conn_id m))
  end.

Definition markWebSocket (connection_id : string) (websocket : bool) (m : ConnectionManager)
  : bool * ConnectionManager :=
  match cm_contexts m !! connection_id with
  | None => (false, m)
  | Some ctx =>
      (true, set_contexts (<[connection_id :=
               mkContextOf (cc_connection_id ctx) (cc_user_id ctx) (cc_token ctx) (cc_device_id ctx)
                 (cc_platform ctx) (cc_authenticated ctx) websocket (cc_connected_at_ms ctx)
                 (cc_last_active_ms ctx) (cc_peer_addr ctx)]> (cm_contexts m)) m)
  end.

Definition getContext (connection_id : string) (m : ConnectionManager) : option ConnectionContext :=
  cm_contexts m !! connection_id.

Definition getConnection (connection_id : string) (m : ConnectionManager) : option Z :=
  cm_connections m !! connection_id.

(** The entries of the user's map that [f] finds something for. *)
Definition of_user {A} (f : string -> option A) (user_id : Z) (m : ConnectionManager) : list A :=
  match cm_devices m !! user_id with
  | None => []
  | Some device_map => omap (fun item => f item.2) (map_to_list device_map)
  end.

Definition getConnectionsByUserId (user_id : Z) (m : ConnectionManager) : list Z :=
  of_user (fun id => cm_connections m !! id) user_id m.

Definition getContextsByUserId (user_id : Z) (m : ConnectionManager) : list ConnectionContext :=
  of_user (fun id => cm_contexts m !! id) user_id m.

Definition updateActiveTime (now : Z) (connection_id : string) (m : ConnectionManager)
  : bool * ConnectionManager :=
  match cm_contexts m !! connection_id with
  | None => (false, m)
  | Some ctx =>
      (true, set_contexts (<[connection_id :=
               mkContextOf (cc_connection_id ctx) (cc_user_id ctx) (cc_token ctx) (cc_device_id ctx)
                 (cc_platform ctx) (cc_authenticated ctx) (cc_websocket ctx) (cc_connected_at_ms ctx)
                 now (cc_peer_addr ctx)]> (cm_contexts m)) m)
  end.

Definition getTimeoutConnections (now_ms timeout_ms : Z) (m : ConnectionManager) : list string :=
  omap (fun item => if timeout_ms <? now_ms - cc_last_active_ms item.2 then Some item.1 else None)
    (map_to_list (cm_contexts m)).

Definition connectionCount (m : ConnectionManager) : Z := Z.of_nat (size (cm_connections m)).
Definition onlineUserCount (m : ConnectionManager) : Z := Z.of_nat (size (cm_devices m)).

(** ** The invariant *)

(** The connection a device of a user is mapped to. *)
Definition device_connection (user_id : Z) (device_id : string) (m : ConnectionManager) : option string :=
  device_map ← cm_devices m !! user_id; device_map !! device_id.

Record manager_ok (m : ConnectionManager) : Prop := {
  ok_next : 1 <= cm_next_conn_id m;
  ok_ids id ctx : cm_contexts m !! id = Some ctx ->
    cc_connection_id ctx = id /\ is_Some (cm_connections m !! id) /\
    exists n, id = connection_name (cm_gateway_id m) n /\ 1 <= n < cm_next_conn_id m;
  ok_connections id conn : cm_connections m !! id = Some conn -> is_Some (cm_contexts m !! id);
  ok_bound id ctx : cm_contexts m !! id = Some ctx ->
    if cc_authenticated ctx then cc_user_id ctx <> 0 /\ cc_device_id ctx <> EmptyString
    else cc_user_id ctx = 0;
  ok_devices user_id device_id id : device_connection user_id device_id m = Some id ->
    exists ctx, cm_contexts m !! id = Some ctx /\ cc_authenticated ctx = true /\
      cc_user_id ctx = user_id /\ cc_device_id ctx = device_id;
  ok_users user_id device_map : cm_devices m !! user_id = Some device_map -> device_map <> ∅
}.

Lemma connection_name_inj g n n' : 0 <= n -> 0 <= n' -> connection_name g n = connection_name g n' -> n = n'.
Proof.
  unfold connection_name. intros Hn Hn' H%(inj (String.append g))%(inj (String.append "-conn-")).
  by apply to_string_inj.
Qed.

(** What is left after forgetting a device. *)
Lemma forget_device_lookup u d c devices u' d' :
  (forall u m, devices !! u = Some m -> m <> ∅) ->
  (m ← forget_device u d c devices !! u'; m !! d') =
  (let old := m ← devices !! u'; m !! d' in
   if bool_decide (u' = u /\ d' = d /\ old = Some c) then None else old).
Proof.
  intros Hne. cbv zeta. unfold forget_device. destruct (devices !! u) as [m|] eqn:Hu; cycle 1.
  { rewrite bool_decide_false; [done|]. intros (->&_&Hc). by rewrite Hu in Hc. }
  destruct (decide (u' = u)) as [->|Hn]; cycle 1.
  { rewrite (bool_decide_false (u' = u /\ _ /\ _)) by (by intros [? _]). case_bool_decide as He.
    - by rewrite lookup_delete_ne.
    - by rewrite lookup_insert_ne. }
  set (m' := if bool_decide (m !! d = Some c) then _ else _). rewrite Hu. cbn.
  assert (m' !! d' = if bool_decide (d' = d /\ m !! d' = Some c) then None else m !! d') as Hm'.
  { unfold m'. case_bool_decide as Hc.
    - destruct (decide (d' = d)) as [->|Hd]; [by rewrite lookup_delete_eq, bool_decide_true|].
      rewrite lookup_delete_ne by done. by rewrite bool_decide_false by (by intros [? _]).
    - by rewrite bool_decide_false by (by intros [-> ?]). }
  rewrite (bool_decide_ext (u = u /\ d' = d /\ m !! d' = Some c) (d' = d /\ m !! d' = Some c))
    by (split; [intros (_&?&?); done|intros [? ?]; done]).
  rewrite <- Hm'.
  destruct (decide (m' = ∅)) as [He|He].
  - by rewrite bool_decide_true, lookup_delete_eq, He, lookup_empty by done.
  - by rewrite bool_decide_false, lookup_insert_eq by done.
Qed.

Lemma forget_device_users u d c devices u' m' :
  (forall u m, devices !! u = Some m -> m <> ∅) ->
  forget_device u d c devices !! u' = Some m' -> m' <> ∅.
Proof.
  intros Hne. unfold forget_device. destruct (devices !! u) as [m|] eqn:Hu; [|apply Hne].
  set (m0 := if bool_decide (m !! d = Some c) then _ else _). case_bool_decide as He; destruct (decide (u' = u)) as [->|Hn].
  - by rewrite lookup_delete_eq.
  - rewrite lookup_delete_ne by done. apply Hne.
  - rewrite lookup_insert_eq. by intros [= <-].
  - rewrite lookup_insert_ne by done. apply Hne.
Qed.

(** ** Every operation keeps it *)

Lemma new_ok gateway_id : manager_ok (ConnectionManager_new gateway_id).
Proof. split; cbn; try done. Qed.

Lemma addConnection_ok now conn peer m :
  manager_ok m -> cm_next_conn_id m < 18446744073709551615 -> manager_ok (snd (addConnection now conn peer m)).
Proof.
  intros [H1 H2 H3 H4 H5 H6] Hn. unfold addConnection, generateConnectionId.
  set (id := connection_name _ _). cbn.
  assert (u64 (cm_next_conn_id m + 1) = cm_next_conn_id m + 1) as Hu by (unfold u64; apply Z.mod_small; lia).
  assert (cm_contexts m !! id = None) as Hfresh.
  { destruct (cm_contexts m !! id) as [ctx|] eqn:Hc; [|done].
    destruct (H2 _ _ Hc) as (_&_&n&He&Hb). apply connection_name_inj in He; lia. }
  split; cbn; rewrite ?Hu.
  - lia.
  - intros i ctx [[<- <-]|[Hne Hc]]%lookup_insert_Some.
    + split; [done|]. rewrite lookup_insert_eq. split; [done|]. eexists. split; [done|lia].
    + rewrite lookup_insert_ne by done. destruct (H2 _ _ Hc) as (?&?&n&?&?). split_and!; [done..|].
      exists n. split; [done|lia].
  - intros i c [[<- <-]|[Hne Hc]]%lookup_insert_Some; [by rewrite lookup_insert_eq|].
    rewrite lookup_insert_ne by done. eauto.
  - intros i ctx [[<- <-]|[Hne Hc]]%lookup_insert_Some; [done|by apply (H4 i)].
  - intros u d i Hd. destruct (H5 u d i Hd) as (ctx&Hc&Hr). exists ctx. split; [|done].
    rewrite lookup_insert_ne by congruence. done.
  - done.
Qed.

(** An update of a context that leaves the binding alone. *)
Lemma touch_ok id ctx ctx' m :
  manager_ok m -> cm_contexts m !! id = Some ctx ->
  cc_connection_id ctx' = cc_connection_id ctx -> cc_user_id ctx' = cc_user_id ctx ->
  cc_device_id ctx' = cc_device_id ctx -> cc_authenticated ctx' = cc_authenticated ctx ->
  manager_ok (set_contexts (<[id := ctx']> (cm_contexts m)) m).
Proof.
  intros [H1 H2 H3 H4 H5 H6] Hc Ei Eu Ed Ea. split; cbn; [done|..|done].
  - intros i x [[<- <-]|[Hne Hx]]%lookup_insert_Some; [rewrite Ei|]; eauto.
  - intros i c Hi. destruct (decide (id = i)) as [<-|]; [by rewrite lookup_insert_eq|].
    rewrite lookup_insert_ne by done. eauto.
  - intros i x [[<- <-]|[Hne Hx]]%lookup_insert_Some; [rewrite Ea, Eu, Ed; by apply (H4 id)|by apply (H4 i)].
  - intros u d i Hd. destruct (H5 u d i Hd) as (x&Hx&Ha&Hu&Hv). destruct (decide (id = i)) as [<-|].
    + exists ctx'. rewrite lookup_insert_eq. split; [done|]. simplify_eq. by rewrite Ea, Eu, Ed.
    + exists x. by rewrite lookup_insert_ne.
Qed.

Lemma markWebSocket_ok id b m : manager_ok m -> manager_ok (snd (markWebSocket id b m)).
Proof. intros H. unfold markWebSocket. destruct (_ !! id) as [ctx|] eqn:Hc; [|done]. by eapply touch_ok. Qed.

Lemma updateActiveTime_ok now id m : manager_ok m -> manager_ok (snd (updateActiveTime now id m)).
Proof. intros H. unfold updateActiveTime. destruct (_ !! id) as [ctx|] eqn:Hc; [|done]. by eapply touch_ok. Qed.

Lemma removeConnection_ok id m : manager_ok m -> manager_ok (removeConnection id m).
Proof.
  intros [H1 H2 H3 H4 H5 H6]. unfold removeConnection. set (devices := match cm_contexts m !! id with Some _ => _ | None => _ end).
  assert (forall u d i, (x ← devices !! u; x !! d) = Some i -> i <> id /\ device_connection u d m = Some i) as Hd.
  { intros u d i. unfold devices. destruct (cm_contexts m !! id) as [ctx|] eqn:Hc; cycle 1.
    { intros Hi. split; [|done]. intros ->. destruct (H5 _ _ _ Hi) as (?&?&_). congruence. }
    destruct (Z.eqb_spec (cc_user_id ctx) 0) as [Hz|Hz]; cbn.
    - intros Hi. split; [|done]. intros ->. destruct (H5 _ _ _ Hi) as (x&Hx&Ha&Hu&_). simplify_eq.
      specialize (H4 _ _ Hc). rewrite Ha in H4. by destruct H4.
    - rewrite forget_device_lookup by done. cbv zeta. case_bool_decide as Hf; [done|]. intros Hi.
      split; [|done]. intros ->. apply Hf. destruct (H5 _ _ _ Hi) as (x&Hx&_&Hu&Hv). by simplify_eq. }
  split; cbn; [done|..].
  - intros i ctx [Hne Hc]%lookup_delete_Some. rewrite lookup_delete_ne by done. eauto.
  - intros i c [Hne Hc]%lookup_delete_Some. rewrite lookup_delete_ne by done. eauto.
  - intros i ctx [Hne Hc]%lookup_delete_Some. by apply (H4 i).
  - intros u d i [Hne Hi]%Hd. rewrite lookup_delete_ne by done. eauto.
  - intros u x. unfold devices. destruct (cm_contexts m !! id) as [ctx|]; [|eauto].
    destruct (negb _); [|eauto]. apply forget_device_users. eauto.
Qed.

Lemma bindUser_ok now id u token d platform m ok replaced m' :
  bindUser now id u token d platform m = (ok, replaced, m') -> manager_ok m -> manager_ok m'.
Proof.
  unfold bindUser. destruct (_ || _) eqn:Hargs; [by intros [= _ _ <-]|].
  apply orb_false_elim in Hargs as [Hu%Z.eqb_neq Hd%bool_decide_eq_false].
  destruct (cm_contexts m !! id) as [ctx|] eqn:Hc; [|by intros [= _ _ <-]].
  intros [= _ _ <-] [H1 H2 H3 H4 H5 H6]. set (devices := if _ && _ then _ else _).
  assert ((forall u x, devices !! u = Some x -> x <> ∅) /\
          forall u d i, (x ← devices !! u; x !! d) = Some i -> i <> id /\ device_connection u d m = Some i)
    as [Hn Ho].
  { assert (cc_authenticated ctx = true -> cc_user_id ctx <> 0 /\ cc_device_id ctx <> EmptyString) as Ha
      by (intros Ha; specialize (H4 _ _ Hc); by rewrite Ha in H4).
    unfold devices. destruct (_ && _) eqn:Hb; split.
    - intros v x. apply forget_device_users. eauto.
    - intros v e i. clear Hb. rewrite forget_device_lookup by done. cbv zeta. case_bool_decide as Hf; [done|].
      intros Hi. split; [|done]. intros ->. apply Hf. destruct (H5 _ _ _ Hi) as (x&Hx&_&Hv&He). by simplify_eq.
    - eauto.
    - intros v e i Hi. split; [|done]. intros ->. destruct (H5 _ _ _ Hi) as (x&Hx&Hax&_). simplify_eq.
      destruct (Ha Hax) as [Hz He]. apply Z.eqb_neq in Hz. by rewrite Hz, (bool_decide_false (cc_device_id ctx = _) He) in Hb. }
  split; cbn; [done|..].
  - intros i x [[<- <-]|[Hne Hx]]%lookup_insert_Some; [|eauto]. exact (H2 id ctx Hc).
  - intros i c Hi. destruct (decide (id = i)) as [<-|]; [by rewrite lookup_insert_eq|].
    rewrite lookup_insert_ne by done. eauto.
  - intros i x [[<- <-]|[Hne Hx]]%lookup_insert_Some; [done|by apply (H4 i)].
  - intros v e i. unfold device_connection. cbn. destruct (decide (u = v)) as [<-|Hv]; cycle 1.
    { rewrite lookup_insert_ne by done. intros [Hne Hi]%Ho. rewrite lookup_insert_ne by done. eauto. }
    rewrite lookup_insert_eq. cbn. destruct (decide (d = e)) as [<-|He].
    + rewrite lookup_insert_eq. intros [= <-]. eexists. by rewrite lookup_insert_eq.
    + rewrite lookup_insert_ne by done. intros Hi.
      assert ((x ← devices !! u; x !! e) = Some i) as [Hne Hi']%Ho.
      { destruct (devices !! u) as [x|]; [done|]. cbn in Hi. by rewrite lookup_empty in Hi. }
      rewrite lookup_insert_ne by done. eauto.
  - intros v x [[<- <-]|[Hne Hx]]%lookup_insert_Some; [apply insert_non_empty|eauto].
Qed.

(** Who a connection is bound to, before and after. *)
Lemma bindUser_bound now id u token d platform m ok replaced m' i ctx :
  bindUser now id u token d platform m = (ok, replaced, m') ->
  cm_contexts m' !! i = Some ctx -> cc_authenticated ctx = true ->
  cm_contexts m !! i = Some ctx \/ (ok = true /\ i = id /\ cc_user_id ctx = u).
Proof.
  unfold bindUser. destruct (_ || _); [intros [= _ _ <-]; auto|].
  destruct (cm_contexts m !! id) as [ctx0|]; [|intros [= _ _ <-]; auto].
  intros [= <- _ <-]. cbn. intros [[<- <-]|[Hne Hx]]%lookup_insert_Some; auto.
Qed.

End ConnectionManager.
Export ConnectionManager.
