(* ===== verification/Handshake.v ===== *)
(** * The WebSocket handshake (common/websocket/WebSocketHandshake.cpp)

    The request is text; SHA-1 and base64 of OpenSSL are parameters. *)

From S2P Require Import Prelude Words Text MessageId Db MessageStore Passwords.

Local Open Scope Z_scope.

Record WebSocketHandshakeRequest := mkHandshakeRequest {
  hq_method : string; hq_path : string; hq_headers : gmap string string
}.

Record WebSocketHandshakeResult := mkHandshakeResult {
  hs_ok : bool; hs_response : string; hs_error : string; hs_request : WebSocketHandshakeRequest
}.

Module WebSocketHandshake.

Definition kWebSocketGuid : string := "258EAFA5-E914-47DA-95CA-C5AB0DC85B11".

Definition CR : ascii := ascii_of_N 13.
Definition LF : ascii := ascii_of_N 10.
Definition crlf : string := String CR (String LF EmptyString).

Definition trim (input : string) : string := rtrim (skip_spaces input).

Definition lower (value : string) : string := string_map tolower value.

(** What [stream >> word] reads, and the rest. *)
Fixpoint word (s : string) : string * string :=
  match s with
  | EmptyString => (EmptyString, EmptyString)
  | String c s' => if isspace c then (EmptyString, s)
                   else let (w, rest) := word s' in (String c w, rest)
  end.

Definition containsToken (value token : string) : bool :=
  existsb (fun part => bool_decide (lower (trim part) = lower token)) (getlines "," value).

Definition header (request : WebSocketHandshakeRequest) (name : string) : string :=
  default EmptyString (hq_headers request !! lower name).

Fixpoint drop_cr (line : string) : string :=
  match line with
  | EmptyString => EmptyString
  | String c EmptyString => if bool_decide (c = CR) then EmptyString else line
  | String c rest => String c (drop_cr rest)
  end.

(** The header lines up to the first empty one; the last of several values
    stays. *)
Fixpoint read_headers (lines : list string) (headers : gmap string string) : gmap string string :=
  match lines with
  | [] => headers
  | line :: lines =>
      let line := drop_cr line in
      if bool_decide (line = EmptyString) then headers
      else match cut ":" line with
           | None => read_headers lines headers
           | Some (name, value) => read_headers lines (<[lower (trim name) := trim value]> headers)
           end
  end.

(** The request as far as it was read, and the error if it is none. *)
Definition parseRequest (http_request : string) : WebSocketHandshakeRequest * option string :=
  match getlines LF http_request with
  | [] => (mkHandshakeRequest EmptyString EmptyString ∅, Some "empty request"%string)
  | line :: lines =>
      let line := drop_cr line in
      let (method, rest) := word (skip_spaces line) in
      let (path, rest) := word (skip_spaces rest) in
      let (version, _) := word (skip_spaces rest) in
      if bool_decide (method = EmptyString) || bool_decide (path = EmptyString) ||
         negb (bool_decide (version = "HTTP/1.1"%string))
      then (mkHandshakeRequest method path ∅, Some "invalid request line"%string)
      else (mkHandshakeRequest method path (read_headers lines ∅), None)
  end.

Definition badRequestResponse (reason : string) : string :=
  let body := "Bad Request: " +:+ reason +:+ String LF EmptyString in
  "HTTP/1.1 400 Bad Request" +:+ crlf +:+ "Connection: close" +:+ crlf +:+
  "Content-Type: text/plain" +:+ crlf +:+
  "Content-Length: " +:+ to_string (Z.of_nat (String.length body)) +:+ crlf +:+ crlf +:+ body.

Section OpenSsl.
(** SHA-1, and [EVP_EncodeBlock]; [None] when it reports an error. *)
Context (SHA1 : string -> string) (EVP_EncodeBlock : string -> option string).

Definition base64Encode (data : string) : string := default EmptyString (EVP_EncodeBlock data).

Definition computeAcceptKey (sec_websocket_key : string) : string :=
  base64Encode (SHA1 (sec_websocket_key +:+ kWebSocketGuid)).

Definition buildServerResponse (http_request : string) : WebSocketHandshakeResult :=
  let (request, error) := parseRequest http_request in
  match error with
  | Some error => mkHandshakeResult false (badRequestResponse error) error request
  | None =>
      let upgrade := lower (header request "Upgrade") in
      let connection := header request "Connection" in
      let version := trim (header request "Sec-WebSocket-Version") in
      let key := trim (header request "Sec-WebSocket-Key") in
      let error :=
        if negb (bool_decide (hq_method request = "GET"%string)) then "method must be GET"%string
        else if negb (bool_decide (upgrade = "websocket"%string)) then "Upgrade must be websocket"%string
        else if negb (containsToken connection "Upgrade") then "Connection must contain Upgrade"%string
        else if negb (bool_decide (version = "13"%string)) then "Sec-WebSocket-Version must be 13"%string
        else if bool_decide (key = EmptyString) then "Sec-WebSocket-Key is required"%string
        else EmptyString in
      if negb (bool_decide (error = EmptyString))
      then mkHandshakeResult false (badRequestResponse error) error request
      else
        mkHandshakeResult true
          ("HTTP/1.1 101 Switching Protocols" +:+ crlf +:+ "Upgrade: websocket" +:+ crlf +:+
           "Connection: Upgrade" +:+ crlf +:+ "Sec-WebSocket-Accept: " +:+ computeAcceptKey key +:+
           crlf +:+ crlf) EmptyString request
  end.

End OpenSsl.
End WebSocketHandshake.
Export WebSocketHandshake.
