(* ===== verification/Gateway.v ===== *)
(** * The gateway: packets of clients, calls to the backends

    common/gateway/GatewayOnlineManager.cpp and GatewayRouter.cpp, with the
    hand-over of work between threads of common/async/RpcExecutor.h and
    common/thread/ThreadPool.h: a handler submits a task, a worker thread runs
    it and queues a callback in the event loop, the loop runs the callback.
    Each of the three is one function here; what may happen between them is
    left to the step relation.

    Protocol buffers, the backends' answers, the decisions of the rate
    limiters and the outcomes of Redis are parameters.  Gauges, log lines and
    trace spans are left out. *)

From S2P Require Import Prelude Words Text NetBuffer Protocol WebSocket MessageId Rpc Db MessageStore.
From S2P Require Import Directory MessageService RelationService Breaker Redis Push UserService Connections.

Record ResumeSessionRequest := mkResume {
  rs_request_id : string; rs_token : string; rs_device_id : string; rs_platform : string
}.
Record ResumeSessionResponse := mkResumeResponse { rsr_response : CommonResponse; rsr_user_id : Z }.

Record RegisterResponse := mkRegisterResponse { rg_response : CommonResponse; rg_user_id : Z }.

(** [ParseFromString] and [SerializeToString] for the bodies of packets.  A
    parse that fails may leave fields set: [ResumeSession] reads one. *)
Record Bodies := mkBodies {
  parse_register : list byte -> option RegisterRequest;
  parse_login : list byte -> option LoginRequest;
  parse_resume : list byte -> bool * ResumeSessionRequest;
  parse_single : list byte -> option SendSingleMessageRequest;
  parse_group : list byte -> option SendGroupMessageRequest;
  parse_ack : list byte -> option MessageRequest;
  parse_pull : list byte -> option PullRequest;
  write_common : CommonResponse -> list byte;
  write_register : RegisterResponse -> list byte;
  write_login : LoginResponse -> list byte;
  write_resume : ResumeSessionResponse -> list byte;
  write_send : SendResponse -> list byte;
  write_ack : CommonResponse -> list byte;
  write_pull : PullResponse -> list byte;
  write_message : MessageData -> list byte
}.

(** ** Work handed to other threads *)

(** A submitted call: the connection, the sequence id of the packet, and what
    the worker needs. *)
Inductive task :=
| TRegister (connection_id : string) (sequence_id : Z) (req : RegisterRequest)
| TLogin (connection_id : string) (sequence_id : Z) (req : LoginRequest) (device_id : string)
| TResume (connection_id : string) (sequence_id : Z) (req : ResumeSessionRequest)
| TSingle (connection_id : string) (sequence_id : Z) (req : SendSingleMessageRequest)
| TGroup (connection_id : string) (sequence_id : Z) (req : SendGroupMessageRequest)
| TAck (connection_id : string) (sequence_id : Z) (req : MessageRequest)
| TPull (connection_id : string) (sequence_id : Z) (req : PullRequest).

Record LoginResult := mkLoginResult { lt_resp : LoginResponse; lt_rpc_ok : bool; lt_online_ok : bool }.
Record ResumeResult := mkResumeResult {
  rt_resp : ResumeSessionResponse; rt_rpc_ok : bool; rt_online_ok : bool
}.

(** A callback in an event loop; [None] when the executor refused the task. *)
Inductive callback :=
| CbRegister (connection_id : string) (sequence_id : Z) (request_id : string) (r : option RegisterResponse)
| CbLogin (connection_id : string) (sequence_id : Z) (req : LoginRequest) (device_id : string)
    (r : option LoginResult)
| CbResume (connection_id : string) (sequence_id : Z) (req : ResumeSessionRequest) (r : option ResumeResult)
| CbSend (connection_id : string) (sequence_id : Z) (request_id : string) (t : MessageType)
    (r : option SendResponse)
| CbAck (connection_id : string) (sequence_id : Z) (request_id : string) (r : option CommonResponse)
| CbPull (connection_id : string) (sequence_id : Z) (request_id : string) (r : option PullResponse).

Inductive online_task :=
| RefreshOnline (user_id : Z) (device_id connection_id : string)
| SetOffline (user_id : Z) (device_id connection_id : string).

(** A call a worker has made, with the connection it was made for. *)
Inductive backend_call :=
| BRegister (connection_id : string) (req : RegisterRequest)
| BLogin (connection_id : string) (req : LoginRequest) (reply : string + LoginResponse)
| BValidate (connection_id : string) (token : string) (reply : string + ValidateTokenResponse)
| BSingle (connection_id : string) (req : SendSingleMessageRequest)
| BGroup (connection_id : string) (req : SendGroupMessageRequest)
| BAck (connection_id : string) (req : MessageRequest)
| BPull (connection_id : string) (req : PullRequest).

Inductive socket_state := CONNECTED | DISCONNECTING | DISCONNECTED.
#[global] Instance socket_state_eq_dec : EqDecision socket_state. Proof. solve_decision. Defined.

(** ** The gateway's state *)

Section State.
Context `{RedisServer}.

Record gworld := mkGworld {
  gw_node : rworld;
  gw_manager : ConnectionManager;
  gw_sockets : gmap Z socket_state;
  gw_ids : gmap Z string;              (** [conn_name_to_id_] *)
  gw_websockets : gmap Z bool;         (** [websocket_connections_] *)
  gw_breakers : gmap string CircuitBreaker;
  gw_tasks : list task;                (** the executor's queue *)
  gw_callbacks : list callback;        (** queued in the event loops *)
  gw_online : list online_task;        (** the online worker's queue *)
  gw_steady : nat;                     (** readings of the steady clock so far *)
  gw_limits : nat;                     (** decisions of the rate limiters so far *)
  gw_rpcs : nat;                       (** calls to the backends so far *)
  gw_calls : list backend_call;        (** latest first *)
  gw_sent : list (Z * list byte)       (** what was written to connections, latest first *)
}.

Definition G (A : Type) : Type := SM gworld A.

Definition set_gnode (r : rworld) (g : gworld) : gworld :=
  mkGworld r (gw_manager g) (gw_sockets g) (gw_ids g) (gw_websockets g) (gw_breakers g) (gw_tasks g)
    (gw_callbacks g) (gw_online g) (gw_steady g) (gw_limits g) (gw_rpcs g) (gw_calls g) (gw_sent g).
Definition set_manager (m : ConnectionManager) (g : gworld) : gworld :=
  mkGworld (gw_node g) m (gw_sockets g) (gw_ids g) (gw_websockets g) (gw_breakers g) (gw_tasks g)
    (gw_callbacks g) (gw_online g) (gw_steady g) (gw_limits g) (gw_rpcs g) (gw_calls g) (gw_sent g).
Definition set_sockets (s : gmap Z socket_state) (g : gworld) : gworld :=
  mkGworld (gw_node g) (gw_manager g) s (gw_ids g) (gw_websockets g) (gw_breakers g) (gw_tasks g)
    (gw_callbacks g) (gw_online g) (gw_steady g) (gw_limits g) (gw_rpcs g) (gw_calls g) (gw_sent g).
Definition set_ids (i : gmap Z string) (w : gmap Z bool) (g : gworld) : gworld :=
  mkGworld (gw_node g) (gw_manager g) (gw_sockets g) i w (gw_breakers g) (gw_tasks g)
    (gw_callbacks g) (gw_online g) (gw_steady g) (gw_limits g) (gw_rpcs g) (gw_calls g) (gw_sent g).
Definition set_gbreakers (b : gmap string CircuitBreaker) (steady : nat) (g : gworld) : gworld :=
  mkGworld (gw_node g) (gw_manager g) (gw_sockets g) (gw_ids g) (gw_websockets g) b (gw_tasks g)
    (gw_callbacks g) (gw_online g) steady (gw_limits g) (gw_rpcs g) (gw_calls g) (gw_sent g).
Definition set_work (t : list task) (c : list callback) (o : list online_task) (g : gworld) : gworld :=
  mkGworld (gw_node g) (gw_manager g) (gw_sockets g) (gw_ids g) (gw_websockets g) (gw_breakers g) t
    c o (gw_steady g) (gw_limits g) (gw_rpcs g) (gw_calls g) (gw_sent g).
Definition set_limits (n : nat) (g : gworld) : gworld :=
  mkGworld (gw_node g) (gw_manager g) (gw_sockets g) (gw_ids g) (gw_websockets g) (gw_breakers g) (gw_tasks g)
    (gw_callbacks g) (gw_online g) (gw_steady g) n (gw_rpcs g) (gw_calls g) (gw_sent g).
Definition set_calls (c : list backend_call) (g : gworld) : gworld :=
  mkGworld (gw_node g) (gw_manager g) (gw_sockets g) (gw_ids g) (gw_websockets g) (gw_breakers g) (gw_tasks g)
    (gw_callbacks g) (gw_online g) (gw_steady g) (gw_limits g) (S (gw_rpcs g)) c (gw_sent g).
Definition set_sent (s : list (Z * list byte)) (g : gworld) : gworld :=
  mkGworld (gw_node g) (gw_manager g) (gw_sockets g) (gw_ids g) (gw_websockets g) (gw_breakers g) (gw_tasks g)
    (gw_callbacks g) (gw_online g) (gw_steady g) (gw_limits g) (gw_rpcs g) (gw_calls g) s.

Definition gnode {A} (m : R A) : G A := zoom gw_node set_gnode m.
Definition gdb {A} (m : M A) : G A := gnode (db m).

End State.

#[global] Arguments gworld {_}.
#[global] Arguments G {_} _.

(** What is outside: the [n]-th decision of a rate limiter, the [n]-th answer
    of a backend ([inl]: the call failed, with its message), the steady clock,
    the bodies, and the sizes of the queues. *)
Record GEnv := mkGEnv {
  ge_redis : REnv;
  ge_steady : nat -> Z;
  ge_limit : nat -> bool;
  ge_register : nat -> RegisterRequest -> string + RegisterResponse;
  ge_login : nat -> LoginRequest -> string + LoginResponse;
  ge_validate : nat -> ValidateTokenRequest -> string + ValidateTokenResponse;
  ge_single : nat -> SendSingleMessageRequest -> string + SendResponse;
  ge_group : nat -> SendGroupMessageRequest -> string + SendResponse;
  ge_ack : nat -> MessageRequest -> string + CommonResponse;
  ge_pull : nat -> PullRequest -> string + PullResponse;
  ge_bodies : Bodies;
  ge_executor : option nat;   (** the executor's [max_queue_size]; [None] when there is none *)
  ge_auth : InternalRpcAuth;
  ge_sha256Hex : string -> string;
  ge_sha1 : string -> string;
  ge_base64 : string -> option string;
  ge_heartbeat_timeout_ms : Z
}.

Definition ge_db (E : GEnv) : Env := re_db (ge_redis E).

Module GatewayOnlineManager.

Record GatewayOnlineManager := mkOnlineManager {
  om_no_redis : bool; om_gateway_id : string; om_online_ttl_seconds : Z
}.

Definition GatewayOnlineManager_new (no_redis : bool) (gateway_id : string) (ttl : Z) : GatewayOnlineManager :=
  mkOnlineManager no_redis gateway_id (if 0 <? ttl then ttl else 60).

Record GatewayOnlineLocation := mkLocation {
  gl_gateway_id : string; gl_connection_id : string; gl_device_id : string
}.

Section Manager.
Context `{RedisServer} (E : REnv) (o : GatewayOnlineManager).

Definition unusable (user_id : Z) (device_id connection_id : string) : bool :=
  om_no_redis o || (user_id =? 0) || bool_decide (device_id = EmptyString) ||
  bool_decide (connection_id = EmptyString).

Definition gom_setOnline (user_id : Z) (device_id connection_id : string) : R bool :=
  if unusable user_id device_id connection_id then mret false
  else
    ok ← (rc_sadd E (devicesKey user_id) device_id &&&
          rc_expire E (devicesKey user_id) (om_online_ttl_seconds o) &&&
          rc_setEx E (onlineKey user_id device_id) (om_online_ttl_seconds o) (om_gateway_id o) &&&
          rc_setEx E (connKey user_id device_id) (om_online_ttl_seconds o) connection_id);
    (if negb ok then
       rc_del E (onlineKey user_id device_id);;
       rc_del E (connKey user_id device_id);;
       rc_srem E (devicesKey user_id) device_id
     else mret true);;
    mret ok.

Definition gom_refreshOnline (user_id : Z) (device_id connection_id : string) : R bool :=
  if unusable user_id device_id connection_id then mret false
  else
    conn ← rc_get E (connKey user_id device_id);
    if negb (bool_decide (conn = Some connection_id)) then mret false
    else rc_sadd E (devicesKey user_id) device_id &&&
         rc_expire E (devicesKey user_id) (om_online_ttl_seconds o) &&&
         rc_expire E (onlineKey user_id device_id) (om_online_ttl_seconds o) &&&
         rc_expire E (connKey user_id device_id) (om_online_ttl_seconds o).

Definition gom_setOffline (user_id : Z) (device_id connection_id : string) : R bool :=
  if unusable user_id device_id connection_id then mret false
  else
    conn ← rc_get E (connKey user_id device_id);
    if match conn with Some c => negb (bool_decide (c = connection_id)) | None => false end
    then mret true
    else
      rc_del E (onlineKey user_id device_id);;
      rc_del E (connKey user_id device_id);;
      rc_srem E (devicesKey user_id) device_id;;
      mret true.

(** The first device that has both keys. *)
Fixpoint first_online (user_id : Z) (devices : list string) : R (option GatewayOnlineLocation) :=
  match devices with
  | [] => mret None
  | device_id :: devices =>
      gateway ← rc_get E (onlineKey user_id device_id);
      connection ← rc_get E (connKey user_id device_id);
      match gateway, connection with
      | Some gateway, Some connection => mret (Some (mkLocation gateway connection device_id))
      | _, _ => rc_srem E (devicesKey user_id) device_id;; first_online user_id devices
      end
  end.

Definition findOnline (user_id : Z) : R (option GatewayOnlineLocation) :=
  if om_no_redis o || (user_id =? 0) then mret None
  else devices ← rc_smembers E (devicesKey user_id); first_online user_id devices.

End Manager.
End GatewayOnlineManager.
Export GatewayOnlineManager.

Section Gateway.
Context `{RedisServer} (E : GEnv) (o : GatewayOnlineManager).
Abbreviation B := (ge_bodies E).

Definition count (name : string) : G unit := gdb (inc_metric name).

(** ** Connections *)

(** [TcpConnection::connected], [send] and [forceClose]: the socket is closed
    later, by its event loop. *)
Definition connected (conn : Z) : G bool :=
  g ← get_state; mret (bool_decide (gw_sockets g !! conn = Some CONNECTED)).

Definition send (conn : Z) (bytes : list byte) : G unit :=
  up ← connected conn;
  if (up : bool) then modify (fun g => set_sent ((conn, bytes) :: gw_sent g) g) else mret tt.

Definition forceClose (conn : Z) : G unit :=
  g ← get_state;
  match gw_sockets g !! conn with
  | Some CONNECTED | Some DISCONNECTING =>
      modify (fun g => set_sockets (<[conn := DISCONNECTING]> (gw_sockets g)) g)
  | _ => mret tt
  end.

Definition is_websocket (conn : Z) : G bool :=
  g ← get_state; mret (default false (gw_websockets g !! conn)).

(** A packet that cannot be encoded ends the thread: [encode] throws. *)
Definition encoded (packet : Packet) : G (list byte) :=
  fun g => match PacketCodec.encode packet with inr bytes => Some (bytes, g) | inl _ => None end.

(** [GatewayServer::sendPacket], which the router's [sendPacket] calls. *)
Definition sendPacket (conn : Z) (packet : Packet) : G unit :=
  websocket ← is_websocket conn;
  bytes ← encoded packet;
  send conn (if (websocket : bool) then WebSocketCodec.encodeBinary bytes else bytes).

Definition makeResponse (t : MessageType) (sequence_id : Z) (body : list byte) : Packet :=
  mkPacket t sequence_id body.

Definition makeErrorResponse (sequence_id : Z) (code : ErrorCode) (message request_id : string) : Packet :=
  makeResponse ERROR_RESP sequence_id (write_common B (mkResponse (error_value code) message request_id)).

Definition makePushMessage (sequence_id : Z) (message : MessageData) : Packet :=
  makeResponse PUSH_MSG sequence_id (write_message B message).

Definition sendError (conn : Z) (sequence_id : Z) (code : ErrorCode) (message request_id : string) : G unit :=
  sendPacket conn (makeErrorResponse sequence_id code message request_id).

(** ** Limits, breakers and queues *)

(** The next decision of a rate limiter. *)
Definition limiter : G bool :=
  fun g => Some (ge_limit E (gw_limits g), set_limits (S (gw_limits g)) g).

Definition breaker_allow (name : string) : G bool :=
  fun g => let (ok, b) := manager_allowRequest name (ge_steady E (gw_steady g)) (gw_breakers g) in
           Some (ok, set_gbreakers b (S (gw_steady g)) g).
Definition breaker_success (name : string) : G unit :=
  modify (fun g => set_gbreakers (manager_recordSuccess name (gw_breakers g)) (gw_steady g) g).
Definition breaker_failure (name : string) : G unit :=
  modify (fun g => set_gbreakers (manager_recordFailure name (ge_steady E (gw_steady g)) (gw_breakers g))
                     (S (gw_steady g)) g).

Definition add_callback (c : callback) : G unit :=
  modify (fun g => set_work (gw_tasks g) (gw_callbacks g ++ [c]) (gw_online g) g).

(** The callback of a task the executor refuses. *)
Definition refused_task (t : task) : callback :=
  match t with
  | TRegister c s q => CbRegister c s (rq_request_id q) None
  | TLogin c s q d => CbLogin c s q d None
  | TResume c s q => CbResume c s q None
  | TSingle c s q => CbSend c s (ss_request_id q) SEND_SINGLE_MSG_RESP None
  | TGroup c s q => CbSend c s (sg_request_id q) SEND_GROUP_MSG_RESP None
  | TAck c s q => CbAck c s (mr_request_id q) None
  | TPull c s q => CbPull c s (pr_request_id q) None
  end.

(** [RpcExecutor::submit]: the callback reports an error when the pool's queue
    is full; 0 stands for no limit. *)
Definition submit (max_queue_size : nat) (t : task) : G unit :=
  g ← get_state;
  if (0 <? max_queue_size)%nat && (max_queue_size <=? length (gw_tasks g))%nat
  then add_callback (refused_task t)
  else modify (fun g => set_work (gw_tasks g ++ [t]) (gw_callbacks g) (gw_online g) g).

(** [submitOnlineTask]: a full queue drops the task. *)
Definition submitOnlineTask (t : online_task) : G unit :=
  g ← get_state;
  if 10000 <=? Z.of_nat (length (gw_online g)) then mret tt
  else modify (fun g => set_work (gw_tasks g) (gw_callbacks g) (gw_online g ++ [t]) g).

Definition refreshOnlineAsync (user_id : Z) (device_id connection_id : string) : G unit :=
  submitOnlineTask (RefreshOnline user_id device_id connection_id).
Definition setOfflineAsync (user_id : Z) (device_id connection_id : string) : G unit :=
  submitOnlineTask (SetOffline user_id device_id connection_id).

(** ** The router *)

Definition update_manager {A} (f : ConnectionManager -> A * ConnectionManager) : G A :=
  fun g => let (a, m) := f (gw_manager g) in Some (a, set_manager m g).

(** The context of a connection that has logged in; an error is sent
    otherwise. *)
Definition requireAuth (conn : Z) (connection_id : string) (sequence_id : Z) : G (option ConnectionContext) :=
  g ← get_state;
  match getContext connection_id (gw_manager g) with
  | Some ctx =>
      if cc_authenticated ctx then mret (Some ctx)
      else sendError conn sequence_id GATEWAY_NOT_AUTHENTICATED "not authenticated" EmptyString;; mret None
  | None => sendError conn sequence_id GATEWAY_NOT_AUTHENTICATED "not authenticated" EmptyString;; mret None
  end.

(** The end of every handler that calls a backend. *)
Definition hand_over (conn : Z) (sequence_id : Z) (request_id : string) (t : task) : G unit :=
  match ge_executor E with
  | Some max => submit max t
  | None => sendError conn sequence_id SERVICE_UNAVAILABLE "gateway rpc executor unavailable" request_id
  end.

Definition handleRegister (conn : Z) (connection_id : string) (packet : Packet) : G unit :=
  let seq := p_sequence_id packet in
  match parse_register B (p_body packet) with
  | None => sendError conn seq GATEWAY_INVALID_PACKET "bad register body" EmptyString
  | Some req =>
      let id := rq_request_id req in
      allowed ← limiter;
      if negb allowed then
        count "nebula_gateway_rate_limited_total";;
        sendError conn seq RATE_LIMITED "register rate limited" id
      else
        permitted ← breaker_allow "user_service";
        if negb permitted then sendError conn seq CIRCUIT_OPEN "user service circuit open" id
        else
          count "nebula_gateway_register_total";;
          hand_over conn seq id (TRegister connection_id seq req)
  end.

Definition handleLogin (conn : Z) (connection_id : string) (packet : Packet) : G unit :=
  let seq := p_sequence_id packet in
  match parse_login B (p_body packet) with
  | None => sendError conn seq GATEWAY_INVALID_PACKET "bad login body" EmptyString
  | Some req =>
      let id := lq_request_id req in
      allowed ← limiter;
      if negb allowed then
        count "nebula_gateway_rate_limited_total";;
        sendError conn seq RATE_LIMITED "login rate limited" id
      else
        permitted ← breaker_allow "user_service";
        if negb permitted then sendError conn seq CIRCUIT_OPEN "user service circuit open" id
        else
          count "nebula_gateway_login_total";;
          let login_device_id := if bool_decide (lq_device_id req = EmptyString)
                                 then connection_id else lq_device_id req in
          hand_over conn seq id (TLogin connection_id seq req login_device_id)
  end.

Definition handleResumeSession (conn : Z) (connection_id : string) (packet : Packet) : G unit :=
  let seq := p_sequence_id packet in
  let (parsed, req) := parse_resume B (p_body packet) in
  let id := rs_request_id req in
  if negb parsed || bool_decide (rs_token req = EmptyString) || bool_decide (rs_device_id req = EmptyString)
  then sendError conn seq GATEWAY_INVALID_PACKET "invalid resume session request" id
  else
    allowed ← limiter;
    if negb allowed then sendError conn seq RATE_LIMITED "session resume rate limited" id
    else
      permitted ← breaker_allow "user_service";
      match permitted, ge_executor E with
      | true, Some max => submit max (TResume connection_id seq req)
      | _, _ => sendError conn seq SERVICE_UNAVAILABLE "user service unavailable" id
      end.

Definition handleHeartbeat (conn : Z) (connection_id : string) (packet : Packet) : G unit :=
  g ← get_state;
  match getContext connection_id (gw_manager g) with
  | Some ctx => if cc_authenticated ctx
                then refreshOnlineAsync (cc_user_id ctx) (cc_device_id ctx) connection_id else mret tt
  | None => mret tt
  end;;
  sendPacket conn (makeResponse HEARTBEAT_RESP (p_sequence_id packet)
                     (write_common B (mkResponse 0 "OK" EmptyString))).

Definition handleSendSingleMessage (conn : Z) (connection_id : string) (packet : Packet) : G unit :=
  let seq := p_sequence_id packet in
  auth ← requireAuth conn connection_id seq;
  match auth with
  | None => mret tt
  | Some auth =>
  match parse_single B (p_body packet) with
  | None => sendError conn seq GATEWAY_INVALID_PACKET "bad single body" EmptyString
  | Some q =>
      let from := if ss_from_user_id q =? 0 then cc_user_id auth else ss_from_user_id q in
      let req := mkSendSingle (ss_request_id q) from (ss_to_user_id q) (ss_content_type q) (ss_content q)
                   (ss_client_sequence_id q) in
      let id := ss_request_id q in
      if negb (from =? cc_user_id auth)
      then sendError conn seq GATEWAY_PERMISSION_DENIED "permission denied" id
      else
        allowed ← limiter;
        if negb allowed then sendError conn seq RATE_LIMITED "message rate limited" id
        else
          permitted ← breaker_allow "message_service";
          if negb permitted then sendError conn seq CIRCUIT_OPEN "message service circuit open" id
          else
            count "nebula_gateway_message_send_single_total";;
            hand_over conn seq id (TSingle connection_id seq req)
  end
  end.

Definition handleSendGroupMessage (conn : Z) (connection_id : string) (packet : Packet) : G unit :=
  let seq := p_sequence_id packet in
  auth ← requireAuth conn connection_id seq;
  match auth with
  | None => mret tt
  | Some auth =>
  match parse_group B (p_body packet) with
  | None => sendError conn seq GATEWAY_INVALID_PACKET "bad group body" EmptyString
  | Some q =>
      let from := if sg_from_user_id q =? 0 then cc_user_id auth else sg_from_user_id q in
      let req := mkSendGroup (sg_request_id q) from (sg_group_id q) (sg_content_type q) (sg_content q)
                   (sg_client_sequence_id q) in
      let id := sg_request_id q in
      if negb (from =? cc_user_id auth)
      then sendError conn seq GATEWAY_PERMISSION_DENIED "permission denied" id
      else
        allowed ← limiter;
        if negb allowed then sendError conn seq RATE_LIMITED "message rate limited" id
        else
          permitted ← breaker_allow "message_service";
          if negb permitted then sendError conn seq CIRCUIT_OPEN "message service circuit open" id
          else
            count "nebula_gateway_message_send_group_total";;
            hand_over conn seq id (TGroup connection_id seq req)
  end
  end.

Definition handleAck (conn : Z) (connection_id : string) (packet : Packet) : G unit :=
  let seq := p_sequence_id packet in
  auth ← requireAuth conn connection_id seq;
  match auth with
  | None => mret tt
  | Some auth =>
  match parse_ack B (p_body packet) with
  | None => sendError conn seq GATEWAY_INVALID_PACKET "bad ack body" EmptyString
  | Some q =>
      let user := if mr_user_id q =? 0 then cc_user_id auth else mr_user_id q in
      let req := mkMessageRequest (mr_request_id q) user (mr_message_id q) in
      let id := mr_request_id q in
      if negb (user =? cc_user_id auth)
      then sendError conn seq GATEWAY_PERMISSION_DENIED "permission denied" id
      else
        permitted ← breaker_allow "message_service";
        if negb permitted then sendError conn seq CIRCUIT_OPEN "message service circuit open" id
        else
          count "nebula_gateway_ack_total";;
          hand_over conn seq id (TAck connection_id seq req)
  end
  end.

Definition handlePullOfflineMessages (conn : Z) (connection_id : string) (packet : Packet) : G unit :=
  let seq := p_sequence_id packet in
  auth ← requireAuth conn connection_id seq;
  match auth with
  | None => mret tt
  | Some auth =>
  match parse_pull B (p_body packet) with
  | None => sendError conn seq GATEWAY_INVALID_PACKET "bad pull body" EmptyString
  | Some q =>
      let user := if pr_user_id q =? 0 then cc_user_id auth else pr_user_id q in
      let req := mkPullRequest (pr_request_id q) user (pr_page q) (pr_page_size q) in
      let id := pr_request_id q in
      if negb (user =? cc_user_id auth)
      then sendError conn seq GATEWAY_PERMISSION_DENIED "permission denied" id
      else
        permitted ← breaker_allow "message_service";
        if negb permitted then sendError conn seq CIRCUIT_OPEN "message service circuit open" id
        else
          count "nebula_gateway_pull_offline_total";;
          hand_over conn seq id (TPull connection_id seq req)
  end
  end.

Definition handlePacket (conn : Z) (connection_id : string) (packet : Packet) : G unit :=
  now ← gdb (nowMs (ge_db E));
  update_manager (updateActiveTime now connection_id);;
  count "nebula_gateway_packets_total";;
  match p_type packet with
  | REGISTER_REQ => handleRegister conn connection_id packet
  | LOGIN_REQ => handleLogin conn connection_id packet
  | RESUME_SESSION_REQ => handleResumeSession conn connection_id packet
  | HEARTBEAT_REQ => handleHeartbeat conn connection_id packet
  | SEND_SINGLE_MSG_REQ => handleSendSingleMessage conn connection_id packet
  | SEND_GROUP_MSG_REQ => handleSendGroupMessage conn connection_id packet
  | ACK_REQ => handleAck conn connection_id packet
  | PULL_OFFLINE_MSG_REQ => handlePullOfflineMessages conn connection_id packet
  | _ => sendError conn (p_sequence_id packet) GATEWAY_INVALID_PACKET "unsupported packet" EmptyString
  end.

(** ** The worker threads *)

(** The next answer of a backend, with an entry in the log of calls. *)
Definition backend {A} (answer : nat -> A) (entry : A -> backend_call) : G A :=
  fun g => let a := answer (gw_rpcs g) in Some (a, set_calls (entry a :: gw_calls g) g).

(** What is answered for a call that failed. *)
Definition rpc_failed (message request_id : string) : CommonResponse :=
  mkResponse (error_value GATEWAY_BACKEND_RPC_FAILED) message request_id.

(** The breaker hears how a call ended. *)
Definition record_outcome {A} (name : string) (reply : string + A) : G unit :=
  match reply with inl _ => breaker_failure name | inr _ => breaker_success name end.

Definition or_failed {A} (reply : string + A) (failed : string -> A) : A :=
  match reply with inl message => failed message | inr resp => resp end.

Definition login_task (connection_id : string) (req : LoginRequest) (device_id : string) : G LoginResult :=
  reply ← backend (fun n => ge_login E n req) (BLogin connection_id req);
  record_outcome "user_service" reply;;
  match reply with
  | inl message =>
      mret (mkLoginResult (mkLoginResponse (rpc_failed message (lq_request_id req)) 0 EmptyString 0) false true)
  | inr resp =>
      if r_code (lg_response resp) =? 0 then
        online_ok ← gnode (gom_setOnline (ge_redis E) o (lg_user_id resp) device_id connection_id);
        mret (mkLoginResult
                (if (online_ok : bool) then resp
                 else mkLoginResponse
                        (mkResponse (error_value GATEWAY_ONLINE_STATE_FAILED) "online state failed"
                           (r_request_id (lg_response resp)))
                        (lg_user_id resp) (lg_token resp) (lg_expire_at resp))
                true online_ok)
      else mret (mkLoginResult resp true true)
  end.

Definition resume_task (connection_id : string) (req : ResumeSessionRequest) : G ResumeResult :=
  let id := rs_request_id req in
  reply ← backend (fun n => ge_validate E n (mkValidate id (rs_token req))) (BValidate connection_id (rs_token req));
  record_outcome "user_service" reply;;
  match reply with
  | inl message => mret (mkResumeResult (mkResumeResponse (rpc_failed message id) 0) false false)
  | inr validated =>
      let r := vt_response validated in
      if negb (r_code r =? 0) || negb (vt_valid validated) || (vt_user_id validated =? 0)
      then mret (mkResumeResult (mkResumeResponse (mkResponse (r_code r) (r_message r) id) 0) true false)
      else
        online_ok ← gnode (gom_setOnline (ge_redis E) o (vt_user_id validated) (rs_device_id req) connection_id);
        mret (mkResumeResult
                (mkResumeResponse
                   (mkResponse (error_value (if (online_ok : bool) then EC_OK else GATEWAY_ONLINE_STATE_FAILED))
                      (if online_ok then "OK" else "online state failed") id)
                   (vt_user_id validated))
                true online_ok)
  end.

(** A worker runs a task and queues its callback. *)
Definition run_task (t : task) : G unit :=
  match t with
  | TRegister c s req =>
      reply ← backend (fun n => ge_register E n req) (fun _ => BRegister c req);
      record_outcome "user_service" reply;;
      add_callback (CbRegister c s (rq_request_id req)
        (Some (or_failed reply (fun m => mkRegisterResponse (rpc_failed m (rq_request_id req)) 0))))
  | TLogin c s req device_id =>
      r ← login_task c req device_id; add_callback (CbLogin c s req device_id (Some r))
  | TResume c s req => r ← resume_task c req; add_callback (CbResume c s req (Some r))
  | TSingle c s req =>
      reply ← backend (fun n => ge_single E n req) (fun _ => BSingle c req);
      record_outcome "message_service" reply;;
      add_callback (CbSend c s (ss_request_id req) SEND_SINGLE_MSG_RESP
        (Some (or_failed reply (fun m => mkSendResponse (rpc_failed m (ss_request_id req)) 0 0))))
  | TGroup c s req =>
      reply ← backend (fun n => ge_group E n req) (fun _ => BGroup c req);
      record_outcome "message_service" reply;;
      add_callback (CbSend c s (sg_request_id req) SEND_GROUP_MSG_RESP
        (Some (or_failed reply (fun m => mkSendResponse (rpc_failed m (sg_request_id req)) 0 0))))
  | TAck c s req =>
      reply ← backend (fun n => ge_ack E n req) (fun _ => BAck c req);
      record_outcome "message_service" reply;;
      add_callback (CbAck c s (mr_request_id req)
        (Some (or_failed reply (fun m => rpc_failed m (mr_request_id req)))))
  | TPull c s req =>
      reply ← backend (fun n => ge_pull E n req) (fun _ => BPull c req);
      record_outcome "message_service" reply;;
      add_callback (CbPull c s (pr_request_id req)
        (Some (or_failed reply (fun m => mkPullResponse (rpc_failed m (pr_request_id req)) [] 0 0 0))))
  end.

(** The worker of the online manager. *)
Definition run_online (t : online_task) : G unit :=
  gnode (match t with
         | RefreshOnline u d c => gom_refreshOnline (ge_redis E) o u d c
         | SetOffline u d c => gom_setOffline (ge_redis E) o u d c
         end);;
  mret tt.

(** ** The callbacks in the event loops *)

(** The connection, when it is still there and up. *)
Definition live_connection (connection_id : string) : G (option Z) :=
  g ← get_state;
  match getConnection connection_id (gw_manager g) with
  | None => mret None
  | Some conn => up ← connected conn; mret (if (up : bool) then Some conn else None)
  end.

Definition executor_error (conn : Z) (sequence_id : Z) (request_id : string) : G unit :=
  sendError conn sequence_id SERVICE_UNAVAILABLE "gateway rpc executor unavailable" request_id.

(** A callback that only passes the answer on. *)
Definition pass_on {A} (connection_id : string) (sequence_id : Z) (request_id : string) (t : MessageType)
    (write : A -> list byte) (r : option A) : G unit :=
  live ← live_connection connection_id;
  match live with
  | None => mret tt
  | Some conn =>
      match r with
      | None => executor_error conn sequence_id request_id
      | Some resp => sendPacket conn (makeResponse t sequence_id (write resp))
      end
  end.

(** [ConnectionManager::bindUser]: the connection the device was on before is
    closed. *)
Definition bind_user (connection_id : string) (user_id : Z) (token device_id platform : string) : G bool :=
  now ← gdb (nowMs (ge_db E));
  '(ok, replaced) ← update_manager (bindUser now connection_id user_id token device_id platform);
  match replaced with Some conn => forceClose conn | None => mret tt end;;
  mret (ok : bool).

Definition login_callback (connection_id : string) (sequence_id : Z) (req : LoginRequest) (device_id : string)
    (r : option LoginResult) : G unit :=
  live ← live_connection connection_id;
  match r with
  | None =>
      (* the default result of an executor error: its user is 0 *)
      match live with
      | None => setOfflineAsync 0 device_id connection_id
      | Some conn => executor_error conn sequence_id (lq_request_id req)
      end
  | Some result =>
      let resp := lt_resp result in
      let success := lt_rpc_ok result && (r_code (lg_response resp) =? 0) && lt_online_ok result in
      match live with
      | None => if success then setOfflineAsync (lg_user_id resp) device_id connection_id else mret tt
      | Some conn =>
          resp ← (if success then
                    bound ← bind_user connection_id (lg_user_id resp) (lg_token resp) device_id (lq_platform req);
                    if (bound : bool) then mret resp
                    else
                      setOfflineAsync (lg_user_id resp) device_id connection_id;;
                      mret (mkLoginResponse
                              (mkResponse (error_value GATEWAY_ONLINE_STATE_FAILED) "connection binding failed"
                                 (r_request_id (lg_response resp)))
                              (lg_user_id resp) (lg_token resp) (lg_expire_at resp))
                  else mret resp);
          sendPacket conn (makeResponse LOGIN_RESP sequence_id (write_login B resp))
      end
  end.

Definition resume_callback (connection_id : string) (sequence_id : Z) (req : ResumeSessionRequest)
    (r : option ResumeResult) : G unit :=
  live ← live_connection connection_id;
  match r with
  | None =>
      match live with
      | None => mret tt
      | Some conn => executor_error conn sequence_id (rs_request_id req)
      end
  | Some result =>
      let resp := rt_resp result in
      match live with
      | None => if negb (rsr_user_id resp =? 0) && rt_online_ok result
                then setOfflineAsync (rsr_user_id resp) (rs_device_id req) connection_id else mret tt
      | Some conn =>
          resp ← (if rt_rpc_ok result && (r_code (rsr_response resp) =? 0) && rt_online_ok result then
                    bound ← bind_user connection_id (rsr_user_id resp) (rs_token req) (rs_device_id req)
                              (rs_platform req);
                    if (bound : bool) then mret resp
                    else
                      setOfflineAsync (rsr_user_id resp) (rs_device_id req) connection_id;;
                      mret (mkResumeResponse
                              (mkResponse (error_value GATEWAY_ONLINE_STATE_FAILED) "connection binding failed"
                                 (r_request_id (rsr_response resp)))
                              (rsr_user_id resp))
                  else mret resp);
          sendPacket conn (makeResponse RESUME_SESSION_RESP sequence_id (write_resume B resp))
      end
  end.

Definition run_callback (c : callback) : G unit :=
  match c with
  | CbRegister c s id r => pass_on c s id REGISTER_RESP (write_register B) r
  | CbLogin c s req d r => login_callback c s req d r
  | CbResume c s req r => resume_callback c s req r
  | CbSend c s id t r => pass_on c s id t (write_send B) r
  | CbAck c s id r => pass_on c s id ACK_RESP (write_ack B) r
  | CbPull c s id r => pass_on c s id PULL_OFFLINE_MSG_RESP (write_pull B) r
  end.

End Gateway.
