(* ===== verification/GatewayServer.v ===== *)
(** * The gateway's server and its RPC service

    gateway/src/GatewayServer.cpp (connections, the two message loops, the
    upgrade to WebSocket, heartbeats) and gateway/src/GatewayServiceImpl.cpp.
    The input buffer of a connection is an argument and a result of the
    handlers.  The loops carry fuel; one more than the number of readable
    bytes is enough, as the theorem on [onTcpMessage] shows. *)

From S2P Require Import Prelude Words Text NetBuffer Protocol WebSocket MessageId Rpc Db MessageStore.
From S2P Require Import Directory MessageService Redis Push UserService Connections Handshake Gateway.
Import Buffer.
Local Open Scope Z_scope.

(** ** Requests of the RPC service *)

Record DeliverToConnectionRequest := mkDeliver {
  dq_request_id : string; dq_user_id : Z; dq_connection_id : string; dq_message : MessageData
}.
Record KickUserRequest := mkKickUser { ku_request_id : string; ku_user_id : Z }.
Record KickConnectionRequest := mkKickConnection {
  kc_request_id : string; kc_user_id : Z; kc_connection_id : string; kc_device_id : string
}.
Record GetOnlineStatusRequest := mkOnlineStatus { oq_request_id : string; oq_user_id : Z }.
Record GetOnlineStatusResponse := mkOnlineStatusResponse {
  or_response : CommonResponse; or_online : bool; or_gateway_id : string; or_connection_id : string
}.

Section Server.
Context `{Srv : RedisServer} (E : GEnv) (o : GatewayOnlineManager).

(** [connectEstablished] and [onConnection] for a connection that is up. *)
Definition on_connected (conn : Z) (peer_addr : string) : G unit :=
  modify (fun g => set_sockets (<[conn := CONNECTED]> (gw_sockets g)) g);;
  now ← gdb (nowMs (ge_db E));
  id ← update_manager (addConnection now conn peer_addr);
  modify (fun g => set_ids (<[conn := id]> (gw_ids g)) (<[conn := false]> (gw_websockets g)) g);;
  count "nebula_gateway_connections_total".

Definition getConnectionIdFromConnection (conn : Z) : G string :=
  g ← get_state; mret (default EmptyString (gw_ids g !! conn)).

(** [handleClose] and [onConnection] for a connection that is down.  (The
    bucket of the rate limiter is dropped as well.) *)
Definition on_closed (conn : Z) : G unit :=
  modify (fun g => set_sockets (<[conn := DISCONNECTED]> (gw_sockets g)) g);;
  id ← getConnectionIdFromConnection conn;
  g ← get_state;
  match getContext id (gw_manager g) with
  | Some ctx => if cc_authenticated ctx then setOfflineAsync (cc_user_id ctx) (cc_device_id ctx) id else mret tt
  | None => mret tt
  end;;
  update_manager (fun m => (tt, removeConnection id m));;
  modify (fun g => set_ids (delete conn (gw_ids g)) (delete conn (gw_websockets g)) g).

Definition allowPacket (conn : Z) (connection_id : string) (sequence_id : Z) : G bool :=
  allowed ← limiter E;
  if (allowed : bool) then mret true
  else
    count "nebula_gateway_rate_limited_total";;
    sendPacket conn (makeErrorResponse E sequence_id RATE_LIMITED "rate limited" EmptyString);;
    mret false.

(** A failed assertion, or a loop that has not finished within its fuel. *)
Definition stuck {A} : G A := fun _ => None.

Definition invalid_packet (err : ProtocolError) : Packet :=
  makeErrorResponse E 0 GATEWAY_INVALID_PACKET (protocolErrorToString err) EmptyString.

(** [onTcpMessage]: what is left of the input buffer. *)
Fixpoint onTcpMessage (fuel : nat) (conn : Z) (id : string) (buffer : Buffer) : G Buffer :=
  match fuel with
  | O => stuck
  | S fuel =>
      if (readableBytes buffer <? kPacketHeaderLength)%nat then mret buffer
      else match PacketCodec.decode_checked buffer (mkPacket UNKNOWN 0 []) with
      | None => stuck
      | Some (OK, buffer, packet) =>
          allowed ← allowPacket conn id (p_sequence_id packet);
          if negb allowed then mret (retrieveAll buffer)
          else handlePacket E conn id packet;; onTcpMessage fuel conn id buffer
      | Some (INCOMPLETE_PACKET, buffer, _) => mret buffer
      | Some (err, buffer, _) =>
          bytes ← encoded (invalid_packet err);
          send conn bytes;;
          forceClose conn;;
          mret buffer
      end
  end.

(** The packets of one frame; false when the connection is given up. *)
Fixpoint frame_packets (fuel : nat) (conn : Z) (id : string) (buffer : Buffer) : G bool :=
  match fuel with
  | O => stuck
  | S fuel =>
      if (readableBytes buffer <? kPacketHeaderLength)%nat then mret true
      else match PacketCodec.decode_checked buffer (mkPacket UNKNOWN 0 []) with
      | None => stuck
      | Some (OK, buffer, packet) =>
          allowed ← allowPacket conn id (p_sequence_id packet);
          if negb allowed then mret false
          else handlePacket E conn id packet;; frame_packets fuel conn id buffer
      | Some (INCOMPLETE_PACKET, _, _) => mret true
      | Some (err, _, _) => sendPacket conn (invalid_packet err);; forceClose conn;; mret false
      end
  end.

Definition text (s : string) : list byte := String.list_byte_of_string s.

Definition close_frame (conn : Z) (reason : string) : G unit :=
  send conn (WebSocketCodec.encodeClose (text reason));; forceClose conn.

Fixpoint onWebSocketMessage (fuel : nat) (conn : Z) (id : string) (buffer : Buffer) : G Buffer :=
  match fuel with
  | O => stuck
  | S fuel =>
      if (readableBytes buffer =? 0)%nat then mret buffer
      else match WebSocketCodec.decodeFrame buffer with
      | None => stuck
      | Some (WS_INCOMPLETE, buffer, _) => mret buffer
      | Some (WS_PROTOCOL_ERROR, buffer, _) | Some (WS_OK, buffer, None) =>
          close_frame conn "protocol error";; mret buffer
      | Some (WS_OK, buffer, Some frame) =>
          match opcode frame with
          | PING => send conn (WebSocketCodec.encodePong (payload frame));; onWebSocketMessage fuel conn id buffer
          | PONG => onWebSocketMessage fuel conn id buffer
          | CLOSE => close_frame conn EmptyString;; mret buffer
          | BINARY =>
              match append (payload frame) Buffer_new with
              | None => stuck
              | Some packet_buffer =>
                  ok ← frame_packets (S (readableBytes packet_buffer)) conn id packet_buffer;
                  if (ok : bool) then onWebSocketMessage fuel conn id buffer else mret buffer
              end
          | _ => close_frame conn "binary frame required";; mret buffer
          end
      end
  end.

(** The position after the first empty line. *)
Fixpoint header_end (s : string) : option nat :=
  match s with
  | EmptyString => None
  | String c rest =>
      if String.prefix (crlf +:+ crlf) s then Some 4%nat else S <$> header_end rest
  end.

(** True when the connection speaks WebSocket from here on. *)
Definition tryHandleWebSocketHandshake (conn : Z) (buffer : Buffer) : G (bool * Buffer) :=
  let request := String.string_of_list_byte (take (readableBytes buffer) (peek buffer)) in
  match header_end request with
  | None =>
      (if 8192 <? Z.of_nat (String.length request)
       then send conn (text (badRequestResponse "header too large"));; forceClose conn
       else mret tt);;
      mret (false, buffer)
  | Some pos =>
      let result := buildServerResponse (ge_sha1 E) (ge_base64 E) (String.substring 0 pos request) in
      send conn (text (hs_response result));;
      match retrieve pos buffer with
      | None => stuck
      | Some buffer =>
          if hs_ok result then mret (true, buffer) else forceClose conn;; mret (false, buffer)
      end
  end.

Definition startsWithGet (buffer : Buffer) : bool :=
  (4 <=? readableBytes buffer)%nat && bool_decide (String.string_of_list_byte (take 4 (peek buffer)) = "GET ").

Definition onMessage (conn : Z) (buffer : Buffer) : G Buffer :=
  id ← getConnectionIdFromConnection conn;
  websocket ← is_websocket conn;
  '(websocket, buffer) ←
    (if negb websocket && startsWithGet buffer then
       '(ok, buffer) ← tryHandleWebSocketHandshake conn buffer;
       if negb ok then mret (None, buffer)
       else
         modify (fun g => set_ids (gw_ids g) (<[conn := true]> (gw_websockets g)) g);;
         update_manager (markWebSocket id true);;
         mret (Some true, buffer)
     else mret (Some websocket, buffer));
  match websocket with
  | None => mret buffer
  | Some true => onWebSocketMessage (S (readableBytes buffer)) conn id buffer
  | Some false => onTcpMessage (S (readableBytes buffer)) conn id buffer
  end.

Fixpoint close_all (ids : list string) : G unit :=
  match ids with
  | [] => mret tt
  | id :: ids =>
      g ← get_state;
      match getConnection id (gw_manager g) with Some conn => forceClose conn | None => mret tt end;;
      close_all ids
  end.

Definition checkHeartbeatTimeout : G unit :=
  now ← gdb (nowMs (ge_db E));
  g ← get_state;
  close_all (getTimeoutConnections now (ge_heartbeat_timeout_ms E) (gw_manager g)).


(** ** The RPC service *)

Definition gs_authorized (context : ServerContext) : bool :=
  authorize (ge_sha256Hex E) (ge_auth E) context.

Definition gs_unauthenticated (request_id : string) : CommonResponse :=
  fillResponse request_id AUTH_FAILED "internal rpc unauthenticated".

Definition DeliverToConnection (context : ServerContext) (q : DeliverToConnectionRequest) : G CommonResponse :=
  let id := dq_request_id q in
  if negb (gs_authorized context) then mret (gs_unauthenticated id)
  else if (dq_user_id q =? 0) || bool_decide (dq_connection_id q = EmptyString)
  then mret (fillResponse id INVALID_ARGUMENT EmptyString)
  else
    live ← live_connection (dq_connection_id q);
    match live with
    | None => mret (fillResponse id GATEWAY_CONNECTION_NOT_FOUND EmptyString)
    | Some conn =>
        payload ← encoded (makePushMessage E 0 (dq_message q));
        g ← get_state;
        let ctx := getContext (dq_connection_id q) (gw_manager g) in
        match ctx with
        | Some ctx =>
            if negb (cc_user_id ctx =? dq_user_id q)
            then mret (fillResponse id GATEWAY_CONNECTION_NOT_FOUND "connection user mismatch")
            else
              send conn (if cc_websocket ctx then WebSocketCodec.encodeBinary payload else payload);;
              mret (fillResponse id EC_OK "OK")
        | None => mret (fillResponse id GATEWAY_CONNECTION_NOT_FOUND "connection user mismatch")
        end
    end.

Fixpoint force_all (conns : list Z) : G unit :=
  match conns with [] => mret tt | conn :: conns => forceClose conn;; force_all conns end.

Definition KickUser (context : ServerContext) (q : KickUserRequest) : G CommonResponse :=
  let id := ku_request_id q in
  if negb (gs_authorized context) then mret (gs_unauthenticated id)
  else
    g ← get_state;
    force_all (getConnectionsByUserId (ku_user_id q) (gw_manager g));;
    mret (fillResponse id EC_OK "OK").

Definition KickConnection (context : ServerContext) (q : KickConnectionRequest) : G CommonResponse :=
  let id := kc_request_id q in
  if negb (gs_authorized context) then mret (gs_unauthenticated id)
  else if (kc_user_id q =? 0) || bool_decide (kc_connection_id q = EmptyString)
  then mret (fillResponse id INVALID_ARGUMENT EmptyString)
  else
    g ← get_state;
    match getContext (kc_connection_id q) (gw_manager g) with
    | None => mret (fillResponse id GATEWAY_CONNECTION_NOT_FOUND EmptyString)
    | Some ctx =>
        if negb (cc_user_id ctx =? kc_user_id q)
        then mret (fillResponse id GATEWAY_CONNECTION_NOT_FOUND EmptyString)
        else if negb (bool_decide (kc_device_id q = EmptyString)) &&
                negb (bool_decide (cc_device_id ctx = kc_device_id q))
        then mret (fillResponse id GATEWAY_CONNECTION_NOT_FOUND "connection device mismatch")
        else
          live ← live_connection (kc_connection_id q);
          match live with
          | None => mret (fillResponse id GATEWAY_CONNECTION_NOT_FOUND EmptyString)
          | Some conn => forceClose conn;; mret (fillResponse id EC_OK "OK")
          end
    end.

Definition GetOnlineStatus (context : ServerContext) (q : GetOnlineStatusRequest) : G GetOnlineStatusResponse :=
  let id := oq_request_id q in
  let offline r := mkOnlineStatusResponse r false EmptyString EmptyString in
  if negb (gs_authorized context) then mret (offline (gs_unauthenticated id))
  else if oq_user_id q =? 0 then mret (offline (fillResponse id INVALID_ARGUMENT EmptyString))
  else
    location ← gnode (findOnline (ge_redis E) o (oq_user_id q));
    mret (match location with
          | Some l => mkOnlineStatusResponse (fillResponse id EC_OK "OK") true (gl_gateway_id l) (gl_connection_id l)
          | None => offline (fillResponse id EC_OK "OK")
          end).

End Server.
