(* ===== verification/Streams.v ===== *)
(** * What the gateway does with a byte stream

    The input of a connection as a list of packets (or of WebSocket frames,
    each with its packets), split by recursion on the length of the input, and
    the reference that serves such a list in order.  The loops of the server
    on buffers do the same: they end, they handle every packet once, in order,
    and they leave what is not yet a whole packet. *)

From Equations Require Import Equations.
From S2P Require Import Prelude Words Text NetBuffer Protocol WebSocket MessageId Rpc Db MessageStore.
From S2P Require Import Directory MessageService Redis Push UserService Connections Handshake Gateway GatewayServer.
Import Buffer.
Local Open Scope Z_scope.

(** How the input ends: what has to wait for more, or a header no packet has. *)
Inductive ending := Waiting (rest : list byte) | Broken (e : ProtocolError).

Lemma parse_front_shorter q p rest : PacketCodec.parse_front q = PacketCodec.Whole p rest -> (length rest < length q)%nat.
Proof.
  intros (_&bytes&He&->)%PacketCodec.parse_front_whole. rewrite length_app.
  revert He. unfold PacketCodec.encode. destruct (_ || _); [done|]. destruct (_ <? _); [done|].
  intros He%(inj inr). rewrite <- He, length_app, length_encodeHeader. unfold kPacketHeaderLength. lia.
Qed.

Equations? packets (q : list byte) : list Packet * ending by wf (length q) lt :=
packets q with exist (fun r => PacketCodec.parse_front q = r) (PacketCodec.parse_front q) eq_refl := {
  | exist _ PacketCodec.Short _ => ([], Waiting q);
  | exist _ (PacketCodec.Bad e) _ => ([], Broken e);
  | exist _ (PacketCodec.Whole p rest) He => (p :: fst (packets rest), snd (packets rest))
}.
Proof. all: by eapply parse_front_shorter. Defined.

Lemma packets_eq q :
  packets q = match PacketCodec.parse_front q with
              | PacketCodec.Short => ([], Waiting q)
              | PacketCodec.Bad e => ([], Broken e)
              | PacketCodec.Whole p rest => (p :: fst (packets rest), snd (packets rest))
              end.
Proof. funelim (packets q); match goal with Hp : PacketCodec.parse_front _ = _ |- _ => by rewrite Hp end. Qed.

(** Frames likewise, each with what follows it; the second component is what
    waits, or [None] after octets that are no frame. *)
Equations? frames (q : list byte) : list (WebSocketFrame * list byte) * option (list byte) by wf (length q) lt :=
frames q with exist (fun r => WebSocketFrame.decode q true = r) (WebSocketFrame.decode q true) eq_refl := {
  | exist _ (WS_OK, Some (f, n)) _ => ((f, drop n q) :: fst (frames (drop n q)), snd (frames (drop n q)));
  | exist _ (WS_INCOMPLETE, _) _ => ([], Some q);
  | exist _ (_, _) _ => ([], None)
}.
Proof. all: rewrite length_drop; match goal with Hd : WebSocketFrame.decode _ _ = _ |- _ => apply decode_consumed in Hd end; lia. Defined.

Lemma frames_eq q :
  frames q = match WebSocketFrame.decode q true with
             | (WS_OK, Some (f, n)) => ((f, drop n q) :: fst (frames (drop n q)), snd (frames (drop n q)))
             | (WS_INCOMPLETE, _) => ([], Some q)
             | (_, _) => ([], None)
             end.
Proof. funelim (frames q); match goal with Hp : WebSocketFrame.decode _ _ = _ |- _ => by rewrite Hp end. Qed.

(** ** The reference *)

Section Streams.
Context `{Srv : RedisServer} (E : GEnv).

(** Every packet in order; the bytes that are left at the end. *)
Fixpoint serve_packets (conn : Z) (id : string) (ps : list Packet) (e : ending) : G (list byte) :=
  match ps with
  | [] =>
      match e with
      | Waiting rest => mret rest
      | Broken err => bytes ← encoded (invalid_packet E err); send conn bytes;; forceClose conn;; mret []
      end
  | p :: ps =>
      allowed ← allowPacket E conn id (p_sequence_id p);
      if negb allowed then mret [] else handlePacket E conn id p;; serve_packets conn id ps e
  end.

(** The packets of a frame; false when the connection is given up. *)
Fixpoint serve_payload (conn : Z) (id : string) (ps : list Packet) (e : ending) : G bool :=
  match ps with
  | [] =>
      match e with
      | Waiting _ => mret true
      | Broken err => sendPacket conn (invalid_packet E err);; forceClose conn;; mret false
      end
  | p :: ps =>
      allowed ← allowPacket E conn id (p_sequence_id p);
      if negb allowed then mret false else handlePacket E conn id p;; serve_payload conn id ps e
  end.

Fixpoint serve_frames (conn : Z) (id : string) (fs : list (WebSocketFrame * list byte))
    (e : option (list byte)) : G (list byte) :=
  match fs with
  | [] => match e with Some rest => mret rest | None => close_frame conn "protocol error";; mret [] end
  | (f, rest) :: fs =>
      match opcode f with
      | PING => send conn (WebSocketCodec.encodePong (payload f));; serve_frames conn id fs e
      | PONG => serve_frames conn id fs e
      | CLOSE => close_frame conn EmptyString;; mret rest
      | BINARY =>
          ok ← serve_payload conn id (fst (packets (payload f))) (snd (packets (payload f)));
          if (ok : bool) then serve_frames conn id fs e else mret rest
      | _ => close_frame conn "binary frame required";; mret rest
      end
  end.

(** ** The loops *)

Lemma bad_front q e : PacketCodec.parse_front q = PacketCodec.Bad e -> e <> OK /\ e <> INCOMPLETE_PACKET.
Proof.
  unfold PacketCodec.parse_front. case_decide; [done|].
  repeat (destruct (negb _) || destruct (_ <? _)); try (by intros [= <-]). by case_decide.
Qed.

(** A run on a buffer and the same run on the bytes it holds. *)
Definition same_run (x : option (Buffer * gworld)) (y : option (list byte * gworld)) : Prop :=
  match x, y with
  | Some (b, g), Some (q, g') => Inv b /\ contents b = q /\ g = g'
  | None, None => True
  | _, _ => False
  end.

Lemma same_run_bind {A} (m : G A) (k : A -> G Buffer) (k' : A -> G (list byte)) g :
  (forall a g, same_run (k a g) (k' a g)) -> same_run ((m ≫= k) g) ((m ≫= k') g).
Proof. intros Hk. unfold mbind, SM_bind. destruct (m g) as [[a g']|]; [apply Hk|done]. Qed.

Lemma same_run_ret b q g : Inv b -> contents b = q -> same_run ((mret b : G Buffer) g) ((mret q : G (list byte)) g).
Proof. done. Qed.

Lemma short_front b :
  Inv b -> (readableBytes b < kPacketHeaderLength)%nat -> PacketCodec.parse_front (contents b) = PacketCodec.Short.
Proof. intros HI Hlt. unfold PacketCodec.parse_front. rewrite length_contents by done. by rewrite decide_True. Qed.

Lemma shorter_buffer b b' p rest :
  Inv b -> Inv b' -> PacketCodec.parse_front (contents b) = PacketCodec.Whole p rest -> contents b' = rest ->
  (readableBytes b' < readableBytes b)%nat.
Proof.
  intros HI HI' Hp Hc. apply parse_front_shorter in Hp. by rewrite <- Hc, !length_contents in Hp by done.
Qed.

Lemma tcp_served conn id fuel b g :
  Inv b -> (readableBytes b < fuel)%nat ->
  same_run (onTcpMessage E fuel conn id b g)
    (serve_packets conn id (fst (packets (contents b))) (snd (packets (contents b))) g).
Proof.
  revert b g. induction fuel as [|fuel IH]; intros b g HI Hf; [lia|]. cbn [onTcpMessage]. rewrite packets_eq.
  destruct (Nat.ltb_spec (readableBytes b) kPacketHeaderLength) as [Hs|Hs].
  { rewrite short_front by done. by apply same_run_ret. }
  pose proof (PacketCodec.decode_checked_front b (mkPacket UNKNOWN 0 []) HI) as Hd.
  destruct (PacketCodec.parse_front (contents b)) as [|e|p rest] eqn:Hp.
  - rewrite Hd. by apply same_run_ret.
  - destruct Hd as [-> _]. cbn [fst snd serve_packets].
    assert (same_run ((bytes ← encoded (invalid_packet E e); send conn bytes;; forceClose conn;; mret (retrieveAll b) : G Buffer) g)
                     ((bytes ← encoded (invalid_packet E e); send conn bytes;; forceClose conn;; mret [] : G (list byte)) g)) as Hr.
    { repeat (apply same_run_bind; intros ? ?). by apply same_run_ret; apply retrieveAll_spec. }
    destruct (bad_front _ _ Hp). by destruct e.
  - destruct Hd as (b'&->&HI'&Hc). cbn [fst snd serve_packets]. apply same_run_bind. intros allowed g'.
    destruct allowed; cbn [negb].
    + apply same_run_bind. intros _ g2. rewrite <- Hc. apply IH; [done|].
      pose proof (shorter_buffer _ _ _ _ HI HI' Hp Hc). lia.
    + by apply same_run_ret; apply retrieveAll_spec.
Qed.

Lemma bind_same {A R} (m : G A) (k k' : A -> G R) g :
  (forall a g, k a g = k' a g) -> (m ≫= k) g = (m ≫= k') g.
Proof. intros Hk. unfold mbind, SM_bind. destruct (m g) as [[a g']|]; [apply Hk|done]. Qed.

Lemma payload_served conn id fuel b g :
  Inv b -> (readableBytes b < fuel)%nat ->
  frame_packets E fuel conn id b g =
  serve_payload conn id (fst (packets (contents b))) (snd (packets (contents b))) g.
Proof.
  revert b g. induction fuel as [|fuel IH]; intros b g HI Hf; [lia|]. cbn [frame_packets]. rewrite packets_eq.
  destruct (Nat.ltb_spec (readableBytes b) kPacketHeaderLength) as [Hs|Hs].
  { by rewrite short_front. }
  pose proof (PacketCodec.decode_checked_front b (mkPacket UNKNOWN 0 []) HI) as Hd.
  destruct (PacketCodec.parse_front (contents b)) as [|e|p rest] eqn:Hp.
  - by rewrite Hd.
  - destruct Hd as [-> _]. destruct (bad_front _ _ Hp). by destruct e.
  - destruct Hd as (b'&->&HI'&Hc). cbn [fst snd serve_payload]. apply bind_same. intros allowed g'.
    destruct allowed; cbn [negb]; [|done]. apply bind_same. intros _ g2. rewrite <- Hc. apply IH; [done|].
    pose proof (shorter_buffer _ _ _ _ HI HI' Hp Hc). lia.
Qed.

(** [decodeFrame] takes the first of the frames. *)
Lemma decodeFrame_front b :
  Inv b ->
  match WebSocketFrame.decode (contents b) true with
  | (WS_OK, Some (f, n)) =>
      exists b', WebSocketCodec.decodeFrame b = Some (WS_OK, b', Some f) /\ Inv b' /\
        contents b' = drop n (contents b) /\ (readableBytes b' < readableBytes b)%nat
  | (WS_INCOMPLETE, _) => WebSocketCodec.decodeFrame b = Some (WS_INCOMPLETE, b, None)
  | _ => WebSocketCodec.decodeFrame b = Some (WS_PROTOCOL_ERROR, retrieveAll b, None)
  end.
Proof.
  intros HI. unfold WebSocketCodec.decodeFrame. rewrite <- contents_peek.
  destruct (WebSocketFrame.decode (contents b) true) as [[] [[f n]|]] eqn:HD; try done.
  pose proof (decode_consumed _ _ _ _ HD) as Hn. pose proof (retrieve_spec n b HI) as HR.
  unfold q_retrieve in HR. rewrite decide_True in HR by lia. destruct (retrieve n b) as [b'|]; [|done].
  destruct HR as [HI' [= HC]]. exists b'. split_and!; [done..|].
  rewrite <- !length_contents, <- HC, length_drop by done. lia.
Qed.

Lemma websocket_served conn id fuel b g :
  Inv b -> (readableBytes b < fuel)%nat ->
  same_run (onWebSocketMessage E fuel conn id b g)
    (serve_frames conn id (fst (frames (contents b))) (snd (frames (contents b))) g).
Proof.
  revert b g. induction fuel as [|fuel IH]; intros b g HI Hf; [lia|]. cbn [onWebSocketMessage]. rewrite frames_eq.
  destruct (Nat.eqb_spec (readableBytes b) 0) as [Hz|Hz].
  { rewrite <- length_contents in Hz by done. apply nil_length_inv in Hz. rewrite Hz. by apply same_run_ret. }
  pose proof (decodeFrame_front b HI) as Hd.
  destruct (WebSocketFrame.decode (contents b) true) as [st r].
  assert (forall reason rest b', Inv b' -> contents b' = rest ->
    same_run ((close_frame conn reason;; mret b' : G Buffer) g) ((close_frame conn reason;; mret rest : G (list byte)) g)) as Hc.
  { intros reason rest b' ? ?. apply same_run_bind. intros _ g'. by apply same_run_ret. }
  destruct st; [destruct r as [[f n]|]|..]; [|rewrite Hd; by apply Hc; apply retrieveAll_spec|
    rewrite Hd; by apply same_run_ret|rewrite Hd; by apply Hc; apply retrieveAll_spec].
  destruct Hd as (b'&->&HI'&Hb&Hlt). cbn [fst snd serve_frames].
  assert (forall g, same_run (onWebSocketMessage E fuel conn id b' g)
            (serve_frames conn id (fst (frames (drop n (contents b)))) (snd (frames (drop n (contents b)))) g)) as Hrec.
  { intros g'. rewrite <- Hb. apply IH; [done|lia]. }
  destruct (opcode f); try (by apply Hc); [|apply same_run_bind; intros _; apply Hrec|apply Hrec].
  destruct (append_spec (payload f) Buffer_new buffer_Inv_new) as (pb&->&HIp&Hp). rewrite contents_new in Hp. cbn in Hp.
  unfold mbind, SM_bind. rewrite (payload_served conn id (S (readableBytes pb)) pb g HIp), Hp by lia.
  destruct (serve_payload _ _ _ _ g) as [[[] g']|]; [apply Hrec|by apply same_run_ret|done].
Qed.

(** ** The whole handler *)

Definition starts_get (q : list byte) : bool :=
  (4 <=? length q)%nat && bool_decide (String.string_of_list_byte (take 4 q) = "GET ").

Definition as_frames (conn : Z) (id : string) (q : list byte) : G (list byte) :=
  serve_frames conn id (fst (frames q)) (snd (frames q)).

(** An input that begins with [GET]. *)
Definition upgrade (conn : Z) (id : string) (q : list byte) : G (list byte) :=
  let request := String.string_of_list_byte q in
  match header_end request with
  | None =>
      (if 8192 <? Z.of_nat (String.length request)
       then send conn (text (badRequestResponse "header too large"));; forceClose conn else mret tt);;
      mret q
  | Some pos =>
      let result := buildServerResponse (ge_sha1 E) (ge_base64 E) (String.substring 0 pos request) in
      send conn (text (hs_response result));;
      if hs_ok result then
        modify (fun g => set_ids (gw_ids g) (<[conn := true]> (gw_websockets g)) g);;
        update_manager (markWebSocket id true);;
        as_frames conn id (drop pos q)
      else forceClose conn;; mret (drop pos q)
  end.

(** [onMessage] on the bytes themselves. *)
Definition serve_input (conn : Z) (q : list byte) : G (list byte) :=
  id ← getConnectionIdFromConnection conn;
  websocket ← is_websocket conn;
  if (websocket : bool) then as_frames conn id q
  else if starts_get q then upgrade conn id q
  else serve_packets conn id (fst (packets q)) (snd (packets q)).

Lemma prefix_length p s : String.prefix p s = true -> (String.length p <= String.length s)%nat.
Proof.
  revert s. induction p as [|c p IH]; intros [|c' s]; cbn; [lia..|done|].
  destruct (Ascii.ascii_dec c c'); [|done]. intros ?%IH. lia.
Qed.

Lemma header_end_bound s n : header_end s = Some n -> (n <= String.length s)%nat.
Proof.
  revert n. induction s as [|c s IH]; intros n; cbn [header_end]; [done|].
  destruct (String.prefix _ _) eqn:Hp.
  - intros [= <-]. by apply prefix_length in Hp.
  - destruct (header_end s) as [k|]; [|done]. intros [= <-]. specialize (IH k eq_refl). cbn. lia.
Qed.

Lemma length_string_of_bytes q : String.length (String.string_of_list_byte q) = length q.
Proof. unfold String.string_of_list_byte. induction q; cbn; congruence. Qed.

Lemma startsWithGet_contents b : Inv b -> startsWithGet b = starts_get (contents b).
Proof.
  intros HI. unfold startsWithGet, starts_get. rewrite length_contents by done.
  destruct (Nat.leb_spec 4 (readableBytes b)); [|done]. by rewrite take_peek.
Qed.

Lemma upgrade_served conn id b g :
  Inv b -> startsWithGet b = true ->
  same_run
    (('(websocket, buffer) ←
        ('(ok, buffer) ← tryHandleWebSocketHandshake E conn b;
         if negb ok then mret (None, buffer)
         else
           modify (fun g => set_ids (gw_ids g) (<[conn := true]> (gw_websockets g)) g);;
           update_manager (markWebSocket id true);;
           mret (Some true, buffer));
      match websocket with
      | None => mret buffer
      | Some true => onWebSocketMessage E (S (readableBytes buffer)) conn id buffer
      | Some false => onTcpMessage E (S (readableBytes buffer)) conn id buffer
      end : G Buffer) g)
    (upgrade conn id (contents b) g).
Proof.
  intros HI Hget. unfold tryHandleWebSocketHandshake, upgrade. rewrite <- contents_peek.
  set (request := String.string_of_list_byte (contents b)).
  destruct (header_end request) as [pos|] eqn:Hend; unfold mbind, SM_bind.
  - destruct (send _ _ g) as [[[] g1]|]; [|done].
    assert (pos <= length (contents b))%nat as Hpos.
    { apply header_end_bound in Hend. unfold request in Hend. by rewrite length_string_of_bytes in Hend. }
    pose proof (retrieve_spec pos b HI) as Hr. unfold q_retrieve in Hr. rewrite decide_True in Hr by done.
    destruct (retrieve pos b) as [b'|]; [|done]. destruct Hr as [HI' [= ->]].
    unfold modify, mret, SM_ret. destruct (hs_ok _); cbn [negb].
    + destruct (update_manager _ _) as [[? g2]|]; [|done]. apply websocket_served; [done|lia].
    + by destruct (forceClose _ _) as [[[] g2]|].
  - by destruct ((if _ <? _ then _ else _ : G unit) g) as [[[] g1]|].
Qed.

Lemma message_served conn b g : Inv b -> same_run (onMessage E conn b g) (serve_input conn (contents b) g).
Proof.
  intros HI. unfold onMessage, serve_input. apply same_run_bind. intros id g1. apply same_run_bind. intros ws g2.
  rewrite <- startsWithGet_contents by done. destruct ws; cbn [negb andb]; [apply websocket_served; [done|lia]|].
  destruct (startsWithGet b) eqn:Hget; [by apply upgrade_served|]. apply tcp_served; [done|lia].
Qed.

End Streams.
