(* ===== verification/GatewayLogic.v ===== *)
(** * Reasoning about the gateway

    [still g g']: between two states neither the tables of connections nor
    the queues of work nor the log of calls have changed; most of the code
    only counts, limits and sends, and is [Still].  [Preserves I m] is the
    preservation of an invariant by a run; what is [Still] preserves every
    [Stable] invariant. *)

From S2P Require Import Prelude Words Text NetBuffer Protocol WebSocket MessageId Rpc Db MessageStore.
From S2P Require Import Directory MessageService Breaker Redis Push UserService Connections Gateway GatewayServer.
Local Open Scope Z_scope.

Section Logic.
Context `{Srv : RedisServer}.

Record still (g g' : gworld) : Prop := {
  still_manager : gw_manager g' = gw_manager g;
  still_ids : gw_ids g' = gw_ids g;
  still_websockets : gw_websockets g' = gw_websockets g;
  still_tasks : gw_tasks g' = gw_tasks g;
  still_callbacks : gw_callbacks g' = gw_callbacks g;
  still_calls : gw_calls g' = gw_calls g;
  still_sockets conn : is_Some (gw_sockets g' !! conn) <-> is_Some (gw_sockets g !! conn)
}.

#[global] Instance still_preorder : PreOrder still.
Proof.
  split; [by intros g|]. intros g1 g2 g3 H1 H2.
  split; [destruct H1, H2; congruence..|]. intros c. by rewrite (still_sockets _ _ H2), (still_sockets _ _ H1).
Qed.

Class Still {A} (m : G A) : Prop := stays : forall g a g', m g = Some (a, g') -> still g g'.

Class Preserves (I : gworld -> Prop) {A} (m : G A) : Prop :=
  preserved : forall g a g', m g = Some (a, g') -> I g -> I g'.

Class Stable (I : gworld -> Prop) : Prop := stable : forall g g', still g g' -> I g -> I g'.

(** ** Composition *)

#[global] Instance preserves_still I {A} (m : G A) : Stable I -> Still m -> Preserves I m | 10.
Proof. intros HI Hm g a g' Hr. exact (HI _ _ (Hm _ _ _ Hr)). Qed.

#[global] Instance still_ret {A} (a : A) : Still (mret a : G A).
Proof. by intros g ? g' [= <- <-]. Qed.
#[global] Instance still_bind {A B} (m : G A) (k : A -> G B) :
  Still m -> (forall a, Still (k a)) -> Still (m ≫= k).
Proof. intros Hm Hk g b g' (a&g1&H1&H2)%run_bind_Some. etrans; [exact (Hm _ _ _ H1)|exact (Hk _ _ _ _ H2)]. Qed.
#[global] Instance still_if {A} (b : bool) (m1 m2 : G A) : Still m1 -> Still m2 -> Still (if b then m1 else m2).
Proof. by destruct b. Qed.
#[global] Instance still_option {A C} (c : option C) (f : C -> G A) m :
  (forall x, Still (f x)) -> Still m -> Still (match c with Some x => f x | None => m end).
Proof. by destruct c. Qed.
#[global] Instance still_get : Still (get_state : G gworld).
Proof. by intros g a g' [= <- <-]. Qed.
#[global] Instance still_node {A} (m : R A) : Still (gnode m).
Proof. by intros g a g' (r&_&->)%run_zoom. Qed.

#[global] Instance preserves_bind I {A B} (m : G A) (k : A -> G B) :
  Preserves I m -> (forall a, Preserves I (k a)) -> Preserves I (m ≫= k) | 5.
Proof. intros Hm Hk g b g' (a&g1&H1&H2)%run_bind_Some Hg. exact (Hk _ _ _ _ H2 (Hm _ _ _ H1 Hg)). Qed.
#[global] Instance preserves_if I {A} (b : bool) (m1 m2 : G A) :
  Preserves I m1 -> Preserves I m2 -> Preserves I (if b then m1 else m2) | 5.
Proof. by destruct b. Qed.
#[global] Instance preserves_option I {A C} (c : option C) (f : C -> G A) m :
  (forall x, Preserves I (f x)) -> Preserves I m -> Preserves I (match c with Some x => f x | None => m end) | 5.
Proof. by destruct c. Qed.
#[global] Instance preserves_pair I {A C D} (p : C * D) (f : C -> D -> G A) :
  (forall c d, Preserves I (f c d)) -> Preserves I (let '(c, d) := p in f c d) | 5.
Proof. by destruct p. Qed.
#[global] Instance preserves_stuck I {A} : Preserves I (stuck : G A).
Proof. by intros g a g'. Qed.

(** ** What only counts, limits and sends *)

#[global] Instance still_count name : Still (count name).
Proof. unfold count, gdb. apply _. Qed.
#[global] Instance still_gdb {A} (m : M A) : Still (gdb m).
Proof. unfold gdb. apply _. Qed.
#[global] Instance still_connected conn : Still (connected conn).
Proof. unfold connected. apply _. Qed.
#[global] Instance still_send conn bytes : Still (send conn bytes).
Proof. unfold send. apply still_bind; [apply _|]. intros []; [|apply _]. by intros g a g' [= <- <-]. Qed.
#[global] Instance still_forceClose conn : Still (forceClose conn).
Proof.
  intros g a g'. unfold forceClose, get_state, mbind, SM_bind.
  destruct (gw_sockets g !! conn) as [[]|] eqn:Hc; intros [= <- <-]; try done.
  all: split; try done; intros c; cbn; destruct (decide (conn = c)) as [<-|];
    [by rewrite lookup_insert_eq, Hc|by rewrite lookup_insert_ne].
Qed.
#[global] Instance still_is_websocket conn : Still (is_websocket conn).
Proof. unfold is_websocket. apply _. Qed.
#[global] Instance still_encoded p : Still (encoded p).
Proof. intros g a g'. unfold encoded. destruct (PacketCodec.encode p); by intros [= <- <-]. Qed.
#[global] Instance still_sendPacket conn p : Still (sendPacket conn p).
Proof. unfold sendPacket. apply _. Qed.
#[global] Instance still_sendError E conn s c m id : Still (sendError E conn s c m id).
Proof. unfold sendError. apply _. Qed.
#[global] Instance still_limiter E : Still (limiter E).
Proof. by intros g a g' [= <- <-]. Qed.
#[global] Instance still_breaker_allow E name : Still (breaker_allow E name).
Proof. intros g a g'. unfold breaker_allow. destruct (manager_allowRequest _ _ _). by intros [= <- <-]. Qed.
#[global] Instance still_record_outcome E {A} name (r : string + A) : Still (record_outcome E name r).
Proof. unfold record_outcome. by destruct r; intros ? ? ? [= <- <-]. Qed.
#[global] Instance still_submitOnlineTask t : Still (submitOnlineTask t).
Proof.
  unfold submitOnlineTask. apply still_bind; [apply _|]. intros g0. destruct (_ <=? _); [apply _|].
  by intros g a g' [= <- <-].
Qed.
#[global] Instance still_refreshOnlineAsync u d c : Still (refreshOnlineAsync u d c).
Proof. unfold refreshOnlineAsync. apply _. Qed.
#[global] Instance still_setOfflineAsync u d c : Still (setOfflineAsync u d c).
Proof. unfold setOfflineAsync. apply _. Qed.
#[global] Instance still_allowPacket E conn id s : Still (allowPacket E conn id s).
Proof. unfold allowPacket. apply _. Qed.
#[global] Instance still_live_connection c : Still (live_connection c).
Proof. unfold live_connection. apply _. Qed.
#[global] Instance still_executor_error E conn s id : Still (executor_error E conn s id).
Proof. unfold executor_error. apply _. Qed.
#[global] Instance still_requireAuth E conn c s : Still (requireAuth E conn c s).
Proof. unfold requireAuth. apply _. Qed.
#[global] Instance still_close_frame conn reason : Still (close_frame conn reason).
Proof. unfold close_frame. apply _. Qed.
#[global] Instance still_pass_on E {A} c s id t (write : A -> list byte) r : Still (pass_on E c s id t write r).
Proof. unfold pass_on. apply _. Qed.
#[global] Instance still_getConnectionId conn : Still (getConnectionIdFromConnection conn).
Proof. unfold getConnectionIdFromConnection. apply _. Qed.
#[global] Instance still_handleHeartbeat E conn id p : Still (handleHeartbeat E conn id p).
Proof. unfold handleHeartbeat. apply _. Qed.

(** ** The router *)

(** The connection and the user a task acts for. *)
Definition task_user (t : task) : option (string * Z) :=
  match t with
  | TSingle c _ q => Some (c, ss_from_user_id q)
  | TGroup c _ q => Some (c, sg_from_user_id q)
  | TAck c _ q => Some (c, mr_user_id q)
  | TPull c _ q => Some (c, pr_user_id q)
  | _ => None
  end.

(** What the router needs of an invariant.  [known c u calls]: by the calls so
    far the connection [c] belongs to the user [u]. *)
Class Routable (I : gworld -> Prop) (known : string -> Z -> list backend_call -> Prop) : Prop := {
  rt_stable :: Stable I;
  rt_auth g id ctx : I g -> getContext id (gw_manager g) = Some ctx -> cc_authenticated ctx = true ->
    known id (cc_user_id ctx) (gw_calls g);
  rt_submit n t g a g' : submit n t g = Some (a, g') -> I g ->
    (forall c u, task_user t = Some (c, u) -> known c u (gw_calls g)) -> I g';
  rt_touch now id :: Preserves I (update_manager (updateActiveTime now id));
  rt_upgrade conn g a g' :
    (modify (fun g => set_ids (gw_ids g) (<[conn := true]> (gw_websockets g)) g);;
     update_manager (markWebSocket (default EmptyString (gw_ids g !! conn)) true)) g = Some (a, g') -> I g -> I g'
}.

Section Router.
Context (E : GEnv) (o : GatewayOnlineManager) {I known} {HI : Routable I known}.

Abbreviation within c u := (fun g => I g /\ known c u (gw_calls g)).

#[local] Instance within_stable c u : Stable (within c u).
Proof. intros g g' Hs [Hi Hk]. rewrite (still_calls _ _ Hs). split; [exact (rt_stable _ _ Hs Hi)|done]. Qed.

Lemma submit_calls n t g a g' : submit n t g = Some (a, g') -> gw_calls g' = gw_calls g.
Proof. unfold submit, get_state, mbind, SM_bind. destruct (_ && _); by intros [= _ <-]. Qed.

#[local] Instance hand_over_within conn s id t c u :
  task_user t = Some (c, u) -> Preserves (within c u) (hand_over E conn s id t).
Proof.
  intros Ht. unfold hand_over. destruct (ge_executor E) as [max|]; [|apply _].
  intros g a g' Hr [Hi Hk]. rewrite (submit_calls _ _ _ _ _ Hr). split; [|done].
  eapply rt_submit; [done..|]. intros c' u' He. rewrite Ht in He. by injection He as <- <-.
Qed.

Lemma hand_over_free conn s id t : task_user t = None -> Preserves I (hand_over E conn s id t).
Proof.
  intros Ht. unfold hand_over. destruct (ge_executor E) as [max|]; [|apply _].
  intros g a g' Hr Hi. eapply rt_submit; [done..|]. intros c u He. by rewrite Ht in He.
Qed.

(** A handler behind [requireAuth] may assume that the user is known. *)
Lemma behind_auth conn id seq (k : ConnectionContext -> G unit) :
  (forall auth, Preserves (within id (cc_user_id auth)) (k auth)) ->
  Preserves I (auth ← requireAuth E conn id seq; match auth with None => mret tt | Some auth => k auth end).
Proof.
  intros Hk g a g' (auth&g1&H1&H2)%run_bind_Some Hi. pose proof (stays _ _ _ H1) as Hs.
  pose proof (rt_stable _ _ Hs Hi) as Hi1. destruct auth as [auth|]; [|by injection H2 as _ <-].
  apply (Hk auth _ _ _ H2). split; [done|]. rewrite (still_calls _ _ Hs).
  revert H1. unfold requireAuth, get_state, mbind, SM_bind.
  destruct (getContext id (gw_manager g)) as [ctx|] eqn:Hc; [destruct (cc_authenticated ctx) eqn:Ha|];
    [|destruct (sendError _ _ _ _ _ _ _) as [[[] ?]|]; by intros [=]..].
  intros [= -> ->]. by eapply rt_auth.
Qed.

(** Past the comparison of the user ids they are equal. *)
Lemma same_user J (a b : Z) (m1 m2 : G unit) :
  Preserves J m1 -> (a = b -> Preserves J m2) -> Preserves J (if negb (a =? b) then m1 else m2).
Proof. intros H1 H2. destruct (Z.eqb_spec a b); cbn; auto. Qed.

Ltac handle := apply behind_auth; intros auth; cbv zeta; apply preserves_option; [intros q|apply _];
  apply same_user; [apply _|]; intros Heq;
  repeat first [apply preserves_bind; [apply _|]; intros ? | apply preserves_if; [apply _|]];
  apply hand_over_within; cbn; by rewrite Heq.

#[local] Instance preserves_handleSendSingleMessage conn id p : Preserves I (handleSendSingleMessage E conn id p).
Proof. unfold handleSendSingleMessage. handle. Qed.
#[local] Instance preserves_handleSendGroupMessage conn id p : Preserves I (handleSendGroupMessage E conn id p).
Proof. unfold handleSendGroupMessage. handle. Qed.
#[local] Instance preserves_handleAck conn id p : Preserves I (handleAck E conn id p).
Proof. unfold handleAck. handle. Qed.
#[local] Instance preserves_handlePull conn id p : Preserves I (handlePullOfflineMessages E conn id p).
Proof. unfold handlePullOfflineMessages. handle. Qed.

#[local] Hint Extern 5 (Preserves _ (hand_over _ _ _ _ _)) => by apply hand_over_free : typeclass_instances.

#[local] Instance preserves_handleRegister conn id p : Preserves I (handleRegister E conn id p).
Proof. unfold handleRegister. apply _. Qed.
#[local] Instance preserves_handleLogin conn id p : Preserves I (handleLogin E conn id p).
Proof. unfold handleLogin. apply _. Qed.
#[local] Instance preserves_handleResumeSession conn id p : Preserves I (handleResumeSession E conn id p).
Proof.
  unfold handleResumeSession. cbv zeta. destruct (parse_resume _ _) as [parsed req].
  apply preserves_if; [apply _|]. apply preserves_bind; [apply _|]. intros allowed. apply preserves_if; [apply _|].
  apply preserves_bind; [apply _|]. intros []; [|apply _]. destruct (ge_executor E); [|apply _].
  intros g a g' Hr Hi. by eapply rt_submit.
Qed.

#[global] Instance preserves_handlePacket conn id p : Preserves I (handlePacket E conn id p).
Proof.
  unfold handlePacket. repeat (apply preserves_bind; [apply _|]; intros ?). destruct (p_type p); apply _.
Qed.

#[local] Instance preserves_onTcpMessage fuel conn id b : Preserves I (onTcpMessage E fuel conn id b).
Proof.
  revert b. induction fuel as [|fuel IH]; intros b; cbn [onTcpMessage]; [apply _|].
  apply preserves_if; [apply _|]. destruct (PacketCodec.decode_checked _ _) as [[[[] b'] p]|]; apply _.
Qed.

#[local] Instance preserves_frame_packets fuel conn id b : Preserves I (frame_packets E fuel conn id b).
Proof.
  revert b. induction fuel as [|fuel IH]; intros b; cbn [frame_packets]; [apply _|].
  apply preserves_if; [apply _|]. destruct (PacketCodec.decode_checked _ _) as [[[[] b'] p]|]; apply _.
Qed.

#[local] Instance preserves_onWebSocketMessage fuel conn id b : Preserves I (onWebSocketMessage E fuel conn id b).
Proof.
  revert b. induction fuel as [|fuel IH]; intros b; cbn [onWebSocketMessage]; [apply _|].
  apply preserves_if; [apply _|]. destruct (WebSocketCodec.decodeFrame _) as [[[[] b'] [f|]]|]; try apply _.
  destruct (opcode f); apply _.
Qed.

#[local] Instance still_handshake conn b : Still (tryHandleWebSocketHandshake E conn b).
Proof.
  unfold tryHandleWebSocketHandshake. destruct (header_end _) as [pos|]; [|apply _].
  apply still_bind; [apply _|]. intros _. destruct (Buffer.retrieve pos b); [apply _|by intros ? ? ?].
Qed.

#[global] Instance preserves_onMessage conn b : Preserves I (onMessage E conn b).
Proof.
  intros g b' g'. unfold onMessage.
  intros (id&g1&H1&(ws&g2&H2&(r&g3&H3&H4)%run_bind_Some)%run_bind_Some)%run_bind_Some Hi.
  assert (g1 = g /\ id = default EmptyString (gw_ids g !! conn)) as [-> ->] by by injection H1.
  assert (g2 = g) as -> by by injection H2. clear H1 H2.
  assert (I g3) as Hi3.
  { destruct (negb ws && _); [|by injection H3 as _ <-].
    apply run_bind_Some in H3 as ([ok b1]&g4&H3&H5). pose proof (stays _ _ _ H3) as Hs.
    pose proof (rt_stable _ _ Hs Hi) as Hi4. destruct ok; cbn [negb] in H5; [|by injection H5 as _ <-].
    rewrite <- (still_ids _ _ Hs) in H5. apply run_bind_Some in H5 as ([]&g5&H5&(?&g6&H6&[= _ <-])%run_bind_Some).
    eapply (rt_upgrade conn g4); [|done]. unfold mbind, SM_bind. rewrite H5. exact H6. }
  destruct r as [[[]|] b1]; [..|by injection H4 as _ <-]; exact (preserved _ _ _ H4 Hi3).
Qed.

End Router.
End Logic.
