(* ===== verification/GatewaySteps.v ===== *)
(** * The gateway as a transition system

    What may happen next in a gateway: a connection is accepted or closed,
    bytes arrive, a worker runs any submitted task, an event loop runs any
    queued callback, the online worker runs a task, the heartbeat timer fires,
    an RPC arrives.  Each is one step; the steps come in any order.  Two
    invariants of the reachable states: the tables of the server and of the
    connection manager agree, and a connection acts only for a user it has
    identified itself as. *)

From S2P Require Import Prelude Words Text NetBuffer Protocol WebSocket MessageId Rpc Db MessageStore.
From S2P Require Import Directory MessageService Breaker Redis Push UserService Connections Gateway GatewayServer GatewayLogic.
Local Open Scope Z_scope.

Section Steps.
Context `{Srv : RedisServer} (E : GEnv) (o : GatewayOnlineManager).

(** The numbers of connections are not exhausted: an accepted connection is not
    the last of 2^64. *)
Inductive gstep : gworld -> gworld -> Prop :=
| step_accept conn peer g g' :
    gw_sockets g !! conn = None -> cm_next_conn_id (gw_manager g) < 18446744073709551615 ->
    on_connected E conn peer g = Some (tt, g') -> gstep g g'
| step_input conn b b' g g' : onMessage E conn b g = Some (b', g') -> gstep g g'
| step_close conn g g' : on_closed conn g = Some (tt, g') -> gstep g g'
| step_task before t after g g' :
    gw_tasks g = before ++ t :: after ->
    run_task E o t (set_work (before ++ after) (gw_callbacks g) (gw_online g) g) = Some (tt, g') -> gstep g g'
| step_callback before c after g g' :
    gw_callbacks g = before ++ c :: after ->
    run_callback E c (set_work (gw_tasks g) (before ++ after) (gw_online g) g) = Some (tt, g') -> gstep g g'
| step_online before t after g g' :
    gw_online g = before ++ t :: after ->
    run_online E o t (set_work (gw_tasks g) (gw_callbacks g) (before ++ after) g) = Some (tt, g') -> gstep g g'
| step_heartbeat g g' : checkHeartbeatTimeout E g = Some (tt, g') -> gstep g g'
| step_deliver context q r g g' : DeliverToConnection E context q g = Some (r, g') -> gstep g g'
| step_kick_user context q r g g' : KickUser E context q g = Some (r, g') -> gstep g g'
| step_kick_connection context q r g g' : KickConnection E context q g = Some (r, g') -> gstep g g'
| step_status context q r g g' : GetOnlineStatus E o context q g = Some (r, g') -> gstep g g'.

(** A gateway that has just started. *)
Record starting (g : gworld) : Prop := {
  st_manager : exists gateway_id, gw_manager g = ConnectionManager_new gateway_id;
  st_sockets : gw_sockets g = ∅;
  st_ids : gw_ids g = ∅;
  st_tasks : gw_tasks g = [];
  st_callbacks : gw_callbacks g = [];
  st_calls : gw_calls g = []
}.

Definition reachable (g : gworld) : Prop := exists g0, starting g0 /\ rtc gstep g0 g.

Lemma reachable_invariant (I : gworld -> Prop) g :
  (forall g, starting g -> I g) -> (forall g g', gstep g g' -> I g -> I g') -> reachable g -> I g.
Proof. intros H0 Hs (g0&Hst&Hr). apply H0 in Hst. induction Hr; eauto. Qed.

(** ** Steps that leave the tables and the work alone *)

#[local] Instance still_close_all ids : Still (close_all ids).
Proof. induction ids as [|id ids IH]; cbn [close_all]; apply _. Qed.
#[local] Instance still_checkHeartbeatTimeout : Still (checkHeartbeatTimeout E).
Proof. unfold checkHeartbeatTimeout. apply _. Qed.
#[local] Instance still_force_all conns : Still (force_all conns).
Proof. induction conns as [|c conns IH]; cbn [force_all]; apply _. Qed.
#[local] Instance still_DeliverToConnection context q : Still (DeliverToConnection E context q).
Proof. unfold DeliverToConnection. apply _. Qed.
#[local] Instance still_KickUser context q : Still (KickUser E context q).
Proof. unfold KickUser. apply _. Qed.
#[local] Instance still_KickConnection context q : Still (KickConnection E context q).
Proof. unfold KickConnection. apply _. Qed.
#[local] Instance still_GetOnlineStatus context q : Still (GetOnlineStatus E o context q).
Proof. unfold GetOnlineStatus. apply _. Qed.
#[local] Instance still_run_online t : Still (run_online E o t).
Proof. unfold run_online. apply _. Qed.

(** What has to be shown of an invariant the router keeps. *)
Lemma gstep_invariant I known :
  Routable I known ->
  (forall conn peer g g', gw_sockets g !! conn = None -> cm_next_conn_id (gw_manager g) < 18446744073709551615 ->
     on_connected E conn peer g = Some (tt, g') -> I g -> I g') ->
  (forall conn, Preserves I (on_closed conn)) ->
  (forall before t after g g', gw_tasks g = before ++ t :: after ->
     run_task E o t (set_work (before ++ after) (gw_callbacks g) (gw_online g) g) = Some (tt, g') -> I g -> I g') ->
  (forall before c after g g', gw_callbacks g = before ++ c :: after ->
     run_callback E c (set_work (gw_tasks g) (before ++ after) (gw_online g) g) = Some (tt, g') -> I g -> I g') ->
  forall g g', gstep g g' -> I g -> I g'.
Proof.
  intros HI Ha Hc Ht Hk g g' Hs Hg. pose proof (rt_stable (I := I)) as HS.
  destruct Hs as [?????? Hr|????? Hr|??? Hr|?????? Hr|?????? Hr|before t after g g' Hq Hr|?? Hr|????? Hr|????? Hr|????? Hr|????? Hr];
    [by eapply Ha|exact (preserves_onMessage E _ _ _ _ _ Hr Hg)|exact (Hc _ _ _ _ Hr Hg)|by eapply Ht|by eapply Hk|..];
    try exact (HS _ _ (stays _ _ _ Hr) Hg).
  apply (HS _ _ (stays _ _ _ Hr)). by apply (HS g).
Qed.

(** ** The tables agree *)

(** The server's tables are keyed by connection, the manager's by id. *)
Record tables_ok (g : gworld) : Prop := {
  t_manager : manager_ok (gw_manager g);
  t_ids conn id : gw_ids g !! conn = Some id <-> getConnection id (gw_manager g) = Some conn;
  t_sockets conn : is_Some (gw_ids g !! conn) -> is_Some (gw_sockets g !! conn);
  t_websockets conn id ctx : gw_ids g !! conn = Some id -> getContext id (gw_manager g) = Some ctx ->
    gw_websockets g !! conn = Some (cc_websocket ctx)
}.

#[local] Instance tables_stable : Stable tables_ok.
Proof.
  intros g g' [Hm Hi Hw _ _ _ Hs] [H1 H2 H3 H4]. split; rewrite ?Hm, ?Hi, ?Hw; try done.
  intros conn Hc. apply Hs. by apply H3.
Qed.

(** An update of the manager that adds and removes no connection and keeps the
    kind of each. *)
Lemma tables_update {A} (f : ConnectionManager -> A * ConnectionManager) :
  (forall m, manager_ok m -> manager_ok (snd (f m))) ->
  (forall m, cm_connections (snd (f m)) = cm_connections m) ->
  (forall m id ctx, getContext id (snd (f m)) = Some ctx ->
     exists ctx', getContext id m = Some ctx' /\ cc_websocket ctx' = cc_websocket ctx) ->
  Preserves tables_ok (update_manager f).
Proof.
  intros Hok Hc Hw g a g'. unfold update_manager. destruct (f (gw_manager g)) as [x m] eqn:Hf.
  intros [= _ <-] [H1 H2 H3 H4]. specialize (Hok _ H1). specialize (Hc (gw_manager g)). specialize (Hw (gw_manager g)).
  rewrite Hf in Hok, Hc, Hw. cbn in Hok, Hc, Hw.
  split; cbn; [done| |done|].
  - intros conn id. unfold getConnection. rewrite Hc. apply H2.
  - intros conn id ctx Hi (ctx'&Hx&<-)%Hw. eauto.
Qed.

Lemma update_context_websocket id ctx ctx' m id0 ctx0 :
  getContext id m = Some ctx -> cc_websocket ctx' = cc_websocket ctx ->
  getContext id0 (set_contexts (<[id := ctx']> (cm_contexts m)) m) = Some ctx0 ->
  exists ctx1, getContext id0 m = Some ctx1 /\ cc_websocket ctx1 = cc_websocket ctx0.
Proof. unfold getContext. cbn. intros Hc He [[<- <-]|[_ Hx]]%lookup_insert_Some; eauto. Qed.

#[local] Instance tables_touch now id : Preserves tables_ok (update_manager (updateActiveTime now id)).
Proof.
  apply tables_update; [intros m; apply updateActiveTime_ok|..]; intros m; unfold updateActiveTime;
    destruct (cm_contexts m !! id) as [ctx|] eqn:Hc; cbn; try done.
  - intros id0 ctx0. by apply (update_context_websocket id ctx).
  - eauto.
Qed.

#[local] Instance tables_bind now id u token d platform :
  Preserves tables_ok (update_manager (bindUser now id u token d platform)).
Proof.
  apply tables_update.
  - intros m Hm. destruct (bindUser _ _ _ _ _ _ m) as [[ok r] m'] eqn:Hb. exact (bindUser_ok _ _ _ _ _ _ _ _ _ _ Hb Hm).
  - intros m. unfold bindUser. destruct (_ || _); [done|]. by destruct (cm_contexts m !! id).
  - intros m id0 ctx0. unfold bindUser, getContext. destruct (_ || _); [eauto|].
    destruct (cm_contexts m !! id) as [ctx|] eqn:Hc; [cbn|eauto].
    intros [[<- <-]|[_ Hx]]%lookup_insert_Some; eauto.
Qed.

(** Work and calls are no part of the tables. *)
Lemma tables_same {A} (m : G A) :
  (forall g a g', m g = Some (a, g') -> gw_manager g' = gw_manager g /\ gw_ids g' = gw_ids g /\
     gw_websockets g' = gw_websockets g /\ gw_sockets g' = gw_sockets g) ->
  Preserves tables_ok m.
Proof. intros Hm g a g' (H1&H2&H3&H4)%Hm [????]. split; by rewrite ?H1, ?H2, ?H3, ?H4. Qed.

#[local] Instance tables_add_callback c : Preserves tables_ok (add_callback c).
Proof. apply tables_same. by intros g a g' [= _ <-]. Qed.
#[local] Instance tables_submit n t : Preserves tables_ok (submit n t).
Proof.
  apply tables_same. intros g a g'. unfold submit, get_state, mbind, SM_bind. destruct (_ && _); by intros [= _ <-].
Qed.
#[local] Instance tables_backend {A} (answer : nat -> A) entry : Preserves tables_ok (backend answer entry).
Proof. apply tables_same. by intros g a g' [= _ <-]. Qed.
#[local] Instance tables_bind_user id u token d platform : Preserves tables_ok (bind_user E id u token d platform).
Proof. unfold bind_user. apply preserves_bind; [apply _|]. intros now. apply preserves_bind; [apply _|]. intros [ok r]. apply _. Qed.

(** The id looked up for a connection is no other connection's. *)
Lemma same_connection g conn c : tables_ok g -> gw_ids g !! c = Some (default EmptyString (gw_ids g !! conn)) -> conn = c.
Proof.
  intros [H1 H2 _ _] Hi. apply H2 in Hi. destruct (gw_ids g !! conn) as [j|] eqn:Hj.
  { apply H2 in Hj. change (getConnection j (gw_manager g) = Some c) in Hi. congruence. }
  destruct (ok_connections _ H1 _ _ Hi) as [ctx Hc]. destruct (ok_ids _ H1 _ _ Hc) as (_&_&n&Hn&_).
  by destruct (cm_gateway_id (gw_manager g)).
Qed.

Lemma tables_upgrade conn g a g' :
  (modify (fun g => set_ids (gw_ids g) (<[conn := true]> (gw_websockets g)) g);;
   update_manager (markWebSocket (default EmptyString (gw_ids g !! conn)) true)) g = Some (a, g') ->
  tables_ok g -> tables_ok g'.
Proof.
  unfold modify, update_manager, mbind, SM_bind. set (id := default EmptyString _). cbn.
  destruct (markWebSocket id true (gw_manager g)) as [ok m] eqn:Hf. intros [= _ <-] Hg. destruct Hg as [H1 H2 H3 H4] eqn:HG.
  pose proof (markWebSocket_ok id true _ H1) as Hok. rewrite Hf in Hok. revert Hf. unfold markWebSocket.
  destruct (cm_contexts (gw_manager g) !! id) as [ctx|] eqn:Hc; intros [= _ <-]; (split; cbn; [done..|]).
  all: intros c i ctx0 Hi Hx; destruct (decide (conn = c)) as [<-|Hn]; [rewrite lookup_insert_eq|rewrite lookup_insert_ne by done].
  - assert (i = id) as -> by (unfold id; by rewrite Hi). unfold getContext in Hx. cbn in Hx.
    rewrite lookup_insert_eq in Hx. by injection Hx as <-.
  - apply (H4 c i); [done|]. unfold getContext in *. cbn in Hx. rewrite lookup_insert_ne in Hx; [done|].
    intros <-. by apply (same_connection g) in Hi.
  - exfalso. assert (i = id) as -> by (unfold id; by rewrite Hi). unfold getContext in Hx. congruence.
  - by apply (H4 c i).
Qed.

#[local] Instance tables_routable : Routable tables_ok (fun _ _ _ => True).
Proof.
  split; [apply _|done|..].
  - intros n t g a g' Hr Hg _. exact (preserved _ _ _ Hr Hg).
  - apply _.
  - apply tables_upgrade.
Qed.

Lemma tables_add now conn peer g id m :
  tables_ok g -> gw_ids g !! conn = None -> is_Some (gw_sockets g !! conn) ->
  cm_next_conn_id (gw_manager g) < 18446744073709551615 ->
  addConnection now conn peer (gw_manager g) = (id, m) ->
  tables_ok (set_ids (<[conn := id]> (gw_ids g)) (<[conn := false]> (gw_websockets g)) (set_manager m g)).
Proof.
  intros [H1 H2 H3 H4] Hn Hs Hb Ha. pose proof (addConnection_ok now conn peer _ H1 Hb) as Hok. rewrite Ha in Hok.
  unfold addConnection, generateConnectionId in Ha.
  assert (cm_connections (gw_manager g) !! id = None) as Hfresh.
  { injection Ha as Hid _. destruct (cm_connections (gw_manager g) !! id) as [c|] eqn:Hc; [|done].
    destruct (ok_connections _ H1 _ _ Hc) as [ctx Hx]. destruct (ok_ids _ H1 _ _ Hx) as (_&_&n&He&Hr).
    rewrite <- Hid in He. pose proof (ok_next _ H1). apply connection_name_inj in He; lia. }
  injection Ha as Hid <-. rewrite !Hid in *. split; cbn in *; [done|..].
  - intros c i. unfold getConnection. cbn. destruct (decide (conn = c)) as [<-|Hne]; destruct (decide (id = i)) as [<-|Hni].
    + by rewrite !lookup_insert_eq.
    + rewrite lookup_insert_eq, lookup_insert_ne by done. split; [congruence|]. intros Hi%H2. congruence.
    + rewrite lookup_insert_ne, lookup_insert_eq by done. split; [|congruence]. intros Hi%H2. unfold getConnection in Hi. congruence.
    + rewrite !lookup_insert_ne by done. apply H2.
  - intros c. destruct (decide (conn = c)) as [<-|Hne]; [done|]. rewrite lookup_insert_ne by done. apply H3.
  - intros c i ctx. unfold getContext. cbn. destruct (decide (conn = c)) as [<-|Hne].
    + rewrite !lookup_insert_eq. intros [= <-]. rewrite lookup_insert_eq. by intros [= <-].
    + rewrite !(lookup_insert_ne _ conn) by done. intros Hi. rewrite lookup_insert_ne; [by apply (H4 c i)|].
      intros <-. apply H2 in Hi. unfold getConnection in Hi. congruence.
Qed.

Lemma tables_accept conn peer g g' :
  gw_sockets g !! conn = None -> cm_next_conn_id (gw_manager g) < 18446744073709551615 ->
  on_connected E conn peer g = Some (tt, g') -> tables_ok g -> tables_ok g'.
Proof.
  intros Hn Hb. unfold on_connected.
  intros ([]&g1&[= <-]&(now&g2&H2&(id&g3&H3&([]&g4&[= <-]&H5)%run_bind_Some)%run_bind_Some)%run_bind_Some)%run_bind_Some Hg.
  refine (tables_stable _ _ (stays _ _ _ H5) _). apply (stays _ _ _) in H2.
  revert H3. unfold update_manager. destruct (addConnection _ _ _ _) as [i m] eqn:Ha. intros [= <- <-].
  assert (gw_ids g !! conn = None) as Hi.
  { destruct (gw_ids g !! conn) eqn:Hi; [|done]. destruct (t_sockets _ Hg conn) as [? Hs]; [by rewrite Hi|congruence]. }
  apply (tables_add now conn peer g2 i m); [|rewrite (still_ids _ _ H2); exact Hi|..|by rewrite (still_manager _ _ H2)|done].
  - refine (tables_stable _ _ H2 _). destruct Hg as [G1 G2 G3 G4]. split; cbn; [done..| |done].
    intros c Hc. destruct (decide (conn = c)) as [<-|]; [by rewrite lookup_insert_eq|].
    rewrite lookup_insert_ne by done. by apply G3.
  - apply (still_sockets _ _ H2). cbn. by rewrite lookup_insert_eq.
Qed.

#[local] Instance tables_close conn : Preserves tables_ok (on_closed conn).
Proof.
  intros g [] g'. unfold on_closed.
  intros ([]&g1&[= <-]&(id&g2&[= Hid <-]&(g3&g4&[= <- <-]&([]&g5&H5&([]&g6&[= <-]&[= <-])%run_bind_Some)%run_bind_Some)%run_bind_Some)%run_bind_Some)%run_bind_Some Hg.
  assert (still (set_sockets (<[conn := DISCONNECTED]> (gw_sockets g)) g) g5) as Hs by exact (stays _ _ _ H5).
  clear H5. cbn in Hid. pose proof (fun c => same_connection g conn c Hg) as Hsame. rewrite Hid in Hsame.
  destruct Hg as [G1 G2 G3 G4]. destruct Hs as [Sm Si Sw _ _ _ Ss]. cbn in *. unfold getConnection, getContext in *.
  split; cbn; unfold getConnection, getContext; rewrite ?Sm, ?Si, ?Sw; cbn.
  - by apply removeConnection_ok.
  - intros c i. destruct (decide (conn = c)) as [<-|Hne].
    + rewrite lookup_delete_eq. split; [done|]. intros [Hn Hi%G2]%lookup_delete_Some. rewrite Hi in Hid. by cbn in Hid.
    + rewrite lookup_delete_ne by done. split.
      * intros Hi. rewrite lookup_delete_ne; [by apply G2|]. intros <-. by apply Hsame in Hi.
      * intros [_ Hi]%lookup_delete_Some. by apply G2.
  - intros c Hc. apply Ss. destruct (decide (conn = c)) as [<-|Hne]; [by rewrite lookup_insert_eq|].
    rewrite lookup_insert_ne by done. rewrite lookup_delete_ne in Hc by done. by apply G3.
  - intros c i ctx [Hne Hi]%lookup_delete_Some [_ Hx]%lookup_delete_Some. rewrite lookup_delete_ne by done. by apply (G4 c i).
Qed.

#[local] Instance tables_task t : Preserves tables_ok (run_task E o t).
Proof.
  destruct t; unfold run_task, login_task, resume_task; try apply _.
  all: apply preserves_bind; [|apply _]; apply preserves_bind; [apply _|]; intros reply;
    apply preserves_bind; [apply _|]; intros _; destruct reply; apply _.
Qed.

#[local] Instance tables_callback c : Preserves tables_ok (run_callback E c).
Proof.
  destruct c; unfold run_callback, login_callback, resume_callback; try apply _.
  all: apply preserves_bind; [apply _|]; intros live; destruct r; [|destruct live; apply _]; cbv zeta;
    destruct live; apply _.
Qed.

Lemma tables_starting g : starting g -> tables_ok g.
Proof.
  intros [(id&Hm) Hs Hi _ _ _]. split; unfold getConnection, getContext; rewrite ?Hm, ?Hi.
  - apply new_ok.
  - intros c i. cbn. by rewrite !lookup_empty.
  - intros c. rewrite lookup_empty. by intros [? [=]].
  - intros c i ctx. by rewrite lookup_empty.
Qed.

Lemma tables_step g g' : gstep g g' -> tables_ok g -> tables_ok g'.
Proof.
  apply (gstep_invariant tables_ok (fun _ _ _ => True)); [apply _|apply tables_accept|apply _|..].
  all: intros before x after g0 g1 _ Hr [????]; by apply (preserved _ _ _ Hr).
Qed.

(** ** Nobody acts for a user without having been identified *)

(** The call has shown that the connection [c] is the user [u]'s. *)
Definition identifies (c : string) (u : Z) (x : backend_call) : Prop :=
  match x with
  | BLogin c' _ (inr resp) => c' = c /\ r_code (lg_response resp) = 0 /\ lg_user_id resp = u
  | BValidate c' _ (inr v) => c' = c /\ r_code (vt_response v) = 0 /\ vt_valid v = true /\ vt_user_id v = u
  | _ => False
  end.

Definition identified (c : string) (u : Z) (calls : list backend_call) : Prop := Exists (identifies c u) calls.

(** The connection and the user a call acts for. *)
Definition call_user (x : backend_call) : option (string * Z) :=
  match x with
  | BSingle c q => Some (c, ss_from_user_id q)
  | BGroup c q => Some (c, sg_from_user_id q)
  | BAck c q => Some (c, mr_user_id q)
  | BPull c q => Some (c, pr_user_id q)
  | _ => None
  end.

(** The user a callback will bind its connection to. *)
Definition callback_user (c : callback) : option (string * Z) :=
  match c with
  | CbLogin c _ _ _ (Some r) =>
      if lt_rpc_ok r && (r_code (lg_response (lt_resp r)) =? 0) && lt_online_ok r
      then Some (c, lg_user_id (lt_resp r)) else None
  | CbResume c _ _ (Some r) =>
      if rt_rpc_ok r && (r_code (rsr_response (rt_resp r)) =? 0) && rt_online_ok r
      then Some (c, rsr_user_id (rt_resp r)) else None
  | _ => None
  end.

Definition calls_ok (calls : list backend_call) : Prop :=
  forall later x earlier c u, calls = later ++ x :: earlier -> call_user x = Some (c, u) -> identified c u earlier.

Record sound (g : gworld) : Prop := {
  s_contexts id ctx : getContext id (gw_manager g) = Some ctx -> cc_authenticated ctx = true ->
    identified id (cc_user_id ctx) (gw_calls g);
  s_tasks t c u : t ∈ gw_tasks g -> task_user t = Some (c, u) -> identified c u (gw_calls g);
  s_callbacks k c u : k ∈ gw_callbacks g -> callback_user k = Some (c, u) -> identified c u (gw_calls g);
  s_calls : calls_ok (gw_calls g)
}.

#[local] Instance sound_stable : Stable sound.
Proof. intros g g' [Hm _ _ Ht Hk Hc _] [????]. split; rewrite ?Hm, ?Ht, ?Hk, ?Hc; done. Qed.

(** An update of the manager that authenticates only identified connections. *)
Lemma sound_update {A} (f : ConnectionManager -> A * ConnectionManager) g a g' :
  (forall id ctx, getContext id (snd (f (gw_manager g))) = Some ctx -> cc_authenticated ctx = true ->
     (exists ctx0, getContext id (gw_manager g) = Some ctx0 /\ cc_authenticated ctx0 = true /\
        cc_user_id ctx0 = cc_user_id ctx) \/ identified id (cc_user_id ctx) (gw_calls g)) ->
  update_manager f g = Some (a, g') -> sound g -> sound g'.
Proof.
  intros Hf. unfold update_manager. destruct (f (gw_manager g)) as [x m] eqn:Hx. intros [= _ <-] [H1 H2 H3 H4].
  cbn in Hf. split; cbn; [|done..]. intros id ctx Hc Ha. destruct (Hf _ _ Hc Ha) as [(ctx0&?&?&<-)|]; eauto.
Qed.

Lemma sound_add_callback k g a g' :
  (forall c u, callback_user k = Some (c, u) -> identified c u (gw_calls g)) ->
  add_callback k g = Some (a, g') -> sound g -> sound g'.
Proof.
  intros Hk [= _ <-] [H1 H2 H3 H4]. split; cbn; [done..| |done].
  intros k' c u [Hin|Hin%list_elem_of_singleton]%elem_of_app; [by eapply H3|]. subst k'. apply Hk.
Qed.

Lemma identified_later c u x calls : identified c u calls -> identified c u (x :: calls).
Proof. apply Exists_cons_tl. Qed.

Lemma sound_backend {A} (answer : nat -> A) entry g a g' :
  (forall a c u, call_user (entry a) = Some (c, u) -> identified c u (gw_calls g)) ->
  backend answer entry g = Some (a, g') -> sound g -> sound g' /\ gw_calls g' = entry a :: gw_calls g.
Proof.
  intros He [= <- <-] [H1 H2 H3 H4]. split; [|done]. split; cbn.
  - eauto using identified_later.
  - eauto using identified_later.
  - eauto using identified_later.
  - intros [|y later] x earlier c u [= Hx Hl] Hc; [subst; eauto|]. by eapply H4.
Qed.

#[local] Instance sound_touch now id : Preserves sound (update_manager (updateActiveTime now id)).
Proof.
  intros g a g'. apply sound_update. unfold updateActiveTime, getContext. intros i ctx Hi Ha. left. revert Hi.
  destruct (cm_contexts (gw_manager g) !! id) as [c|] eqn:Hc; cbn; [|eauto].
  intros [[<- <-]|[_ Hx]]%lookup_insert_Some; eauto.
Qed.

Lemma sound_upgrade conn g a g' :
  (modify (fun g => set_ids (gw_ids g) (<[conn := true]> (gw_websockets g)) g);;
   update_manager (markWebSocket (default EmptyString (gw_ids g !! conn)) true)) g = Some (a, g') ->
  sound g -> sound g'.
Proof.
  set (id := default EmptyString _). intros ([]&g1&[= <-]&Hr)%run_bind_Some Hg.
  refine (sound_update _ _ _ _ _ Hr _); [|by destruct Hg]. cbn. unfold markWebSocket, getContext. intros i ctx Hi Ha. left. revert Hi.
  destruct (cm_contexts (gw_manager g) !! id) as [c|] eqn:Hc; cbn; [|eauto].
  intros [[<- <-]|[_ Hx]]%lookup_insert_Some; eauto.
Qed.

#[local] Instance sound_routable : Routable sound identified.
Proof.
  split; [apply _|intros g id ctx Hg; by apply (s_contexts g)| |apply _|apply sound_upgrade].
  intros n t g a g'. unfold submit, get_state, mbind, SM_bind. destruct (_ && _).
  - intros Hr Hg _. revert Hr Hg. apply sound_add_callback. by destruct t.
  - intros [= _ <-] [H1 H2 H3 H4] Ht. split; cbn; [done| |done..].
    intros t' c u [Hin|Hin%list_elem_of_singleton]%elem_of_app; [by eapply H2|]. subst t'. apply Ht.
Qed.

Lemma sound_accept conn peer : Preserves sound (on_connected E conn peer).
Proof.
  unfold on_connected. apply preserves_bind; [intros g a g' [= _ <-] [????]; done|]. intros _.
  apply preserves_bind; [apply _|]. intros now. apply preserves_bind.
  - intros g a g'. apply sound_update. unfold addConnection, getContext. cbn. intros id ctx.
    intros [[<- <-]|[_ Hx]]%lookup_insert_Some Ha; [done|]. eauto.
  - intros id. apply preserves_bind; [intros g a g' [= _ <-] [????]; done|apply _].
Qed.

#[local] Instance sound_close conn : Preserves sound (on_closed conn).
Proof.
  unfold on_closed. apply preserves_bind; [intros g a g' [= _ <-] [????]; done|]. intros _.
  do 3 (apply preserves_bind; [apply _|]; intros ?). apply preserves_bind; [|intros _ ? ? ? [= _ <-] [????]; done].
  intros w x w'. apply sound_update. unfold removeConnection, getContext. cbn.
  intros id ctx [_ Hx]%lookup_delete_Some Ha. eauto.
Qed.

(** Whoever a login or a resumption succeeds for has been identified. *)
Lemma sound_login_task c req d g r g' :
  login_task E o c req d g = Some (r, g') -> sound g ->
  sound g' /\ forall s c0 u, callback_user (CbLogin c s req d (Some r)) = Some (c0, u) -> identified c0 u (gw_calls g').
Proof.
  unfold login_task. intros (reply&g1&H1&([]&g2&H2&H3)%run_bind_Some)%run_bind_Some Hg.
  apply sound_backend in H1 as [Hg1 Hc1]; [|done..]. pose proof (stays _ _ _ H2) as Hs.
  apply (sound_stable _ _ Hs) in Hg1. rewrite <- (still_calls _ _ Hs) in Hc1.
  destruct reply as [message|resp]; [injection H3 as <- <-; split; [done|by intros]|].
  destruct (Z.eqb_spec (r_code (lg_response resp)) 0) as [Hz|Hz]; cycle 1.
  { injection H3 as <- <-. split; [done|]. intros s c0 u. cbn. apply Z.eqb_neq in Hz. by rewrite Hz. }
  apply run_bind_Some in H3 as (ok&g3&H3&[= <- <-]). pose proof (stays _ _ _ H3) as Hs3.
  split; [exact (sound_stable _ _ Hs3 Hg1)|]. intros s c0 u. rewrite (still_calls _ _ Hs3), Hc1.
  destruct ok; cbn; [|done]. rewrite Hz. cbn. intros [= <- <-]. by apply Exists_cons_hd.
Qed.

Lemma sound_resume_task c req g r g' :
  resume_task E o c req g = Some (r, g') -> sound g ->
  sound g' /\ forall s c0 u, callback_user (CbResume c s req (Some r)) = Some (c0, u) -> identified c0 u (gw_calls g').
Proof.
  unfold resume_task. cbv zeta. intros (reply&g1&H1&([]&g2&H2&H3)%run_bind_Some)%run_bind_Some Hg.
  apply sound_backend in H1 as [Hg1 Hc1]; [|done..]. pose proof (stays _ _ _ H2) as Hs.
  apply (sound_stable _ _ Hs) in Hg1. rewrite <- (still_calls _ _ Hs) in Hc1.
  destruct reply as [message|v]; [injection H3 as <- <-; split; [done|by intros]|].
  destruct (negb (r_code (vt_response v) =? 0) || _ || _) eqn:Hbad.
  { injection H3 as <- <-. split; [done|]. intros s c0 u. cbn. by rewrite andb_false_r. }
  apply orb_false_elim in Hbad as [[Hz Hv]%orb_false_elim _]. apply negb_false_iff in Hz, Hv. apply Z.eqb_eq in Hz.
  apply run_bind_Some in H3 as (ok&g3&H3&[= <- <-]). pose proof (stays _ _ _ H3) as Hs3.
  split; [exact (sound_stable _ _ Hs3 Hg1)|]. intros s c0 u. rewrite (still_calls _ _ Hs3), Hc1.
  destruct ok; cbn; [|done]. intros [= <- <-]. by apply Exists_cons_hd.
Qed.

(** A call for a user, its outcome and its callback. *)
Lemma sound_call {A} (answer : nat -> string + A) entry name (k : string + A -> callback) g a g' :
  (forall r, callback_user (k r) = None) ->
  (forall r c u, call_user (entry r) = Some (c, u) -> identified c u (gw_calls g)) ->
  (reply ← backend answer entry; record_outcome E name reply;; add_callback (k reply)) g = Some (a, g') ->
  sound g -> sound g'.
Proof.
  intros Hk He (reply&g1&H1&([]&g2&H2&H3)%run_bind_Some)%run_bind_Some Hg.
  apply sound_backend in H1 as [Hg1 _]; [|done..]. apply (sound_stable _ _ (stays _ _ _ H2)) in Hg1.
  refine (sound_add_callback _ _ _ _ _ H3 Hg1). intros c u. by rewrite Hk.
Qed.

Lemma elem_of_middle {A} (x : A) before after : x ∈ before ++ x :: after.
Proof. apply elem_of_app. right. apply list_elem_of_here. Qed.
Lemma elem_of_others {A} (x y : A) before after : y ∈ before ++ after -> y ∈ before ++ x :: after.
Proof. intros [H|H]%elem_of_app; apply elem_of_app; [by left|right]. by apply list_elem_of_further. Qed.

Lemma sound_task before t after g g' :
  gw_tasks g = before ++ t :: after ->
  run_task E o t (set_work (before ++ after) (gw_callbacks g) (gw_online g) g) = Some (tt, g') -> sound g -> sound g'.
Proof.
  intros Ht Hr Hg. set (g0 := set_work _ _ _ _) in Hr.
  assert (forall c u, task_user t = Some (c, u) -> identified c u (gw_calls g0)) as Hu.
  { intros c u. apply (s_tasks _ Hg). rewrite Ht. by apply elem_of_middle. }
  assert (sound g0) as Hg0.
  { destruct Hg as [H1 H2 H3 H4]. split; cbn; [done| |done..]. intros t' c u Hin. apply H2. rewrite Ht. by apply elem_of_others. }
  clearbody g0. clear Hg Ht. destruct t; unfold run_task in Hr.
  2: { apply run_bind_Some in Hr as (r&g1&(Hg1&Hk)%sound_login_task&H2); [|done].
       refine (sound_add_callback _ _ _ _ _ H2 Hg1). apply Hk. }
  2: { apply run_bind_Some in Hr as (r&g1&(Hg1&Hk)%sound_resume_task&H2); [|done].
       refine (sound_add_callback _ _ _ _ _ H2 Hg1). apply Hk. }
  all: eapply sound_call; [| |exact Hr|done]; [by intros|]; by intros r.
Qed.

Lemma sound_bind_user c u token d platform g ok g' :
  bind_user E c u token d platform g = Some (ok, g') -> sound g -> identified c u (gw_calls g) -> sound g'.
Proof.
  unfold bind_user.
  intros (now&g1&H1&([ok' replaced]&g2&H2&H3)%run_bind_Some)%run_bind_Some Hg Hu. pose proof (stays _ _ _ H1) as Hs.
  apply (sound_stable _ _ Hs) in Hg. rewrite <- (still_calls _ _ Hs) in Hu.
  assert (sound g2) as Hg2.
  { refine (sound_update _ _ _ _ _ H2 Hg). intros id ctx Hc Ha.
    destruct (bindUser _ _ _ _ _ _ _) as [[ok0 r0] m'] eqn:Hb.
    destruct (bindUser_bound _ _ _ _ _ _ _ _ _ _ _ _ Hb Hc Ha) as [Hold|(_&->&->)]; eauto. }
  exact (preserved _ _ _ H3 Hg2).
Qed.

(** A callback that binds its connection when [success], and answers. *)
Lemma sound_binding {A} (success : bool) c u token d platform (k : bool -> G A) (skip : G A) :
  (forall ok, Preserves sound (k ok)) -> Preserves sound skip ->
  forall g a g', (if success then bound ← bind_user E c u token d platform; k bound else skip) g = Some (a, g') ->
  (success = true -> identified c u (gw_calls g)) -> sound g -> sound g'.
Proof.
  intros Hk Hskip g a g'. destruct success; [|intros H _; exact (Hskip _ _ _ H)].
  intros (ok&g1&H1&H2)%run_bind_Some Hu Hg. apply (Hk _ _ _ _ H2). by eapply sound_bind_user; eauto.
Qed.

Lemma sound_run_callback k g a g' :
  run_callback E k g = Some (a, g') -> (forall c u, callback_user k = Some (c, u) -> identified c u (gw_calls g)) ->
  sound g -> sound g'.
Proof.
  intros Hr Hu Hg. destruct k; unfold run_callback in Hr; try exact (sound_stable _ _ (stays _ _ _ Hr) Hg).
  - unfold login_callback in Hr. apply run_bind_Some in Hr as (live&g1&H1&H2). pose proof (stays _ _ _ H1) as Hs.
    apply (sound_stable _ _ Hs) in Hg. rewrite <- (still_calls _ _ Hs) in Hu. clear H1 Hs.
    destruct r as [r|]; [|destruct live; exact (sound_stable _ _ (stays _ _ _ H2) Hg)]. cbv zeta in H2. cbn in Hu.
    destruct live as [conn|]; [|exact (sound_stable _ _ (stays _ _ _ H2) Hg)].
    apply run_bind_Some in H2 as (resp&g2&H2&H3). apply (sound_stable _ _ (stays _ _ _ H3)).
    revert H2. set (b := _ && _). intros H2. refine (sound_binding b _ _ _ _ _ _ _ _ _ _ _ _ H2 _ Hg); [apply _..|].
    intros Hb. apply Hu. unfold b in Hb. by rewrite Hb.
  - unfold resume_callback in Hr. apply run_bind_Some in Hr as (live&g1&H1&H2). pose proof (stays _ _ _ H1) as Hs.
    apply (sound_stable _ _ Hs) in Hg. rewrite <- (still_calls _ _ Hs) in Hu. clear H1 Hs.
    destruct r as [r|]; [|destruct live; exact (sound_stable _ _ (stays _ _ _ H2) Hg)]. cbv zeta in H2. cbn in Hu.
    destruct live as [conn|]; [|exact (sound_stable _ _ (stays _ _ _ H2) Hg)].
    apply run_bind_Some in H2 as (resp&g2&H2&H3). apply (sound_stable _ _ (stays _ _ _ H3)).
    revert H2. set (b := _ && _). intros H2. refine (sound_binding b _ _ _ _ _ _ _ _ _ _ _ _ H2 _ Hg); [apply _..|].
    intros Hb. apply Hu. unfold b in Hb. by rewrite Hb.
Qed.

Lemma sound_callback before k after g g' :
  gw_callbacks g = before ++ k :: after ->
  run_callback E k (set_work (gw_tasks g) (before ++ after) (gw_online g) g) = Some (tt, g') -> sound g -> sound g'.
Proof.
  intros Hk Hr Hg. refine (sound_run_callback _ _ _ _ Hr _ _).
  - intros c u. apply (s_callbacks _ Hg). rewrite Hk. apply elem_of_middle.
  - destruct Hg as [H1 H2 H3 H4]. split; cbn; [done..| |done]. intros k' c u Hin. apply H3. rewrite Hk. by apply elem_of_others.
Qed.

Lemma sound_starting g : starting g -> sound g.
Proof.
  intros [(id&Hm) _ _ Ht Hk Hc]. split; rewrite ?Hm, ?Ht, ?Hk, ?Hc; unfold getContext; cbn.
  - intros i ctx. by rewrite lookup_empty.
  - by intros t c u ?%elem_of_nil.
  - by intros t c u ?%elem_of_nil.
  - by intros [|] x e c u.
Qed.

Lemma sound_step g g' : gstep g g' -> sound g -> sound g'.
Proof.
  apply (gstep_invariant sound identified); [apply _| |apply _|apply sound_task|apply sound_callback].
  intros conn peer g0 g1 _ _ Hr. exact (sound_accept conn peer _ _ _ Hr).
Qed.

(** ** Runs *)

(** A step chosen by the arguments; the [n]-th task or callback is taken. *)
Inductive move :=
| Accept (conn : Z) (peer : string)
| Input (conn : Z) (bytes : list byte)
| Close (conn : Z)
| Work (n : nat)
| Answer (n : nat).

Definition unit_state (r : option (unit * gworld)) : option gworld := snd <$> r.

Definition perform (mv : move) (g : gworld) : option gworld :=
  match mv with
  | Accept conn peer =>
      if bool_decide (gw_sockets g !! conn = None) && (cm_next_conn_id (gw_manager g) <? 18446744073709551615)
      then unit_state (on_connected E conn peer g) else None
  | Input conn bytes =>
      b ← Buffer.append bytes Buffer.Buffer_new; snd <$> onMessage E conn b g
  | Close conn => unit_state (on_closed conn g)
  | Work n =>
      t ← gw_tasks g !! n;
      unit_state (run_task E o t
        (set_work (take n (gw_tasks g) ++ drop (S n) (gw_tasks g)) (gw_callbacks g) (gw_online g) g))
  | Answer n =>
      c ← gw_callbacks g !! n;
      unit_state (run_callback E c
        (set_work (gw_tasks g) (take n (gw_callbacks g) ++ drop (S n) (gw_callbacks g)) (gw_online g) g))
  end.

Definition performs (mvs : list move) (g : gworld) : option gworld :=
  foldl (fun r mv => g ← r; perform mv g) (Some g) mvs.

Lemma unit_state_Some r g : unit_state r = Some g -> r = Some (tt, g).
Proof. by destruct r as [[[] ?]|]; intros [= ->]. Qed.

Lemma perform_step mv g g' : perform mv g = Some g' -> gstep g g'.
Proof.
  destruct mv; cbn [perform].
  - destruct (_ && _) eqn:Hb; [|done]. bools. intros ?%unit_state_Some. by eapply step_accept.
  - destruct (Buffer.append _ _) as [b|]; [|done]. cbn. destruct (onMessage _ _ _ _) as [[b' g1]|] eqn:Hm; [|done].
    intros [= <-]. by eapply step_input.
  - intros ?%unit_state_Some. by eapply step_close.
  - destruct (gw_tasks g !! n) as [t|] eqn:Ht; [|done]. cbn [mbind option_bind]. intros ?%unit_state_Some.
    eapply step_task; [|done]. by rewrite take_drop_middle.
  - destruct (gw_callbacks g !! n) as [t|] eqn:Ht; [|done]. cbn [mbind option_bind]. intros ?%unit_state_Some.
    eapply step_callback; [|done]. by rewrite take_drop_middle.
Qed.

Lemma performs_reachable mvs g g' : starting g -> performs mvs g = Some g' -> reachable g'.
Proof.
  intros Hst Hp. exists g. split; [done|]. clear Hst. revert g' Hp.
  induction mvs as [|mv mvs IH] using rev_ind; intros g'; unfold performs; [by intros [= ->]|].
  rewrite foldl_snoc. fold (performs mvs g). destruct (performs mvs g) as [g1|]; [|done]. intros Hp%perform_step.
  eapply rtc_r; [by apply IH|done].
Qed.

End Steps.
