(* ===== verification/GatewayClaims.v ===== *)
(** * Properties of the gateway

    The bytes of a connection are served in order; the tables of connections
    agree in every reachable state; a connection acts, and receives messages,
    only for a user it has identified itself as; and an answer that does not
    fit into a packet ends the process. *)

From S2P Require Import Prelude Words Text NetBuffer Protocol WebSocket MessageId Rpc Db MessageStore.
From S2P Require Import Directory DbLogic MessageService Sample Breaker Redis Push UserService Connections.
From S2P Require Import Handshake Gateway GatewayServer Streams GatewayLogic GatewaySteps.
Import Buffer.
Local Open Scope Z_scope.

Section Claims.
Context `{Srv : RedisServer} (E : GEnv) (o : GatewayOnlineManager).

(** C16: the gateway makes a call for a user (sending a message, acknowledging,
    pulling offline messages) on behalf of a connection only if before, on the
    same connection, the user service had confirmed a login or a token of that
    user: in every state the gateway can reach by any interleaving of packets,
    tasks, callbacks, closings, timers and RPCs, whatever the backends and
    Redis answer. *)
Theorem gateway_no_impersonation (g : gworld) (later earlier : list backend_call) (x : backend_call) (c : string) (u : Z) :
  reachable E o g -> gw_calls g = later ++ x :: earlier -> call_user x = Some (c, u) -> identified c u earlier.
Proof.
  intros Hr. apply s_calls. revert Hr. apply reachable_invariant; [apply sound_starting|apply sound_step].
Qed.

(** C18: in every reachable state of the gateway the invariant of its tables
    holds: the connection manager maps a device only to a connection that is
    bound to that user and device, the ids of the server and the connections
    of the manager are inverse to each other, and both sides agree on which
    connections speak WebSocket. *)
Theorem gateway_tables_agree (g : gworld) : reachable E o g -> tables_ok g.
Proof. apply reachable_invariant; [apply tables_starting|apply tables_step]. Qed.


(** C17: a message that is delivered for a user is written to one connection,
    the one asked for, and only if that connection had been confirmed as that
    user's by the user service; every other request changes no connection's
    output. *)
Theorem push_reaches_its_user_only (context : ServerContext) (q : DeliverToConnectionRequest) (r : CommonResponse) (g g' : gworld) :
  reachable E o g -> DeliverToConnection E context q g = Some (r, g') ->
  gw_sent g' = gw_sent g \/
  exists conn bytes, gw_sent g' = (conn, bytes) :: gw_sent g /\ r_code r = 0 /\
    gw_ids g !! conn = Some (dq_connection_id q) /\
    identified (dq_connection_id q) (dq_user_id q) (gw_calls g).
Proof.
  intros Hr Hd. pose proof (reachable_invariant E o _ g (tables_starting) (tables_step E o) Hr) as Ht.
  pose proof (reachable_invariant E o _ g (sound_starting) (sound_step E o) Hr) as Hs. clear Hr. revert Hd.
  unfold DeliverToConnection. destruct (negb _); [intros [= _ <-]; by left|].
  destruct (_ || _) eqn:Hargs; [intros [= _ <-]; by left|].
  apply orb_false_elim in Hargs as [Hu%Z.eqb_neq _].
  unfold live_connection, connected, encoded, get_state, mbind, SM_bind, mret, SM_ret.
  destruct (getConnection _ (gw_manager g)) as [conn|] eqn:Hc; [|intros [= _ <-]; by left].
  case_bool_decide as Hup; [|intros [= _ <-]; by left].
  destruct (PacketCodec.encode _) as [?|payload]; [done|].
  destruct (getContext _ (gw_manager g)) as [ctx|] eqn:Hx; [|intros [= _ <-]; by left].
  destruct (Z.eqb_spec (cc_user_id ctx) (dq_user_id q)) as [Hq|]; cbn [negb]; [|intros [= _ <-]; by left].
  unfold send, connected, get_state, mbind, SM_bind, mret, SM_ret. rewrite bool_decide_true by done.
  intros [= <- <-]. right. eexists conn, _. split; [done|]. split; [done|]. split; [by apply (t_ids _ Ht)|].
  rewrite <- Hq. apply (s_contexts _ Hs); [done|].
  pose proof (ok_bound _ (t_manager _ Ht) _ _ Hx) as Hb. destruct (cc_authenticated ctx); [done|]. congruence.
Qed.

(** C20: a client that is not logged in can end the gateway's process.  The body
    of a packet may have up to 1 MiB, the router repeats the request id of a
    refused registration together with a message, and the codec throws when
    the body of the answer is longer than 1 MiB; nothing on the way out of the
    event loop catches.  For a serializer whose output holds both texts,
    handling a registration with a request id within 21 bytes of the limit
    does not return when the limiter refuses it. *)
Theorem oversized_echo_ends_process (conn : Z) (id : string) (p : Packet) (q : RegisterRequest) (g : gworld) :
  (forall r, String.length (r_message r) + String.length (r_request_id r) <= length (write_common (ge_bodies E) r))%nat ->
  p_type p = REGISTER_REQ -> parse_register (ge_bodies E) (p_body p) = Some q ->
  ge_limit E (gw_limits g) = false ->
  kMaxBodyLength < Z.of_nat (String.length (rq_request_id q)) + 21 ->
  handlePacket E conn id p g = None.
Proof.
  intros Hw Ht Hp Hl Hlen. destruct (handlePacket E conn id p g) as [[a g']|] eqn:Hr; [exfalso|done]. revert Hr.
  unfold handlePacket. rewrite Ht. intros (now&g1&(r1&_&->)%run_zoom&(b&g2&H2&([]&g3&(r3&_&->)%run_zoom&H4)%run_bind_Some)%run_bind_Some)%run_bind_Some.
  revert H2. unfold update_manager. destruct (updateActiveTime _ _ _) as [b' m]. intros [= _ <-].
  revert H4. unfold handleRegister. rewrite Hp. intros (allowed&g4&[= <- <-]&H5)%run_bind_Some. revert H5. cbn. rewrite Hl.
  intros ([]&g5&_&H6)%run_bind_Some. revert H6. unfold sendError, sendPacket.
  intros (ws&g6&_&(bytes&g7&H7&_)%run_bind_Some)%run_bind_Some. revert H7. unfold encoded.
  destruct (PacketCodec.encode _) as [|?] eqn:He; [done|]. apply PacketCodec.encode_inr in He as [_ He].
  unfold makeErrorResponse, makeResponse in He. cbn [p_body] in He.
  specialize (Hw (mkResponse (error_value RATE_LIMITED) "register rate limited" (rq_request_id q))). cbn [r_message r_request_id] in Hw.
  change (String.length "register rate limited") with 21%nat in Hw. lia.
Qed.

End Claims.

(** ** A gateway to evaluate *)

Import MapServer.

(** Bodies of requests that say nothing: the fields are fixed. *)
Definition sample_bodies : Bodies :=
  mkBodies (fun body => Some (mkRegister (String.string_of_list_byte body) "alice" "secret" "Al"))
    (fun _ => Some (mkLogin "r2" "alice" "secret" "phone" "ios" "Phone"))
    (fun _ => (true, mkResume "r3" "token" "phone" "ios"))
    (fun _ => Some (mkSendSingle "r4" 0 8 0 "hi" 1)) (fun _ => None) (fun _ => None) (fun _ => None)
    (fun r => text (r_message r +:+ r_request_id r)) (fun _ => [x01]) (fun _ => [x02]) (fun _ => [x03]) (fun _ => [x04])
    (fun _ => [x05]) (fun _ => [x06]) (fun _ => [x07]).

Definition sample_genv (limit : bool) : GEnv :=
  mkGEnv (mkREnv (sample_env healthy) healthy (fun i => 1000 + Z.of_nat i)) (fun n => Z.of_nat n) (fun _ => limit)
    (fun _ _ => inl "down")
    (fun _ _ => inr (mkLoginResponse (mkResponse 0 "OK" "r2") 7 "token" 9000))
    (fun _ _ => inr (mkValidateResponse (mkResponse 0 "OK" "r3") true 7))
    (fun _ _ => inr (mkSendResponse (mkResponse 0 "OK" "r4") 1 1))
    (fun _ _ => inl "down") (fun _ _ => inl "down") (fun _ _ => inl "down")
    sample_bodies (Some 10%nat) (mkInternalRpcAuth false EmptyString EmptyString) (fun s => s) (fun s => s) Some 60000.

Definition sample_online : GatewayOnlineManager := GatewayOnlineManager_new false "g1" 60.

Definition sample_gateway : gworld :=
  mkGworld (mkRworld (world_of sample_db) ∅ 0) (ConnectionManager_new "g1") ∅ ∅ ∅ ∅ [] [] [] 0 0 0 [] [].

Definition sample_request (t : MessageType) : list byte :=
  match PacketCodec.encode (mkPacket t 1 [x61]) with inr bytes => bytes | inl _ => [] end.

(** A client connects, logs in and, in two pieces, sends a message. *)
Definition sample_moves : list move :=
  [Accept 1 "10.0.0.1:5000"; Input 1 (sample_request LOGIN_REQ); Work 0; Answer 0;
   Input 1 (sample_request SEND_SINGLE_MSG_REQ); Work 0].

Definition sample_run : option gworld := performs (sample_genv true) sample_online sample_moves sample_gateway.

Lemma sample_gateway_starting : starting sample_gateway.
Proof. split; try done. by exists "g1". Qed.

Lemma sample_reachable g : sample_run = Some g -> reachable (sample_genv true) sample_online g.
Proof. apply performs_reachable, sample_gateway_starting. Qed.

Lemma gateway_no_impersonation_witness :
  exists g x earlier, sample_run = Some g /\ gw_calls g = [] ++ x :: earlier /\
    call_user x = Some ("g1-conn-1", 7) /\ identified "g1-conn-1" 7 earlier.
Proof.
  assert (match sample_run with
          | Some g => match gw_calls g with x :: _ => bool_decide (call_user x = Some ("g1-conn-1", 7)) | [] => false end
          | None => false
          end = true) as Ho by by vm_compute.
  destruct sample_run as [g|] eqn:Hr; [|done]. destruct (gw_calls g) as [|x earlier] eqn:Hc; [done|].
  apply bool_decide_eq_true in Ho. exists g, x, earlier. split_and!; [done..|].
  exact (gateway_no_impersonation (sample_genv true) sample_online g [] earlier x "g1-conn-1" 7
           (sample_reachable g Hr) Hc Ho).
Defined.

Lemma gateway_tables_agree_witness :
  exists g, sample_run = Some g /\ is_Some (gw_ids g !! 1) /\ tables_ok g.
Proof.
  assert (match sample_run with Some g => is_some (gw_ids g !! 1) | None => false end = true) as Ho by by vm_compute.
  destruct sample_run as [g|] eqn:Hr; [|done]. exists g. split; [done|]. split; [by destruct (gw_ids g !! 1)|].
  exact (gateway_tables_agree (sample_genv true) sample_online g (sample_reachable g Hr)).
Defined.

(** Two packets and the first bytes of a third. *)
Definition sample_input : Buffer :=
  default Buffer_new (append (sample_request HEARTBEAT_REQ ++ sample_request LOGIN_REQ ++ [x4e; x49]) Buffer_new).

Lemma sample_input_ok : Inv sample_input /\ length (contents sample_input) = 36%nat.
Proof.
  unfold sample_input. destruct (append_spec (sample_request HEARTBEAT_REQ ++ sample_request LOGIN_REQ ++ [x4e; x49])
    Buffer_new buffer_Inv_new) as (b&->&HI&Hc). split; [done|]. cbn [default from_option id]. by rewrite Hc.
Qed.


Definition sample_delivery : DeliverToConnectionRequest :=
  mkDeliver "d1" 7 "g1-conn-1" (mkMessageData 5 6 8 7 0 0 "hi" 0 1 false 0 EmptyString).

Lemma push_reaches_its_user_only_witness :
  exists g g' r, sample_run = Some g /\
    DeliverToConnection (sample_genv true) sample_context sample_delivery g = Some (r, g') /\
    length (gw_sent g') = S (length (gw_sent g)) /\
    (gw_sent g' = gw_sent g \/
     exists conn bytes, gw_sent g' = (conn, bytes) :: gw_sent g /\ r_code r = 0 /\
       gw_ids g !! conn = Some "g1-conn-1" /\ identified "g1-conn-1" 7 (gw_calls g)).
Proof.
  assert (match sample_run with
          | Some g => match DeliverToConnection (sample_genv true) sample_context sample_delivery g with
                      | Some (_, g') => Nat.eqb (length (gw_sent g')) (S (length (gw_sent g)))
                      | None => false
                      end
          | None => false
          end = true) as Ho by by vm_compute.
  destruct sample_run as [g|] eqn:Hr; [|done].
  destruct (DeliverToConnection _ _ _ g) as [[r g']|] eqn:Hd; [|done]. apply Nat.eqb_eq in Ho.
  exists g, g', r. split_and!; [done..|].
  exact (push_reaches_its_user_only (sample_genv true) sample_online sample_context sample_delivery r g g'
           (sample_reachable g Hr) Hd).
Defined.

(** A registration whose request id is [n] bytes long. *)
Definition long_body (n : nat) : list byte := replicate n x61.
Definition long_packet (n : nat) : Packet := mkPacket REGISTER_REQ 1 (long_body n).

Lemma length_text a b : length (text (a +:+ b)) = (String.length a + String.length b)%nat.
Proof.
  unfold text, String.list_byte_of_string. rewrite length_map. induction a as [|c a IH]; [|exact (f_equal S IH)].
  induction b as [|c b IH]; [done|exact (f_equal S IH)].
Qed.

Lemma sample_writer r :
  (String.length (r_message r) + String.length (r_request_id r) <= length (write_common (ge_bodies (sample_genv false)) r))%nat.
Proof.
  change (write_common _ r) with (text (r_message r +:+ r_request_id r)). by rewrite length_text.
Qed.

Lemma oversized_echo_ends_process_witness :
  exists n, Z.of_nat n = 1048570 /\ PacketCodec.packet_ok (long_packet n) /\
    handlePacket (sample_genv false) 1 "g1-conn-1" (long_packet n) sample_gateway = None.
Proof.
  assert (exists n, Z.of_nat n = 1048570) as [n Hn] by (exists (Z.to_nat 1048570); by rewrite Z2Nat.id).
  assert (length (long_body n) = n) as Hl by apply length_replicate. exists n. split; [done|]. split.
  { unfold PacketCodec.packet_ok, long_packet. cbn [p_type p_sequence_id p_body]. rewrite Hl, Hn. done. }
  apply (oversized_echo_ends_process (sample_genv false) 1 "g1-conn-1" (long_packet n)
           (mkRegister (String.string_of_list_byte (long_body n)) "alice" "secret" "Al") sample_gateway sample_writer);
    [reflexivity..|]. cbn [rq_request_id]. by rewrite length_string_of_bytes, Hl, Hn.
Defined.
