(* ===== verification/ConversationService.v ===== *)
(** * The conversation service (conversation_service/src/ConversationServiceImpl.cpp)

    Four handlers over the conversation store: a page of the caller's list,
    and three settings of one entry. *)

From S2P Require Import Prelude Words Text MessageId Rpc Db MessageStore ConversationStore.
From S2P Require Import Directory DbLogic MessageService Sample.
Local Open Scope string_scope.
Local Open Scope Z_scope.

Record ConversationServiceImpl := mkConversationService {
  cs_auth : InternalRpcAuth;
  cs_sha256Hex : string -> string;
  cs_no_dao : bool
}.

Record ListConversationsRequest := mkListConversations {
  lc_request_id : string; lc_user_id : Z; lc_page : Z; lc_page_size : Z
}.
Record ListConversationsResponse := mkConversationPage {
  lcr_response : CommonResponse; lcr_conversations : list (Conversation * string);
  lcr_page : Z; lcr_page_size : Z; lcr_total : Z
}.
(** [ConversationDeleteRequest]; the requests to pin and to mute add a flag. *)
Record ConversationRequest := mkConversationRequest {
  cq_request_id : string; cq_user_id : Z; cq_conversation_id : Z
}.

Section Service.
Context (E : Env) (svc : ConversationServiceImpl).

Definition cs_authorized (context : ServerContext) : bool :=
  authorize (cs_sha256Hex svc) (cs_auth svc) context.

Definition no_page (r : CommonResponse) : ListConversationsResponse := mkConversationPage r [] 0 0 0.

(** [fillConversation] copies a row with its group's name. *)
Definition ListConversations (context : ServerContext) (q : ListConversationsRequest)
  : M ListConversationsResponse :=
  let id := lc_request_id q in
  if negb (cs_authorized context) then mret (no_page (unauthenticated id))
  else if cs_no_dao svc then mret (no_page (fillResponse id EC_INTERNAL_ERROR EmptyString))
  else if lc_user_id q =? 0 then mret (no_page (fillResponse id INVALID_ARGUMENT EmptyString))
  else
    let page_size := if lc_page_size q =? 0 then 50 else lc_page_size q in
    let page_size := if 200 <? page_size then 200 else page_size in
    let page := if lc_page q =? 0 then 1 else lc_page q in
    rows ← listConversations E (lc_user_id q) (Z.to_nat page_size) (Z.to_nat ((page - 1) * page_size));
    mret (mkConversationPage (fillResponse id EC_OK "OK") rows (u32 page) (u32 page_size)
            (Z.of_nat (length rows))).

(** The answer to a change of a setting. *)
Definition setting_answer (id : string) (ok : bool) : CommonResponse :=
  fillResponse id (if ok then EC_OK else CONVERSATION_NOT_FOUND) (if ok then "OK" else EmptyString).

Definition DeleteConversation (context : ServerContext) (q : ConversationRequest) : M CommonResponse :=
  let id := cq_request_id q in
  if negb (cs_authorized context) then mret (unauthenticated id)
  else if cs_no_dao svc then mret (fillResponse id EC_INTERNAL_ERROR EmptyString)
  else ok ← deleteConversation E (cq_user_id q) (cq_conversation_id q); mret (setting_answer id ok).

Definition PinConversation (context : ServerContext) (q : ConversationRequest) (pinned : bool) : M CommonResponse :=
  let id := cq_request_id q in
  if negb (cs_authorized context) then mret (unauthenticated id)
  else if cs_no_dao svc then mret (fillResponse id EC_INTERNAL_ERROR EmptyString)
  else ok ← pinConversation E (cq_user_id q) (cq_conversation_id q) pinned; mret (setting_answer id ok).

Definition MuteConversation (context : ServerContext) (q : ConversationRequest) (muted : bool) : M CommonResponse :=
  let id := cq_request_id q in
  if negb (cs_authorized context) then mret (unauthenticated id)
  else if cs_no_dao svc then mret (fillResponse id EC_INTERNAL_ERROR EmptyString)
  else ok ← muteConversation E (cq_user_id q) (cq_conversation_id q) muted; mret (setting_answer id ok).

(** ** Properties *)

(** The three settings. *)
Inductive setting := Deleted | Pinned (on : bool) | Muted (on : bool).

Definition apply_setting (s : setting) (now : Z) (c : Conversation) : Conversation :=
  match s with
  | Deleted => set_flags (c_pinned c) (c_muted c) true now c
  | Pinned on => set_flags on (c_muted c) (c_deleted c) now c
  | Muted on => set_flags (c_pinned c) on (c_deleted c) now c
  end.

Definition has_setting (s : setting) (c : Conversation) : Prop :=
  match s with Deleted => c_deleted c = true | Pinned on => c_pinned c = on | Muted on => c_muted c = on end.

Definition change_setting (context : ServerContext) (q : ConversationRequest) (s : setting) : M CommonResponse :=
  match s with
  | Deleted => DeleteConversation context q
  | Pinned on => PinConversation context q on
  | Muted on => MuteConversation context q on
  end.

(** The tables after the setting has been changed at the time [now]. *)
Definition setting_changed (q : ConversationRequest) (s : setting) (now : Z) (d : Db) : Db :=
  set_conversations (sql_update (same_conversation (cq_user_id q) (cq_conversation_id q))
    (apply_setting s now) (conversations d)) d.

(** A change that is reported has an entry to report. *)
Definition entry_changed (q : ConversationRequest) (s : setting) (d d' : Db) : Prop :=
  exists now, d' = setting_changed q s now d.

Definition shows (q : ConversationRequest) (s : setting) (d : Db) : Prop :=
  exists c, c ∈ conversations d /\ same_conversation (cq_user_id q) (cq_conversation_id q) c = true /\ has_setting s c.

Lemma setting_runs q s w b w' :
  with_conn E false
    (now ← nowMs E;
     update_affects (auto_update E (update_one (cq_user_id q) (cq_conversation_id q) (apply_setting s now)))) w
    = Some (b, w') ->
  (entry_changed q s (w_db w) (w_db w') \/ (b = false /\ w_db w' = w_db w)) /\
  (b = true -> shows q s (w_db w')).
Proof.
  unfold with_conn. intros (ok&w1&H1&H2)%run_bind_Some. destruct (quiet _ _ _ H1) as [Hd _]. rewrite <- Hd.
  destruct ok; [|munfold H2; simplify_eq; split; [auto|done]]. apply run_bind_Some in H2 as (now&w2&H2&H3).
  destruct (quiet _ _ _ H2) as [Hd2 _]. rewrite <- Hd2. unfold update_affects in H3.
  apply run_bind_Some in H3 as (r&w3&H3&H4). munfold H4. injection H4 as <- <-.
  destruct (auto_update_run _ _ _ _ _ H3) as (_&Hr&Hn).
  destruct r as [n|]; cycle 1.
  { split; [|done]. destruct Hr as [->|(n&Hx)]; [auto|]. left. exists now. injection Hx as <- _. done. }
  specialize (Hn n eq_refl). injection Hn as Hdb <-. split; [left; exists now; done|].
  intros Hpos%Z.ltb_lt. unfold sql_affected in Hpos. set (hits := filter _ _) in Hpos.
  destruct hits as [|c rest] eqn:Hh; [done|].
  assert (c ∈ hits) as [[Hc _] Hin]%list_elem_of_filter by (rewrite Hh; apply list_elem_of_here).
  exists (apply_setting s now c). rewrite <- Hdb. cbn. split_and!; [|by destruct s|by destruct s].
  unfold sql_update. apply list_elem_of_fmap. exists c. by rewrite Hc.
Qed.

(** Deleting, pinning or muting a conversation changes nothing but that
    flag in the caller's own entry: whatever the database does, the tables are
    those with the flag of this user's entry set, or the ones before; and when
    the answer is OK the entry is there and shows the flag.  A caller without
    the internal token changes nothing. *)
Theorem settings_change_own_entry (context : ServerContext) (q : ConversationRequest) (s : setting)
    (w : world) (r : CommonResponse) (w' : world) :
  change_setting context q s w = Some (r, w') ->
  (entry_changed q s (w_db w) (w_db w') \/ (r_code r <> 0 /\ w_db w' = w_db w)) /\
  (r_code r = 0 -> shows q s (w_db w')) /\
  (cs_authorized context = false -> r = unauthenticated (cq_request_id q) /\ w' = w).
Proof.
  intros Hrun. assert (cs_authorized context = false -> r = unauthenticated (cq_request_id q) /\ w' = w) as Hauth.
  { intros Ha. destruct s; cbn [change_setting] in Hrun; unfold DeleteConversation, PinConversation, MuteConversation in Hrun;
      rewrite Ha in Hrun; by injection Hrun as <- <-. }
  enough ((entry_changed q s (w_db w) (w_db w') \/ (r_code r <> 0 /\ w_db w' = w_db w)) /\
          (r_code r = 0 -> shows q s (w_db w'))) as [? ?] by auto. clear Hauth.
  assert ((r_code r <> 0 /\ w' = w) \/ exists b, r = setting_answer (cq_request_id q) b /\
    with_conn E false
      (now ← nowMs E;
       update_affects (auto_update E (update_one (cq_user_id q) (cq_conversation_id q) (apply_setting s now)))) w
      = Some (b, w')) as [[Hc ->]|(b&->&Hr)]; [|split; [by right|done]|].
  { destruct s; cbn [change_setting] in Hrun; unfold DeleteConversation, PinConversation, MuteConversation in Hrun;
      (destruct (negb _); [injection Hrun as <- <-; by left|]); (destruct (cs_no_dao svc); [injection Hrun as <- <-; by left|]);
      apply run_bind_Some in Hrun as (b&w1&H1&H2); munfold H2; injection H2 as <- <-; right; by exists b. }
  destruct (setting_runs q s w b w' Hr) as [Hd Hs]. destruct b.
  - split; [destruct Hd as [?|[? _]]; [by left|done]|auto].
  - split; [destruct Hd as [?|[_ ?]]; [by left|by right]|done].
Qed.

End Service.

(** ** An evaluation *)

Definition sample_conversations : ConversationServiceImpl :=
  mkConversationService (mkInternalRpcAuth false EmptyString EmptyString) (fun s => s) false.

Definition sample_entry (owner peer : Z) : Conversation :=
  mkConversation (ConversationId.single 7 9) TYPE_SINGLE owner peer 0 5 "hi" 100 0 false false false 100 100.

Definition sample_entries : world :=
  world_of (set_conversations [sample_entry 7 9; sample_entry 9 7] sample_db).

Lemma settings_change_own_entry_witness :
  exists r w', change_setting (sample_env healthy) sample_conversations sample_context
    (mkConversationRequest "r1" 7 (ConversationId.single 7 9)) (Pinned true) sample_entries = Some (r, w') /\
  r_code r = 0 /\
  (entry_changed (mkConversationRequest "r1" 7 (ConversationId.single 7 9)) (Pinned true) (w_db sample_entries) (w_db w') \/
   (r_code r <> 0 /\ w_db w' = w_db sample_entries)) /\
  (r_code r = 0 -> shows (mkConversationRequest "r1" 7 (ConversationId.single 7 9)) (Pinned true) (w_db w')) /\
  (cs_authorized sample_conversations sample_context = false ->
   r = unauthenticated "r1" /\ w' = sample_entries).
Proof.
  set (q := mkConversationRequest "r1" 7 (ConversationId.single 7 9)).
  assert (match change_setting (sample_env healthy) sample_conversations sample_context q (Pinned true) sample_entries with
          | Some (r, _) => r_code r =? 0 | None => false end = true) as Ho by by vm_compute.
  destruct (change_setting _ _ _ q _ _) as [[r w']|] eqn:Hr; [|done]. apply Z.eqb_eq in Ho.
  exists r, w'. split; [done|]. split; [done|].
  exact (settings_change_own_entry (sample_env healthy) sample_conversations sample_context q (Pinned true)
           sample_entries r w' Hr).
Defined.
