(* ===== verification/Admin.v ===== *)
(** * Administration

    common/security/AdminAuth.cpp, common/health/HealthStatus.cpp and
    admin_service/src/AdminServiceImpl.cpp (built with storage): tokens with
    scopes, the audit log, the cleanup of old rows and of stale online state,
    and the reports.  SHA-256, the query of Kafka's offsets and the attempt to
    connect to an address are parameters.  [DELETE ... LIMIT n] removes the
    first [n] matching rows in an order the database chooses: the order is a
    parameter. *)

From S2P Require Import Prelude Words Text MessageId Rpc Db MessageStore ConversationStore.
From S2P Require Import Directory MessageService Redis Push Passwords Handshake.
Local Open Scope Z_scope.

(** ** Tokens *)

Module AdminAuth.

Inductive AdminAuthDecision := ALLOW | UNAUTHENTICATED | PERMISSION_DENIED.
#[global] Instance AdminAuthDecision_eq_dec : EqDecision AdminAuthDecision. Proof. solve_decision. Defined.

Record AdminPrincipal := mkPrincipal { ap_name : string; ap_scopes : gset string }.
Record TokenRule := mkRule { tr_name : string; tr_token_sha256_hex : string; tr_scopes : gset string }.

Definition AdminAuth : Type := list TokenRule.

Definition addRule (rule : TokenRule) (auth : AdminAuth) : AdminAuth :=
  if bool_decide (tr_name rule = EmptyString) || bool_decide (tr_token_sha256_hex rule = EmptyString) then auth
  else auth ++ [mkRule (tr_name rule) (tr_token_sha256_hex rule)
                  (if bool_decide (tr_scopes rule = ∅) then {["health"]} else tr_scopes rule)].

Definition scopes_of (scopes : list string) : gset string :=
  list_to_set (filter (fun scope => scope <> EmptyString) (trim <$> scopes)).

Definition addSha256Token (name token_sha256_hex : string) (scopes : list string) (auth : AdminAuth) : AdminAuth :=
  addRule (mkRule name (lower token_sha256_hex) (scopes_of scopes)) auth.

(** One entry [name:sha256:hex:scope,scope]. *)
Definition add_entry (auth : AdminAuth) (entry : string) : AdminAuth :=
  let text := trim entry in
  if bool_decide (text = EmptyString) then auth
  else match getlines ":" text with
  | [name; kind; hex; scopes] =>
      if bool_decide (trim kind = "sha256") then addSha256Token (trim name) (trim hex) (getlines "," scopes) auth
      else auth
  | _ => auth
  end.

(** [fromConfig] on the value of [admin_service.admin_tokens]. *)
Definition fromConfig (spec : string) : AdminAuth := fold_left add_entry (getlines ";" spec) [].

Definition hasScope (scopes : gset string) (required_scope : string) : bool :=
  bool_decide ("*" ∈ scopes) || bool_decide (required_scope ∈ scopes).

Section Authorize.
Context (sha256Hex : string -> string).

Definition authorize (auth : AdminAuth) (token required_scope : string) : AdminAuthDecision * AdminPrincipal :=
  let nobody := (UNAUTHENTICATED, mkPrincipal EmptyString ∅) in
  if bool_decide (auth = []) then nobody
  else if bool_decide (token = EmptyString) then nobody
  else
    let token_sha := sha256Hex token in
    match list_find (fun rule => tr_token_sha256_hex rule <> EmptyString /\ token_sha = tr_token_sha256_hex rule) auth with
    | Some (_, rule) =>
        (if hasScope (tr_scopes rule) required_scope then ALLOW else PERMISSION_DENIED,
         mkPrincipal (tr_name rule) (tr_scopes rule))
    | None => nobody
    end.

End Authorize.
End AdminAuth.

(** ** Health *)

Inductive HealthState := SERVING | DEGRADED | NOT_SERVING.
Record DependencyHealth := mkDependency { dh_name : string; dh_state : HealthState; dh_detail : string }.

Definition health_string (s : HealthState) : string :=
  match s with SERVING => "SERVING" | DEGRADED => "DEGRADED" | NOT_SERVING => "NOT_SERVING" end.

Fixpoint overall_from (result : HealthState) (dependencies : list DependencyHealth) : HealthState :=
  match dependencies with
  | [] => result
  | d :: ds => match dh_state d with
               | NOT_SERVING => NOT_SERVING
               | DEGRADED => overall_from DEGRADED ds
               | SERVING => overall_from result ds
               end
  end.
Definition overall (dependencies : list DependencyHealth) : HealthState := overall_from SERVING dependencies.

(** ** The service *)

Record AdminCleanupOptions := mkCleanupOptions {
  outbox_published_retention_ms : Z; offline_acked_retention_ms : Z; friend_request_retention_ms : Z;
  message_receipt_retention_ms : Z; cleanup_batch_size : Z
}.

Record AdminRuntimeConfig := mkRuntimeConfig {
  admin_auth_enabled : bool; grpc_tls_enabled : bool; gateway_tls_enabled : bool; internal_rpc_auth_enabled : bool;
  trace_enabled : bool; trace_otlp_endpoint : string; service_addresses : list (string * string);
  gateway_tcp_host : string; mysql_password : string; redis_host : string; redis_password : string; kafka_brokers : string
}.

Record AdminServiceImpl := mkAdminService {
  as_auth : AdminAuth.AdminAuth; as_runtime_config : AdminRuntimeConfig;
  as_no_mysql : bool; as_no_redis : bool; as_cleanup_options : AdminCleanupOptions; as_group_id : string
}.

Record AuditEvent := mkAudit {
  au_timestamp_ms : Z; au_request_id : string; au_principal : string; au_action : string;
  au_scope : string; au_decision : string; au_detail : string
}.

(** [max_audit_events_] *)
Definition max_audit_events : nat := 1024.

Section State.
Context `{RedisServer}.

(** The audit log is a deque, oldest first. *)
Record aworld := mkAworld { aw_node : rworld; aw_audit : list AuditEvent }.
Definition AM (A : Type) : Type := SM aworld A.

Definition set_anode (r : rworld) (a : aworld) : aworld := mkAworld r (aw_audit a).
Definition anode {A} (m : R A) : AM A := zoom aw_node set_anode m.
Definition adb {A} (m : M A) : AM A := anode (db m).

End State.
#[global] Arguments aworld {_}.
#[global] Arguments AM {_} _.

(** What is outside: the digest, the order in which a statement visits the
    rows of a table, how many commands a scan may take, the answers of Kafka
    and of the network, and the client's error text. *)
Record AEnv := mkAEnv {
  ae_redis : REnv;
  ae_sha256Hex : string -> string;
  ae_visit : string -> list nat -> list nat;
  ae_scan_fuel : nat;
  ae_lag : list (string * Z) * string;
  ae_connect : string -> string -> bool * string;
  ae_redis_error : string
}.

(** ** Deleting some of the rows *)

(** The positions of the rows that satisfy [P], counted from [i]. *)
Fixpoint hits {A} (P : A -> bool) (i : nat) (t : list A) : list nat :=
  match t with [] => [] | r :: t => if P r then i :: hits P (S i) t else hits P (S i) t end.

Fixpoint without {A} (victims : list nat) (i : nat) (t : list A) : list A :=
  match t with
  | [] => []
  | r :: t => if bool_decide (i ∈ victims) then without victims (S i) t else r :: without victims (S i) t
  end.

(** [DELETE FROM t WHERE P LIMIT n]: what is left, and how many are gone. *)
Definition delete_limited {A} (visit : list nat -> list nat) (P : A -> bool) (limit : nat) (t : list A) : list A * Z :=
  let victims := take limit (visit (hits P 0 t)) in
  (without victims 0 t, Z.of_nat (length victims)).

(** The conditions of [RunCleanup], each with its age. *)
Definition old_published (before : Z) (e : OutboxEvent) : bool := (e_status e =? 1) && (e_updated_at e <? before).
Definition old_acked (before : Z) (m : OfflineMessage) : bool := (om_status m =? 2) && (om_updated_at m <? before).
Definition old_handled (before : Z) (r : FriendRequest) : bool :=
  ((fr_status r =? 1) || (fr_status r =? 2) || (fr_status r =? 3)) && (fr_updated_at r <? before).
Definition old_receipt (before : Z) (r : MessageReceipt) : bool := rc_updated_at r <? before.

Section Statements.
Context (visit : string -> list nat -> list nat) (limit : nat).

Definition delete_outbox (before : Z) (d : Db) : option (Db * Z) :=
  let (t, n) := delete_limited (visit "outbox_events") (old_published before) limit (outbox_events d) in
  Some (set_outbox_events t d, n).
Definition delete_offline (before : Z) (d : Db) : option (Db * Z) :=
  let (t, n) := delete_limited (visit "offline_messages") (old_acked before) limit (offline_messages d) in
  Some (set_offline_messages t d, n).
Definition delete_requests (before : Z) (d : Db) : option (Db * Z) :=
  let (t, n) := delete_limited (visit "friend_requests") (old_handled before) limit (friend_requests d) in
  Some (set_friend_requests t d, n).
Definition delete_receipts (before : Z) (d : Db) : option (Db * Z) :=
  let (t, n) := delete_limited (visit "message_receipts") (old_receipt before) limit (message_receipts d) in
  Some (set_message_receipts t d, n).

End Statements.

Record RunCleanupResponse := mkCleanupResponse { rcr_response : CommonResponse; rcr_cleaned_rows : Z }.
Record SystemStats := mkSystemStats { sys_response : CommonResponse; sys_online_users : Z; sys_active_connections : Z }.
Record OutboxStats := mkOutboxStats {
  ob_response : CommonResponse; ob_pending : Z; ob_published : Z; ob_failed : Z; ob_dead : Z
}.
Record ConfigIssue := mkIssue { ci_severity : string; ci_key : string; ci_message : string }.

Section Service.
Context `{Srv : RedisServer} (E : AEnv) (svc : AdminServiceImpl).
Abbreviation adm_db := (re_db (ae_redis E)).
Abbreviation adm_redis := (ae_redis E).

(** [appendAudit]: the oldest events are dropped. *)
Definition appendAudit (event : AuditEvent) : AM unit :=
  modify (fun a => let events := aw_audit a ++ [event] in
                   mkAworld (aw_node a) (drop (length events - max_audit_events) events)).

(** [auditEvents]: the newest first. *)
Definition auditEvents (limit : nat) : AM (list AuditEvent) :=
  a ← get_state; mret (take limit (rev (aw_audit a))).

(** [authorize]: [None] when the action is allowed, the answer otherwise. *)
Definition admin_authorize (context : ServerContext) (request_id action required_scope : string)
  : AM (option CommonResponse) :=
  let '(decision, principal) :=
    AdminAuth.authorize (ae_sha256Hex E) (as_auth svc) (extractAdminToken context) required_scope in
  now ← adb (nowMs adm_db);
  if bool_decide (decision = AdminAuth.ALLOW) then
    appendAudit (mkAudit now request_id (AdminAuth.ap_name principal) action required_scope "ALLOW" "OK");;
    mret None
  else
    let reason := if bool_decide (decision = AdminAuth.PERMISSION_DENIED)
                  then "admin permission denied" else "admin unauthenticated" in
    appendAudit (mkAudit now request_id (AdminAuth.ap_name principal) action required_scope "DENY" reason);;
    mret (Some (fillResponse request_id AUTH_FAILED reason)).

(** *** Cleanup *)

(** [cleanupRows] on one table: its rows that match, and the statement. *)
Definition cleanupRows (count : Db -> Z) (delete : Db -> option (Db * Z)) (dry_run : bool) : AM Z :=
  r ← adb (if dry_run then auto_query adm_db count else auto_update adm_db delete);
  mret (default 0 r).

(** Whether both keys of the device are there. *)
Definition device_alive (user_id device_id : string) : AM bool :=
  anode (rc_exists adm_redis ("nebula:user:online:" +:+ user_id +:+ ":" +:+ device_id) &&&
         rc_exists adm_redis ("nebula:user:conn:" +:+ user_id +:+ ":" +:+ device_id)).

Definition forget_keys (user_id device_id devices_key : string) : AM unit :=
  anode (rc_del adm_redis ("nebula:user:online:" +:+ user_id +:+ ":" +:+ device_id));;
  anode (rc_del adm_redis ("nebula:user:conn:" +:+ user_id +:+ ":" +:+ device_id));;
  anode (rc_srem adm_redis devices_key device_id);;
  mret tt.

(** The devices of a user: how many are stale so far, and whether the batch is
    full. *)
Fixpoint clean_devices (dry_run : bool) (batch_size : Z) (user_id devices_key : string)
    (devices : list string) (cleaned : Z) : AM (Z * bool) :=
  match devices with
  | [] => mret (cleaned, false)
  | device_id :: devices =>
      alive ← device_alive user_id device_id;
      if (alive : bool) then clean_devices dry_run batch_size user_id devices_key devices cleaned
      else
        let cleaned := cleaned + 1 in
        (if dry_run then mret tt else forget_keys user_id device_id devices_key);;
        if batch_size <=? cleaned then mret (cleaned, true)
        else clean_devices dry_run batch_size user_id devices_key devices cleaned
  end.

Definition devices_prefix : string := "nebula:user:devices:".

Fixpoint clean_keys (dry_run : bool) (batch_size : Z) (keys : list string) (cleaned : Z) : AM Z :=
  match keys with
  | [] => mret cleaned
  | devices_key :: keys =>
      if negb (String.prefix devices_prefix devices_key) then clean_keys dry_run batch_size keys cleaned
      else
        let user_id := String.substring (String.length devices_prefix)
                         (String.length devices_key - String.length devices_prefix) devices_key in
        devices ← anode (rc_smembers adm_redis devices_key);
        '(cleaned, full) ← clean_devices dry_run batch_size user_id devices_key devices cleaned;
        if (full : bool) then mret cleaned else clean_keys dry_run batch_size keys cleaned
  end.

Definition cleanupStaleOnlineDevices (dry_run : bool) (batch_size : Z) : AM Z :=
  if as_no_redis svc || (batch_size <=? 0) then mret 0
  else
    keys ← anode (rc_scan adm_redis (ae_scan_fuel E) (devices_prefix +:+ "*") batch_size);
    clean_keys dry_run batch_size keys 0.

Definition RunCleanup (context : ServerContext) (request_id : string) (dry_run : bool) : AM RunCleanupResponse :=
  denied ← admin_authorize context request_id "RunCleanup" "cleanup";
  match denied with
  | Some r => mret (mkCleanupResponse r 0)
  | None =>
  if as_no_mysql svc
  then mret (mkCleanupResponse (fillResponse request_id SERVICE_UNAVAILABLE "admin storage backend is not configured") 0)
  else
  conn ← adb (acquire adm_db);
  if negb conn
  then mret (mkCleanupResponse (fillResponse request_id SERVICE_UNAVAILABLE "failed to acquire admin mysql connection") 0)
  else
    now ← adb (nowMs adm_db);
    let o := as_cleanup_options svc in
    let batch_size := if 0 <? cleanup_batch_size o then cleanup_batch_size o else 1000 in
    let limit := Z.to_nat batch_size in
    let b1 := now - outbox_published_retention_ms o in
    let b2 := now - offline_acked_retention_ms o in
    let b3 := now - friend_request_retention_ms o in
    let b4 := now - message_receipt_retention_ms o in
    n1 ← cleanupRows (fun d => sql_count (old_published b1) (outbox_events d)) (delete_outbox (ae_visit E) limit b1) dry_run;
    n2 ← cleanupRows (fun d => sql_count (old_acked b2) (offline_messages d)) (delete_offline (ae_visit E) limit b2) dry_run;
    n3 ← cleanupRows (fun d => sql_count (old_handled b3) (friend_requests d)) (delete_requests (ae_visit E) limit b3) dry_run;
    n4 ← cleanupRows (fun d => sql_count (old_receipt b4) (message_receipts d)) (delete_receipts (ae_visit E) limit b4) dry_run;
    n5 ← (if as_no_redis svc then mret 0 else cleanupStaleOnlineDevices dry_run batch_size);
    mret (mkCleanupResponse (fillResponse request_id EC_OK (if dry_run then "DRY_RUN" else "OK"))
            (u64 (n1 + n2 + n3 + n4 + n5)))
  end.

(** *** Reports *)

(** The devices of a user that are online. *)
Fixpoint count_online (user_id : string) (devices : list string) : AM Z :=
  match devices with
  | [] => mret 0
  | device_id :: devices =>
      alive ← device_alive user_id device_id;
      n ← count_online user_id devices;
      mret (if (alive : bool) then n + 1 else n)
  end.

Fixpoint count_users (keys : list string) : AM (Z * Z) :=
  match keys with
  | [] => mret (0, 0)
  | devices_key :: keys =>
      if negb (String.prefix devices_prefix devices_key) then count_users keys
      else
        let user_id := String.substring (String.length devices_prefix)
                         (String.length devices_key - String.length devices_prefix) devices_key in
        devices ← anode (rc_smembers adm_redis devices_key);
        n ← count_online user_id devices;
        '(users, connections) ← count_users keys;
        mret (if 0 <? n then users + 1 else users, n + connections)
  end.

Definition GetSystemStats (context : ServerContext) (request_id : string) : AM SystemStats :=
  denied ← admin_authorize context request_id "GetSystemStats" "stats";
  match denied with
  | Some r => mret (mkSystemStats r 0 0)
  | None =>
      if as_no_redis svc
      then mret (mkSystemStats (fillResponse request_id SERVICE_UNAVAILABLE "admin redis backend is not configured") 0 0)
      else
        keys ← anode (rc_scan adm_redis (ae_scan_fuel E) (devices_prefix +:+ "*") 1000);
        '(users, connections) ← count_users keys;
        mret (mkSystemStats (fillResponse request_id EC_OK "OK") users connections)
  end.

Definition with_status (s : Z) (d : Db) : Z := sql_count (fun e => e_status e =? s) (outbox_events d).

Definition GetOutboxStats (context : ServerContext) (request_id : string) : AM OutboxStats :=
  denied ← admin_authorize context request_id "GetOutboxStats" "outbox";
  match denied with
  | Some r => mret (mkOutboxStats r 0 0 0 0)
  | None =>
      if as_no_mysql svc
      then mret (mkOutboxStats (fillResponse request_id SERVICE_UNAVAILABLE "admin storage backend is not configured") 0 0 0 0)
      else
        conn ← adb (acquire adm_db);
        if negb conn
        then mret (mkOutboxStats (fillResponse request_id SERVICE_UNAVAILABLE "failed to acquire admin mysql connection") 0 0 0 0)
        else
          counts ← adb (auto_query adm_db (fun d =>
                     (with_status 0 d + with_status 4 d, with_status 1 d, with_status 2 d, with_status 3 d)));
          let '(pending, published, failed, dead) := default (0, 0, 0, 0) counts in
          mret (mkOutboxStats (fillResponse request_id EC_OK "OK") pending published failed dead)
  end.

(** The lag of each topic: the sum over its partitions. *)
Definition topic_lags (records : list (string * Z)) : gmap string Z :=
  fold_left (fun m '(topic, lag) => <[topic := default 0 (m !! topic) + lag]> m) records ∅.

Definition GetKafkaLagInfo (context : ServerContext) (request_id : string)
  : AM (CommonResponse * list (string * string * Z)) :=
  denied ← admin_authorize context request_id "GetKafkaLagInfo" "kafka";
  match denied with
  | Some r => mret (r, [])
  | None =>
      let (records, error) := ae_lag E in
      if bool_decide (records = []) && negb (bool_decide (error = EmptyString))
      then mret (fillResponse request_id SERVICE_UNAVAILABLE ("kafka lag query failed: " +:+ error), [])
      else mret (fillResponse request_id EC_OK "OK",
                 (fun '(topic, lag) => (topic, as_group_id svc, lag)) <$> map_to_list (topic_lags records))
  end.

Definition HealthCheck (context : ServerContext) (request_id : string)
  : AM (CommonResponse * string * list DependencyHealth) :=
  denied ← admin_authorize context request_id "HealthCheck" "health";
  match denied with
  | Some r => mret (r, "NOT_SERVING", [])
  | None =>
      mysql ← (if as_no_mysql svc then mret []
               else
                 conn ← adb (acquire adm_db);
                 ok ← (if (conn : bool) then r ← adb (auto_query adm_db (fun _ => tt)); mret (is_some r) else mret false);
                 mret [if (ok : bool) then mkDependency "mysql" SERVING "query ok"
                       else mkDependency "mysql" NOT_SERVING "query failed"]);
      redis ← (if as_no_redis svc then mret []
               else
                 ok ← anode (rc_ping adm_redis);
                 mret [mkDependency "redis" (if (ok : bool) then SERVING else NOT_SERVING) (ae_redis_error E)]);
      let (records, error) := ae_lag E in
      let kafka := if bool_decide (error = EmptyString)
                   then mkDependency "kafka" SERVING
                          ("metadata and offsets query ok, partitions=" +:+ to_string (Z.of_nat (length records)))
                   else mkDependency "kafka" NOT_SERVING error in
      let dependencies := mkDependency "admin_service" SERVING "process is running" :: mysql ++ redis ++ [kafka] in
      mret (fillResponse request_id EC_OK "OK", health_string (overall dependencies), dependencies)
  end.

Definition issue_if (b : bool) (severity key message : string) : list ConfigIssue :=
  if b then [mkIssue severity key message] else [].

Definition local_host (host : string) : bool :=
  bool_decide (host = "127.0.0.1") || bool_decide (host = "localhost").

Definition config_issues (c : AdminRuntimeConfig) : list ConfigIssue :=
  issue_if (negb (admin_auth_enabled c)) "ERROR" "admin_service.admin_tokens" "admin tokens are not configured" ++
  issue_if (bool_decide (mysql_password c = EmptyString)) "ERROR" "mysql.password" "mysql password is empty" ++
  (if bool_decide (redis_password c = EmptyString) && negb (local_host (redis_host c))
   then [mkIssue "ERROR" "redis.password" "redis password is empty for a non-loopback redis host"]
   else issue_if (bool_decide (redis_password c = EmptyString)) "WARN" "redis.password"
          "redis password is empty; acceptable only for local development") ++
  issue_if (negb (grpc_tls_enabled c)) "WARN" "grpc.tls.enabled"
    "internal gRPC TLS is disabled; keep RPC ports bound to loopback or protected by firewall" ++
  issue_if (negb (internal_rpc_auth_enabled c)) "WARN" "internal_rpc.auth.enabled"
    "internal RPC token authentication is disabled" ++
  issue_if (negb (gateway_tls_enabled c) && negb (local_host (gateway_tcp_host c))) "WARN" "gateway.tls.enabled"
    "Gateway native TLS is disabled on a non-loopback listener; terminate TLS at Nginx/Envoy or enable native TLS" ++
  issue_if (trace_enabled c && bool_decide (trace_otlp_endpoint c = EmptyString)) "ERROR" "trace.otlp_endpoint"
    "trace is enabled but OTLP endpoint is empty" ++
  issue_if (bool_decide (kafka_brokers c = EmptyString)) "ERROR" "kafka.brokers" "kafka broker list is empty".

Definition ValidateConfig (context : ServerContext) (request_id : string) : AM (CommonResponse * list ConfigIssue) :=
  denied ← admin_authorize context request_id "ValidateConfig" "health";
  match denied with
  | Some r => mret (r, [])
  | None =>
      let issues := config_issues (as_runtime_config svc) in
      mret (fillResponse request_id EC_OK (if bool_decide (length issues = 0%nat) then "OK" else "CONFIG_ISSUES_FOUND"), issues)
  end.

(** [address.rfind(':')]: host and port. *)
Fixpoint at_last_colon (address : string) : option (string * string) :=
  match address with
  | EmptyString => None
  | String c rest =>
      match at_last_colon rest with
      | Some (host, port) => Some (String c host, port)
      | None => if bool_decide (c = ":"%char) then Some (EmptyString, rest) else None
      end
  end.

Definition canConnectAddress (address : string) : bool * string :=
  match at_last_colon address with
  | None => (false, "invalid address")
  | Some (host, port) => ae_connect E host port
  end.

Definition GetServiceOverview (context : ServerContext) (request_id : string)
  : AM (CommonResponse * list (string * string * string * string)) :=
  denied ← admin_authorize context request_id "GetServiceOverview" "stats";
  match denied with
  | Some r => mret (r, [])
  | None =>
      mret (fillResponse request_id EC_OK "OK",
        (fun '(name, address) =>
           let (ok, detail) := canConnectAddress address in
           (name, address, if ok then "SERVING" else "NOT_SERVING", detail)) <$> service_addresses (as_runtime_config svc))
  end.

Definition ListAuditEvents (context : ServerContext) (request_id : string) (requested : Z)
  : AM (CommonResponse * list AuditEvent) :=
  denied ← admin_authorize context request_id "ListAuditEvents" "stats";
  match denied with
  | Some r => mret (r, [])
  | None =>
      let limit := if requested =? 0 then 100 else requested in
      let limit := if 500 <? limit then 500 else limit in
      events ← auditEvents (Z.to_nat limit);
      mret (fillResponse request_id EC_OK "OK", events)
  end.

(** A request and the common part of its answer. *)
Inductive admin_request :=
| QCleanup (dry_run : bool) | QSystemStats | QOutboxStats | QKafkaLag | QHealth | QConfig | QOverview
| QAudit (limit : Z).

Definition admin_scope (q : admin_request) : string :=
  match q with
  | QCleanup _ => "cleanup" | QSystemStats => "stats" | QOutboxStats => "outbox" | QKafkaLag => "kafka"
  | QHealth => "health" | QConfig => "health" | QOverview => "stats" | QAudit _ => "stats"
  end.

Definition serve_admin (context : ServerContext) (request_id : string) (q : admin_request) : AM CommonResponse :=
  match q with
  | QCleanup dry_run => r ← RunCleanup context request_id dry_run; mret (rcr_response r)
  | QSystemStats => r ← GetSystemStats context request_id; mret (sys_response r)
  | QOutboxStats => r ← GetOutboxStats context request_id; mret (ob_response r)
  | QKafkaLag => r ← GetKafkaLagInfo context request_id; mret (r.1)
  | QHealth => r ← HealthCheck context request_id; mret (r.1.1)
  | QConfig => r ← ValidateConfig context request_id; mret (r.1)
  | QOverview => r ← GetServiceOverview context request_id; mret (r.1)
  | QAudit limit => r ← ListAuditEvents context request_id limit; mret (r.1)
  end.

End Service.
