(* ===== verification/AdminClaims.v ===== *)
(** * Properties of the administration

    Nothing happens without a configured token that has the scope, and every
    request is logged; the cleanup spares everything that is not finished and
    old; and two examples of what it does to data that is still in use. *)

From S2P Require Import Prelude Words Text MessageId Rpc Db MessageStore ConversationStore OutboxStore.
From S2P Require Import Directory DbLogic MessageService Sample Redis Push Passwords Handshake RelationService Admin.
Local Open Scope Z_scope.

(** ** Configured tokens *)

(** The entry of the configuration grants the scope to the digest. *)
Definition entry_grants (entry hash scope : string) : Prop :=
  exists name kind hex scopes, getlines ":" (trim entry) = [name; kind; hex; scopes] /\
    trim kind = "sha256" /\ trim name <> EmptyString /\ lower (trim hex) = hash /\ hash <> EmptyString /\
    let S := AdminAuth.scopes_of (getlines "," scopes) in
    "*" ∈ S \/ scope ∈ S \/ (S = ∅ /\ scope = "health").

(** Every rule comes from an entry. *)
Definition rule_from (entry : string) (rule : AdminAuth.TokenRule) : Prop :=
  exists name kind hex scopes, getlines ":" (trim entry) = [name; kind; hex; scopes] /\
    trim kind = "sha256" /\ trim name <> EmptyString /\
    lower (trim hex) = AdminAuth.tr_token_sha256_hex rule /\ AdminAuth.tr_token_sha256_hex rule <> EmptyString /\
    let S := AdminAuth.scopes_of (getlines "," scopes) in
    AdminAuth.tr_scopes rule = if bool_decide (S = ∅) then {["health"]} else S.

Lemma add_entry_rules auth entry rule :
  rule ∈ AdminAuth.add_entry auth entry -> rule ∈ auth \/ rule_from entry rule.
Proof.
  unfold AdminAuth.add_entry. destruct (bool_decide _); [by left|].
  destruct (getlines ":" (trim entry)) as [|name [|kind [|hex [|scopes []]]]] eqn:He; auto.
  case_bool_decide as Hk; [|auto]. unfold AdminAuth.addSha256Token, AdminAuth.addRule. cbn.
  destruct (_ || _) eqn:Hne; [auto|]. apply orb_false_elim in Hne as [Hn%bool_decide_eq_false Hh%bool_decide_eq_false].
  intros [Hin|Hin%list_elem_of_singleton]%elem_of_app; [auto|]. right. subst rule.
  by exists name, kind, hex, scopes.
Qed.

Lemma config_rules entries auth rule :
  rule ∈ fold_left AdminAuth.add_entry entries auth ->
  rule ∈ auth \/ exists entry, entry ∈ entries /\ rule_from entry rule.
Proof.
  revert auth. induction entries as [|entry entries IH]; intros auth; cbn; [auto|].
  intros [Hin%add_entry_rules|(e&He&Hr)]%IH; [|right; exists e; split; [by apply list_elem_of_further|done]].
  destruct Hin as [?|Hr]; [auto|]. right. exists entry. split; [apply list_elem_of_here|done].
Qed.

Lemma allowed_is_configured sha spec token scope :
  fst (AdminAuth.authorize sha (AdminAuth.fromConfig spec) token scope) = AdminAuth.ALLOW ->
  token <> EmptyString /\ exists entry, entry ∈ getlines ";" spec /\ entry_grants entry (sha token) scope.
Proof.
  unfold AdminAuth.authorize. case_bool_decide; [done|]. case_bool_decide as Ht; [done|].
  destruct (list_find _ _) as [[i rule]|] eqn:Hf; [|done]. cbn. destruct (AdminAuth.hasScope _ _) eqn:Hs; [|done].
  intros _. split; [done|]. apply list_find_Some in Hf as (Hi&[Hne Hh]&_). apply list_elem_of_lookup_2 in Hi.
  destruct (config_rules _ _ _ Hi) as [Hin|(entry&He&name&kind&hex&scopes&H1&H2&H3&H4&_&HS)]; [by apply elem_of_nil in Hin|].
  exists entry. split; [done|]. exists name, kind, hex, scopes. split_and!; [done..|congruence|congruence|].
  cbv zeta in HS |- *. rewrite HS in Hs. unfold AdminAuth.hasScope in Hs. apply orb_true_iff in Hs.
  case_bool_decide as HE.
  - right; right. split; [done|]. destruct Hs as [Hs|Hs]; apply bool_decide_eq_true in Hs; set_solver.
  - destruct Hs as [Hs|Hs]; apply bool_decide_eq_true in Hs; auto.
Qed.

(** ** What leaves the audit log alone *)

Section Audit.
Context `{Srv : RedisServer}.

Class Unaudited {A} (m : AM A) : Prop := unaudited : forall a x a', m a = Some (x, a') -> aw_audit a' = aw_audit a.

#[global] Instance unaudited_ret {A} (x : A) : Unaudited (mret x : AM A).
Proof. by intros a ? a' [= <- <-]. Qed.
#[global] Instance unaudited_bind {A B} (m : AM A) (k : A -> AM B) :
  Unaudited m -> (forall x, Unaudited (k x)) -> Unaudited (m ≫= k).
Proof. intros Hm Hk a y a' (x&a1&H1&H2)%run_bind_Some. by rewrite (Hk _ _ _ _ H2), (Hm _ _ _ H1). Qed.
#[global] Instance unaudited_if {A} (b : bool) (m1 m2 : AM A) :
  Unaudited m1 -> Unaudited m2 -> Unaudited (if b then m1 else m2).
Proof. by destruct b. Qed.
#[global] Instance unaudited_pair {A C D} (p : C * D) (f : C -> D -> AM A) :
  (forall c d, Unaudited (f c d)) -> Unaudited (let '(c, d) := p in f c d).
Proof. by destruct p. Qed.
#[global] Instance unaudited_node {A} (m : R A) : Unaudited (anode m).
Proof. by intros a x a' (r&_&->)%run_zoom. Qed.
#[global] Instance unaudited_adb {A} (m : M A) : Unaudited (adb m).
Proof. unfold adb. apply _. Qed.
#[global] Instance unaudited_events n : Unaudited (auditEvents n).
Proof. by intros a x a' [= _ <-]. Qed.

Context (E : AEnv) (svc : AdminServiceImpl).

#[global] Instance unaudited_cleanupRows count delete dry : Unaudited (cleanupRows E count delete dry).
Proof. unfold cleanupRows. apply _. Qed.
#[global] Instance unaudited_alive u d : Unaudited (device_alive E u d).
Proof. unfold device_alive. apply _. Qed.
#[global] Instance unaudited_forget u d k : Unaudited (forget_keys E u d k).
Proof. unfold forget_keys. apply _. Qed.
#[global] Instance unaudited_clean_devices dry batch u k ds n : Unaudited (clean_devices E dry batch u k ds n).
Proof. revert n. induction ds as [|d ds IH]; intros n; cbn [clean_devices]; apply _. Qed.
#[global] Instance unaudited_clean_keys dry batch ks n : Unaudited (clean_keys E dry batch ks n).
Proof. revert n. induction ks as [|k ks IH]; intros n; cbn [clean_keys]; apply _. Qed.
#[global] Instance unaudited_stale dry batch : Unaudited (cleanupStaleOnlineDevices E svc dry batch).
Proof. unfold cleanupStaleOnlineDevices. apply _. Qed.
#[global] Instance unaudited_count_online u ds : Unaudited (count_online E u ds).
Proof. induction ds as [|d ds IH]; cbn [count_online]; apply _. Qed.
#[global] Instance unaudited_count_users ks : Unaudited (count_users E ks).
Proof. induction ks as [|k ks IH]; cbn [count_users]; apply _. Qed.

(** ** Authorization *)

(** The state the handlers act on: the tables and the content of Redis. *)
Definition same_data (a a' : aworld) : Prop :=
  w_db (rw_world (aw_node a')) = w_db (rw_world (aw_node a)) /\ rw_redis (aw_node a') = rw_redis (aw_node a).

(** The log with one more event, of at most [max_audit_events]. *)
Definition logged (e : AuditEvent) (log log' : list AuditEvent) : Prop :=
  log' = drop (length (log ++ [e]) - max_audit_events) (log ++ [e]).

(** The event says who asked for what and how it was decided. *)
Definition records (request_id scope : string) (allowed : bool) (e : AuditEvent) : Prop :=
  au_request_id e = request_id /\ au_scope e = scope /\ au_decision e = if allowed then "ALLOW" else "DENY".

Definition allows (context : ServerContext) (scope : string) : bool :=
  bool_decide (fst (AdminAuth.authorize (ae_sha256Hex E) (as_auth svc) (extractAdminToken context) scope) = AdminAuth.ALLOW).

Lemma admin_authorize_run context id action scope a d a' :
  admin_authorize E svc context id action scope a = Some (d, a') ->
  (exists e, records id scope (allows context scope) e /\ logged e (aw_audit a) (aw_audit a')) /\ same_data a a' /\
  if allows context scope then d = None else exists r, d = Some r /\ r_code r = error_value AUTH_FAILED.
Proof.
  unfold admin_authorize, allows. destruct (AdminAuth.authorize _ _ _ _) as [decision principal]. cbn [fst].
  intros (now&a1&(r1&(w1&Hw&->)%run_zoom&->)%run_zoom&H)%run_bind_Some. destruct (quiet _ _ _ Hw) as [Hd _].
  case_bool_decide as Ha; apply run_bind_Some in H as ([]&a2&[= <-]&[= <- <-]).
  - split; [eexists; split; [|reflexivity]; done|]. split; [split; [exact Hd|done]|done].
  - split; [eexists; split; [|reflexivity]; done|]. split; [split; [exact Hd|done]|]. eauto.
Qed.

(** A handler: the authorization, then work that leaves the log alone. *)
Lemma guarded_run {A} context id action scope (deny : CommonResponse -> AM A) (k : AM A) (answer : A -> CommonResponse) a r a' :
  Unaudited k -> (forall r, exists x, deny r = mret x /\ answer x = r) ->
  (x ← (denied ← admin_authorize E svc context id action scope;
        match denied with Some r => deny r | None => k end); mret (answer x)) a = Some (r, a') ->
  (exists e, records id scope (allows context scope) e /\ logged e (aw_audit a) (aw_audit a')) /\
  (allows context scope = false -> r_code r = error_value AUTH_FAILED /\ same_data a a').
Proof.
  intros Hk Hdeny (x&a2&(d&a1&(Hlog&Hsame&Hd)%admin_authorize_run&H2)%run_bind_Some&[= <- <-])%run_bind_Some.
  revert Hlog Hd. destruct (allows context scope); intros Hlog Hd.
  - subst d. rewrite (Hk _ _ _ H2). done.
  - destruct Hd as (r0&->&Hr0). destruct (Hdeny r0) as (x0&Hx0&Ha0). rewrite Hx0 in H2. injection H2 as <- <-.
    split; [done|]. intros _. by rewrite Ha0.
Qed.

Lemma serve_admin_run context id q a r a' :
  serve_admin E svc context id q a = Some (r, a') ->
  (exists e, records id (admin_scope q) (allows context (admin_scope q)) e /\ logged e (aw_audit a) (aw_audit a')) /\
  (allows context (admin_scope q) = false -> r_code r = error_value AUTH_FAILED /\ same_data a a').
Proof.
  destruct q; cbn [serve_admin admin_scope]; intros Hr;
    (eapply (guarded_run context id _ _ _ _ _ a r a'); [|..|exact Hr]; [|by intros r0; eexists]).
  all: try apply _. all: cbv zeta.
  all: repeat first [apply unaudited_bind; [apply _|]; intros ? | apply unaudited_if; [apply _|] | apply _ | case_match].
Qed.

End Audit.

(** ** Deleting in batches *)

Section Delete.
Context {A : Type} (P : A -> bool).

(** Rows go, in order and not more than [limit]; those without [P] stay. *)
Definition trimmed (limit : nat) (t t' : list A) : Prop :=
  t' `sublist_of` t /\ (forall r, r ∈ t -> P r = false -> r ∈ t') /\ (length t <= length t' + limit)%nat.

Lemma trimmed_refl limit t : trimmed limit t t.
Proof. split_and!; [done..|lia]. Qed.

Lemma hits_spec i t j : j ∈ hits P i t -> exists r, t !! (j - i)%nat = Some r /\ (i <= j)%nat /\ P r = true.
Proof.
  revert i. induction t as [|r t IH]; intros i; cbn; [by intros ?%elem_of_nil|].
  assert (j ∈ hits P (S i) t -> exists r0, (r :: t) !! (j - i)%nat = Some r0 /\ (i <= j)%nat /\ P r0 = true) as Hrec.
  { intros (x&Hx&Hle&HP)%IH. exists x. replace (j - i)%nat with (S (j - S i)) by lia. split_and!; [done|lia|done]. }
  destruct (P r) eqn:HP; [|done]. intros [->|Hj]%elem_of_cons; [|auto]. exists r. rewrite Nat.sub_diag. auto.
Qed.

Lemma without_sublist v i (t : list A) : without v i t `sublist_of` t.
Proof.
  revert i. induction t as [|r t IH]; intros i; cbn; [done|]. case_bool_decide; [by apply sublist_cons|by apply sublist_skip].
Qed.

Lemma without_spares v i t r :
  (forall j x, j ∈ v -> (i <= j)%nat -> t !! (j - i)%nat = Some x -> P x = true) -> r ∈ t -> P r = false -> r ∈ without v i t.
Proof.
  revert i. induction t as [|x t IH]; intros i Hv Hin HP; [by apply elem_of_nil in Hin|]. cbn.
  assert (r ∈ t -> r ∈ without v (S i) t) as Hrec.
  { intros Ht. apply IH; [|done|done]. intros j y Hj Hle Hy. apply (Hv j); [done|lia|].
    by replace (j - i)%nat with (S (j - S i)) by lia. }
  apply elem_of_cons in Hin as [->|Hin].
  - rewrite bool_decide_false; [apply list_elem_of_here|]. intros Hi. rewrite (Hv i x Hi) in HP; [done|lia|by rewrite Nat.sub_diag].
  - case_bool_decide; [auto|]. apply list_elem_of_further. auto.
Qed.

Lemma without_length v i (t : list A) :
  (length t <= length (without v i t) + length (filter (fun j => j ∈ v) (seq i (length t))))%nat.
Proof.
  revert i. induction t as [|r t IH]; intros i; cbn [without length seq]; [lia|]. specialize (IH (S i)).
  rewrite filter_cons. case_bool_decide; case_decide; try done; cbn [length]; lia.
Qed.

Lemma delete_limited_trims visit limit t :
  (forall l, visit l ≡ₚ l) -> trimmed limit t (fst (delete_limited visit P limit t)).
Proof.
  intros Hv. unfold delete_limited. cbn. set (v := take limit _). split_and!.
  - apply without_sublist.
  - intros r. apply without_spares. intros j x Hj _ Hx. unfold v in Hj. apply elem_of_take in Hj as (k&Hj&_).
    apply list_elem_of_lookup_2 in Hj. rewrite (Hv _) in Hj. apply hits_spec in Hj as (y&Hy&_&HP). congruence.
  - pose proof (without_length v 0 t). assert (length v <= limit)%nat by (unfold v; rewrite length_take; lia).
    assert (length (filter (fun j => j ∈ v) (seq 0 (length t))) <= length v)%nat; [|lia].
    apply submseteq_length, NoDup_submseteq; [apply NoDup_filter, NoDup_seq|]. by intros j [? _]%list_elem_of_filter.
Qed.

End Delete.

(** ** The cleanup *)

Section Cleanup.
Context `{Srv : RedisServer} (E : AEnv) (svc : AdminServiceImpl).

Definition tables (a : aworld) : Db := w_db (rw_world (aw_node a)).

(** Commands to Redis do not change the tables. *)
Class Tableless {A} (m : R A) : Prop := tableless : forall r x r', m r = Some (x, r') -> rw_world r' = rw_world r.

#[local] Instance tableless_ret {A} (x : A) : Tableless (mret x : R A).
Proof. by intros r ? r' [= <- <-]. Qed.
#[local] Instance tableless_bind {A B} (m : R A) (k : A -> R B) :
  Tableless m -> (forall x, Tableless (k x)) -> Tableless (m ≫= k).
Proof. intros Hm Hk r y r' (x&r1&H1&H2)%run_bind_Some. by rewrite (Hk _ _ _ _ H2), (Hm _ _ _ H1). Qed.
#[local] Instance tableless_if {A} (b : bool) (m1 m2 : R A) : Tableless m1 -> Tableless m2 -> Tableless (if b then m1 else m2).
Proof. by destruct b. Qed.
#[local] Instance tableless_command env c : Tableless (command env c).
Proof. intros r x r'. unfold command. destruct (redis_exec _ _ _). by destruct (re_redis _ _); intros [= _ <-]. Qed.
#[local] Instance tableless_scan env fuel cursor pattern n : Tableless (scan_from env fuel cursor pattern n).
Proof.
  revert cursor. induction fuel as [|fuel IH]; intros cursor; cbn [scan_from]; [by intros ? ? ?|].
  apply tableless_bind; [apply _|]. intros [[]|]; apply _.
Qed.

Class KeepsTables {A} (m : AM A) : Prop := keeps_tables : forall a x a', m a = Some (x, a') -> tables a' = tables a.

#[local] Instance keeps_tables_ret {A} (x : A) : KeepsTables (mret x : AM A).
Proof. by intros a ? a' [= <- <-]. Qed.
#[local] Instance keeps_tables_bind {A B} (m : AM A) (k : A -> AM B) :
  KeepsTables m -> (forall x, KeepsTables (k x)) -> KeepsTables (m ≫= k).
Proof. intros Hm Hk a y a' (x&a1&H1&H2)%run_bind_Some. by rewrite (Hk _ _ _ _ H2), (Hm _ _ _ H1). Qed.
#[local] Instance keeps_tables_if {A} (b : bool) (m1 m2 : AM A) :
  KeepsTables m1 -> KeepsTables m2 -> KeepsTables (if b then m1 else m2).
Proof. by destruct b. Qed.
#[local] Instance keeps_tables_pair {A C D} (p : C * D) (f : C -> D -> AM A) :
  (forall c d, KeepsTables (f c d)) -> KeepsTables (let '(c, d) := p in f c d).
Proof. by destruct p. Qed.
#[local] Instance keeps_tables_node {A} (m : R A) : Tableless m -> KeepsTables (anode m).
Proof. intros Hm a x a' (r&Hr&->)%run_zoom. unfold tables. cbn. by rewrite (Hm _ _ _ Hr). Qed.

#[local] Instance keeps_tables_alive u d : KeepsTables (device_alive E u d).
Proof. unfold device_alive, and_then. apply keeps_tables_node. apply _. Qed.
#[local] Instance keeps_tables_forget u d k : KeepsTables (forget_keys E u d k).
Proof. unfold forget_keys. apply _. Qed.
#[local] Instance keeps_tables_devices dry batch u k ds n : KeepsTables (clean_devices E dry batch u k ds n).
Proof. revert n. induction ds as [|d ds IH]; intros n; cbn [clean_devices]; apply _. Qed.
#[local] Instance keeps_tables_keys dry batch ks n : KeepsTables (clean_keys E dry batch ks n).
Proof. revert n. induction ks as [|k ks IH]; intros n; cbn [clean_keys]; apply _. Qed.
#[local] Instance keeps_tables_stale dry batch : KeepsTables (cleanupStaleOnlineDevices E svc dry batch).
Proof. unfold cleanupStaleOnlineDevices, rc_scan. apply _. Qed.

Lemma cleanupRows_run count delete dry a n a' :
  cleanupRows E count delete dry a = Some (n, a') ->
  tables a' = tables a \/ (dry = false /\ executes delete (tables a) (tables a')).
Proof.
  unfold cleanupRows. intros (r&a1&(r1&(w1&Hw&->)%run_zoom&->)%run_zoom&[= _ <-])%run_bind_Some. unfold tables. cbn.
  destruct dry; [left; by destruct (quiet _ _ _ Hw)|].
  destruct (auto_update_run _ _ _ _ _ Hw) as (_&[->|Hx]&_); auto.
Qed.

Lemma adb_quiet {A} (m : M A) a x a' : Quiet m -> adb m a = Some (x, a') -> tables a' = tables a.
Proof. intros Hq (r&(w&Hw&->)%run_zoom&->)%run_zoom. unfold tables. cbn. by destruct (Hq _ _ _ Hw). Qed.

(** Tables that differ only in rows that are finished and old. *)
Record spares (now : Z) (limit : nat) (d d' : Db) : Prop := {
  sp_rest : d' = set_message_receipts (message_receipts d') (set_friend_requests (friend_requests d')
    (set_offline_messages (offline_messages d') (set_outbox_events (outbox_events d') d)));
  sp_outbox : trimmed (fun e => (e_status e =? 1) &&
      (e_updated_at e <? now - outbox_published_retention_ms (as_cleanup_options svc))) limit
    (outbox_events d) (outbox_events d');
  sp_offline : trimmed (fun m => (om_status m =? 2) &&
      (om_updated_at m <? now - offline_acked_retention_ms (as_cleanup_options svc))) limit
    (offline_messages d) (offline_messages d');
  sp_requests : trimmed (fun r => ((fr_status r =? 1) || (fr_status r =? 2) || (fr_status r =? 3)) &&
      (fr_updated_at r <? now - friend_request_retention_ms (as_cleanup_options svc))) limit
    (friend_requests d) (friend_requests d');
  sp_receipts : trimmed (fun r => rc_updated_at r <? now - message_receipt_retention_ms (as_cleanup_options svc)) limit
    (message_receipts d) (message_receipts d')
}.

Definition batch : nat :=
  Z.to_nat (if 0 <? cleanup_batch_size (as_cleanup_options svc) then cleanup_batch_size (as_cleanup_options svc) else 1000).

(** One table after its statement, which may have failed. *)
Lemma table_step {A} (get : Db -> list A) (set : list A -> Db -> Db) visit P limit d d' :
  (forall d, set (get d) d = d) -> (forall l, visit l ≡ₚ l) ->
  d' = d \/ executes (fun d => let (t, n) := delete_limited visit P limit (get d) in Some (set t d, n)) d d' ->
  exists t, d' = set t d /\ trimmed P limit (get d) t.
Proof.
  intros Heta Hv [->|(n&Hx)]; [exists (get d); split; [by rewrite Heta|apply trimmed_refl]|].
  pose proof (delete_limited_trims P visit limit (get d) Hv) as Ht.
  destruct (delete_limited visit P limit (get d)) as [t k]. injection Hx as <- _. by exists t.
Qed.

Lemma spares_refl now limit d : spares now limit d d.
Proof. split; [by destruct d|apply trimmed_refl..]. Qed.

(** The four statements, one after the other. *)
Lemma four_tables now limit d d1 d2 d3 d4 (visit : string -> list nat -> list nat) :
  (forall name l, visit name l ≡ₚ l) ->
  let o := as_cleanup_options svc in
  d1 = d \/ executes (delete_outbox visit limit (now - outbox_published_retention_ms o)) d d1 ->
  d2 = d1 \/ executes (delete_offline visit limit (now - offline_acked_retention_ms o)) d1 d2 ->
  d3 = d2 \/ executes (delete_requests visit limit (now - friend_request_retention_ms o)) d2 d3 ->
  d4 = d3 \/ executes (delete_receipts visit limit (now - message_receipt_retention_ms o)) d3 d4 ->
  spares now limit d d4.
Proof.
  intros Hv o H1 H2 H3 H4.
  apply (table_step outbox_events set_outbox_events) in H1 as (t1&->&H1); [|by intros []|done].
  apply (table_step offline_messages set_offline_messages) in H2 as (t2&->&H2); [|by intros []|done].
  apply (table_step friend_requests set_friend_requests) in H3 as (t3&->&H3); [|by intros []|done].
  apply (table_step message_receipts set_message_receipts) in H4 as (t4&->&H4); [|by intros []|done].
  by split.
Qed.

(** C22: whatever fails, a cleanup removes only rows that are finished and older
    than their retention: published outbox events, acknowledged offline
    messages, handled friend requests, and receipts; at most one batch of each;
    every other table is untouched.  A dry run changes no table. *)
Theorem cleanup_spares_live_rows (context : ServerContext) (id : string) (dry_run : bool) (a a' : aworld)
    (r : RunCleanupResponse) :
  (forall name l, ae_visit E name l ≡ₚ l) ->
  RunCleanup E svc context id dry_run a = Some (r, a') ->
  (exists n, spares (env_clock (re_db (ae_redis E)) n) batch (tables a) (tables a')) /\
  (dry_run = true -> tables a' = tables a).
Proof.
  intros Hv. unfold RunCleanup.
  intros (d&a1&(_&Hs&_)%admin_authorize_run&H)%run_bind_Some. assert (tables a1 = tables a) as H1 by apply Hs.
  assert (tables a' = tables a -> (exists n, spares (env_clock (re_db (ae_redis E)) n) batch (tables a) (tables a')) /\
    (dry_run = true -> tables a' = tables a)) as Hsame.
  { intros ->. split; [exists 0%nat; apply spares_refl|done]. }
  destruct d as [r0|]; [injection H as _ <-; auto|]. destruct (as_no_mysql svc); [injection H as _ <-; auto|].
  apply run_bind_Some in H as (c&a2&H2%(adb_quiet _ _ _ _ _)&H). destruct c; cbn [negb] in H; [|injection H as _ <-; rewrite H2 in *; auto].
  apply run_bind_Some in H as (now&a3&H3&H). pose proof (adb_quiet _ _ _ _ _ H3) as Hq3.
  apply run_zoom in H3 as (r3&(w3&Hw3&_)%run_zoom&_). injection Hw3 as Hnow _. cbv zeta in H.
  apply run_bind_Some in H as (n1&a4&C1%cleanupRows_run&(n2&a5&C2%cleanupRows_run&(n3&a6&C3%cleanupRows_run&
    (n4&a7&C4%cleanupRows_run&(n5&a8&H5&[= _ <-])%run_bind_Some)%run_bind_Some)%run_bind_Some)%run_bind_Some).
  assert (tables a8 = tables a7) as H8 by (destruct (as_no_redis svc); [by injection H5 as _ <-|exact (keeps_tables _ _ _ H5)]).
  rewrite H8. rewrite Hq3, H2, H1 in C1. destruct dry_run.
  { assert (tables a7 = tables a) as ->; [|split; [exists 0%nat; apply spares_refl|done]].
    destruct C1 as [C1|[? _]], C2 as [C2|[? _]], C3 as [C3|[? _]], C4 as [C4|[? _]]; congruence. }
  split; [|done]. exists (w_clk (rw_world (aw_node a2))). rewrite Hnow.
  apply (four_tables _ _ (tables a) (tables a4) (tables a5) (tables a6) (tables a7) (ae_visit E)); [exact Hv|idtac..];
    [destruct C1 as [C|[_ C]]|destruct C2 as [C|[_ C]]|destruct C3 as [C|[_ C]]|destruct C4 as [C|[_ C]]];
    (left; exact C) || (right; exact C).
Qed.

End Cleanup.

(** ** Authorization of every request *)

(** C21: every request leaves exactly one event, with its decision, in a log of
    at most [max_audit_events]; and a request whose token no entry of the
    configuration grants its scope to is refused and leaves MySQL and Redis as
    they were. *)
Theorem admin_acts_only_with_scope `{Srv : RedisServer} (E : AEnv) (svc : AdminServiceImpl) (spec : string)
    (context : ServerContext) (id : string) (q : admin_request) (a a' : aworld) (r : CommonResponse) :
  as_auth svc = AdminAuth.fromConfig spec ->
  serve_admin E svc context id q a = Some (r, a') ->
  let token := extractAdminToken context in
  exists allowed e, records id (admin_scope q) allowed e /\ logged e (aw_audit a) (aw_audit a') /\
    if allowed
    then token <> EmptyString /\
         exists entry, entry ∈ getlines ";" spec /\ entry_grants entry (ae_sha256Hex E token) (admin_scope q)
    else r_code r = error_value AUTH_FAILED /\ same_data a a'.
Proof.
  intros Hauth ((e&Hrec&Hlog)&Hdeny)%serve_admin_run token. exists (allows E svc context (admin_scope q)), e.
  split_and!; [done..|]. destruct (allows E svc context (admin_scope q)) eqn:Ha; [|auto].
  apply bool_decide_eq_true in Ha. rewrite Hauth in Ha. exact (allowed_is_configured _ _ _ _ Ha).
Qed.

(** ** A small deployment *)

Import MapServer.

Definition admin_sample_env (redis : nat -> outcome) : AEnv :=
  mkAEnv (mkREnv (sample_env healthy) redis (fun i => 1000 + Z.of_nat i)) (fun s => s) (fun _ l => l) 5
    ([], EmptyString) (fun _ _ => (true, EmptyString)) EmptyString.

Definition admin_spec : string := "ops:sha256:opensesame:cleanup,stats;probe:sha256:ping:health".

Definition admin_sample (no_redis : bool) : AdminServiceImpl :=
  mkAdminService (AdminAuth.fromConfig admin_spec)
    (mkRuntimeConfig true true true true false EmptyString [] "127.0.0.1" "p" "localhost" EmptyString "k")
    false no_redis (mkCleanupOptions 1000 1000 1000 1000 100) "g".

Definition admin_context (token : string) : ServerContext := mkContext [("x-nebula-admin-token", token)].

(** User 9 has read the message of user 7 long ago; one event is published and
    old, one is pending. *)
Definition admin_db : Db :=
  set_outbox_events [mkEvent 1 "message" 50 "t" "k" "p" 1 0 0 5 5 EmptyString EmptyString;
                     mkEvent 2 "message" 51 "t" "k" "p" 0 0 0 5 5 EmptyString EmptyString]
  (set_message_receipts [mkReceipt 50 9 5 5 5 5]
  (set_messages [mkMessage 50 77 7 1 9 0 1 "hi" 0 false 0 5 5] sample_db)).

(** Device [d1] of user 9 is online. *)
Definition admin_redis : store :=
  <["nebula:user:devices:9" := (SetContent {["d1"]}, None)]>
  (<["nebula:user:online:9:d1" := (StringContent "g1", None)]>
  (<["nebula:user:conn:9:d1" := (StringContent "4", None)]> ∅)).

Definition admin_start : aworld := mkAworld (mkRworld (world_of admin_db) admin_redis 0) [].

Definition after {A} (r : option (A * aworld)) : aworld := match r with Some (_, a) => a | None => admin_start end.

Lemma admin_acts_only_with_scope_witness :
  let run := serve_admin (admin_sample_env healthy) (admin_sample true) (admin_context "ping") "r" (QCleanup false) admin_start in
  is_some run = true /\
  exists allowed e, records "r" "cleanup" allowed e /\ logged e [] (aw_audit (after run)) /\
    if allowed
    then "ping" <> EmptyString /\ exists entry, entry ∈ getlines ";" admin_spec /\ entry_grants entry "ping" "cleanup"
    else tables (after run) = admin_db.
Proof.
  intros run. assert (is_some run = true) as Hs by (vm_compute; reflexivity). split; [done|].
  destruct run as [[r a']|] eqn:Hrun; [|done]. cbn [after].
  destruct (admin_acts_only_with_scope (admin_sample_env healthy) (admin_sample true) admin_spec (admin_context "ping") "r"
    (QCleanup false) admin_start a' r eq_refl Hrun) as (allowed&e&H1&H2&H3).
  exists allowed, e. split_and!; [exact H1|exact H2|]. destruct allowed; [exact H3|]. apply (proj2 H3).
Defined.

(** The published event goes, the pending one stays. *)
Lemma cleanup_spares_live_rows_witness :
  let run := RunCleanup (admin_sample_env healthy) (admin_sample true) (admin_context "opensesame") "r" false admin_start in
  e_event_id <$> outbox_events (tables (after run)) = [2] /\
  exists now, spares (admin_sample true) now 100 admin_db (tables (after run)).
Proof.
  intros run. assert (bool_decide (e_event_id <$> outbox_events (tables (after run)) = [2]) = true) as H2
    by (vm_compute; reflexivity). apply bool_decide_eq_true in H2. split; [done|].
  destruct run as [[r a']|] eqn:Hrun; [|by injection H2]. cbn [after].
  destruct (cleanup_spares_live_rows (admin_sample_env healthy) (admin_sample true) (admin_context "opensesame") "r" false
    admin_start a' r (fun _ l => Permutation_refl l) Hrun) as [(n&Hn) _].
  eexists. exact Hn.
Defined.

(** ** What the cleanup does to data in use *)

(** Device [d1] is online, both its keys are there, and one [EXISTS] gets no
    answer: the cleanup takes the device offline. *)
Example cleanup_drops_live_device :
  let run := RunCleanup (admin_sample_env (once 2 Refused)) (admin_sample false) (admin_context "opensesame") "r" false admin_start in
  is_some run = true /\ rw_redis (aw_node (after run)) = (∅ : store).
Proof. vm_compute. done. Qed.

(** With an answer, nothing is touched. *)
Example cleanup_keeps_live_device :
  let run := RunCleanup (admin_sample_env healthy) (admin_sample false) (admin_context "opensesame") "r" false admin_start in
  is_some run = true /\ rw_redis (aw_node (after run)) = admin_redis.
Proof. vm_compute. done. Qed.

(** A message read longer ago than the retention is counted as unread again
    after the cleanup, at the next recount of its conversation. *)
Example cleanup_forgets_reads :
  let run := RunCleanup (admin_sample_env healthy) (admin_sample true) (admin_context "opensesame") "r" false admin_start in
  count_unread admin_db 9 77 = 0 /\ is_some run = true /\ count_unread (tables (after run)) 9 77 = 1.
Proof. vm_compute. done. Qed.
