(* ===== verification/Timers.v ===== *)
(** * Timers

    common/net/Timer.cpp and common/net/TimerQueue.cpp.

    Timers are shared objects: the set holds pairs of an expiration and an
    address, ordered by both, and [restart] changes the object.  The addresses
    the allocator hands out, the clock and what a callback does are
    parameters.  [timerfd] is the time at which it will fire. *)

From S2P Require Import Prelude Words.
Local Open Scope Z_scope.

(** ** Timer *)

Record Timer := mkTimer { callback_ : option Z; expiration_ms_ : Z; interval_ms_ : Z; repeat_ : bool }.

Definition Timer_new (cb : option Z) (expiration_ms interval_ms : Z) : Timer :=
  mkTimer cb expiration_ms interval_ms (0 <? interval_ms).

Definition restart (now_ms : Z) (t : Timer) : Timer :=
  if repeat_ t then mkTimer (callback_ t) (now_ms + interval_ms_ t) (interval_ms_ t) (repeat_ t) else t.

(** ** TimerQueue *)

(** The order of [std::pair]. *)
Definition entry_lt (x y : Z * Z) : bool := (x.1 <? y.1) || ((x.1 =? y.1) && (x.2 <? y.2)).

Fixpoint set_insert (x : Z * Z) (l : list (Z * Z)) : list (Z * Z) :=
  match l with
  | [] => [x]
  | y :: l' => if entry_lt y x then y :: set_insert x l' else if bool_decide (x = y) then l else x :: l
  end.

(** The elements before [lower_bound(x)], and the others. *)
Fixpoint split_before (x : Z * Z) (l : list (Z * Z)) : list (Z * Z) * list (Z * Z) :=
  match l with
  | [] => ([], [])
  | y :: l' => if entry_lt y x then let (a, b) := split_before x l' in (y :: a, b) else ([], l)
  end.

(** [fired] is the history of the callbacks that ran, each with the time. *)
Record TimerQueue := mkQueue {
  heap : gmap Z Timer; timers_ : list (Z * Z); timerfd : option Z; clock : nat; fired : list (Z * Z)
}.
Definition TimerQueue_new : TimerQueue := mkQueue ∅ [] None 0 [].

Definition TM (A : Type) : Type := SM TimerQueue A.

(** What is outside: an address that is not in use, and is not null; the
    clock; and the timers a callback adds. *)
Record TimerEnv := mkTimerEnv {
  tv_alloc : gset Z -> Z;
  tv_now : nat -> Z;
  tv_run : Z -> list (option Z * Z * Z)
}.

Section Queue.
Context (E : TimerEnv).

Definition set_heap (h : gmap Z Timer) (q : TimerQueue) : TimerQueue := mkQueue h (timers_ q) (timerfd q) (clock q) (fired q).
Definition set_timers (l : list (Z * Z)) (q : TimerQueue) : TimerQueue := mkQueue (heap q) l (timerfd q) (clock q) (fired q).

Definition timer_now : TM Z :=
  fun q => Some (tv_now E (clock q), mkQueue (heap q) (timers_ q) (timerfd q) (S (clock q)) (fired q)).

(** Seconds and nanoseconds until a time, at least one millisecond. *)
Definition howMuchTimeFromNow (timestamp_ms : Z) : TM (Z * Z * Z) :=
  now ← timer_now;
  let diff_ms := timestamp_ms - now in
  let diff_ms := if diff_ms <? 1 then 1 else diff_ms in
  mret (now, diff_ms / 1000, diff_ms mod 1000 * 1000 * 1000).

(** [timerfd_settime]: it fires once, this long from now. *)
Definition resetTimerfd (expiration_ms : Z) : TM unit :=
  '(now, tv_sec, tv_nsec) ← howMuchTimeFromNow expiration_ms;
  modify (fun q => mkQueue (heap q) (timers_ q) (Some (now + tv_sec * 1000 + tv_nsec / 1000000)) (clock q) (fired q)).

(** Reading through a pointer. *)
Definition deref (p : Z) : TM Timer :=
  fun q => match heap q !! p with Some t => Some (t, q) | None => None end.

Definition addTimerInLoop (p : Z) : TM unit :=
  t ← deref p;
  q ← get_state;
  let earliest_changed := match timers_ q with [] => true | e :: _ => expiration_ms_ t <? e.1 end in
  modify (set_timers (set_insert (expiration_ms_ t, p) (timers_ q)));;
  if earliest_changed then resetTimerfd (expiration_ms_ t) else mret tt.

(** [addTimer] in the thread of the loop. *)
Definition addTimer (cb : option Z) (timestamp_ms interval_ms : Z) : TM unit :=
  q ← get_state;
  let p := tv_alloc E (dom (heap q)) in
  modify (set_heap (<[p := Timer_new cb timestamp_ms interval_ms]> (heap q)));;
  addTimerInLoop p.

Fixpoint addTimers (l : list (option Z * Z * Z)) : TM unit :=
  match l with
  | [] => mret tt
  | (cb, timestamp_ms, interval_ms) :: l => addTimer cb timestamp_ms interval_ms;; addTimers l
  end.

Definition getExpired (now_ms : Z) : TM (list Z) :=
  q ← get_state;
  let (expired, rest) := split_before (now_ms + 1, 0) (timers_ q) in
  modify (set_timers rest);;
  mret expired.*2.

(** [Timer::run] *)
Definition timer_run (now : Z) (p : Z) : TM unit :=
  t ← deref p;
  match callback_ t with
  | None => mret tt
  | Some cb =>
      modify (fun q => mkQueue (heap q) (timers_ q) (timerfd q) (clock q) (fired q ++ [(cb, now)]));;
      addTimers (tv_run E cb)
  end.

Fixpoint run_all (now : Z) (ps : list Z) : TM unit :=
  match ps with [] => mret tt | p :: ps => timer_run now p;; run_all now ps end.

Fixpoint reinsert (ps : list Z) (now_ms : Z) : TM unit :=
  match ps with
  | [] => mret tt
  | p :: ps =>
      t ← deref p;
      (if repeat_ t then
         modify (fun q => set_timers (set_insert (expiration_ms_ (restart now_ms t), p) (timers_ q))
                            (set_heap (<[p := restart now_ms t]> (heap q)) q))
       else mret tt);;
      reinsert ps now_ms
  end.

(** [reset] *)
Definition reset (expired : list Z) (now_ms : Z) : TM unit :=
  reinsert expired now_ms;;
  q ← get_state;
  match timers_ q with
  | [] => mret tt
  | e :: _ => t ← deref e.2; resetTimerfd (expiration_ms_ t)
  end.

(** The vector [expired] goes out of scope: timers that are not in the set any
    more are freed. *)
Definition free (expired : list Z) : TM unit :=
  modify (fun q => set_heap (filter (fun '(p, _) => p ∈ (timers_ q).*2 \/ p ∉ expired) (heap q)) q).

(** When [timerfd] fires. *)
Definition timer_handleRead : TM unit :=
  modify (fun q => mkQueue (heap q) (timers_ q) None (clock q) (fired q));;
  now ← timer_now;
  expired ← getExpired now;
  run_all now expired;;
  reset expired now;;
  free expired.

End Queue.
