(* ===== verification/TimerClaims.v ===== *)
(** * Timers fire when they are due

    The ordered set of timers, the invariant of the queue, and what one round
    of [handleRead] does. *)

From S2P Require Import Prelude Words Timers.
Local Open Scope Z_scope.

(** ** The ordered set *)

Lemma entry_lt_trans x y z : entry_lt x y = true -> entry_lt y z = true -> entry_lt x z = true.
Proof. unfold entry_lt. rewrite !orb_true_iff, !andb_true_iff, !Z.ltb_lt, !Z.eqb_eq. lia. Qed.
Lemma entry_lt_total x y : entry_lt x y = false -> x <> y -> entry_lt y x = true.
Proof.
  unfold entry_lt. destruct x as [e p], y as [e' p']; cbn. rewrite orb_false_iff, orb_true_iff, andb_false_iff, andb_true_iff,
    !Z.ltb_lt, !Z.ltb_ge, !Z.eqb_eq, !Z.eqb_neq. intros H Hne. assert (e <> e' \/ p <> p') by (destruct (decide (e = e')), (decide (p = p')); subst; auto; done). lia.
Qed.
Lemma entry_lt_irrefl x : entry_lt x x = false.
Proof. unfold entry_lt. by rewrite !Z.ltb_irrefl, andb_false_r. Qed.

Abbreviation ordered := (StronglySorted (fun x y => entry_lt x y = true)).

Lemma elem_of_set_insert x y l : x ∈ set_insert y l <-> x = y \/ x ∈ l.
Proof.
  induction l as [|z l IH]; cbn; [by rewrite list_elem_of_singleton, elem_of_nil; tauto|].
  destruct (entry_lt z y); [rewrite !elem_of_cons, IH; tauto|]. case_bool_decide; subst; rewrite !elem_of_cons; tauto.
Qed.

Lemma set_insert_ordered x l : ordered l -> ordered (set_insert x l).
Proof.
  induction 1 as [|y l Hl IH Hy]; cbn; [repeat constructor|]. destruct (entry_lt y x) eqn:Hlt.
  - constructor; [done|]. rewrite Forall_forall in *. intros z [->|Hz]%elem_of_set_insert; auto.
  - case_bool_decide as Hxy; [by constructor|]. pose proof (entry_lt_total _ _ Hlt ltac:(congruence)) as Hxl.
    constructor; [by constructor|]. constructor; [done|]. eapply Forall_impl; [exact Hy|]. cbn. eauto using entry_lt_trans.
Qed.

Lemma split_before_app x l a b : split_before x l = (a, b) -> l = a ++ b.
Proof.
  revert a b. induction l as [|y l IH]; cbn; intros a b; [by intros [= <- <-]|].
  destruct (entry_lt y x); [|by intros [= <- <-]]. destruct (split_before x l) as [a' b'] eqn:Hs.
  intros [= <- <-]. cbn. by rewrite (IH _ _ eq_refl).
Qed.

Lemma split_before_spec x l a b :
  ordered l -> split_before x l = (a, b) -> Forall (fun y => entry_lt y x = true) a /\ Forall (fun y => entry_lt y x = false) b.
Proof.
  intros Hl. revert a b. induction Hl as [|y l Hl IH Hy]; cbn; intros a b; [intros [= <- <-]; auto|].
  destruct (entry_lt y x) eqn:Hlt.
  - destruct (split_before x l) as [a' b'] eqn:Hs. intros [= <- <-]. destruct (IH _ _ eq_refl). auto.
  - intros [= <- <-]. split; [done|]. constructor; [done|]. rewrite Forall_forall in *. intros z Hz.
    destruct (entry_lt z x) eqn:Hz'; [|done]. by rewrite (entry_lt_trans _ _ _ (Hy z Hz) Hz') in Hlt.
Qed.

(** [filter] on a list of which all, or no, elements qualify. *)
Lemma filter_id {A} (P : A -> Prop) `{!forall x, Decision (P x)} (l : list A) : (forall x, x ∈ l -> P x) -> filter P l = l.
Proof.
  induction l as [|x l IH]; intros HP; [done|]. rewrite filter_cons_True by apply HP, list_elem_of_here.
  f_equal. apply IH. intros y Hy. by apply HP, list_elem_of_further.
Qed.
Lemma filter_none {A} (P : A -> Prop) `{!forall x, Decision (P x)} (l : list A) : (forall x, x ∈ l -> ~ P x) -> filter P l = [].
Proof.
  induction l as [|x l IH]; intros HP; [done|]. rewrite filter_cons_False by apply HP, list_elem_of_here.
  apply IH. intros y Hy. by apply HP, list_elem_of_further.
Qed.

Lemma ordered_app_r a b : ordered (a ++ b) -> ordered b.
Proof. induction a as [|x a IH]; [done|]. intros H%StronglySorted_inv. apply IH, H. Qed.

(** ** The invariant *)

Section Timers.
Context (E : TimerEnv).

(** The allocator hands out addresses that are not null and not in use. *)
Definition allocates : Prop := forall X, 0 < tv_alloc E X /\ (tv_alloc E X ∉ X).

(** Every entry of the set is a timer with that expiration. *)
Record timers_ok (q : TimerQueue) : Prop := {
  to_ordered : ordered (timers_ q);
  to_heap : forall e p, (e, p) ∈ timers_ q -> exists t, heap q !! p = Some t /\ expiration_ms_ t = e;
  to_address : forall p, p ∈ dom (heap q) -> 0 < p
}.

(** [timerfd] will fire for the earliest timer, a millisecond after it was set
    at the earliest. *)
Definition armed (q : TimerQueue) : Prop :=
  match timers_ q with
  | [] => True
  | e :: _ => exists n, (n < clock q)%nat /\ timerfd q = Some (Z.max (tv_now E n + 1) e.1)
  end.

(** What adding timers may do: the set and the heap grow, and nothing is
    forgotten. *)
Record grows (q q' : TimerQueue) : Prop := {
  g_timers : forall x, x ∈ timers_ q -> x ∈ timers_ q';
  g_new : forall e p, (e, p) ∈ timers_ q' -> (e, p) ∈ timers_ q \/ p ∉ dom (heap q);
  g_heap : forall p t, heap q !! p = Some t -> heap q' !! p = Some t
}.

Lemma grows_refl q : grows q q.
Proof. by split; auto. Qed.

Lemma grows_trans q1 q2 q3 : grows q1 q2 -> grows q2 q3 -> grows q1 q3.
Proof.
  intros [A1 B1 C1] [A2 B2 C2]. split; auto. intros e p [Hin|Hn]%B2; [auto|]. right.
  intros [t Ht]%elem_of_dom. apply Hn. apply elem_of_dom. eauto.
Qed.

(** Setting [timerfd]. *)
Lemma resetTimerfd_ok exp q :
  resetTimerfd E exp q =
    Some (tt, mkQueue (heap q) (timers_ q) (Some (Z.max (tv_now E (clock q) + 1) exp)) (S (clock q)) (fired q)).
Proof.
  assert (forall now d, now + d / 1000 * 1000 + d mod 1000 * 1000 * 1000 / 1000000 = now + d) as Hsplit.
  { intros now d. replace (d mod 1000 * 1000 * 1000) with (d mod 1000 * 1000000) by lia. rewrite Z.div_mul by lia.
    pose proof (Z.div_mod d 1000 ltac:(lia)). lia. }
  cbv beta iota zeta delta [resetTimerfd howMuchTimeFromNow timer_now mbind SM_bind modify mret SM_ret heap timers_ timerfd clock fired].
  rewrite Hsplit. do 4 f_equal. destruct q as [h l al ck fi]. f_equal.
  destruct (Z.ltb_spec (exp - tv_now E ck) 1); f_equal; lia.
Qed.

Lemma armed_same q q' :
  timers_ q' = timers_ q -> timerfd q' = timerfd q -> (clock q <= clock q')%nat -> armed q -> armed q'.
Proof.
  unfold armed. intros -> -> Hc. destruct (timers_ q) as [|x l]; [done|]. intros (n&Hn&Ht). exists n. split; [lia|done].
Qed.

Lemma addTimer_ok cb ts iv q :
  allocates -> timers_ok q ->
  wp (addTimer E cb ts iv) (fun _ q' => timers_ok q' /\ grows q q' /\ (armed q -> armed q') /\
    fired q' = fired q /\ exists p, (ts, p) ∈ timers_ q' /\ heap q' !! p = Some (Timer_new cb ts iv)) q.
Proof.
  intros HA Hq. unfold addTimer. apply wp_bind, wp_get. cbv zeta. set (p := tv_alloc E (dom (heap q))).
  destruct (HA (dom (heap q))) as [Hpos Hfresh]. fold p in Hpos, Hfresh.
  assert (heap q !! p = None) as Hnone by (by apply not_elem_of_dom).
  apply wp_bind, wp_modify. unfold addTimerInLoop. apply wp_bind.
  eapply wp_exact; [unfold deref; cbn; by rewrite lookup_insert_eq|]. apply wp_bind, wp_get, wp_bind, wp_modify. cbn.
  set (t := Timer_new cb ts iv). set (l := set_insert (ts, p) (timers_ q)).
  assert (forall al ck, timers_ok (mkQueue (<[p := t]> (heap q)) l al ck (fired q))) as Hok.
  { intros al ck. destruct Hq as [Ho Hh Ha]. split; cbn.
    - by apply set_insert_ordered.
    - intros e p' [[= -> ->]|Hin]%elem_of_set_insert; [exists t; by rewrite lookup_insert_eq|].
      destruct (Hh _ _ Hin) as (t'&Ht'&He). exists t'. by rewrite lookup_insert_ne by congruence.
    - intros p'. rewrite dom_insert, elem_of_union, elem_of_singleton. intros [->|?]; auto. }
  assert (forall al ck, grows q (mkQueue (<[p := t]> (heap q)) l al ck (fired q))) as Hg.
  { intros al ck. split; cbn; [intros x Hx; apply elem_of_set_insert; by right| |].
    - intros e p' [[= -> ->]|?]%elem_of_set_insert; auto.
    - intros p' t' Ht'. by rewrite lookup_insert_ne by congruence. }
  assert ((ts, p) ∈ l /\ <[p := t]> (heap q) !! p = Some t) as Hnew.
  { split; [apply elem_of_set_insert; by left|by rewrite lookup_insert_eq]. }
  apply wp_if; intros Hec.
  - eapply wp_exact; [apply resetTimerfd_ok|]. split; [apply Hok|]. split; [apply Hg|]. split; [|split; [done|by exists p]]. intros _.
    assert (exists l', l = (ts, p) :: l') as (l'&Hl').
    { unfold l. destruct (timers_ q) as [|e l0]; [by eexists|]. cbn.
      apply Z.ltb_lt in Hec. cbn in Hec. assert (entry_lt e (ts, p) = false) as ->.
      { unfold entry_lt. cbn. rewrite (proj2 (Z.ltb_ge _ _)), (proj2 (Z.eqb_neq _ _)) by lia. done. }
      rewrite bool_decide_false by (intros <-; cbn in *; lia). by eexists. }
    unfold armed. cbn. rewrite Hl'. exists (clock q). split; [lia|done].
  - apply wp_ret. split; [apply Hok|]. split; [apply Hg|]. split; [|split; [done|by exists p]]. unfold armed. cbn.
    destruct (timers_ q) as [|e l0] eqn:Hl; [done|]. apply Z.ltb_ge in Hec. cbn in Hec. subst l. cbn.
    destruct (entry_lt e (ts, p)) eqn:Hlt; [done|]. case_bool_decide; [done|]. cbn. intros (n&Hn&Ht).
    exists n. split; [done|]. rewrite Ht. do 2 f_equal.
    unfold entry_lt in Hlt. cbn in Hlt. apply orb_false_iff in Hlt as [Hlt%Z.ltb_ge _]. lia.
Qed.

Lemma addTimers_ok l q :
  allocates -> timers_ok q ->
  wp (addTimers E l) (fun _ q' => timers_ok q' /\ grows q q' /\ fired q' = fired q) q.
Proof.
  intros HA. revert q. induction l as [|[[cb ts] iv] l IH]; intros q Hq; cbn [addTimers].
  - apply wp_ret. auto using grows_refl.
  - apply wp_bind. eapply wp_mono; [by apply addTimer_ok|]. intros [] q1 (H1&G1&_&F1&_).
    eapply wp_mono; [by apply IH|]. intros [] q2 (H2&G2&F2). split_and!; [done|by eapply grows_trans|congruence].
Qed.

(** *** The expired ones run *)

(** The callbacks of the timers at these addresses. *)
Definition callbacks (h : gmap Z Timer) (now : Z) (ps : list Z) : list (Z * Z) :=
  omap (fun p => t ← h !! p; cb ← callback_ t; Some (cb, now)) ps.

Lemma callbacks_grow h h' now ps :
  (forall p t, h !! p = Some t -> h' !! p = Some t) -> Forall (fun p => p ∈ dom h) ps -> callbacks h' now ps = callbacks h now ps.
Proof.
  intros Hh. induction 1 as [|p ps [t Ht]%elem_of_dom _ IH]; [done|]. unfold callbacks in *. cbn. rewrite Ht, (Hh _ _ Ht), IH. done.
Qed.

Lemma run_all_ok now ps q :
  allocates -> timers_ok q -> Forall (fun p => p ∈ dom (heap q)) ps ->
  wp (run_all E now ps) (fun _ q' => timers_ok q' /\ grows q q' /\ fired q' = fired q ++ callbacks (heap q) now ps) q.
Proof.
  intros HA. revert q. induction ps as [|p ps IH]; intros q Hq Hps; cbn [run_all].
  - apply wp_ret. rewrite app_nil_r. auto using grows_refl.
  - apply Forall_cons in Hps as [[t Ht]%elem_of_dom Hps]. apply wp_bind.
    eapply (wp_mono _ (fun _ q' => timers_ok q' /\ grows q q' /\ fired q' = fired q ++ callbacks (heap q) now [p])).
    + unfold timer_run. apply wp_bind. eapply wp_exact; [unfold deref; by rewrite Ht|]. unfold callbacks. cbn. rewrite Ht. cbn.
      destruct (callback_ t) as [cb|]; cbn; [|apply wp_ret; rewrite app_nil_r; auto using grows_refl].
      apply wp_bind, wp_modify. eapply wp_mono; [apply addTimers_ok; [done|]; by destruct Hq|].
      intros [] q1 (H1&[A B C]&F1). by split_and!.
    + intros [] q1 (H1&G1&F1). eapply wp_mono; [apply IH; [done|]|].
      * eapply Forall_impl; [exact Hps|]. cbn. intros p' [t' Ht']%elem_of_dom. apply elem_of_dom. exists t'. by apply G1.
      * intros [] q2 (H2&G2&F2). split_and!; [done|by eapply grows_trans|]. rewrite F2, F1, <- app_assoc. f_equal.
        rewrite (callbacks_grow (heap q) (heap q1)); [|by apply G1|done]. unfold callbacks. cbn. by destruct (heap q !! p ≫= _).
Qed.

(** *** The repeating ones are inserted again *)

Lemma ordered_nodup l : ordered l -> NoDup l.
Proof.
  induction 1 as [|x l _ IH Hx]; constructor; [|done]. intros Hin. rewrite Forall_forall in Hx.
  specialize (Hx _ Hin). by rewrite entry_lt_irrefl in Hx.
Qed.

Lemma addresses_nodup q : timers_ok q -> NoDup (timers_ q).*2.
Proof.
  intros [Ho Hh _]. apply NoDup_fmap_2_strong; [|by apply ordered_nodup]. intros [e p] [e' p'] H1 H2; cbn; intros ->.
  destruct (Hh _ _ H1) as (t&Ht&<-), (Hh _ _ H2) as (t'&Ht'&<-). congruence.
Qed.

Lemma reinsert_ok now ps q :
  timers_ok q -> NoDup ps -> (forall p, p ∈ ps -> (p ∈ dom (heap q)) /\ (p ∉ (timers_ q).*2)) ->
  wp (reinsert ps now) (fun _ q' => timers_ok q' /\ fired q' = fired q /\
    forall x, x ∈ timers_ q' <-> x ∈ timers_ q \/
      exists p t, p ∈ ps /\ heap q !! p = Some t /\ repeat_ t = true /\ x = (now + interval_ms_ t, p)) q.
Proof.
  revert q. induction ps as [|p ps IH]; intros q Hq Hnd Hps; cbn [reinsert].
  { apply wp_ret. split_and!; [done..|]. intros x. split; [auto|]. intros [?|(p&t&Hp&_)]; [done|]. by apply elem_of_nil in Hp. }
  apply NoDup_cons in Hnd as [Hnp Hnd]. destruct (Hps p (list_elem_of_here _ _)) as [[t Ht]%elem_of_dom Hnot].
  assert (forall p', p' ∈ ps -> (p' ∈ dom (heap q)) /\ (p' ∉ (timers_ q).*2)) as Hps' by (intros p' ?; by apply Hps, list_elem_of_further).
  apply wp_bind. eapply wp_exact; [unfold deref; by rewrite Ht|]. apply wp_bind, wp_if; intros Hr.
  - apply wp_modify. unfold restart. rewrite Hr. cbn. set (t' := mkTimer _ _ _ _). set (q1 := set_timers _ _).
    assert (timers_ok q1) as H1.
    { destruct Hq as [Ho Hh Ha]. split; cbn.
      - by apply set_insert_ordered.
      - intros e p' [[= -> ->]|Hin]%elem_of_set_insert; [exists t'; by rewrite lookup_insert_eq|].
        destruct (Hh _ _ Hin) as (t1&Ht1&He). exists t1. rewrite lookup_insert_ne; [done|]. intros <-.
        apply Hnot, list_elem_of_fmap. by exists (e, p).
      - intros p'. rewrite dom_insert, elem_of_union, elem_of_singleton. intros [->|?]; [|auto]. apply Ha, elem_of_dom. eauto. }
    eapply wp_mono; [apply IH; [done|done|]|].
    + intros p' Hp'. destruct (Hps' p' Hp') as [Hd Hn]. split; [cbn; rewrite dom_insert; apply elem_of_union; by right|]. cbn.
      intros ([e p0]&Heq&[[= -> ->]|Hin]%elem_of_set_insert)%list_elem_of_fmap; cbn in Heq; subst; [done|].
      apply Hn, list_elem_of_fmap. by exists (e, p0).
    + intros [] q2 (H2&F2&I2). split_and!; [done|done|]. intros x. rewrite I2. cbn. rewrite elem_of_set_insert. split.
      * intros [[->|?]|(p'&t1&Hp'&Ht1&Hr1&->)]; [right; exists p, t; by split_and!; [apply list_elem_of_here|..]|by left|].
        right. exists p', t1. rewrite lookup_insert_ne in Ht1 by congruence. split_and!; [by apply list_elem_of_further|done..].
      * intros [?|(p'&t1&Hp'&Ht1&Hr1&->)]; [by left; right|]. apply elem_of_cons in Hp' as [->|Hp'].
        -- left. left. congruence.
        -- right. exists p', t1. rewrite lookup_insert_ne by congruence. by split_and!.
  - apply wp_ret. eapply wp_mono; [by apply IH|]. intros [] q2 (H2&F2&I2). split_and!; [done..|]. intros x. rewrite I2.
    split; (intros [?|(p'&t1&Hp'&Ht1&Hr1&->)]; [by left|]; right; exists p', t1; split_and!; [|done..]).
    + by apply list_elem_of_further.
    + apply elem_of_cons in Hp' as [->|?]; [congruence|done].
Qed.

Lemma reset_ok now ps q :
  timers_ok q -> NoDup ps -> (forall p, p ∈ ps -> (p ∈ dom (heap q)) /\ (p ∉ (timers_ q).*2)) ->
  wp (reset E ps now) (fun _ q' => timers_ok q' /\ armed q' /\ fired q' = fired q /\
    forall x, x ∈ timers_ q' <-> x ∈ timers_ q \/
      exists p t, p ∈ ps /\ heap q !! p = Some t /\ repeat_ t = true /\ x = (now + interval_ms_ t, p)) q.
Proof.
  intros Hq Hnd Hps. unfold reset. apply wp_bind. eapply wp_mono; [by apply reinsert_ok|]. intros [] q1 (H1&F1&I1).
  apply wp_bind, wp_get. destruct (timers_ q1) as [|[e p] l] eqn:Hl.
  - apply wp_ret. unfold armed. rewrite Hl. done.
  - destruct (to_heap q1 H1 e p) as (t&Ht&He); [rewrite Hl; apply list_elem_of_here|].
    apply wp_bind. eapply wp_exact; [unfold deref; cbn; by rewrite Ht|]. eapply wp_exact; [apply resetTimerfd_ok|].
    split_and!; [by destruct H1| |done|by cbn; rewrite Hl]. unfold armed. cbn. rewrite Hl. exists (clock q1). split; [lia|]. by rewrite He.
Qed.

(** ** Runs *)

Inductive timer_op := Add (cb : option Z) (timestamp_ms interval_ms : Z) | Fire.

Definition timer_step (o : timer_op) : TM unit :=
  match o with Add cb ts iv => addTimer E cb ts iv | Fire => timer_handleRead E end.

Inductive timers_reachable : TimerQueue -> Prop :=
| tr_new : timers_reachable TimerQueue_new
| tr_step o q q' : timers_reachable q -> timer_step o q = Some (tt, q') -> timers_reachable q'.

(** The timers that are due at the time [now]. *)
Definition due (now : Z) (x : Z * Z) : Prop := x.1 <= now.
#[local] Instance due_dec now x : Decision (due now x). Proof. unfold due. apply _. Defined.

(** [q'] after [timerfd] fired at [q]: what was due has run once and in order of
    expiration; what was not is still there; of what was due exactly the
    repeating timers are there, an interval from now. *)
Record fires (now : Z) (q q' : TimerQueue) : Prop := {
  f_fired : fired q' = fired q ++ callbacks (heap q) now (filter (due now) (timers_ q)).*2;
  f_later : forall x, x ∈ timers_ q -> ~ due now x -> x ∈ timers_ q';
  f_again : forall e p t, (e, p) ∈ timers_ q -> due now (e, p) -> heap q !! p = Some t ->
    forall e', (e', p) ∈ timers_ q' <-> repeat_ t = true /\ e' = now + interval_ms_ t
}.

Lemma split_due now q a b :
  timers_ok q -> split_before (now + 1, 0) (timers_ q) = (a, b) -> a = filter (due now) (timers_ q) /\ b = filter (fun x => ~ due now x) (timers_ q).
Proof.
  intros Hq Hs. pose proof (split_before_app _ _ _ _ Hs) as Happ. destruct (split_before_spec _ _ _ _ (to_ordered q Hq) Hs) as [Ha Hb].
  assert (forall e p, (e, p) ∈ timers_ q -> entry_lt (e, p) (now + 1, 0) = bool_decide (due now (e, p))) as Hlt.
  { intros e p Hin. destruct (to_heap q Hq e p Hin) as (t&Ht&_). assert (0 < p) by (apply (to_address q Hq), elem_of_dom; eauto).
    unfold entry_lt, due. cbn. rewrite (proj2 (Z.ltb_ge p 0)), andb_false_r, orb_false_r by lia.
    destruct (Z.ltb_spec e (now + 1)); symmetry; [apply bool_decide_eq_true|apply bool_decide_eq_false]; lia. }
  rewrite Forall_forall in Ha, Hb. rewrite Happ, !filter_app.
  assert (forall x, x ∈ a -> due now x) as Hda.
  { intros [e p] Hin. specialize (Ha _ Hin). rewrite Hlt in Ha; [by apply bool_decide_eq_true in Ha|]. rewrite Happ. apply elem_of_app. by left. }
  assert (forall x, x ∈ b -> ~ due now x) as Hdb.
  { intros [e p] Hin. specialize (Hb _ Hin). rewrite Hlt in Hb; [by apply bool_decide_eq_false in Hb|]. rewrite Happ. apply elem_of_app. by right. }
  rewrite (filter_id (due now) a), (filter_none (due now) b), (filter_none (fun x => ~ due now x) a),
    (filter_id (fun x => ~ due now x) b) by auto.
  by rewrite app_nil_r.
Qed.

Lemma handleRead_ok q :
  allocates -> timers_ok q ->
  wp (timer_handleRead E) (fun _ q' => timers_ok q' /\ armed q' /\ fires (tv_now E (clock q)) q q') q.
Proof.
  intros HA Hq. unfold timer_handleRead. set (now := tv_now E (clock q)). apply wp_bind, wp_modify, wp_bind.
  eapply wp_exact; [reflexivity|]. cbn. fold now. apply wp_bind. unfold getExpired. apply wp_bind, wp_get. cbn.
  destruct (split_before (now + 1, 0) (timers_ q)) as [a b] eqn:Hs. destruct (split_due now q a b Hq Hs) as [Ha Hb].
  pose proof (split_before_app _ _ _ _ Hs) as Happ. apply wp_bind, wp_modify, wp_ret, wp_bind. cbn.
  set (q0 := set_timers _ _). assert (timers_ok q0) as H0.
  { destruct Hq as [Ho Hh Hd]. split; cbn; [rewrite Happ in Ho; by eapply ordered_app_r| |done].
    intros e p Hin. apply Hh. rewrite Happ. apply elem_of_app. by right. }
  assert (forall e p, (e, p) ∈ a -> exists t, heap q !! p = Some t) as Hina.
  { intros e p Hin. destruct (to_heap q Hq e p) as (t&Ht&_); [rewrite Happ; apply elem_of_app; by left|eauto]. }
  pose proof (addresses_nodup q Hq) as Hnd. rewrite Happ, fmap_app in Hnd. apply NoDup_app in Hnd as (Hna&Hab&_).
  eapply wp_mono; [apply run_all_ok; [done|done|]|].
  { apply Forall_forall. intros p ([e p']&->&Hin)%list_elem_of_fmap. destruct (Hina _ _ Hin) as (t&Ht). by apply elem_of_dom_2 in Ht. }
  intros [] q1 (H1&G1&F1). apply wp_bind. eapply wp_mono; [apply reset_ok; [done|done|]|].
  { intros p Hp. apply list_elem_of_fmap in Hp as H'. destruct H' as ([e p']&->&Hin). destruct (Hina _ _ Hin) as (t&Ht). cbn in *. split.
    - apply elem_of_dom. exists t. by apply G1.
    - intros ([e' p2]&Heq&Hin2)%list_elem_of_fmap. cbn in Heq. subst p2. apply G1 in Hin2 as [Hin2|Hn].
      + apply (Hab p' Hp). apply list_elem_of_fmap. by exists (e', p').
      + apply Hn. by apply elem_of_dom_2 in Ht. }
  intros [] q2 (H2&A2&F2&I2). apply wp_modify. split_and!.
  - destruct H2 as [Ho Hh Hd]. split; cbn; [done| |].
    + intros e p Hin. destruct (Hh e p Hin) as (t&Ht&He). exists t. split; [|done]. apply map_lookup_filter_Some. split; [done|].
      left. apply list_elem_of_fmap. by exists (e, p).
    + intros p Hp. apply Hd. by apply (dom_filter_subseteq _ _) in Hp.
  - by eapply armed_same; [..|exact A2].
  - split; cbn.
    + rewrite F2, F1, Ha. done.
    + intros x Hx Hnd. apply I2. left. apply G1. cbn. rewrite Hb. by apply list_elem_of_filter.
    + intros e p t Hin Hdue Ht e'. assert ((e, p) ∈ a) as Hpa by (rewrite Ha; by apply list_elem_of_filter).
      assert (p ∈ a.*2) as Hp2 by (apply list_elem_of_fmap; by exists (e, p)). rewrite I2. split.
      * intros [Hin'|(p'&t'&_&Ht'&Hr&[= -> ->])].
        -- exfalso. apply G1 in Hin' as [Hin'|Hn]; [|apply Hn; by apply elem_of_dom_2 in Ht].
           apply (Hab p Hp2). apply list_elem_of_fmap. by exists (e', p).
        -- assert (t' = t) as -> by (pose proof (g_heap _ _ G1 p' t Ht); congruence). done.
      * intros [Hr ->]. right. exists p, t. split_and!; [done|by apply G1|done|done].
Qed.

Lemma reachable_ok q : allocates -> timers_reachable q -> timers_ok q /\ armed q.
Proof.
  intros HA. induction 1 as [|o q q' _ [IH1 IH2] Hs].
  - split; [|done]. split; cbn; [constructor|by intros ? ? ?%elem_of_nil|by intros p ?%elem_of_dom; destruct H as [? ?]].
  - destruct o as [cb ts iv|]; cbn in Hs.
    + pose proof (addTimer_ok cb ts iv q HA IH1) as H. unfold wp in H. rewrite Hs in H. destruct H as (?&_&?&_). auto.
    + pose proof (handleRead_ok q HA IH1) as H. unfold wp in H. rewrite Hs in H. by destruct H as (?&?&_).
Qed.

(** C29: in every reachable state [timerfd] is set for the earliest timer, a
    timer added to it is in the set, and when [timerfd] fires the call returns
    having run every timer that is due, once, in order of expiration, and none
    that is not; the repeating ones are due an interval later, the others are
    gone, and those not due stay. *)
Theorem timers_fire_when_due (q : TimerQueue) :
  allocates -> timers_reachable q ->
  armed q /\
  (forall cb ts iv, exists q' p, addTimer E cb ts iv q = Some (tt, q') /\ (ts, p) ∈ timers_ q' /\
     heap q' !! p = Some (Timer_new cb ts iv)) /\
  (exists q', timer_handleRead E q = Some (tt, q') /\ fires (tv_now E (clock q)) q q').
Proof.
  intros HA [Hq Hr]%reachable_ok; [|done]. split_and!; [done| |].
  - intros cb ts iv. destruct (wp_run _ _ _ (addTimer_ok cb ts iv q HA Hq)) as ([]&q'&Hs&_&_&_&_&p&?&?). eauto.
  - destruct (wp_run _ _ _ (handleRead_ok q HA Hq)) as ([]&q'&Hs&_&_&?). eauto.
Qed.

End Timers.

(** ** An evaluation *)

(** Addresses above all that are in use; a clock that moves by ten. *)
Definition next_address (X : gset Z) : Z := 1 + set_fold Z.max 0 X.

Lemma next_address_fresh X : 0 < next_address X /\ (next_address X ∉ X).
Proof.
  unfold next_address. assert (0 <= set_fold Z.max 0 X /\ forall x, x ∈ X -> x <= set_fold Z.max 0 X) as [? Hm].
  { apply (set_fold_ind_L (fun r X => 0 <= r /\ forall x, x ∈ X -> x <= r)).
    - split; [lia|]. set_solver.
    - intros x X' r _ [? Hr]. split; [lia|]. intros y [->%elem_of_singleton|Hy]%elem_of_union; [lia|]. specialize (Hr y Hy). lia. }
  split; [lia|]. intros Hin%Hm. lia.
Qed.

(** Callback 1 adds a timer. *)
Definition timer_sample : TimerEnv :=
  mkTimerEnv next_address (fun n => 10 * Z.of_nat n) (fun cb => if cb =? 1 then [(Some 3, 500, 0)] else []).

Definition timer_run_of (m : option (unit * TimerQueue)) : TimerQueue :=
  match m with Some (_, q) => q | None => TimerQueue_new end.

Lemma timer_run_of_some m : is_some m = true -> m = Some (tt, timer_run_of m).
Proof. by destruct m as [[[] q]|]. Qed.

(** A timer that repeats every 100, and one for later. *)
Definition one_timer : TimerQueue := timer_run_of (addTimer timer_sample (Some 1) 5 100 TimerQueue_new).
Definition two_timers : TimerQueue := timer_run_of (addTimer timer_sample (Some 2) 900 0 one_timer).

Lemma two_timers_reachable : timers_reachable timer_sample two_timers.
Proof.
  apply (tr_step _ (Add (Some 2) 900 0) one_timer); [apply (tr_step _ (Add (Some 1) 5 100) TimerQueue_new); [apply tr_new|]|];
    apply timer_run_of_some; vm_compute; reflexivity.
Qed.

Lemma timers_fire_when_due_witness :
  armed timer_sample two_timers /\
  exists q', timer_handleRead timer_sample two_timers = Some (tt, q') /\
    fired q' = [(1, 10)] /\ timers_ q' = [(110, 1); (500, 3); (900, 2)] /\ fires 10 two_timers q'.
Proof.
  destruct (timers_fire_when_due timer_sample two_timers next_address_fresh two_timers_reachable) as (Ha&_&q'&Hq&Hf).
  split; [exact Ha|]. exists q'. split; [exact Hq|].
  assert ((match timer_handleRead timer_sample two_timers with
           | Some (_, q) => bool_decide (fired q = [(1, 10)] /\ timers_ q = [(110, 1); (500, 3); (900, 2)])
           | None => false
           end) = true) as Hv
    by (vm_compute; reflexivity).
  rewrite Hq in Hv. apply bool_decide_eq_true in Hv as [H1 H2].
  assert (tv_now timer_sample (clock two_timers) = 10) as Hn by (vm_compute; reflexivity). rewrite Hn in Hf.
  split; [exact H1|]. split; [exact H2|exact Hf].
Defined.
