(* ===== verification/EventLoop.v ===== *)
(** * The event loop and its functors

    common/net/EventLoop.cpp: [loop], [quit], [queueInLoop], the wake-up through
    an eventfd and [doPendingFunctors], with any number of other threads.  A
    functor is a number; what it queues when it runs, and what the handlers of
    channels queue, is open.  Another thread that queues a functor first pushes
    it and then writes to the eventfd: the loop may go on in between.  The
    eventfd is a counter that a read sets to zero. *)

From S2P Require Import Prelude.
Local Open Scope Z_scope.

(** Where the loop's own thread is: in [poll], at its handlers, or in
    [doPendingFunctors] with the functors it has still to run; or [loop] has
    returned. *)
Inductive loop_phase := Polling | Handling | Calling (functors : list Z) | Returned.

(** [waking]: the other threads between their push and their write.  [queued]
    and [executed] are histories. *)
Record EventLoop := mkLoop {
  phase : loop_phase; quit_ : bool; pending_functors_ : list Z; eventfd : Z; waking : nat;
  queued : list Z; executed : list Z
}.

Definition EventLoop_new : EventLoop := mkLoop Polling false [] 0 0 [] [].

Definition calling_pending_functors_ (l : EventLoop) : bool :=
  match phase l with Calling _ => true | _ => false end.

Definition set_phase (p : loop_phase) (l : EventLoop) : EventLoop :=
  mkLoop p (quit_ l) (pending_functors_ l) (eventfd l) (waking l) (queued l) (executed l).

Definition push_functor (f : Z) (l : EventLoop) : EventLoop :=
  mkLoop (phase l) (quit_ l) (pending_functors_ l ++ [f]) (eventfd l) (waking l) (queued l ++ [f]) (executed l).

Definition wakeup (l : EventLoop) : EventLoop :=
  mkLoop (phase l) (quit_ l) (pending_functors_ l) (eventfd l + 1) (waking l) (queued l) (executed l).

(** The write of another thread, announced and done. *)
Definition will_wake (l : EventLoop) : EventLoop :=
  mkLoop (phase l) (quit_ l) (pending_functors_ l) (eventfd l) (S (waking l)) (queued l) (executed l).
Definition wake_now (l : EventLoop) : EventLoop :=
  wakeup (mkLoop (phase l) (quit_ l) (pending_functors_ l) (eventfd l) (pred (waking l)) (queued l) (executed l)).

Definition queueInLoop (in_loop : bool) (f : Z) (l : EventLoop) : EventLoop :=
  let l := push_functor f l in
  if negb in_loop then will_wake l
  else if calling_pending_functors_ l then wakeup l
  else l.

Definition quit (in_loop : bool) (l : EventLoop) : EventLoop :=
  let l := mkLoop (phase l) true (pending_functors_ l) (eventfd l) (waking l) (queued l) (executed l) in
  if in_loop then l else will_wake l.

Definition handleWakeupRead (l : EventLoop) : EventLoop :=
  mkLoop (phase l) (quit_ l) (pending_functors_ l) 0 (waking l) (queued l) (executed l).

(** [doPendingFunctors]: the swap, and one functor, which queues [fs]. *)
Definition swap_functors (l : EventLoop) : EventLoop :=
  mkLoop (Calling (pending_functors_ l)) (quit_ l) [] (eventfd l) (waking l) (queued l) (executed l).
Definition call_functor (f : Z) (rest fs : list Z) (l : EventLoop) : EventLoop :=
  foldl (fun l f => queueInLoop true f l)
    (mkLoop (Calling rest) (quit_ l) (pending_functors_ l) (eventfd l) (waking l) (queued l) (executed l ++ [f])) fs.

(** The end of a round: [while (!quit_)]. *)
Definition next_round (l : EventLoop) : EventLoop := set_phase (if quit_ l then Returned else Polling) l.

Inductive lstep : EventLoop -> EventLoop -> Prop :=
| ls_queue f l : lstep l (queueInLoop false f l)
| ls_quit l : lstep l (quit false l)
| ls_wake l : (0 < waking l)%nat -> lstep l (wake_now l)
| ls_polled l : phase l = Polling -> lstep l (set_phase Handling l)
| ls_read l : phase l = Handling -> lstep l (handleWakeupRead l)
| ls_handled f l : phase l = Handling -> lstep l (queueInLoop true f l)
| ls_quit_in_loop l : phase l = Handling -> lstep l (quit true l)
| ls_swap l : phase l = Handling -> lstep l (swap_functors l)
| ls_call f rest fs l : phase l = Calling (f :: rest) -> lstep l (call_functor f rest fs l)
| ls_round l : phase l = Calling [] -> lstep l (next_round l).

Inductive loop_reachable : EventLoop -> Prop :=
| lr_new : loop_reachable EventLoop_new
| lr_step l l' : loop_reachable l -> lstep l l' -> loop_reachable l'.

(** ** Properties *)

(** The functors the loop has taken but not run yet. *)
Definition taken_functors (l : EventLoop) : list Z := match phase l with Calling fs => fs | _ => [] end.

Record loop_ok (l : EventLoop) : Prop := {
  lo_order : executed l ++ taken_functors l ++ pending_functors_ l = queued l;
  lo_fd : 0 <= eventfd l;
  lo_wake : phase l = Polling -> pending_functors_ l <> [] \/ quit_ l = true -> 0 < eventfd l \/ (0 < waking l)%nat;
  lo_call : forall fs, phase l = Calling fs -> pending_functors_ l <> [] -> 0 < eventfd l \/ (0 < waking l)%nat
}.

Lemma queueInLoop_own_ok f l : phase l <> Polling -> loop_ok l -> loop_ok (queueInLoop true f l).
Proof.
  intros Hp [Ho Hf Hw Hc]. unfold queueInLoop, calling_pending_functors_. cbn.
  destruct (phase l) eqn:E; split; cbn; unfold taken_functors in *; cbn; rewrite ?E in *; cbn; try done; try lia;
    try (rewrite <- Ho, <- ?app_assoc; done).
Qed.

Lemma call_functor_ok f rest fs l : phase l = Calling (f :: rest) -> loop_ok l -> loop_ok (call_functor f rest fs l).
Proof.
  intros Hp [Ho Hf Hw Hc]. unfold call_functor. unfold taken_functors in Ho. rewrite Hp in Ho.
  assert (forall l, phase l = Calling rest -> loop_ok l -> loop_ok (foldl (fun l f => queueInLoop true f l) l fs)) as Hall.
  { induction fs as [|g fs IH]; intros l0 Hp0 Hl0; [done|]. cbn [foldl]. apply IH.
    - unfold queueInLoop, calling_pending_functors_. cbn. by rewrite Hp0.
    - apply queueInLoop_own_ok; [congruence|done]. }
  apply Hall; [done|]. split; cbn; unfold taken_functors; cbn; [by rewrite <- Ho, <- app_assoc|done|done|].
  intros _ _ Hne. eauto.
Qed.

Lemma loop_always_ok l : loop_reachable l -> loop_ok l.
Proof.
  induction 1 as [|l l' _ IH Hs]; [split; cbn; try done; by intros _ [?|?]|].
  destruct Hs as [f l|l|l Hk|l Hp|l Hp|f l Hp|l Hp|l Hp|f rest fs l Hp|l Hp].
  - destruct IH as [Ho Hf Hw Hc]. unfold queueInLoop. split; cbn; unfold taken_functors in *; cbn; try done; try lia.
    all: try (right; lia). by rewrite <- Ho, <- !app_assoc.
  - destruct IH as [Ho Hf Hw Hc]. unfold quit. split; cbn; try done; intros; right; lia.
  - destruct IH as [Ho Hf Hw Hc]. unfold wake_now. split; cbn; try done; try lia; intros; left; lia.
  - destruct IH as [Ho Hf Hw Hc]. split; cbn; try done. unfold taken_functors in *. rewrite Hp in Ho. done.
  - destruct IH as [Ho Hf Hw Hc]. split; cbn; try done; congruence.
  - apply queueInLoop_own_ok; [congruence|done].
  - destruct IH as [Ho Hf Hw Hc]. split; cbn; try done. congruence.
  - destruct IH as [Ho Hf Hw Hc]. split; cbn; try done. unfold taken_functors in *. rewrite Hp in Ho. cbn in *. by rewrite app_nil_r.
  - by apply call_functor_ok.
  - destruct IH as [Ho Hf Hw Hc]. unfold next_round. unfold taken_functors in Ho. rewrite Hp in Ho.
    destruct (quit_ l) eqn:Hq; split; cbn; unfold taken_functors; cbn; try done. intros _ [Hne|?]; [eauto|congruence].
Qed.

(** C28: functors run once each and in the order they were queued, whichever
    thread queued them and whatever they queue themselves; and the loop never
    sleeps on work: when it is in [poll] with a functor pending, or after
    [quit], the eventfd is readable or another thread is about to write to it. *)
Theorem functors_run_once_in_order (l : EventLoop) :
  loop_reachable l ->
  (exists rest, queued l = executed l ++ rest /\ (phase l = Polling -> rest = pending_functors_ l)) /\
  (phase l = Polling -> pending_functors_ l <> [] \/ quit_ l = true -> 0 < eventfd l \/ (0 < waking l)%nat).
Proof.
  intros [Ho _ Hw _]%loop_always_ok. split; [|done]. exists (taken_functors l ++ pending_functors_ l).
  split; [done|]. intros Hp. unfold taken_functors. by rewrite Hp.
Qed.

(** A functor queued while another one runs waits for the next round, and wakes
    the loop for it. *)
Lemma functors_run_once_in_order_witness :
  exists l, loop_reachable l /\ executed l = [7] /\ pending_functors_ l = [8] /\ phase l = Polling /\ 0 < eventfd l.
Proof.
  set (l := next_round (call_functor 7 [] [8] (swap_functors (queueInLoop true 7 (set_phase Handling EventLoop_new))))).
  assert (loop_reachable l) as Hl.
  { eapply lr_step; [|by apply ls_round]. eapply lr_step; [|by apply ls_call]. eapply lr_step; [|by apply ls_swap].
    eapply lr_step; [|by apply ls_handled]. eapply lr_step; [apply lr_new|by apply ls_polled]. }
  exists l. split_and!; [done..|].
  destruct (functors_run_once_in_order l Hl) as [_ Hw]. destruct (Hw eq_refl ltac:(by left)) as [?|Hn]; [done|].
  cbn in Hn. lia.
Defined.
