(* ===== verification/Workers.v ===== *)
(** * The thread pool and the executor of calls

    common/thread/ThreadPool.h, ThreadPool.cpp and common/async/RpcExecutor.h:
    workers that take tasks from a bounded queue, and the executor that runs a
    function on a worker and hands its result, or its error, to a callback.  A
    task is a number; whether its function throws is a parameter.  Every
    critical section is one step; [start] and [stop] are called by one thread,
    and [stop] waits for the workers between its two critical sections. *)

From S2P Require Import Prelude Words.
Local Open Scope Z_scope.

(** ** ThreadPool *)

Inductive worker := Waiting | Working (task : Z) | Exited.
#[global] Instance worker_eq_dec : EqDecision worker. Proof. solve_decision. Defined.

(** [joining]: [stop] is waiting.  The last three fields are histories. *)
Record ThreadPool := mkPool {
  thread_num_ : nat; max_queue_size_ : nat; workers_ : list worker; tasks_ : list Z;
  running_ : bool; stopping_ : bool; joining : bool;
  accepted : list Z; taken : list Z; finished : list Z
}.

Definition ThreadPool_new (thread_num max_queue_size : nat) : ThreadPool :=
  mkPool (if Nat.eqb thread_num 0 then 1%nat else thread_num) max_queue_size [] [] false false false [] [] [].

Definition start (p : ThreadPool) : ThreadPool :=
  if running_ p then p
  else mkPool (thread_num_ p) (max_queue_size_ p) (workers_ p ++ replicate (thread_num_ p) Waiting) (tasks_ p)
         true false (joining p) (accepted p) (taken p) (finished p).

(** The text of the exception, or the pool with the task. *)
Definition pool_submit (task : Z) (p : ThreadPool) : string + ThreadPool :=
  if negb (running_ p) || stopping_ p then inl "ThreadPool is not running"
  else if Nat.ltb 0 (max_queue_size_ p) && Nat.leb (max_queue_size_ p) (length (tasks_ p)) then inl "ThreadPool queue is full"
  else inr (mkPool (thread_num_ p) (max_queue_size_ p) (workers_ p) (tasks_ p ++ [task])
              (running_ p) (stopping_ p) (joining p) (accepted p ++ [task]) (taken p) (finished p)).

(** [stop]: the first critical section, and the second, after the join; [None]
    when it has to wait. *)
Definition stop_begin (p : ThreadPool) : ThreadPool :=
  if negb (running_ p) && stopping_ p then p
  else mkPool (thread_num_ p) (max_queue_size_ p) (workers_ p) (tasks_ p) (running_ p) true true
         (accepted p) (taken p) (finished p).

Definition stop_end (p : ThreadPool) : option ThreadPool :=
  if forallb (fun w => bool_decide (w = Exited)) (workers_ p)
  then Some (mkPool (thread_num_ p) (max_queue_size_ p) [] (tasks_ p) false (stopping_ p) false
               (accepted p) (taken p) (finished p))
  else None.

(** [workerLoop] of worker [i]: the wait and what follows it in the critical
    section; [None] when it goes on waiting. *)
Definition worker_take (i : nat) (p : ThreadPool) : option ThreadPool :=
  match workers_ p !! i with
  | Some Waiting =>
      match tasks_ p with
      | [] => if stopping_ p
              then Some (mkPool (thread_num_ p) (max_queue_size_ p) (<[i := Exited]> (workers_ p)) []
                           (running_ p) (stopping_ p) (joining p) (accepted p) (taken p) (finished p))
              else None
      | task :: tasks =>
          Some (mkPool (thread_num_ p) (max_queue_size_ p) (<[i := Working task]> (workers_ p)) tasks
                  (running_ p) (stopping_ p) (joining p) (accepted p) (taken p ++ [task]) (finished p))
      end
  | _ => None
  end.

(** The task of worker [i] returns. *)
Definition worker_done (i : nat) (p : ThreadPool) : option (Z * ThreadPool) :=
  match workers_ p !! i with
  | Some (Working task) =>
      Some (task, mkPool (thread_num_ p) (max_queue_size_ p) (<[i := Waiting]> (workers_ p)) (tasks_ p)
                    (running_ p) (stopping_ p) (joining p) (accepted p) (taken p) (finished p ++ [task]))
  | _ => None
  end.

(** ** RpcExecutor *)

(** [callbacks]: the callbacks handed to their loops, with whether there was an
    error; [submitted] the calls of [submit]. *)
Record RpcExecutor := mkExecutor {
  pool_ : ThreadPool; pending_ : Z; submitted_ : Z; failed_ : Z;
  submitted : list Z; callbacks : list (Z * bool)
}.

Definition RpcExecutor_new (thread_num max_queue_size : nat) : RpcExecutor :=
  mkExecutor (ThreadPool_new thread_num max_queue_size) 0 0 0 [] [].

Definition on_pool (f : ThreadPool -> ThreadPool) (e : RpcExecutor) : RpcExecutor :=
  mkExecutor (f (pool_ e)) (pending_ e) (submitted_ e) (failed_ e) (submitted e) (callbacks e).

Definition submit (task : Z) (e : RpcExecutor) : RpcExecutor :=
  let pending := u64 (pending_ e + 1) in
  match pool_submit task (pool_ e) with
  | inr p => mkExecutor p pending (u64 (submitted_ e + 1)) (failed_ e) (submitted e ++ [task]) (callbacks e)
  | inl _ => mkExecutor (pool_ e) (u64 (pending - 1)) (u64 (submitted_ e + 1)) (u64 (failed_ e + 1))
               (submitted e ++ [task]) (callbacks e ++ [(task, true)])
  end.

Section Steps.
Context (throws : Z -> bool).

(** What worker [i] does: take a task or leave, or run its task to the end. *)
Definition work (i : nat) (e : RpcExecutor) : option RpcExecutor :=
  match worker_take i (pool_ e) with
  | Some p => Some (on_pool (fun _ => p) e)
  | None =>
      match worker_done i (pool_ e) with
      | Some (task, p) =>
          Some (mkExecutor p (u64 (pending_ e - 1)) (submitted_ e)
                  (if throws task then u64 (failed_ e + 1) else failed_ e)
                  (submitted e) (callbacks e ++ [(task, throws task)]))
      | None => None
      end
  end.

Inductive xstep : RpcExecutor -> RpcExecutor -> Prop :=
| xs_start e : joining (pool_ e) = false -> xstep e (on_pool start e)
| xs_submit e task : xstep e (submit task e)
| xs_work e i e' : work i e = Some e' -> xstep e e'
| xs_stop_begin e : joining (pool_ e) = false -> xstep e (on_pool stop_begin e)
| xs_stop_end e p : joining (pool_ e) = true -> stop_end (pool_ e) = Some p -> xstep e (on_pool (fun _ => p) e).

Inductive xreachable (n m : nat) : RpcExecutor -> Prop :=
| xr_new : xreachable n m (RpcExecutor_new n m)
| xr_step e e' : xreachable n m e -> xstep e e' -> xreachable n m e'.

End Steps.
