(* ===== verification/WorkerClaims.v ===== *)
(** * The executor answers every call once, and stops

    The invariant of the pool and the executor, and how much is left for the
    workers to do once [stop] waits for them. *)

From S2P Require Import Prelude Words Workers.
Local Open Scope Z_scope.

(** The tasks workers are at. *)
Definition working (ws : list worker) : list Z := omap (fun w => if w is Working t then Some t else None) ws.

Record pool_ok (p : ThreadPool) : Prop := {
  po_threads : thread_num_ p <> 0%nat;
  po_order : taken p ++ tasks_ p = accepted p;
  po_done : taken p ≡ₚ finished p ++ working (workers_ p);
  po_bound : max_queue_size_ p <> 0%nat -> (length (tasks_ p) <= max_queue_size_ p)%nat;
  po_exited : Exited ∈ workers_ p -> stopping_ p = true /\ tasks_ p = [];
  po_stopped : running_ p = false -> workers_ p = [] /\ tasks_ p = [];
  po_running : running_ p = true -> length (workers_ p) = thread_num_ p;
  po_joining : joining p = true -> stopping_ p = true
}.

(** One worker changes. *)
Lemma worker_changes ws i (w w' : worker) :
  ws !! i = Some w -> exists rest, ws ≡ₚ w :: rest /\ <[i := w']> ws ≡ₚ w' :: rest /\
    (forall x, x ∈ <[i := w']> ws -> x = w' \/ x ∈ ws).
Proof.
  intros Hi. exists (take i ws ++ drop (S i) ws). split_and!.
  - rewrite Permutation_middle. by rewrite take_drop_middle.
  - rewrite insert_take_drop by (by eapply lookup_lt_Some). by rewrite Permutation_middle.
  - intros x Hx. apply list_elem_of_lookup in Hx as (j&Hj). destruct (decide (i = j)) as [->|Hne].
    + rewrite list_lookup_insert_eq in Hj by (by eapply lookup_lt_Some). left. congruence.
    + rewrite list_lookup_insert_ne in Hj by done. right. by eapply list_elem_of_lookup_2.
Qed.

#[global] Instance working_proper : Proper ((≡ₚ) ==> (≡ₚ)) working.
Proof. intros ws ws' H. unfold working. by rewrite H. Qed.

Lemma working_waiting n : working (replicate n Waiting) = [].
Proof. by induction n. Qed.

Lemma exited_replicate n : Exited ∈ replicate n Waiting -> False.
Proof. by intros [? _]%elem_of_replicate. Qed.

Lemma pool_new_ok n m : pool_ok (ThreadPool_new n m).
Proof. split; cbn; try done; [by destruct n|lia|by intros ?%elem_of_nil]. Qed.

Lemma start_ok p : pool_ok p -> joining p = false -> pool_ok (start p).
Proof.
  intros Hp Hj. unfold start. destruct (running_ p) eqn:Hr; [done|]. destruct Hp. destruct (po_stopped0 Hr) as [Hw Ht].
  rewrite Hw in *. split; cbn; auto; try done; [by rewrite working_waiting|by intros ?%exited_replicate|
    by rewrite length_replicate|congruence].
Qed.

Lemma pool_submit_ok task p p' :
  pool_ok p -> pool_submit task p = inr p' ->
  pool_ok p' /\ workers_ p' = workers_ p /\ tasks_ p' = tasks_ p ++ [task] /\ joining p' = joining p.
Proof.
  intros [] Hs. unfold pool_submit in Hs. destruct (running_ p) eqn:Hr, (stopping_ p) eqn:Hst; try done. cbn in Hs.
  destruct (_ && _) eqn:Hb; [done|]. injection Hs as <-. split_and!; try done. split; cbn; auto; try done.
  - by rewrite app_assoc, po_order0.
  - intros Hm. rewrite length_app. cbn. apply andb_false_iff in Hb as [Hb|Hb].
    + by destruct (max_queue_size_ p).
    + apply Nat.leb_gt in Hb. lia.
  - intros Hin. by destruct (po_exited0 Hin).
Qed.

Lemma stop_begin_ok p : pool_ok p -> pool_ok (stop_begin p).
Proof.
  intros Hp. unfold stop_begin. destruct (_ && _); [done|]. destruct Hp. split; cbn; auto. intros Hin. by destruct (po_exited0 Hin).
Qed.

Lemma all_exited ws : forallb (fun w => bool_decide (w = Exited)) ws = true -> forall w, w ∈ ws -> w = Exited.
Proof. rewrite forallb_forall. intros H w Hw. eapply bool_decide_eq_true, H. by apply list_elem_of_In. Qed.

Lemma working_exited ws : (forall w, w ∈ ws -> w = Exited) -> working ws = [].
Proof.
  induction ws as [|w ws IH]; intros H; [done|]. rewrite (H w (list_elem_of_here _ _)). apply IH.
  intros x Hx. by apply H, list_elem_of_further.
Qed.

Lemma stop_end_ok p p' :
  pool_ok p -> stop_end p = Some p' -> pool_ok p' /\ tasks_ p' = [] /\ tasks_ p = [] /\ workers_ p' = [] /\ working (workers_ p) = [].
Proof.
  intros [] Hs. unfold stop_end in Hs. destruct (forallb _ _) eqn:Ha; [|done]. injection Hs as <-.
  pose proof (all_exited _ Ha) as Hall. pose proof (working_exited _ Hall) as Hw.
  assert (tasks_ p = []) as Ht.
  { destruct (running_ p); [|by apply po_stopped0]. specialize (po_running0 eq_refl).
    destruct (workers_ p) as [|w ws]; [cbn in po_running0; congruence|].
    apply po_exited0. rewrite (Hall w (list_elem_of_here _ _)). apply list_elem_of_here. }
  split_and!; try done. split; cbn; auto; try done; [by rewrite po_done0, Hw|by intros ?%elem_of_nil].
Qed.

Lemma worker_take_ok i p p' :
  pool_ok p -> worker_take i p = Some p' ->
  pool_ok p' /\ tasks_ p' ++ working (workers_ p') ≡ₚ tasks_ p ++ working (workers_ p) /\
  joining p' = joining p /\ running_ p' = running_ p.
Proof.
  intros [] Hs. unfold worker_take in Hs. destruct (workers_ p !! i) as [[]|] eqn:Hi; try done.
  destruct (tasks_ p) as [|t ts] eqn:Ht.
  - destruct (stopping_ p) eqn:Hst; [|done]. injection Hs as <-. destruct (worker_changes _ _ _ Exited Hi) as (rest&H1&H2&_).
    assert (working (<[i:=Exited]> (workers_ p)) ≡ₚ working (workers_ p)) as Hw by (rewrite H2, H1; done).
    split_and!; cbn; try done. split; cbn; auto; try done.
    + by rewrite Hw.
    + intros Hr. destruct (po_stopped0 Hr) as [Hn _]. by rewrite Hn in Hi.
    + intros Hr. rewrite length_insert. auto.
  - injection Hs as <-. destruct (worker_changes _ _ _ (Working t) Hi) as (rest&H1&H2&H3).
    assert (working (<[i:=Working t]> (workers_ p)) ≡ₚ t :: working (workers_ p)) as Hw by (rewrite H2, H1; done).
    split_and!; cbn; try done; [|by rewrite Hw, <- Permutation_middle]. split; cbn; auto; try done.
    + by rewrite <- app_assoc.
    + rewrite Hw, po_done0. solve_Permutation.
    + intros Hm. specialize (po_bound0 Hm). cbn in po_bound0. lia.
    + intros [?|Hin]%H3; [done|]. by destruct (po_exited0 Hin).
    + intros Hr. by destruct (po_stopped0 Hr).
    + intros Hr. rewrite length_insert. auto.
Qed.

Lemma worker_done_ok i p t p' :
  pool_ok p -> worker_done i p = Some (t, p') ->
  pool_ok p' /\ tasks_ p' = tasks_ p /\ working (workers_ p) ≡ₚ t :: working (workers_ p') /\
  joining p' = joining p /\ running_ p' = running_ p.
Proof.
  intros [] Hs. unfold worker_done in Hs. destruct (workers_ p !! i) as [[]|] eqn:Hi; try done. injection Hs as <- <-.
  destruct (worker_changes _ _ _ Waiting Hi) as (rest&H1&H2&H3).
  assert (working (workers_ p) ≡ₚ task :: working (<[i:=Waiting]> (workers_ p))) as Hw by (rewrite H2, H1; done).
  split_and!; cbn; try done. split; cbn; auto.
  - rewrite po_done0, Hw. solve_Permutation.
  - intros [?|Hin]%H3; [done|auto].
  - intros Hr. destruct (po_stopped0 Hr) as [Hn _]. by rewrite Hn in Hi.
  - intros Hr. rewrite length_insert. auto.
Qed.

(** ** The executor *)

Section Executor.
Context (throws : Z -> bool).

(** The calls that have no answer yet. *)
Definition unanswered (p : ThreadPool) : list Z := tasks_ p ++ working (workers_ p).

Record executor_ok (e : RpcExecutor) : Prop := {
  eo_pool : pool_ok (pool_ e);
  eo_calls : submitted e ≡ₚ (callbacks e).*1 ++ unanswered (pool_ e);
  eo_pending : pending_ e = u64 (Z.of_nat (length (unanswered (pool_ e))));
  eo_idle : running_ (pool_ e) = false -> unanswered (pool_ e) = []
}.

Lemma u64_add_l a b : u64 (u64 a + b) = u64 (a + b).
Proof. unfold u64. by rewrite Zplus_mod_idemp_l. Qed.

Lemma submit_ok task e : executor_ok e -> executor_ok (submit task e).
Proof.
  intros [Hp Hc Hn Hi]. unfold submit. destruct (pool_submit task (pool_ e)) as [err|p] eqn:Hs.
  - split; cbn; auto; [|rewrite Hn; unfold u64; rewrite Zplus_mod_idemp_l, Zminus_mod_idemp_l; f_equal; lia].
    rewrite Hc, fmap_app. cbn. solve_Permutation.
  - destruct (pool_submit_ok task _ p Hp Hs) as (Hp'&Hw&Ht&_). unfold unanswered in *. split; cbn; [done|..]; unfold unanswered; rewrite Hw, Ht.
    + rewrite Hc. solve_Permutation.
    + rewrite Hn, u64_add_l. f_equal. rewrite !length_app. cbn. lia.
    + intros Hr. exfalso. unfold pool_submit in Hs. destruct (running_ (pool_ e)) eqn:Hr'; [|done]. cbn in Hs.
      destruct (stopping_ (pool_ e)); [done|]. destruct (_ && _); [done|]. injection Hs as <-. done.
Qed.

Lemma work_ok i e e' : executor_ok e -> work throws i e = Some e' -> executor_ok e' /\ joining (pool_ e') = joining (pool_ e).
Proof.
  intros [Hp Hc Hn Hi] Hw. unfold work in Hw. destruct (worker_take i (pool_ e)) as [p|] eqn:Ht.
  - injection Hw as <-. destruct (worker_take_ok i _ p Hp Ht) as (Hp'&Hu&Hj&Hr). split; [|done].
    fold (unanswered p) in Hu. fold (unanswered (pool_ e)) in Hu. split; cbn; [done|by rewrite Hu|by rewrite Hu|].
    intros Hrf. rewrite Hr in Hrf. apply Permutation_nil. by rewrite Hu, (Hi Hrf).
  - destruct (worker_done i (pool_ e)) as [[t p]|] eqn:Hd; [|done]. injection Hw as <-.
    destruct (worker_done_ok i _ t p Hp Hd) as (Hp'&Htk&Hwk&Hj&Hr). split; [|done].
    assert (unanswered (pool_ e) ≡ₚ t :: unanswered p) as Hu by (unfold unanswered; rewrite Htk, Hwk; solve_Permutation).
    split; cbn; [done| | |].
    + rewrite Hc, Hu, fmap_app. cbn. solve_Permutation.
    + rewrite Hn, <- Z.add_opp_r, u64_add_l. f_equal. rewrite Hu. cbn. lia.
    + intros Hrf. rewrite Hr in Hrf. rewrite (Hi Hrf) in Hu. by apply Permutation_nil_cons in Hu.
Qed.

Lemma executor_always_ok n m e : xreachable throws n m e -> executor_ok e.
Proof.
  induction 1 as [|e e' _ IH Hs]; [split; [apply pool_new_ok|done..]|]. destruct Hs as [e Hj|e task|e i e' Hw|e Hj|e p Hj Hs].
  - destruct IH as [Hp Hc Hn Hi]. destruct (running_ (pool_ e)) eqn:Hr.
    + unfold on_pool, start. rewrite Hr. split; cbn; try done. by rewrite Hr.
    + pose proof (start_ok _ Hp Hj) as Hp'. assert (unanswered (start (pool_ e)) = unanswered (pool_ e)) as Hu.
      { unfold start, unanswered. rewrite Hr. cbn. destruct (po_stopped _ Hp Hr) as [-> ->]. cbn. by rewrite working_waiting. }
      split; unfold on_pool; cbn [pool_ pending_ submitted callbacks]; [done|by rewrite Hu..|]. intros _. rewrite Hu. auto.
  - by apply submit_ok.
  - by apply (work_ok i e).
  - destruct IH as [Hp Hc Hn Hi]. pose proof (stop_begin_ok _ Hp) as Hp'.
    assert (unanswered (stop_begin (pool_ e)) = unanswered (pool_ e) /\ running_ (stop_begin (pool_ e)) = running_ (pool_ e)) as [Hu Hr].
    { unfold stop_begin, unanswered. by destruct (_ && _). }
    split; unfold on_pool; cbn [pool_ pending_ submitted callbacks]; [done|by rewrite Hu..|]. by rewrite Hu, Hr.
  - destruct IH as [Hp Hc Hn Hi]. destruct (stop_end_ok _ p Hp Hs) as (Hp'&H1&H2&H3&H4).
    assert (unanswered p = unanswered (pool_ e)) as Hu by (unfold unanswered; by rewrite H1, H2, H3, H4).
    split; cbn; [done|by rewrite Hu..|]. intros _. unfold unanswered. by rewrite H1, H3.
Qed.

(** C30: every call given to the executor gets exactly one callback, with the
    result or with an error: the calls are those answered, those queued and
    those at a worker, [pending_] counts the latter two, and once [stop] has
    returned every call has been answered.  Tasks start in the order they were
    accepted, and no more wait than the queue may hold. *)
Theorem executor_answers_each_call_once (n m : nat) (e : RpcExecutor) :
  xreachable throws n m e ->
  submitted e ≡ₚ (callbacks e).*1 ++ unanswered (pool_ e) /\
  pending_ e = u64 (Z.of_nat (length (unanswered (pool_ e)))) /\
  (running_ (pool_ e) = false -> submitted e ≡ₚ (callbacks e).*1) /\
  taken (pool_ e) ++ tasks_ (pool_ e) = accepted (pool_ e) /\
  (max_queue_size_ (pool_ e) <> 0%nat -> (length (tasks_ (pool_ e)) <= max_queue_size_ (pool_ e))%nat).
Proof.
  intros [Hp Hc Hn Hi]%executor_always_ok. split_and!; [done..| |apply Hp|apply Hp].
  intros Hr. by rewrite Hc, (Hi Hr), app_nil_r.
Qed.

(** ** Stopping *)

(** Every step of a worker makes this smaller. *)
Definition weight (w : worker) : nat := match w with Waiting => 1 | Working _ => 2 | Exited => 0 end.
Definition remaining (p : ThreadPool) : nat := 2 * length (tasks_ p) + sum_list_with weight (workers_ p).

Lemma weight_changes ws i (w w' : worker) :
  ws !! i = Some w -> (sum_list_with weight (<[i := w']> ws) + weight w = sum_list_with weight ws + weight w')%nat.
Proof.
  intros Hi. rewrite insert_take_drop by (by eapply lookup_lt_Some). rewrite <- (take_drop_middle ws i w Hi) at 3.
  rewrite !sum_list_with_app. simpl. lia.
Qed.

Lemma work_decreases i e e' : work throws i e = Some e' -> (remaining (pool_ e') < remaining (pool_ e))%nat.
Proof.
  unfold work, worker_take, worker_done, remaining. intros Hw.
  destruct (workers_ (pool_ e) !! i) as [[|t|]|] eqn:Hi; try done.
  - destruct (tasks_ (pool_ e)) as [|t ts] eqn:Ht.
    + destruct (stopping_ (pool_ e)); [|done]. injection Hw as <-. pose proof (weight_changes _ _ _ Exited Hi) as Hc. unfold on_pool. cbn [pool_ tasks_ workers_ length weight] in *. lia.
    + injection Hw as <-. pose proof (weight_changes _ _ _ (Working t) Hi) as Hc. unfold on_pool. cbn [pool_ tasks_ workers_ length weight] in *. lia.
  - injection Hw as <-. pose proof (weight_changes _ _ _ Waiting Hi) as Hc. unfold on_pool. cbn [pool_ tasks_ workers_ length weight] in *. lia.
Qed.

(** [k] steps of workers, while [stop] waits. *)
Inductive works : nat -> RpcExecutor -> RpcExecutor -> Prop :=
| works_0 e : works 0 e e
| works_S k i e e' e'' : work throws i e = Some e' -> works k e' e'' -> works (S k) e e''.

Lemma works_bounded k e e' : works k e e' -> (k + remaining (pool_ e') <= remaining (pool_ e))%nat.
Proof. induction 1 as [|k i e e' e'' Hw _ IH]; [lia|]. apply work_decreases in Hw. lia. Qed.

Lemma works_ok k e e' : works k e e' -> executor_ok e -> executor_ok e' /\ joining (pool_ e') = joining (pool_ e).
Proof.
  induction 1 as [|k i e e' e'' Hw _ IH]; intros He; [done|]. destruct (work_ok i e e' He Hw) as [H1 H2].
  destruct (IH H1) as [H3 H4]. split; [done|congruence].
Qed.

(** [stop] returns: while it waits, the workers take a bounded number of
    steps, one for each queued task, its end and their own; and when none of
    them can take another, all have left, the queue is empty and every accepted
    task has run to its end. *)
Theorem stop_returns (n m k : nat) (e e' : RpcExecutor) :
  xreachable throws n m e -> joining (pool_ e) = true -> works k e e' ->
  (k <= remaining (pool_ e))%nat /\
  ((exists i e'', work throws i e' = Some e'') \/
   (exists p, stop_end (pool_ e') = Some p /\ tasks_ p = [] /\ finished p ≡ₚ accepted p)).
Proof.
  intros He%executor_always_ok Hj Hw. split; [apply works_bounded in Hw; lia|].
  destruct (works_ok k e e' Hw He) as [[Hp _ _ _] Hj']. rewrite Hj in Hj'. pose proof (po_joining _ Hp Hj') as Hst.
  destruct (decide (Forall (fun w => w = Exited) (workers_ (pool_ e')))) as [Ha|Ha].
  - right. assert (forallb (fun w => bool_decide (w = Exited)) (workers_ (pool_ e')) = true) as Hf.
    { apply forallb_forall. intros w Hin. apply bool_decide_eq_true. rewrite Forall_forall in Ha. by apply Ha, list_elem_of_In. }
    destruct (stop_end (pool_ e')) as [p|] eqn:Hs; [|unfold stop_end in Hs; by rewrite Hf in Hs]. exists p.
    destruct (stop_end_ok _ p Hp Hs) as (Hp'&H1&_&H3&_). split_and!; [done..|]. rewrite <- (po_order p Hp'), (po_done p Hp'), H1, H3. by rewrite !app_nil_r.
  - left. apply not_Forall_Exists, Exists_exists in Ha as (w&Hin&Hne); [|apply _]. apply list_elem_of_lookup in Hin as (i&Hi). exists i.
    unfold work, worker_take, worker_done. rewrite Hi. destruct w; [|by eauto|by destruct Hne]. destruct (tasks_ (pool_ e')); [rewrite Hst|]; eauto.
Qed.

End Executor.

(** ** Evaluations *)

(** One worker, room for one task, and three calls: the third is refused. *)
Definition busy : RpcExecutor :=
  submit 3 (submit 2 (default (RpcExecutor_new 1 1) (work (fun _ => false) 0 (submit 1 (on_pool start (RpcExecutor_new 1 1)))))).

Lemma busy_reachable : xreachable (fun _ => false) 1 1 busy.
Proof.
  eapply xr_step; [|apply xs_submit]. eapply xr_step; [|apply xs_submit]. 
  apply (xr_step _ _ _ (submit 1 (on_pool start (RpcExecutor_new 1 1)))); [|apply (xs_work _ _ 0%nat); reflexivity].
  eapply xr_step; [|apply xs_submit]. eapply xr_step; [apply xr_new|by apply xs_start].
Qed.

Lemma executor_answers_each_call_once_witness :
  submitted busy = [1; 2; 3] /\ callbacks busy = [(3, true)] /\ unanswered (pool_ busy) = [2; 1] /\
  submitted busy ≡ₚ (callbacks busy).*1 ++ unanswered (pool_ busy).
Proof. split_and!; [done..|]. exact (proj1 (executor_answers_each_call_once (fun _ => false) 1 1 busy busy_reachable)). Defined.

Lemma stop_returns_witness :
  joining (pool_ (on_pool stop_begin busy)) = true /\
  (0 <= remaining (pool_ (on_pool stop_begin busy)))%nat /\
  ((exists i e'', work (fun _ => false) i (on_pool stop_begin busy) = Some e'') \/
   (exists p, stop_end (pool_ (on_pool stop_begin busy)) = Some p /\ tasks_ p = [] /\ finished p ≡ₚ accepted p)).
Proof.
  split; [done|].
  apply (stop_returns (fun _ => false) 1 1 0 (on_pool stop_begin busy) (on_pool stop_begin busy)); [|done|apply works_0].
  eapply xr_step; [exact busy_reachable|by apply xs_stop_begin].
Defined.
