(* ===== verification/DbPool.v ===== *)
(** * Connections to MySQL and their pool

    common/db/MySqlConnection.cpp and common/db/MySqlConnectionPool.cpp.  A
    connection is an object at an address; the pool owns the objects, and keeps
    the addresses of those that are idle in a queue.  Each critical section is a
    step: [acquire] takes an address under the lock and checks the connection
    without it.  The answers of the MySQL client library are parameters,
    numbered by the call; the text of an error is only logged; reading through an address whose object is gone does
    not return. *)

From S2P Require Import Prelude Words.
Local Open Scope Z_scope.

(** ** MySqlConnection *)

(** A result set, as the library hands it over. *)
Abbreviation rows := (list (list (option string))).

Definition CR_SERVER_GONE_ERROR : Z := 2006.
Definition CR_SERVER_LOST : Z := 2013.

(** [mysql_]: whether the pointer to the library's handle is set. *)
Record MySqlConnection := mkConnection {
  mysql_ : bool; connected_ : bool; affected_rows_ : Z; last_insert_id_ : Z
}.

Definition MySqlConnection_new : MySqlConnection := mkConnection false false 0 0.

(** The library: whether a connection is established; the error of a ping, 0 if
    none; for a statement its error, or what [mysql_affected_rows] and
    [mysql_insert_id] say; and for the rows of a query: [mysql_store_result],
    with [mysql_field_count] and [mysql_errno] when there are none. *)
Record MySqlEnv := mkMySql {
  my_connect : nat -> bool;
  my_ping : nat -> Z;
  my_query : nat -> string -> Z + Z * Z;
  my_store_result : nat -> option rows;
  my_field_count : nat -> Z;
  my_errno : nat -> Z
}.

Section Connection.
Context (E : MySqlEnv) (n : nat).

Definition close (c : MySqlConnection) : MySqlConnection := mkConnection false false 0 0.

(** [connect] and [reconnect]: with the configuration kept in the object. *)
Definition connect (c : MySqlConnection) : bool * MySqlConnection :=
  let c := close c in
  if my_connect E n then (true, mkConnection true true 0 0) else (false, c).

Definition markDisconnectedIfNeeded (error_code : Z) (c : MySqlConnection) : MySqlConnection :=
  if negb (error_code =? CR_SERVER_GONE_ERROR) && negb (error_code =? CR_SERVER_LOST) then c else close c.

Definition ping (c : MySqlConnection) : bool * MySqlConnection :=
  if negb (connected_ c) || negb (mysql_ c) then (false, c)
  else if my_ping E n =? 0 then (true, c)
  else (false, markDisconnectedIfNeeded (my_ping E n) c).

(** The library reports [-1] rows, as an unsigned number, for a statement that
    affects none. *)
Definition executeUpdate (sql : string) (c : MySqlConnection) : bool * MySqlConnection :=
  let c := mkConnection (mysql_ c) (connected_ c) 0 0 in
  if negb (connected_ c) then (false, c)
  else match my_query E n sql with
       | inl error_code => (false, markDisconnectedIfNeeded error_code c)
       | inr (affected, insert_id) =>
           (true, mkConnection (mysql_ c) (connected_ c) (if affected =? u64 (-1) then 0 else affected) insert_id)
       end.

(** A result without rows is a result. *)
Definition executeQuery (sql : string) (c : MySqlConnection) : option rows * MySqlConnection :=
  let c := mkConnection (mysql_ c) (connected_ c) 0 0 in
  if negb (connected_ c) then (None, c)
  else match my_query E n sql with
       | inl error_code => (None, markDisconnectedIfNeeded error_code c)
       | inr _ =>
           match my_store_result E n with
           | Some result => (Some result, c)
           | None => if negb (my_field_count E n =? 0) then (None, markDisconnectedIfNeeded (my_errno E n) c) else (Some [], c)
           end
       end.

End Connection.

(** ** MySqlConnectionPool *)

(** [checking]: the addresses [acquire] is checking; [held]: those in a
    [ConnectionGuard].  [allocated] counts the objects made. *)
Record MySqlConnectionPool := mkDbPool {
  connections_ : gmap nat MySqlConnection; idle_ : list nat; stopped_ : bool;
  checking : list nat; held : list nat; allocated : nat; calls : nat
}.

Definition MySqlConnectionPool_new : MySqlConnectionPool := mkDbPool ∅ [] false [] [] 0 0.

Definition PM (A : Type) : Type := SM MySqlConnectionPool A.

Section Pool.
Context (E : MySqlEnv).

Definition put_connections (cs : gmap nat MySqlConnection) (p : MySqlConnectionPool) : MySqlConnectionPool :=
  mkDbPool cs (idle_ p) (stopped_ p) (checking p) (held p) (allocated p) (calls p).

Definition called : PM nat :=
  fun p => Some (calls p, mkDbPool (connections_ p) (idle_ p) (stopped_ p) (checking p) (held p) (allocated p) (S (calls p))).

(** An operation of the object at an address. *)
Definition on_connection {A} (a : nat) (f : MySqlConnection -> A * MySqlConnection) : PM A :=
  fun p => match connections_ p !! a with
           | Some c => let (r, c') := f c in Some (r, put_connections (<[a := c']> (connections_ p)) p)
           | None => None
           end.

Definition stop : PM unit :=
  modify (fun p => mkDbPool ∅ [] true (checking p) (held p) (allocated p) (calls p)).

(** The loop of [init]: a new object, connected and idle; or nothing at all. *)
Fixpoint make_connections (k : nat) : PM bool :=
  match k with
  | O => mret true
  | S k =>
      n ← called;
      let (ok, c) := connect E n MySqlConnection_new in
      if negb ok then
        modify (fun p => mkDbPool ∅ [] true (checking p) (held p) (allocated p) (calls p));; mret false
      else
        modify (fun p => mkDbPool (<[allocated p := c]> (connections_ p)) (idle_ p ++ [allocated p]) (stopped_ p)
                           (checking p) (held p) (S (allocated p)) (calls p));;
        make_connections k
  end.

Definition init (pool_size : nat) : PM bool :=
  stop;;
  modify (fun p => mkDbPool (connections_ p) (idle_ p) false (checking p) (held p) (allocated p) (calls p));;
  make_connections (if Nat.eqb pool_size 0 then 1%nat else pool_size).

(** [acquire], the first critical section, when the wait ends: the address
    taken; none when the pool is stopped, or when the time is up and no
    connection is idle. *)
Definition acquire_take : PM (option nat) :=
  p ← get_state;
  match idle_ p with
  | a :: rest =>
      if stopped_ p then mret None
      else modify (fun p => mkDbPool (connections_ p) rest (stopped_ p) (checking p ++ [a]) (held p) (allocated p) (calls p));;
           mret (Some a)
  | [] => mret None
  end.

Definition forget (a : nat) (l : list nat) : list nat := filter (fun b => b <> a) l.

(** The rest of [acquire]: whether the guard holds the connection. *)
Definition acquire_check (a : nat) : PM bool :=
  n ← called;
  alive ← on_connection a (ping E n);
  usable ← (if (alive : bool) then mret true else n ← called; on_connection a (connect E n));
  if negb usable then
    modify (fun p => mkDbPool (connections_ p) (if stopped_ p then idle_ p else idle_ p ++ [a]) (stopped_ p)
                       (forget a (checking p)) (held p) (allocated p) (calls p));;
    mret false
  else
    modify (fun p => mkDbPool (connections_ p) (idle_ p) (stopped_ p) (forget a (checking p)) (held p ++ [a]) (allocated p) (calls p));;
    mret true.

(** The end of a guard: [release]. *)
Definition release (a : nat) : PM unit :=
  p ← get_state;
  if stopped_ p then
    modify (fun p => mkDbPool (connections_ p) (idle_ p) (stopped_ p) (checking p) (forget a (held p)) (allocated p) (calls p))
  else
    connected ← on_connection a (fun c => (connected_ c, c));
    (if (connected : bool) then mret tt else n ← called; on_connection a (connect E n);; mret tt);;
    modify (fun p => mkDbPool (connections_ p) (idle_ p ++ [a]) (stopped_ p) (checking p) (forget a (held p)) (allocated p) (calls p)).

(** The statements of a holder. *)
Definition update (a : nat) (sql : string) : PM bool :=
  n ← called; on_connection a (executeUpdate E n sql).
Definition query (a : nat) (sql : string) : PM (option rows) :=
  n ← called; on_connection a (executeQuery E n sql).

(** What the threads of a process do with the pool; [init] is called before
    connections are handed out. *)
Inductive pstep : MySqlConnectionPool -> MySqlConnectionPool -> Prop :=
| ps_init p p' k ok : checking p = [] -> held p = [] -> init k p = Some (ok, p') -> pstep p p'
| ps_take p p' r : acquire_take p = Some (r, p') -> pstep p p'
| ps_check p p' a ok : a ∈ checking p -> acquire_check a p = Some (ok, p') -> pstep p p'
| ps_update p p' a sql ok : a ∈ held p -> update a sql p = Some (ok, p') -> pstep p p'
| ps_query p p' a sql r : a ∈ held p -> query a sql p = Some (r, p') -> pstep p p'
| ps_release p p' a : a ∈ held p -> release a p = Some (tt, p') -> pstep p p'
| ps_stop p p' : stop p = Some (tt, p') -> pstep p p'.

Inductive preachable : MySqlConnectionPool -> Prop :=
| pr_new : preachable MySqlConnectionPool_new
| pr_step p p' : preachable p -> pstep p p' -> preachable p'.

End Pool.

(** ** Every connection is in one place *)

Definition addresses (p : MySqlConnectionPool) : list nat := idle_ p ++ checking p ++ held p.

Record pool_ok (p : MySqlConnectionPool) : Prop := mkPoolOk {
  po_nodup : NoDup (addresses p);
  po_old : forall a, a ∈ addresses p -> (a < allocated p)%nat;
  po_all : stopped_ p = false -> forall a, a ∈ addresses p <-> a ∈ dom (connections_ p);
  po_stopped : stopped_ p = true -> connections_ p = ∅ /\ idle_ p = [];
  po_handle : forall a c, connections_ p !! a = Some c -> connected_ c = mysql_ c
}.

Lemma forget_perm a l : NoDup l -> a ∈ l -> l ≡ₚ a :: forget a l.
Proof.
  induction 1 as [|b l Hb Hl IH]; [by intros ?%elem_of_nil|]. unfold forget in *. intros [->|Hin]%elem_of_cons.
  - rewrite filter_cons_False by auto. f_equiv. symmetry. clear IH Hl. induction l as [|c l IH]; [done|].
    apply not_elem_of_cons in Hb as [? ?]. rewrite filter_cons_True by auto. f_equiv. auto.
  - rewrite filter_cons_True by (intros ->; contradiction). rewrite (IH Hin) at 1. apply Permutation_swap.
Qed.

(** The invariant sees the addresses up to their order, and the objects by
    whether they are there. *)
Lemma pool_ok_perm p p' :
  pool_ok p -> addresses p' ≡ₚ addresses p -> allocated p' = allocated p -> stopped_ p' = stopped_ p ->
  dom (connections_ p') = dom (connections_ p) -> (stopped_ p = true -> idle_ p' = idle_ p) ->
  (forall a c, connections_ p' !! a = Some c -> connected_ c = mysql_ c) -> pool_ok p'.
Proof.
  intros [Hn Ho Ha Hs Hh] Hp Hal Hst Hd Hi Hc. split; [by rewrite Hp| | | |done].
  - intros a. rewrite Hp, Hal. apply Ho.
  - intros Hf a. rewrite Hp, Hd. apply Ha. congruence.
  - rewrite Hst. intros Hf. specialize (Hi Hf). destruct (Hs Hf) as [He ?]. rewrite He, dom_empty_L in Hd.
    apply dom_empty_inv_L in Hd. split; [done|congruence].
Qed.

Section Claims.
Context (E : MySqlEnv).

Abbreviation handle_ok f := (forall c, connected_ c = mysql_ c -> connected_ (f c).2 = mysql_ (f c).2).

Lemma connect_handle n : handle_ok (connect E n).
Proof. intros c Hc. unfold connect. by destruct (my_connect E n). Qed.
Lemma mark_handle e c : connected_ c = mysql_ c -> connected_ (markDisconnectedIfNeeded e c) = mysql_ (markDisconnectedIfNeeded e c).
Proof. unfold markDisconnectedIfNeeded. by destruct (_ && _). Qed.
Lemma ping_handle n : handle_ok (ping E n).
Proof. intros c Hc. unfold ping. destruct (_ || _); [done|]. destruct (_ =? _); [done|]. by apply mark_handle. Qed.
Lemma update_handle n sql : handle_ok (executeUpdate E n sql).
Proof.
  intros c Hc. unfold executeUpdate. cbn. destruct (connected_ c) eqn:Hk; [|done]. cbn.
  destruct (my_query E n sql) as [e|[]]; cbn; [|done]. by apply mark_handle.
Qed.
Lemma query_handle n sql : handle_ok (executeQuery E n sql).
Proof.
  intros c Hc. unfold executeQuery. cbn. destruct (connected_ c) eqn:Hk; [|done]. cbn.
  destruct (my_query E n sql) as [e|[]]; cbn; [by apply mark_handle|].
  destruct (my_store_result E n); [done|]. destruct (negb _); cbn; [by apply mark_handle|done].
Qed.

(** A ping or a connection that succeeds leaves the object connected. *)
Lemma ping_connected n c : (ping E n c).1 = true -> connected_ (ping E n c).2 = true.
Proof.
  unfold ping. destruct (connected_ c) eqn:Hk; cbn; [|done]. destruct (negb (mysql_ c)); cbn; [done|]. by destruct (_ =? _).
Qed.
Lemma connect_connected n c : (connect E n c).1 = true -> connected_ (connect E n c).2 = true.
Proof. unfold connect. by destruct (my_connect E n). Qed.

(** What [called] and an operation on an object do to the pool: only the object
    changes. *)
Definition same_but (p p' : MySqlConnectionPool) : Prop :=
  addresses p' = addresses p /\ idle_ p' = idle_ p /\ checking p' = checking p /\ held p' = held p /\
  allocated p' = allocated p /\ stopped_ p' = stopped_ p /\ dom (connections_ p') = dom (connections_ p).

Lemma wp_on {A} a (f : MySqlConnection -> A * MySqlConnection) p (Q : A -> MySqlConnectionPool -> Prop) :
  pool_ok p -> a ∈ dom (connections_ p) -> handle_ok f ->
  (forall c p', connections_ p' !! a = Some (f c).2 -> same_but p p' -> pool_ok p' -> Q (f c).1 p') ->
  wp (on_connection a f) Q p.
Proof.
  intros Hp [c Hc]%elem_of_dom Hf HQ. unfold wp, on_connection. rewrite Hc.
  specialize (HQ c). specialize (Hf c (po_handle p Hp a c Hc)). destruct (f c) as [x c'].
  assert (dom (<[a:=c']> (connections_ p)) = dom (connections_ p)) as Hd.
  { rewrite dom_insert_L. apply subseteq_union_1_L, singleton_subseteq_l, elem_of_dom. eauto. }
  apply HQ; [unfold put_connections; cbn [connections_]; by rewrite lookup_insert_eq|done|].
  apply (pool_ok_perm p); try done. intros b d. unfold put_connections. cbn [connections_].
  destruct (decide (a = b)) as [->|]; [by rewrite lookup_insert_eq; intros [= <-]|].
  rewrite lookup_insert_ne by done. apply (po_handle p Hp).
Qed.

Lemma wp_on_called {A} a (f : nat -> MySqlConnection -> A * MySqlConnection) p (Q : A -> MySqlConnectionPool -> Prop) :
  pool_ok p -> a ∈ dom (connections_ p) -> (forall n, handle_ok (f n)) ->
  (forall n c p', connections_ p' !! a = Some (f n c).2 -> same_but p p' -> pool_ok p' -> Q (f n c).1 p') ->
  wp (n ← called; on_connection a (f n)) Q p.
Proof.
  intros Hp Ha Hf HQ. apply wp_bind. eapply wp_exact; [reflexivity|]. apply wp_on; [|done|auto|].
  - apply (pool_ok_perm p); try done. apply (po_handle p Hp).
  - intros c p' Hc Hs Hp'. apply HQ; done.
Qed.

Lemma pool_ok_alive p a : pool_ok p -> stopped_ p = false -> a ∈ addresses p -> a ∈ dom (connections_ p).
Proof. intros Hp Hs. apply (po_all p Hp Hs). Qed.
Lemma in_checking p a : a ∈ checking p -> a ∈ addresses p.
Proof. unfold addresses. rewrite !elem_of_app. auto. Qed.
Lemma in_held p a : a ∈ held p -> a ∈ addresses p.
Proof. unfold addresses. rewrite !elem_of_app. auto. Qed.
Lemma nodup_checking p : pool_ok p -> NoDup (checking p).
Proof. intros [Hn _ _ _ _]. unfold addresses in Hn. by apply NoDup_app in Hn as (_&_&(?&_&_)%NoDup_app). Qed.
Lemma nodup_held p : pool_ok p -> NoDup (held p).
Proof. intros [Hn _ _ _ _]. unfold addresses in Hn. by apply NoDup_app in Hn as (_&_&(_&_&?)%NoDup_app). Qed.

(** The guard of [acquire] holds a connected connection; or the address is idle
    again. *)
Definition checked (a : nat) (ok : bool) (p : MySqlConnectionPool) : Prop :=
  if ok then a ∈ held p /\ exists c, connections_ p !! a = Some c /\ connected_ c = true else a ∈ idle_ p.

Lemma acquire_settles p a (ok : bool) :
  pool_ok p -> stopped_ p = false -> a ∈ checking p ->
  (ok = true -> exists c, connections_ p !! a = Some c /\ connected_ c = true) ->
  wp (if negb ok then
        modify (fun p => mkDbPool (connections_ p) (if stopped_ p then idle_ p else idle_ p ++ [a]) (stopped_ p)
                           (forget a (checking p)) (held p) (allocated p) (calls p));;
        mret false
      else
        modify (fun p => mkDbPool (connections_ p) (idle_ p) (stopped_ p) (forget a (checking p)) (held p ++ [a])
                           (allocated p) (calls p));;
        mret true) (fun ok p' => pool_ok p' /\ stopped_ p' = false /\ checked a ok p') p.
Proof.
  intros Hp Hs Ha Hok. pose proof (forget_perm a _ (nodup_checking p Hp) Ha) as Hf.
  destruct ok; cbn [negb]; apply wp_bind, wp_modify, wp_ret; (split; [|split; [done|]]).
  - apply (pool_ok_perm p); try done; [|apply (po_handle p Hp)]. unfold addresses. cbn. rewrite Hf at 2. solve_Permutation.
  - split; [cbn; set_solver|]. auto.
  - apply (pool_ok_perm p); try done; [|cbn; by rewrite Hs|apply (po_handle p Hp)].
    unfold addresses. cbn. rewrite Hs. rewrite Hf at 2. solve_Permutation.
  - cbn. rewrite Hs. set_solver.
Qed.

Lemma acquire_check_ok p a :
  pool_ok p -> stopped_ p = false -> a ∈ checking p ->
  wp (acquire_check E a) (fun ok p' => pool_ok p' /\ stopped_ p' = false /\ checked a ok p') p.
Proof.
  intros Hp Hs Ha. pose proof (pool_ok_alive p a Hp Hs (in_checking p a Ha)) as Hd. unfold acquire_check.
  apply wp_assoc, wp_bind, wp_on_called; [done|done|apply ping_handle|].
  intros n c p1 Hc1 (_&_&Hk1&_&_&Hs1&Hd1) Hp1. apply wp_bind. rewrite <- Hk1 in Ha. rewrite <- Hs1 in Hs. rewrite <- Hd1 in Hd.
  destruct (ping E n c).1 eqn:Hping.
  - apply wp_ret, acquire_settles; eauto using ping_connected.
  - apply wp_on_called; [done|done|apply connect_handle|].
    intros n' c' p2 Hc2 (_&_&Hk2&_&_&Hs2&_) Hp2. rewrite <- Hk2 in Ha. rewrite <- Hs2 in Hs.
    apply acquire_settles; eauto using connect_connected.
Qed.

Lemma acquire_take_ok p : pool_ok p -> wp acquire_take (fun _ p' => pool_ok p') p.
Proof.
  intros Hp. unfold acquire_take. apply wp_bind, wp_get. destruct (idle_ p) as [|a rest] eqn:Hi; [by apply wp_ret|].
  destruct (stopped_ p) eqn:Hs; [by apply wp_ret|]. apply wp_bind, wp_modify, wp_ret.
  apply (pool_ok_perm p); try done; [|congruence|apply (po_handle p Hp)].
  unfold addresses. cbn. rewrite Hi. solve_Permutation.
Qed.

(** A statement on a connection that is there. *)
Lemma statement_ok {A} (f : nat -> MySqlConnection -> A * MySqlConnection) p a :
  pool_ok p -> stopped_ p = false -> a ∈ held p -> (forall n, handle_ok (f n)) ->
  wp (n ← called; on_connection a (f n)) (fun _ p' => pool_ok p') p.
Proof.
  intros Hp Hs Ha Hf. apply wp_on_called; [done|by apply pool_ok_alive, in_held|done|]. auto.
Qed.

(** On a stopped pool nothing is reached through an address. *)
Lemma stopped_unreached {A} (f : nat -> MySqlConnection -> A * MySqlConnection) p a :
  pool_ok p -> stopped_ p = true -> (n ← called; on_connection a (f n)) p = None.
Proof.
  intros Hp Hs. destruct (po_stopped p Hp Hs) as [He _]. unfold mbind, SM_bind, called, on_connection. cbn [connections_].
  by rewrite He, lookup_empty.
Qed.

Lemma check_unreached p a : pool_ok p -> stopped_ p = true -> acquire_check E a p = None.
Proof.
  intros Hp Hs. destruct (po_stopped p Hp Hs) as [He _]. unfold acquire_check, mbind, SM_bind, called, on_connection. cbn [connections_].
  by rewrite He, lookup_empty.
Qed.

Lemma release_stopped p a : pool_ok p -> stopped_ p = true -> a ∈ held p -> wp (release E a) (fun _ p' => pool_ok p') p.
Proof.
  intros Hp Hs Ha. unfold release. apply wp_bind, wp_get. rewrite Hs. apply wp_modify.
  pose proof (forget_perm a _ (nodup_held p Hp) Ha) as Hf. destruct Hp as [Hn Ho Hall Hst Hh].
  assert (addresses p ≡ₚ a :: idle_ p ++ checking p ++ forget a (held p)) as Hp.
  { unfold addresses. rewrite Hf at 1. solve_Permutation. }
  rewrite Hp in Hn. apply NoDup_cons in Hn as [_ Hn]. split; cbn; [exact Hn| |congruence|done|done].
  intros b Hb. apply Ho. rewrite Hp. by apply list_elem_of_further.
Qed.

Lemma release_ok p a :
  pool_ok p -> stopped_ p = false -> a ∈ held p -> wp (release E a) (fun _ p' => pool_ok p' /\ a ∈ idle_ p') p.
Proof.
  intros Hp Hs Ha. pose proof (pool_ok_alive p a Hp Hs (in_held p a Ha)) as Hd. unfold release.
  apply wp_bind, wp_get. rewrite Hs. apply wp_bind, wp_on; [done|done|auto|].
  intros c p1 _ (_&_&_&Hh1&_&Hs1&Hd1) Hp1. apply wp_bind. rewrite <- Hh1 in Ha. rewrite <- Hs1 in Hs. rewrite <- Hd1 in Hd.
  assert (forall p2, pool_ok p2 -> stopped_ p2 = false -> a ∈ held p2 ->
    wp (modify (fun p => mkDbPool (connections_ p) (idle_ p ++ [a]) (stopped_ p) (checking p) (forget a (held p)) (allocated p) (calls p)))
      (fun _ p' => pool_ok p' /\ a ∈ idle_ p') p2) as Hend.
  { intros p2 Hp2 Hs2 Ha2. pose proof (forget_perm a _ (nodup_held p2 Hp2) Ha2) as Hf. apply wp_modify.
    split; [|cbn; rewrite elem_of_app, list_elem_of_singleton; auto]. apply (pool_ok_perm p2); try done; [|congruence|apply (po_handle p2 Hp2)].
    unfold addresses. cbn. rewrite Hf at 2. solve_Permutation. }
  destruct (c.(connected_)); cbn [fst]; [apply wp_ret; auto|]. apply wp_assoc, wp_bind, wp_on_called; [done|done|apply connect_handle|].
  intros n c' p2 _ (_&_&_&Hh2&_&Hs2&_) Hp2. apply wp_ret. apply Hend; congruence.
Qed.

Lemma stop_ok p : pool_ok p -> wp stop (fun _ p' => pool_ok p' /\ checking p' = checking p /\ held p' = held p) p.
Proof.
  intros [Hn Ho Hall Hst Hh]. apply wp_modify. split; [|done]. unfold addresses in *. split; cbn; [| |done|done|].
  - by apply NoDup_app in Hn as (_&_&?).
  - intros a Ha. apply Ho, elem_of_app. by right.
  - intros a c. by rewrite lookup_empty.
Qed.

Lemma make_connections_ok k p :
  pool_ok p -> stopped_ p = false -> checking p = [] -> held p = [] ->
  wp (make_connections E k) (fun ok p' => pool_ok p' /\ if ok then length (idle_ p') = (length (idle_ p) + k)%nat else stopped_ p' = true) p.
Proof.
  revert p. induction k as [|k IH]; intros p Hp Hs Hc Hh; [apply wp_ret; split; [done|lia]|]. cbn [make_connections].
  apply wp_bind. eapply wp_exact; [reflexivity|]. unfold connect. destruct (my_connect E (calls p)); cbn [negb]; apply wp_bind, wp_modify.
  - destruct Hp as [Hn Ho Hall _ Hk]. unfold addresses in *. rewrite Hc, Hh, !app_nil_r in *.
    eapply wp_mono; [apply IH; [|done..]|].
    2: { intros ok p' [? Hl]. split; [done|]. destruct ok; [|done]. cbn in Hl. rewrite length_app in Hl. cbn in Hl. lia. }
    split; unfold addresses; cbn; rewrite ?Hc, ?Hh, ?app_nil_r; [| | |congruence|].
    + apply NoDup_app. split_and!; [done| |apply NoDup_singleton]. intros a Ha ->%list_elem_of_singleton. specialize (Ho _ Ha). lia.
    + intros a. rewrite elem_of_app, list_elem_of_singleton. intros [Ha| ->]; [specialize (Ho _ Ha)|]; lia.
    + intros _ a. rewrite elem_of_app, list_elem_of_singleton, (Hall Hs), dom_insert, elem_of_union, elem_of_singleton. tauto.
    + intros a c. destruct (decide (allocated p = a)) as [->|]; [rewrite lookup_insert_eq; by intros [= <-]|].
      rewrite lookup_insert_ne by done. apply Hk.
  - apply wp_ret. split; [|done]. split; unfold addresses; cbn; rewrite ?Hc, ?Hh; [constructor|by intros ? ?%elem_of_nil|done|done|].
    intros a c. by rewrite lookup_empty.
Qed.

Lemma init_ok k p :
  pool_ok p -> checking p = [] -> held p = [] ->
  wp (init E k) (fun ok p' => pool_ok p' /\ if ok then length (idle_ p') = Nat.max 1 k else stopped_ p' = true) p.
Proof.
  intros Hp Hc Hh. unfold init. apply wp_bind. eapply wp_exact; [reflexivity|]. apply wp_bind, wp_modify.
  eapply wp_mono; [apply make_connections_ok; cbn; [|done..]|].
  2: { intros ok p' [? Hl]. split; [done|]. destruct ok; [|done]. cbn in Hl. rewrite Hl. destruct (Nat.eqb_spec k 0); lia. }
  split; unfold addresses; cbn; rewrite ?Hc, ?Hh; [constructor|by intros ? ?%elem_of_nil| |done|by intros ? ?; rewrite lookup_empty].
  intros _ a. rewrite dom_empty_L. split; [by intros ?%elem_of_nil|set_solver].
Qed.

Lemma new_pool_ok : pool_ok MySqlConnectionPool_new.
Proof.
  split; unfold addresses; cbn; [constructor|by intros ? ?%elem_of_nil| |done|by intros ? ?; rewrite lookup_empty].
  intros _ a. rewrite dom_empty_L. split; [by intros ?%elem_of_nil|set_solver].
Qed.

(** A step keeps what the specification of its operation says. *)
Lemma wp_step {A} (m : PM A) (P : A -> MySqlConnectionPool -> Prop) p x p' : wp m P p -> m p = Some (x, p') -> P x p'.
Proof. unfold wp. intros Hw Hm. by rewrite Hm in Hw. Qed.

Lemma step_ok p p' : pool_ok p -> pstep E p p' -> pool_ok p'.
Proof.
  intros Hp Hs. destruct Hs as [p p' k ok Hc Hh Hs|p p' r Hs|p p' a ok Ha Hs|p p' a sql ok Ha Hs|p p' a sql r Ha Hs|p p' a Ha Hs|p p' Hs].
  - apply (wp_step _ _ _ _ _ (init_ok k p Hp Hc Hh) Hs).
  - apply (wp_step _ _ _ _ _ (acquire_take_ok p Hp) Hs).
  - destruct (stopped_ p) eqn:Hst; [by rewrite check_unreached in Hs|].
    apply (wp_step _ _ _ _ _ (acquire_check_ok p a Hp Hst Ha) Hs).
  - destruct (stopped_ p) eqn:Hst; [unfold update in Hs; by rewrite stopped_unreached in Hs|].
    apply (wp_step _ _ _ _ _ (statement_ok _ p a Hp Hst Ha (fun n => update_handle n sql)) Hs).
  - destruct (stopped_ p) eqn:Hst; [unfold query in Hs; by rewrite stopped_unreached in Hs|].
    apply (wp_step _ _ _ _ _ (statement_ok _ p a Hp Hst Ha (fun n => query_handle n sql)) Hs).
  - destruct (stopped_ p) eqn:Hst; [apply (wp_step _ _ _ _ _ (release_stopped p a Hp Hst Ha) Hs)|].
    apply (wp_step _ _ _ _ _ (release_ok p a Hp Hst Ha) Hs).
  - apply (wp_step _ _ _ _ _ (stop_ok p Hp) Hs).
Qed.

Lemma pool_reachable_ok p : preachable E p -> pool_ok p.
Proof. induction 1; eauto using new_pool_ok, step_ok. Qed.

(** C31: In every state the threads of a process can bring the connection pool
    to, whatever MySQL answers, no connection is in two places: a connection
    that is idle is not lent, and no two holders have the same one.  Until the
    pool is stopped every connection it owns is idle, being checked or lent, so
    none is lost; a connection counts as connected exactly while it has a
    handle; [acquire] returns, and the connection it hands out is connected,
    and otherwise idle again; the end of a guard returns too, and makes its
    connection idle, whatever became of it meanwhile. *)
Theorem pool_lends_each_once (p : MySqlConnectionPool) :
  preachable E p ->
  NoDup (idle_ p ++ checking p ++ held p) /\
  (forall a c, connections_ p !! a = Some c -> connected_ c = mysql_ c) /\
  (stopped_ p = false ->
    (forall a, a ∈ idle_ p ++ checking p ++ held p <-> a ∈ dom (connections_ p)) /\
    (forall a, a ∈ checking p -> exists ok p', acquire_check E a p = Some (ok, p') /\ checked a ok p')) /\
  (forall a, a ∈ held p -> exists p', release E a p = Some (tt, p') /\ (stopped_ p = false -> a ∈ idle_ p')).
Proof.
  intros Hp%pool_reachable_ok. split_and!; [apply (po_nodup p Hp)|apply (po_handle p Hp)| |].
  - intros Hs. split; [apply (po_all p Hp Hs)|]. intros a Ha.
    destruct (wp_run _ _ _ (acquire_check_ok p a Hp Hs Ha)) as (ok&p'&?&_&_&?). eauto.
  - intros a Ha. destruct (stopped_ p) eqn:Hs.
    + destruct (wp_run _ _ _ (release_stopped p a Hp Hs Ha)) as ([]&p'&?&_). by exists p'.
    + destruct (wp_run _ _ _ (release_ok p a Hp Hs Ha)) as ([]&p'&?&_&?). eauto.
Qed.

End Claims.

(** ** An evaluation *)

(** A pool of two; MySQL goes away, so that the first ping fails and the
    connection is made anew. *)
Definition mysql_sample : MySqlEnv :=
  mkMySql (fun _ => true) (fun n => if Nat.eqb n 2 then CR_SERVER_GONE_ERROR else 0) (fun _ _ => inr (1, 7)) (fun _ => None) (fun _ => 0) (fun _ => 0).

Definition pool_run {A} (m : PM A) (p : MySqlConnectionPool) : MySqlConnectionPool :=
  match m p with Some (_, p') => p' | None => p end.
Definition pool_started : MySqlConnectionPool := pool_run (init mysql_sample 2) MySqlConnectionPool_new.
Definition pool_taken : MySqlConnectionPool := pool_run acquire_take pool_started.
Definition pool_lent : MySqlConnectionPool := pool_run (acquire_check mysql_sample 0) pool_taken.

Lemma pool_lends_each_once_witness :
  held pool_lent = [0%nat] /\ idle_ pool_lent = [1%nat] /\ calls pool_lent = 4%nat /\
  exists p', release mysql_sample 0 pool_lent = Some (tt, p') /\ 0%nat ∈ idle_ p'.
Proof.
  split_and!; [vm_compute; reflexivity..|].
  refine (_ (pool_lends_each_once mysql_sample pool_lent _)).
  - intros (_&_&_&Hr). destruct (Hr 0%nat) as (p'&Hp&Hi); [vm_compute; by left|]. exists p'. split; [exact Hp|]. apply Hi. vm_compute. reflexivity.
  - apply (pr_step _ pool_taken); [apply (pr_step _ pool_started); [apply (pr_step _ MySqlConnectionPool_new); [apply pr_new|]|]|].
    + apply (ps_init _ _ _ 2 true); vm_compute; reflexivity.
    + apply (ps_take _ _ _ (Some 0%nat)). vm_compute. reflexivity.
    + apply (ps_check _ _ _ 0%nat true); [vm_compute; by left|]. vm_compute. reflexivity.
Defined.
