(* ===== verification/TcpServer.v ===== *)
(** * The server and its connections

    common/net/TcpServer.cpp with common/net/EventLoopThreadPool.cpp.  The
    server's own loop has number 0, the loops of its threads the others.  A
    connection object is numbered by its creation; it lives as long as
    something refers to it: the table of the server, a removal on its way to the
    server's loop, or a functor in the connection's own loop. *)

From S2P Require Import Prelude Words Text NetBuffer Tcp TcpClaims.
Local Open Scope Z_scope.

(** ** EventLoopThreadPool *)

Record EventLoopThreadPool := mkLoops { pool_started : bool; num_threads_ : Z; next_ : nat; loops_ : list nat }.

Definition EventLoopThreadPool_new : EventLoopThreadPool := mkLoops false 0 0 [].

(** [None]: the exception. *)
Definition setThreadNum (num_threads : Z) (p : EventLoopThreadPool) : option EventLoopThreadPool :=
  if pool_started p then None else Some (mkLoops false (if num_threads <? 0 then 0 else num_threads) (next_ p) (loops_ p)).

Definition pool_start (p : EventLoopThreadPool) : EventLoopThreadPool :=
  if pool_started p then p else mkLoops true (num_threads_ p) (next_ p) (loops_ p ++ seq 1 (Z.to_nat (num_threads_ p))).

(** Reading beyond the end of [loops_] does not return. *)
Definition getNextLoop (p : EventLoopThreadPool) : option (nat * EventLoopThreadPool) :=
  match loops_ p with
  | [] => Some (0%nat, p)
  | _ =>
      loop ← loops_ p !! next_ p;
      Some (loop, mkLoops (pool_started p) (num_threads_ p) (if Nat.leb (length (loops_ p)) (S (next_ p)) then 0%nat else S (next_ p)) (loops_ p))
  end.

(** ** TcpServer *)

Record connection := mkConn { conn_name : string; conn_loop : nat; conn : TcpConnection }.

Record TcpServer := mkServer {
  name_ : string; started_ : bool; listening_ : bool; next_conn_id_ : Z; thread_pool_ : EventLoopThreadPool;
  connections_ : gmap string nat;
  objects : list connection;
  removals : list nat;
  removed : list nat
}.

Definition TcpServer_new (name : string) : TcpServer :=
  mkServer name false false 1 EventLoopThreadPool_new ∅ [] [] [].

Definition server_start (s : TcpServer) : TcpServer :=
  if started_ s then s
  else mkServer (name_ s) true true (next_conn_id_ s) (pool_start (thread_pool_ s)) (connections_ s) (objects s) (removals s) (removed s).

Definition set_thread_num (n : Z) (s : TcpServer) : option TcpServer :=
  p ← setThreadNum n (thread_pool_ s);
  Some (mkServer (name_ s) (started_ s) (listening_ s) (next_conn_id_ s) p (connections_ s) (objects s) (removals s) (removed s)).

Definition INT_MAX : Z := 2147483647.

(** [next_conn_id_++] beyond [INT_MAX] is undefined.  [connectEstablished] is the
    first functor of the connection; when it shares the server's loop
    [runInLoop] runs it at once, which is the case that its turn comes next. *)
Definition newConnection (s : TcpServer) : option TcpServer :=
  '(io_loop, pool) ← getNextLoop (thread_pool_ s);
  if next_conn_id_ s =? INT_MAX then None
  else
    let name := name_ s +:+ "-conn-" +:+ to_string (next_conn_id_ s) in
    let i := length (objects s) in
    Some (mkServer (name_ s) (started_ s) (listening_ s) (next_conn_id_ s + 1) pool (<[name := i]> (connections_ s))
            (objects s ++ [mkConn name io_loop TcpConnection_new]) (removals s) (removed s)).

(** [removeConnection]: the close callback.  As above, in the server's own loop
    the removal is what comes next. *)
Definition removeConnection (i : nat) (s : TcpServer) : TcpServer :=
  mkServer (name_ s) (started_ s) (listening_ s) (next_conn_id_ s) (thread_pool_ s) (connections_ s) (objects s) (removals s ++ [i]) (removed s).

Definition set_conn (i : nat) (c : TcpConnection) (s : TcpServer) : TcpServer :=
  mkServer (name_ s) (started_ s) (listening_ s) (next_conn_id_ s) (thread_pool_ s) (connections_ s)
    (alter (fun o => mkConn (conn_name o) (conn_loop o) c) i (objects s)) (removals s) (removed s).

(** [removeConnectionInLoop] *)
Definition removeConnectionInLoop (i : nat) (s : TcpServer) : option TcpServer :=
  o ← objects s !! i;
  '(_, c) ← queueInLoop FDestroyed (conn o);
  Some (set_conn i c (mkServer (name_ s) (started_ s) (listening_ s) (next_conn_id_ s) (thread_pool_ s) (delete (conn_name o) (connections_ s))
                        (objects s) (removals s) (removed s ++ [i]))).

(** The close callbacks of a connection so far. *)
Definition closes (c : TcpConnection) : nat := length (omap (fun n => if n is CloseCallback then Some tt else None) (history c)).

Fixpoint iterate {A} (n : nat) (f : A -> A) (x : A) : A := match n with O => x | S n => iterate n f (f x) end.

(** ** The history of a connection grows *)

Definition grows {A} (m : C A) : Prop := forall c x c', m c = Some (x, c') -> history c `prefix_of` history c'.

Lemma grows_bind {A B} (m : C A) (k : A -> C B) : grows m -> (forall x, grows (k x)) -> grows (m ≫= k).
Proof. intros Hm Hk c y c' (x&c1&H1&H2)%run_bind_Some. etrans; [by eapply Hm|by eapply Hk]. Qed.
Lemma grows_ret {A} (x : A) : grows (mret x).
Proof. by intros c y c' [= _ <-]. Qed.
Lemma grows_get : grows get_state.
Proof. by intros c y c' [= _ <-]. Qed.
Lemma grows_modify g : (forall c, history c `prefix_of` history (g c)) -> grows (modify g).
Proof. by intros Hg c y c' [= _ <-]. Qed.
Lemma grows_none {A} : grows ((fun _ => None) : C A).
Proof. done. Qed.
Lemma grows_append data : grows (append_output data).
Proof. intros c y c'. unfold append_output. case_match; [|done]. by intros [= _ <-]. Qed.

Create HintDb grows.
#[local] Hint Resolve grows_ret grows_get grows_none grows_append : grows.

Ltac grow :=
  repeat first
    [ progress auto with grows
    | apply grows_bind; [|intros ?]
    | apply grows_modify; intros ?; cbn; first [done | apply prefix_app_r; done]
    | case_match ].

Section Grows.
Context (E : TEnv).

Lemma grows_called : grows called.
Proof. unfold called. grow. Qed.
Lemma grows_on_channel f : grows (on_channel f).
Proof. unfold on_channel. grow. Qed.
Lemma grows_queue f : grows (queueInLoop f).
Proof. unfold queueInLoop. grow. Qed.
#[local] Hint Resolve grows_called grows_on_channel grows_queue : grows.
Lemma grows_shutdownInLoop : grows shutdownInLoop.
Proof. unfold shutdownInLoop. grow. Qed.
#[local] Hint Resolve grows_shutdownInLoop : grows.

Lemma grows_perform sil in_loop a : (forall d, grows (sil d)) -> grows (perform sil in_loop a).
Proof. intros Hs. destruct a; cbn [perform]; unfold send, shutdown, forceClose; grow. Qed.
Lemma grows_performs sil acts : (forall d, grows (sil d)) -> grows (performs sil acts).
Proof. intros Hs. induction acts; cbn [performs]; grow. by apply grows_perform. Qed.
Lemma grows_connection_callback sil : (forall d, grows (sil d)) -> grows (connection_callback E sil).
Proof. intros Hs. unfold connection_callback. grow. by apply grows_performs. Qed.
Lemma grows_message_callback sil : (forall d, grows (sil d)) -> grows (message_callback E sil).
Proof. intros Hs. unfold message_callback. grow. by apply grows_performs. Qed.
Lemma grows_handleClose : grows (handleClose E).
Proof. unfold handleClose. grow. by apply grows_connection_callback. Qed.
#[local] Hint Resolve grows_handleClose : grows.

Lemma grows_doTlsHandshake : grows (doTlsHandshake E).
Proof. unfold doTlsHandshake. grow. Qed.
Lemma grows_drained : grows (drained E).
Proof. unfold drained, write_complete. grow. Qed.
#[local] Hint Resolve grows_doTlsHandshake grows_drained : grows.
Lemma grows_tls_write_loop fuel : grows (tls_write_loop E fuel).
Proof. induction fuel; cbn [tls_write_loop]; grow. Qed.
#[local] Hint Resolve grows_tls_write_loop : grows.
Lemma grows_handleTlsWrite : grows (handleTlsWrite E).
Proof. unfold handleTlsWrite. grow. Qed.
#[local] Hint Resolve grows_handleTlsWrite : grows.
Lemma grows_sendInLoop d : grows (sendInLoop E d).
Proof. unfold sendInLoop, write_complete. grow. Qed.
#[local] Hint Resolve grows_sendInLoop : grows.
Lemma grows_tls_read_loop fuel got : grows (tls_read_loop E fuel got).
Proof. revert got. induction fuel; intros got; cbn [tls_read_loop]; grow. Qed.
#[local] Hint Resolve grows_tls_read_loop : grows.
Lemma grows_handleRead : grows (handleRead E).
Proof. unfold handleRead, handleTlsRead. grow; by apply grows_message_callback; auto with grows. Qed.
Lemma grows_handleWrite : grows (handleWrite E).
Proof. unfold handleWrite. grow. Qed.
#[local] Hint Resolve grows_handleRead grows_handleWrite : grows.
Lemma grows_handleEvent ev : grows (handleEvent E ev).
Proof. unfold handleEvent. grow. Qed.
Lemma grows_run_functor f : grows (run_functor E f).
Proof.
  destruct f; cbn [run_functor]; unfold connectEstablished, forceCloseInLoop, connectDestroyed; grow;
    by apply grows_connection_callback; auto with grows.
Qed.

End Grows.

Section Server.
Context (E : nat -> TEnv).

(** A step of a connection in its loop, or a request of another thread. *)
Inductive cstep (i : nat) : TcpConnection -> TcpConnection -> Prop :=
| cs_event c c' watched revents :
    ch_epoll (channel_ c) = Some watched -> reported watched revents = true -> hang_up_readable revents = true ->
    handleEvent (E i) revents c = Some (tt, c') -> cstep i c c'
| cs_functor c c' f fs :
    pending_functors_ c = f :: fs -> run_functor (E i) f (set_pending fs c) = Some (tt, c') -> cstep i c c'
| cs_request c c' in_loop a :
    perform (sendInLoop (E i)) in_loop a c = Some (tt, c') -> cstep i c c'.

(** The server before its start and then: it accepts, a connection makes a step,
    or a removal gets its turn. *)
Inductive sstep : TcpServer -> TcpServer -> Prop :=
| ss_threads s s' n : set_thread_num n s = Some s' -> sstep s s'
| ss_start s : sstep s (server_start s)
| ss_accept s s' : listening_ s = true -> newConnection s = Some s' -> sstep s s'
| ss_conn s i o c' :
    objects s !! i = Some o -> cstep i (conn o) c' ->
    sstep s (iterate (closes c' - closes (conn o)) (removeConnection i) (set_conn i c' s))
| ss_remove s s' i rest :
    removals s = i :: rest ->
    removeConnectionInLoop i (mkServer (name_ s) (started_ s) (listening_ s) (next_conn_id_ s) (thread_pool_ s) (connections_ s) (objects s) rest (removed s)) = Some s' ->
    sstep s s'.

Inductive sreachable (name : string) : TcpServer -> Prop :=
| sr_new : sreachable name (TcpServer_new name)
| sr_step s s' : sreachable name s -> sstep s s' -> sreachable name s'.

(** ** What the server keeps *)

Definition times (i : nat) (l : list nat) : nat := length (filter (fun j => j = i) l).

Lemma times_app i l l' : times i (l ++ l') = (times i l + times i l')%nat.
Proof. unfold times. by rewrite filter_app, length_app. Qed.
Lemma times_single i j : times i [j] = if decide (j = i) then 1%nat else 0%nat.
Proof. unfold times. rewrite filter_cons. by destruct (decide (j = i)). Qed.
Lemma times_cons i j l : times i (j :: l) = ((if decide (j = i) then 1 else 0) + times i l)%nat.
Proof. change (j :: l) with ([j] ++ l). by rewrite times_app, times_single. Qed.
Lemma times_0 i l : times i l = 0%nat <-> i ∉ l.
Proof.
  induction l as [|j l IH]; [split; [intros _; apply not_elem_of_nil|done]|]. rewrite times_cons, not_elem_of_cons, <- IH.
  destruct (decide (j = i)); [|split; [intros ?; split; [congruence|lia]|intros [_ ?]; lia]]. split; [lia|intros [? _]; congruence].
Qed.

Lemma nodup_times l : (forall i, (times i l <= 1)%nat) -> NoDup l.
Proof.
  induction l as [|j l IH]; intros Ht; constructor.
  - apply times_0. specialize (Ht j). rewrite times_cons in Ht. destruct (decide (j = j)); [lia|done].
  - apply IH. intros i. specialize (Ht i). rewrite times_cons in Ht. lia.
Qed.

Definition pool_ok (p : EventLoopThreadPool) : Prop := loops_ p = [] /\ next_ p = 0%nat \/ (next_ p < length (loops_ p))%nat.

Record server_ok (name : string) (s : TcpServer) : Prop := mkServerOk {
  so_name : name_ s = name;
  so_pool : pool_ok (thread_pool_ s);
  so_ids : next_conn_id_ s = Z.of_nat (length (objects s)) + 1;
  so_small : next_conn_id_ s <= INT_MAX;
  so_names : forall i o, objects s !! i = Some o -> conn_name o = name +:+ "-conn-" +:+ to_string (Z.of_nat i + 1);
  so_reach : forall i o, objects s !! i = Some o -> treachable (E i) (conn o);
  so_table : forall n i, connections_ s !! n = Some i <-> exists o, objects s !! i = Some o /\ conn_name o = n /\ (i ∉ removed s);
  so_closes : forall i o, objects s !! i = Some o -> closes (conn o) = (times i (removals s) + times i (removed s))%nat;
  so_known : forall i, i ∈ removals s ++ removed s -> is_Some (objects s !! i)
}.

Lemma iterate_removals k i s :
  iterate k (removeConnection i) s =
  mkServer (name_ s) (started_ s) (listening_ s) (next_conn_id_ s) (thread_pool_ s) (connections_ s) (objects s) (removals s ++ replicate k i) (removed s).
Proof.
  revert s. induction k as [|k IH]; intros s; [cbn; rewrite app_nil_r; by destruct s|]. cbn [iterate]. rewrite IH. unfold removeConnection. cbn.
  by rewrite <- app_assoc.
Qed.

Lemma times_replicate i j k : times i (replicate k j) = if decide (j = i) then k else 0%nat.
Proof. induction k as [|k IH]; [by destruct (decide _)|]. cbn [replicate]. rewrite times_cons, IH. by destruct (decide (j = i)). Qed.

Lemma set_conn_lookup i j c s :
  objects (set_conn i c s) !! j = if decide (i = j) then (fun o => mkConn (conn_name o) (conn_loop o) c) <$> objects s !! i else objects s !! j.
Proof.
  unfold set_conn. cbn. rewrite list_lookup_alter. by destruct (decide (i = j)) as [->|].
Qed.

Lemma cstep_tstep i c c' : cstep i c c' -> tstep (E i) c c'.
Proof. intros Hs. destruct Hs; [by eapply step_event|by eapply step_functor|by eapply step_request]. Qed.

Lemma closed_history c : (0 < closes c)%nat -> CloseCallback ∈ history c.
Proof.
  unfold closes. intros Hl. destruct (omap _ (history c)) as [|u l] eqn:Ho; [cbn in Hl; lia|].
  assert (u ∈ omap (fun n => if n is CloseCallback then Some tt else None) (history c)) as Hin by (rewrite Ho; by left).
  apply list_elem_of_omap in Hin as (n&Hn&Hu). by destruct n.
Qed.

Lemma pool_next p : pool_ok p -> exists l p', getNextLoop p = Some (l, p') /\ pool_ok p'.
Proof.
  intros [[Hl Hn]|Hn]; unfold getNextLoop.
  - rewrite Hl. exists 0%nat, p. split; [done|by left].
  - destruct (loops_ p) as [|a ls] eqn:Hl; [cbn in Hn; lia|]. rewrite <- Hl in *. destruct (lookup_lt_is_Some_2 _ _ Hn) as [x ->]. cbn [mbind option_bind].
    eexists _, _. split; [done|]. right. cbn [next_ loops_]. destruct (Nat.leb_spec (length (loops_ p)) (S (next_ p))); lia.
Qed.

Lemma ok_threads name s s' n : server_ok name s -> set_thread_num n s = Some s' -> server_ok name s'.
Proof.
  intros [H1 H2 H3 H4 H5 H6 H7 H8 H9]. unfold set_thread_num, setThreadNum. destruct (pool_started _); [done|]. intros [= <-]. by split.
Qed.

Lemma ok_start name s : server_ok name s -> server_ok name (server_start s).
Proof.
  intros [H1 H2 H3 H4 H5 H6 H7 H8 H9]. unfold server_start. destruct (started_ s); split; try done. cbn. unfold pool_start.
  destruct (pool_started (thread_pool_ s)); [done|]. unfold pool_ok in *. cbn. rewrite length_app, length_seq.
  destruct H2 as [[-> ->]|?]; [|lia]. destruct (Z.to_nat (num_threads_ (thread_pool_ s))); cbn; [by left|lia].
Qed.

Lemma ok_accept name s s' : server_ok name s -> newConnection s = Some s' -> server_ok name s'.
Proof.
  intros [H1 H2 H3 H4 H5 H6 H7 H8 H9]. unfold newConnection. destruct (pool_next _ H2) as (l&p'&->&Hp). cbn [mbind option_bind].
  destruct (Z.eqb_spec (next_conn_id_ s) INT_MAX) as [|Hid]; [done|]. intros [= <-]. set (i := length (objects s)). set (n := name_ s +:+ _).
  assert (n = name +:+ "-conn-" +:+ to_string (Z.of_nat i + 1)) as Hname by (unfold n; by rewrite H1, H3).
  assert (forall j o, objects s !! j = Some o -> conn_name o <> n) as Hfresh.
  { intros j o Hj. rewrite (H5 j o Hj), Hname. intros Heq%app_inj_l%app_inj_l%to_string_inj. apply lookup_lt_Some in Hj. lia. }
  assert (i ∉ removals s ++ removed s) as Hnr by (intros [o Ho]%H9; apply lookup_lt_Some in Ho; unfold i in Ho; lia).
  rewrite not_elem_of_app in Hnr. destruct Hnr as [Hnr Hnd].
  split; cbn; [done|done|rewrite length_app; cbn; lia|lia|..].
  - intros j o [[_ Hj]|[-> <-]]%lookup_snoc_Some; [by apply H5|done].
  - intros j o [[_ Hj]|[-> <-]]%lookup_snoc_Some; [by apply H6|apply treach_new].
  - intros m j. setoid_rewrite lookup_snoc_Some. fold i. rewrite lookup_insert_Some, H7. split.
    + intros [[<- <-]|[Hne (o&Hj&<-&Hr)]]; [eexists; split; [right; done|done]|].
      exists o. split; [left; split; [by eapply lookup_lt_Some|done]|done].
    + intros (o&[[_ Hj]|[-> <-]]&<-&Hr); [|by left]. right. split; [by intros Heq; apply (Hfresh j o Hj)|]. eauto.
  - intros j o [[_ Hj]|[-> <-]]%lookup_snoc_Some; [by apply H8|]. pose proof (proj2 (times_0 i (removals s)) Hnr) as E1. pose proof (proj2 (times_0 i (removed s)) Hnd) as E2.
    change (closes TcpConnection_new = (times i (removals s) + times i (removed s))%nat). by rewrite E1, E2.
  - intros j [o Ho]%H9. exists o. by apply lookup_app_l_Some.
Qed.

(** A step of a connection brings its close callbacks along. *)
Lemma closes_grow i c c' : cstep i c c' -> (closes c <= closes c')%nat.
Proof.
  intros Hs. assert (history c `prefix_of` history c') as [t Ht].
  { destruct Hs as [c c' w ev _ _ _ Hr|c c' f fs _ Hr|c c' b a Hr].
    - by eapply grows_handleEvent.
    - by apply (grows_run_functor (E i) f (set_pending fs c) tt c').
    - eapply (grows_perform (sendInLoop (E i))); [apply grows_sendInLoop|done]. }
  unfold closes. rewrite Ht, omap_app, length_app. lia.
Qed.

Lemma ok_conn name s i o c' :
  server_ok name s -> objects s !! i = Some o -> cstep i (conn o) c' ->
  server_ok name (iterate (closes c' - closes (conn o)) (removeConnection i) (set_conn i c' s)).
Proof.
  intros [H1 H2 H3 H4 H5 H6 H7 H8 H9] Hi Hc. pose proof (closes_grow _ _ _ Hc) as Hg. rewrite iterate_removals.
  assert (forall j o', objects (set_conn i c' s) !! j = Some o' -> exists o0, objects s !! j = Some o0 /\ conn_name o' = conn_name o0 /\
    conn o' = if decide (i = j) then c' else conn o0) as Hl.
  { intros j o'. rewrite set_conn_lookup. destruct (decide (i = j)) as [<-|]; [rewrite Hi; intros [= <-]; eauto|eauto]. }
  split; cbn [name_ thread_pool_ next_conn_id_ connections_ objects removals removed set_conn]; [done|done|by rewrite length_alter|done|..].
  - intros j o' (o0&Hj&->&_)%Hl. by apply H5.
  - intros j o' (o0&Hj&_&Hcj)%Hl. rewrite Hcj. destruct (decide (i = j)) as [<-|]; [|by apply H6].
    eapply treach_step; [by apply (H6 i o)|by apply cstep_tstep].
  - intros n j. rewrite H7. change (alter _ i (objects s)) with (objects (set_conn i c' s)). split.
    + intros (o0&Hj&Hn&Hr). rewrite set_conn_lookup. destruct (decide (i = j)) as [<-|]; [|eauto].
      rewrite Hi in *. injection Hj as <-. eexists. split; [reflexivity|done].
    + intros (o'&(o0&Hj&Hn&_)%Hl&<-&Hr). exists o0. eauto.
  - intros j o' (o0&Hj&_&Hcj)%Hl. rewrite Hcj, times_app, times_replicate. destruct (decide (i = j)) as [<-|].
    + rewrite Hi in Hj. injection Hj as <-. specialize (H8 i o Hi). lia.
    + specialize (H8 j o0 Hj). lia.
  - intros j Hj. change (alter _ i (objects s)) with (objects (set_conn i c' s)). rewrite set_conn_lookup.
    destruct (decide (i = j)) as [<-|Hne]; [by rewrite Hi|]. apply H9. rewrite !elem_of_app in *. destruct Hj as [[?|[-> _]%elem_of_replicate]|?]; auto; done.
Qed.

Definition drop_removal (rest : list nat) (s : TcpServer) : TcpServer :=
  mkServer (name_ s) (started_ s) (listening_ s) (next_conn_id_ s) (thread_pool_ s) (connections_ s) (objects s) rest (removed s).

Lemma ok_remove name s i rest :
  server_ok name s -> removals s = i :: rest ->
  exists s', removeConnectionInLoop i (drop_removal rest s) = Some s' /\ server_ok name s'.
Proof.
  intros [H1 H2 H3 H4 H5 H6 H7 H8 H9] Hr. destruct (H9 i) as [o Hi]; [rewrite Hr; by left|].
  unfold removeConnectionInLoop. cbn [drop_removal objects]. rewrite Hi. cbn [mbind option_bind]. set (c' := set_pending (pending_functors_ (conn o) ++ [FDestroyed]) (conn o)).
  change (queueInLoop FDestroyed (conn o)) with (Some (tt, c')). cbn [mbind option_bind].
  eexists. split; [reflexivity|]. set (s1 := mkServer _ _ _ _ _ _ _ _ _).
  assert (CloseCallback ∈ history (conn o)) as Hclosed.
  { apply closed_history. rewrite (H8 i o Hi), Hr, times_cons. destruct (decide (i = i)); [lia|done]. }
  assert (forall j o', objects (set_conn i c' s1) !! j = Some o' -> exists o0, objects s !! j = Some o0 /\ conn_name o' = conn_name o0 /\
    closes (conn o') = closes (conn o0) /\ treachable (E j) (conn o')) as Hl.
  { intros j o'. rewrite set_conn_lookup. cbn [objects s1]. destruct (decide (i = j)) as [<-|]; [|intros Hj; eauto 10].
    rewrite Hi. intros [= <-]. exists o. split_and!; [done..|]. eapply treach_step; [by apply (H6 i o)|by apply step_destroy]. }
  assert (forall j, is_Some (objects s !! j) -> exists o', objects (set_conn i c' s1) !! j = Some o') as Hl'.
  { intros j [o0 Hj]. rewrite set_conn_lookup. cbn [objects s1]. destruct (decide (i = j)) as [<-|]; [rewrite Hi; cbn; eauto|eauto]. }
  split; [done|done|cbn; by rewrite length_alter|done|..].
  - intros j o' (o0&Hj&->&_)%Hl. by apply H5.
  - by intros j o' (_&_&_&_&?)%Hl.
  - intros n j. change (connections_ (set_conn i c' s1)) with (delete (conn_name o) (connections_ s)).
    change (removed (set_conn i c' s1)) with (removed s ++ [i]). rewrite lookup_delete_Some, H7. split.
    + intros (Hne&o0&Hj&<-&Hnr). destruct (Hl' j ltac:(eauto)) as [o' Ho']. exists o'. destruct (Hl j o' Ho') as (o1&Hj1&Hn&_).
      rewrite Hj in Hj1. injection Hj1 as <-. split_and!; [done|done|]. rewrite elem_of_app, list_elem_of_singleton. intros [?| ->]; [done|]. congruence.
    + intros (o'&(o0&Hj&Hn&_)%Hl&<-&Hnr). rewrite elem_of_app, list_elem_of_singleton in Hnr. split; [|exists o0; split_and!; auto].
      rewrite Hn, (H5 i o Hi), (H5 j o0 Hj). intros Heq%app_inj_l%app_inj_l%to_string_inj. apply Hnr. right. lia.
  - intros j o' (o0&Hj&_&->&_)%Hl. change (removals (set_conn i c' s1)) with rest. change (removed (set_conn i c' s1)) with (removed s ++ [i]).
    rewrite (H8 j o0 Hj), Hr, times_app, times_cons, times_single. lia.
  - intros j. change (removals (set_conn i c' s1)) with rest. change (removed (set_conn i c' s1)) with (removed s ++ [i]). intros Hj.
    apply Hl', H9. rewrite Hr, elem_of_app, elem_of_cons. rewrite !elem_of_app, list_elem_of_singleton in Hj. tauto.
Qed.

Lemma sreachable_ok name s : sreachable name s -> server_ok name s.
Proof.
  induction 1 as [|s s' _ IH Hs].
  - split; cbn; try done; [by left|intros n i; split; [by rewrite lookup_empty|by intros (o&?&_)]|by intros i ?%elem_of_nil].
  - destruct Hs as [s s' n Hs|s|s s' _ Hs|s i o c' Hi Hc|s s' i rest Hr Hs].
    + by eapply ok_threads.
    + by apply ok_start.
    + by eapply ok_accept.
    + by apply ok_conn.
    + destruct (ok_remove name s i rest IH Hr) as (s1&H1&?). unfold drop_removal in H1. congruence.
Qed.

Lemma never_closed_twice i c :
  lawful (E i) -> te_tls (E i) = false -> is_Some (te_on_connection (E i)) -> te_on_close (E i) = true -> treachable (E i) c ->
  (closes c <= 1)%nat /\ ((0 < closes c)%nat -> state_ c = DISCONNECTED /\ ch_epoll (channel_ c) = None).
Proof.
  intros HL Ht Hc Ho Hr. destruct (reachable_good _ c HL Hr) as [->|[Hb [_ Hs]]]; [cbn; lia|].
  assert (forall h, length (omap (fun n => if n is CloseCallback then Some tt else None) h) =
    length (omap (fun n => if n is CloseCallback then Some tt else None) (session_calls h))) as Hcount.
  { induction h as [|n h IH]; [done|]. unfold session_calls in *. destruct n; simpl; first [exact IH | by f_equal]. }
  assert (forall k, omap (fun n => if n is CloseCallback then Some tt else None) (ConnectionCallback true :: replicate k MessageCallback) = []) as Hrep
    by (induction k; done).
  split.
  - unfold closes. rewrite Hcount. destruct (Hs Ht Hc Ho) as (k&[[_ ->]|[_ ->]]); [rewrite Hrep; cbn; lia|]. rewrite omap_app, Hrep. cbn. lia.
  - intros Hin%closed_history%close_called. pose proof (b_over _ c Hb Hin) as Hd. split; [done|]. apply (b_closed _ c Hb Ht Hd).
Qed.


End Server.

(** ** An evaluation *)

(** Two threads; the first connection is established. *)
Definition server_run (m : option TcpServer) : TcpServer := default (TcpServer_new EmptyString) m.
Definition server_up : TcpServer := server_start (server_run (set_thread_num 2 (TcpServer_new "chat"))).
Definition server_accepted : TcpServer := server_run (newConnection server_up).
Definition server_established : TcpServer := set_conn 0 (established plain_env) server_accepted.

Lemma server_established_reachable : sreachable (fun _ => plain_env) "chat" server_established.
Proof.
  apply (sr_step _ _ server_accepted).
  - apply (sr_step _ _ server_up); [apply (sr_step _ _ (server_run (set_thread_num 2 (TcpServer_new "chat"))));
      [apply (sr_step _ _ (TcpServer_new "chat")); [apply sr_new|by apply (ss_threads _ _ _ 2)]|apply ss_start]|].
    by apply ss_accept.
  - apply (ss_conn _ server_accepted 0 (mkConn "chat-conn-1" 1 TcpConnection_new) (established plain_env)); [done|].
    by apply (cs_functor _ _ _ _ FEstablished []).
Qed.

