(* ===== verification/Config.v ===== *)
(** * Settings, and the services found through them

    common/config/Config.cpp, common/config/StorageConfig.cpp and
    common/discovery/StaticServiceResolver.cpp.  A file is its text; the process
    environment is a parameter. *)

From S2P Require Import Prelude Words Text.

(** ** Config *)

Record Config := mkConfig { values_ : gmap string string }.

Definition Config_new : Config := mkConfig ∅.

Definition newline : ascii := ascii_of_N 10.

Definition trim (s : string) : string := rtrim (skip_spaces s).
Definition toLower (s : string) : string := string_map tolower s.

(** The loop over the lines; what was read before an invalid line stays. *)
Fixpoint load_lines (lines : list string) (c : Config) : bool * Config :=
  match lines with
  | [] => (true, c)
  | line :: lines =>
      let text := trim line in
      match text with
      | EmptyString => load_lines lines c
      | String front _ =>
          if bool_decide (front = "#"%char) then load_lines lines c
          else match cut "=" text with
               | None => (false, c)
               | Some (before, after) =>
                   let key := trim before in
                   let value := trim after in
                   if bool_decide (key = EmptyString) then (false, c)
                   else load_lines lines (mkConfig (<[key := value]> (values_ c)))
               end
      end
  end.

(** [None]: the file cannot be opened. *)
Definition loadFromFile (input : option string) (c : Config) : bool * Config :=
  match input with
  | None => (false, c)
  | Some text => load_lines (getlines newline text) (mkConfig ∅)
  end.

Definition has (c : Config) (key : string) : bool := bool_decide (is_Some (values_ c !! key)).

Definition getString (c : Config) (key default_value : string) : string := default default_value (values_ c !! key).

(** A number is taken when it is all of the value. *)
Definition getInt (c : Config) (key : string) (default_value : Z) : Z :=
  match values_ c !! key with
  | None => default_value
  | Some v => match stoi v with
              | Some (value, EmptyString) => value
              | _ => default_value
              end
  end.

Definition getInt64 (c : Config) (key : string) (default_value : Z) : Z :=
  match values_ c !! key with
  | None => default_value
  | Some v => match stoll v with
              | Some (value, EmptyString) => value
              | _ => default_value
              end
  end.

Definition getBool (c : Config) (key : string) (default_value : bool) : bool :=
  match values_ c !! key with
  | None => default_value
  | Some v =>
      let value := toLower (trim v) in
      if bool_decide (value ∈ ["true"; "1"; "yes"; "on"]%string) then true
      else if bool_decide (value ∈ ["false"; "0"; "no"; "off"]%string) then false
      else default_value
  end.

(** ** StorageConfig *)

Record MySqlConfig := mkMySqlConfig {
  my_host : string; my_port : Z; my_user : string; my_password : string; my_database : string; my_charset : string
}.
Record RedisConfig := mkRedisConfig { re_host : string; re_port : Z; re_timeout_ms : Z; re_password : string }.

Definition MySqlConfig_default : MySqlConfig := mkMySqlConfig "127.0.0.1" 3306 "nebula" "nebula" "nebula_im" "utf8mb4".
Definition RedisConfig_default : RedisConfig := mkRedisConfig "127.0.0.1" 6379 3000 EmptyString.

Section Environment.
Context (getenv : string -> option string).

Fixpoint firstEnvironmentValue (names : list string) (fallback : string) : string :=
  match names with
  | [] => fallback
  | name :: names =>
      match getenv name with
      | Some (String _ _ as value) => value
      | _ => firstEnvironmentValue names fallback
      end
  end.

Definition firstEnvironmentInt (names : list string) (fallback : Z) : Z :=
  let value := firstEnvironmentValue names EmptyString in
  if bool_decide (value = EmptyString) then fallback
  else match stoi value with
       | Some (result, EmptyString) => result
       | _ => fallback
       end.

Definition loadMySqlConfig (config : Config) : MySqlConfig :=
  let mysql := MySqlConfig_default in
  mkMySqlConfig
    (firstEnvironmentValue ["NEBULA_TEST_MYSQL_HOST"; "NEBULA_MYSQL_HOST"]%string (getString config "mysql.host" (my_host mysql)))
    (firstEnvironmentInt ["NEBULA_TEST_MYSQL_PORT"; "NEBULA_MYSQL_PORT"]%string (getInt config "mysql.port" (my_port mysql)))
    (firstEnvironmentValue ["NEBULA_TEST_MYSQL_USER"; "NEBULA_MYSQL_USER"]%string (getString config "mysql.user" (my_user mysql)))
    (firstEnvironmentValue ["NEBULA_TEST_MYSQL_PASSWORD"; "NEBULA_MYSQL_PASSWORD"]%string
       (getString config "mysql.password" (my_password mysql)))
    (firstEnvironmentValue ["NEBULA_TEST_MYSQL_DATABASE"; "NEBULA_MYSQL_DATABASE"]%string
       (getString config "mysql.database" (my_database mysql)))
    (my_charset mysql).

Definition loadRedisConfig (config : Config) : RedisConfig :=
  let redis := RedisConfig_default in
  mkRedisConfig
    (firstEnvironmentValue ["NEBULA_TEST_REDIS_HOST"; "NEBULA_REDIS_HOST"]%string (getString config "redis.host" (re_host redis)))
    (firstEnvironmentInt ["NEBULA_TEST_REDIS_PORT"; "NEBULA_REDIS_PORT"]%string (getInt config "redis.port" (re_port redis)))
    (firstEnvironmentInt ["NEBULA_TEST_REDIS_TIMEOUT_MS"; "NEBULA_REDIS_TIMEOUT_MS"]%string
       (getInt config "redis.timeout_ms" (re_timeout_ms redis)))
    (firstEnvironmentValue ["NEBULA_TEST_REDIS_PASSWORD"; "NEBULA_REDIS_PASSWORD"]%string
       (getString config "redis.password" (re_password redis))).

End Environment.

(** ** StaticServiceResolver *)

Record ServiceInstance := mkInstance {
  service_name : string; instance_id : string; address : string; weight : Z; healthy : bool
}.

Record StaticServiceResolver := mkResolver {
  instances_ : gmap string (list ServiceInstance); next_ : gmap string nat
}.

Definition StaticServiceResolver_new : StaticServiceResolver := mkResolver ∅ ∅.

Definition addInstance (instance : ServiceInstance) (r : StaticServiceResolver) : StaticServiceResolver :=
  if bool_decide (service_name instance = EmptyString) || bool_decide (address instance = EmptyString) then r
  else mkResolver (<[service_name instance := default [] (instances_ r !! service_name instance) ++ [instance]]> (instances_ r)) (next_ r).

(** The overload with the three names. *)
Definition addAddress (name addr id : string) (r : StaticServiceResolver) : StaticServiceResolver :=
  addInstance (mkInstance name (if bool_decide (id = EmptyString) then name +:+ "-static-1" else id) addr 100 true) r.

Definition loadFromConfig (config : Config) (r : StaticServiceResolver) : StaticServiceResolver :=
  let r := addAddress "user_service" (getString config "user_service.addr" "127.0.0.1:50051") EmptyString r in
  let r := addAddress "message_service" (getString config "message_service.addr" "127.0.0.1:50052") EmptyString r in
  let r := addAddress "relation_service" (getString config "relation_service.addr" "127.0.0.1:50053") EmptyString r in
  let r := addAddress "conversation_service" (getString config "conversation_service.addr" "127.0.0.1:50056") EmptyString r in
  let r := addAddress "device_service" (getString config "device_service.addr" "127.0.0.1:50058") EmptyString r in
  let r := addAddress "push_service" (getString config "push_service.addr" "127.0.0.1:50054") EmptyString r in
  let r := addAddress "admin_service" (getString config "admin_service.addr" "127.0.0.1:50057") EmptyString r in
  let gateway_id := getString config "gateway.default_id" "gateway-1" in
  addAddress "gateway" (getString config ("gateway." +:+ gateway_id +:+ ".addr") "127.0.0.1:50055") gateway_id r.

Definition resolve (name : string) (r : StaticServiceResolver) : list ServiceInstance := default [] (instances_ r !! name).

(** The loop of [pick]: [k] instances are to be looked at from [idx + i]. *)
Fixpoint pick_from (list : list ServiceInstance) (idx i k : nat) : option (nat * ServiceInstance) :=
  match k with
  | O => None
  | S k =>
      match list !! ((idx + i) mod length list)%nat with
      | Some instance =>
          if healthy instance then Some (((idx + i + 1) mod length list)%nat, instance)
          else pick_from list idx (S i) k
      | None => None
      end
  end.

(** [inr] is the exception; [next_[service_name]] is made before the loop. *)
Definition pick (name : string) (r : StaticServiceResolver) : (ServiceInstance + string) * StaticServiceResolver :=
  match instances_ r !! name with
  | None | Some [] => (inr ("service not found: " +:+ name), r)
  | Some list =>
      let idx := default 0%nat (next_ r !! name) in
      match pick_from list idx 0 (length list) with
      | Some (idx', instance) => (inl instance, mkResolver (instances_ r) (<[name := idx']> (next_ r)))
      | None => (inr ("no healthy service instance: " +:+ name), mkResolver (instances_ r) (<[name := idx]> (next_ r)))
      end
  end.

(** ** White space *)

Abbreviation blank := (string_all isspace).

Lemma skip_spaces_app ws s : blank ws = true -> skip_spaces (ws +:+ s) = skip_spaces s.
Proof. induction ws as [|c ws IH]; [done|]. simpl. intros [-> ?]%andb_prop. auto. Qed.

Lemma skip_spaces_length s : (String.length (skip_spaces s) <= String.length s)%nat.
Proof. induction s as [|c s IH]; [done|]. simpl. destruct (isspace c); simpl; lia. Qed.

Lemma rtrim_cons c s : rtrim (String c s) = if bool_decide (rtrim s = EmptyString) && isspace c then EmptyString else String c (rtrim s).
Proof. simpl. destruct (rtrim s) eqn:Hr; [|done]. rewrite bool_decide_true by done. by destruct (isspace c). Qed.

Lemma rtrim_blank ws : blank ws = true -> rtrim ws = EmptyString.
Proof. induction ws as [|c ws IH]; [done|]. cbn [string_all]. intros [Hc Hw]%andb_prop. by rewrite rtrim_cons, (IH Hw), Hc, bool_decide_true. Qed.

Lemma rtrim_app_blank s ws : blank ws = true -> rtrim (s +:+ ws) = rtrim s.
Proof.
  intros Hw. induction s as [|c s IH]; [by apply rtrim_blank|].
  change (String c s +:+ ws) with (String c (s +:+ ws)). by rewrite !rtrim_cons, IH.
Qed.

(** A character that is no space keeps what is before it. *)
Lemma rtrim_app_char a c b : isspace c = false -> rtrim (a +:+ String c b) = a +:+ String c (rtrim b).
Proof.
  intros Hc. induction a as [|d a IH]; [change (EmptyString +:+ ?x) with x; by rewrite rtrim_cons, Hc, andb_false_r|].
  change (String d a +:+ ?x) with (String d (a +:+ x)). rewrite rtrim_cons, IH. rewrite bool_decide_false; [done|]. by destruct a.
Qed.

Lemma rtrim_idem s : rtrim (rtrim s) = rtrim s.
Proof.
  induction s as [|c s IH]; [done|]. rewrite rtrim_cons. destruct (_ && _) eqn:Hb; [done|]. by rewrite rtrim_cons, IH, Hb.
Qed.

Lemma skip_rtrim s : skip_spaces (rtrim s) = rtrim (skip_spaces s).
Proof.
  induction s as [|c s IH]; [done|]. rewrite rtrim_cons. cbn [skip_spaces]. destruct (isspace c) eqn:Hc.
  - rewrite <- IH. rewrite andb_true_r. case_bool_decide as Hr; [by rewrite Hr|]. cbn [skip_spaces]. by rewrite Hc.
  - rewrite andb_false_r. cbn [skip_spaces]. by rewrite Hc, rtrim_cons, Hc, andb_false_r.
Qed.

Lemma trim_rtrim s : trim (rtrim s) = trim s.
Proof. unfold trim. by rewrite skip_rtrim, rtrim_idem. Qed.

(** A text with no space at either end. *)
Definition tight (s : string) : Prop := skip_spaces s = s /\ rtrim s = s.

Lemma trim_tight ws s ws' : blank ws = true -> tight s -> blank ws' = true -> trim (ws +:+ s +:+ ws') = s.
Proof.
  intros Hw [Hs Hr] Hw'. unfold trim. rewrite skip_spaces_app by done. destruct s as [|c s].
  - change (EmptyString +:+ ws') with ws'. rewrite <- skip_rtrim. by rewrite rtrim_blank.
  - cbn [skip_spaces] in Hs. change (String c s +:+ ws') with (String c (s +:+ ws')). cbn [skip_spaces].
    destruct (isspace c) eqn:Hc; [exfalso; pose proof (skip_spaces_length s) as Hl; rewrite Hs in Hl; simpl in Hl; lia|].
    change (String c (s +:+ ws')) with (String c s +:+ ws'). by rewrite rtrim_app_blank.
Qed.

(** ** What a file says *)

Inductive config_line :=
| Nothing (space : string)
| Remark (space text : string)
| Setting (space key space1 space2 value space3 : string).

Definition line_text (l : config_line) : string :=
  match l with
  | Nothing space => space
  | Remark space text => space +:+ String "#" text
  | Setting space key space1 space2 value space3 => space +:+ (key +:+ space1) +:+ String "=" (space2 +:+ value +:+ space3)
  end.

Definition line_ok (l : config_line) : Prop :=
  free_of newline (line_text l) = true /\
  match l with
  | Nothing space => blank space = true
  | Remark space _ => blank space = true
  | Setting space key space1 space2 value space3 =>
      blank space = true /\ blank space1 = true /\ blank space2 = true /\ blank space3 = true /\
      tight key /\ key <> EmptyString /\ free_of "=" key = true /\ String.get 0 key <> Some "#"%char /\ tight value
  end.

Definition file_text (lines : list config_line) : string := foldr (fun l t => line_text l +:+ String newline t) EmptyString lines.

Definition settings (lines : list config_line) : list (string * string) :=
  omap (fun l => if l is Setting _ key _ _ value _ then Some (key, value) else None) lines.

(** The last of several settings of a key counts. *)
Definition assign (l : list (string * string)) (m : gmap string string) : gmap string string :=
  fold_left (fun m kv => <[kv.1 := kv.2]> m) l m.

Lemma split_file lines : Forall line_ok lines -> split_on newline (file_text lines) = (line_text <$> lines) ++ [EmptyString].
Proof.
  induction 1 as [|l lines [Hl _] _ IH]; [done|]. cbn [file_text foldr]. fold (file_text lines).
  change (String newline (file_text lines)) with (String newline EmptyString +:+ file_text lines). by rewrite split_on_app, IH.
Qed.

Lemma getlines_file lines : Forall line_ok lines -> getlines newline (file_text lines) = line_text <$> lines.
Proof. intros Hl. unfold getlines. rewrite split_file by done. rewrite last_snoc. apply removelast_last. Qed.

Lemma free_of_app sep a b : free_of sep (a +:+ b) = free_of sep a && free_of sep b.
Proof. induction a as [|c a IH]; [done|]. simpl. by rewrite IH, andb_assoc. Qed.
Lemma free_of_blank sep s : isspace sep = false -> blank s = true -> free_of sep s = true.
Proof.
  intros Hsep. induction s as [|c s IH]; [done|]. simpl. intros [Hc Hs]%andb_prop. rewrite (IH Hs), andb_true_r.
  rewrite bool_decide_false; [done|]. intros ->. congruence.
Qed.
Lemma cut_app sep a b : free_of sep a = true -> cut sep (a +:+ String sep b) = Some (a, b).
Proof.
  induction a as [|c a IH]; [intros _; simpl; by rewrite bool_decide_true|]. simpl. intros [Hc%negb_true_iff Ha]%andb_prop.
  by rewrite Hc, (IH Ha).
Qed.

Lemma tight_front c s : tight (String c s) -> isspace c = false.
Proof.
  intros [Hs _]. cbn [skip_spaces] in Hs. destruct (isspace c); [|done]. pose proof (skip_spaces_length s) as Hl. rewrite Hs in Hl. simpl in Hl. lia.
Qed.

(** The text of a setting, trimmed. *)
Lemma trim_setting space key space1 rest :
  blank space = true -> tight key -> key <> EmptyString ->
  trim (space +:+ (key +:+ space1) +:+ String "=" rest) = (key +:+ space1) +:+ String "=" (rtrim rest).
Proof.
  intros Hs Hk Hne. unfold trim. rewrite skip_spaces_app by done. destruct key as [|c key]; [done|]. apply tight_front in Hk.
  change ((String c key +:+ space1) +:+ ?x) with (String c ((key +:+ space1) +:+ x)). cbn [skip_spaces]. rewrite Hk.
  change (String c ((key +:+ space1) +:+ ?x)) with (String c (key +:+ space1) +:+ x). by rewrite rtrim_app_char.
Qed.

Lemma load_line l lines c :
  line_ok l -> load_lines (line_text l :: lines) c = load_lines lines (mkConfig (assign (settings [l]) (values_ c))).
Proof.
  intros [_ Hl]. destruct c as [vs]. destruct l as [space|space text|space key space1 space2 value space3]; cbn [load_lines line_text].
  - rewrite <- (trim_rtrim space), rtrim_blank by done. done.
  - unfold trim. rewrite skip_spaces_app by done. change (skip_spaces (String "#" text)) with (String "#" text). rewrite rtrim_cons.
    by rewrite andb_false_r, bool_decide_true.
  - destruct Hl as (Hs&Hs1&Hs2&Hs3&Hk&Hne&Hfree&Hfront&Hv). rewrite trim_setting by done.
    assert (free_of "=" (key +:+ space1) = true) as Hf by (rewrite free_of_app, Hfree; by apply free_of_blank).
    assert (trim (key +:+ space1) = key) as Hkey by (apply (trim_tight EmptyString); done).
    rewrite cut_app, Hkey, trim_rtrim, trim_tight, bool_decide_false by done.
    destruct key as [|d key]; [done|]. change ((String d key +:+ ?y) +:+ ?x) with (String d ((key +:+ y) +:+ x)). cbv iota.
    rewrite bool_decide_false; [done|]. intros ->. done.
Qed.

Lemma load_file lines c :
  Forall line_ok lines -> load_lines (line_text <$> lines) c = (true, mkConfig (assign (settings lines) (values_ c))).
Proof.
  intros Hl. revert c. induction Hl as [|l lines Hl _ IH]; intros [vs]; [done|]. rewrite fmap_cons, load_line, IH by done.
  f_equal. cbn [values_]. unfold settings, assign. destruct l; done.
Qed.

(** Numbers are read back. *)
Lemma skip_digits_all s : string_all is_digit s = true -> skip_digits s = EmptyString.
Proof. induction s as [|c s IH]; [done|]. simpl. intros [-> ?]%andb_prop. auto. Qed.

Lemma to_string_neg x : x < 0 -> to_string x = String "-" (to_string (- x)).
Proof. by destruct x. Qed.

Lemma sto_to_string lo hi x : lo <= x <= hi -> sto lo hi (to_string x) = Some (x, EmptyString).
Proof.
  intros Hx. unfold sto.
  assert (forall y, 0 <= y -> exists c s, to_string y = String c s /\ is_digit c = true) as Hd.
  { intros y Hy. pose proof (to_string_digits y Hy) as Hds. pose proof (to_string_nonempty y) as Hne.
    destruct (to_string y) as [|c s]; [done|]. simpl in Hds. apply andb_prop in Hds as [? _]. eauto. }
  assert (forall y, 0 <= y -> dec_value 0 (to_string y) = y /\ skip_digits (to_string y) = EmptyString) as Hv.
  { intros y Hy. split; [by apply dec_value_to_string|by apply skip_digits_all, to_string_digits]. }
  assert ((lo <=? x) && (x <=? hi) = true) as Hin by (apply andb_true_intro; split; apply Z.leb_le; lia).
  destruct (Z.ltb_spec x 0) as [Hneg|Hpos].
  - rewrite to_string_neg by done. change (skip_spaces (String "-" ?s)) with (String "-" s). cbv iota beta.
    destruct (Hd (- x)) as (c&s&Hs&Hc); [lia|]. destruct (Hv (- x)) as [Hv1 Hv2]; [lia|]. rewrite Hs in *. rewrite Hc, Hv1, Hv2.
    by rewrite Z.opp_involutive, Hin.
  - destruct (Hd x Hpos) as (c&s&Hs&Hc). destruct (Hv x Hpos) as [Hv1 Hv2]. rewrite Hs in *.
    destruct (is_digit_cases c Hc) as (Hsp&_). cbn [skip_spaces]. rewrite Hsp.
    assert (match String c s with
            | String "-" s' => (true, s') | String "+" s' => (false, s') | _ => (false, String c s)
            end = (false, String c s)) as ->.
    { clear -Hc. destruct c as [[] [] [] [] [] [] [] []]; done. }
    by rewrite Hc, Hv1, Hv2, Hin.
Qed.

(** What a number is read as is of its type. *)
Lemma sto_range lo hi s x rest : sto lo hi s = Some (x, rest) -> lo <= x <= hi.
Proof.
  unfold sto. destruct (match skip_spaces s with String "-" s' => _ | String "+" s' => _ | _ => _ end) as [neg [|c t]]; [done|].
  destruct (is_digit c); [|done]. set (v := if neg then _ else _). destruct (_ && _) eqn:Hin; [|done].
  intros [= <- _]. apply andb_prop in Hin as [?%Z.leb_le ?%Z.leb_le]. lia.
Qed.

Definition is_int (x : Z) : Prop := -2147483648 <= x <= 2147483647.
Definition is_int64 (x : Z) : Prop := -9223372036854775808 <= x <= 9223372036854775807.

Lemma getInt_int c key d : is_int d -> is_int (getInt c key d).
Proof.
  intros Hd. unfold getInt. destruct (values_ c !! key) as [v|]; [|done]. destruct (stoi v) as [[x []]|] eqn:Hv; try done.
  by apply sto_range in Hv.
Qed.

(** Letters and white space keep apart. *)
Lemma isspace_tolower c : isspace (tolower c) = isspace c.
Proof. by destruct c as [[] [] [] [] [] [] [] []]. Qed.

Lemma toLower_trim s : toLower (trim s) = trim (toLower s).
Proof.
  unfold trim. assert (forall s, toLower (rtrim s) = rtrim (toLower s)) as Hr.
  { clear s. induction s as [|c s IH]; [done|]. change (toLower (String c s)) with (String (tolower c) (toLower s)).
    rewrite !rtrim_cons, isspace_tolower, <- IH. destruct (rtrim s); simpl; by destruct (isspace c). }
  rewrite Hr. f_equal. induction s as [|c s IH]; [done|]. change (toLower (String c s)) with (String (tolower c) (toLower s)).
  cbn [skip_spaces]. rewrite isspace_tolower. by destruct (isspace c).
Qed.

(** A file of settings reads as it is written: for every sequence of lines
    that are empty, remarks, or settings with any white space around the key
    and the value, [loadFromFile] succeeds and the configuration has exactly
    the settings of the file, the last one of each key; nothing of an earlier
    file stays.  A number that was written is read back, by [getInt] in the
    range of [int] and by [getInt64] in that of [int64_t], truth values too in
    either case of letters; and [getInt] never leaves the range of [int],
    whatever the file has. *)
Theorem config_reads_what_is_written (lines : list config_line) (c : Config) :
  Forall line_ok lines ->
  exists c', loadFromFile (Some (file_text lines)) c = (true, c') /\
    values_ c' = assign (settings lines) ∅ /\
    (forall key v d, values_ c' !! key = Some v -> getString c' key d = v) /\
    (forall key x d, values_ c' !! key = Some (to_string x) -> is_int x -> getInt c' key d = x) /\
    (forall key x d, values_ c' !! key = Some (to_string x) -> is_int64 x -> getInt64 c' key d = x) /\
    (forall key v d, values_ c' !! key = Some v -> toLower v = "true"%string -> getBool c' key d = true) /\
    (forall key v d, values_ c' !! key = Some v -> toLower v = "false"%string -> getBool c' key d = false) /\
    (forall key d, is_int d -> is_int (getInt c' key d)).
Proof.
  intros Hl. eexists. split; [unfold loadFromFile; rewrite getlines_file by done; by apply load_file|].
  cbn [values_]. split_and!; [done| | | | | |apply getInt_int].
  - intros key v d Hk. unfold getString. cbn. by rewrite Hk.
  - intros key x d Hk Hx. unfold getInt, stoi. cbn [values_]. by rewrite Hk, sto_to_string.
  - intros key x d Hk Hx. unfold getInt64, stoll. cbn [values_]. by rewrite Hk, sto_to_string.
  - intros key v d Hk Hv. unfold getBool. cbn [values_]. by rewrite Hk, toLower_trim, Hv.
  - intros key v d Hk Hv. unfold getBool. cbn [values_]. by rewrite Hk, toLower_trim, Hv.
Qed.

Definition sample_file : list config_line :=
  [Remark EmptyString " storage"; Setting EmptyString "mysql.port" " " " " "3307" EmptyString; Nothing " ";
   Setting " " "flag" EmptyString EmptyString "True" " "; Setting EmptyString "mysql.port" EmptyString EmptyString "-12" EmptyString].

Lemma config_reads_what_is_written_witness :
  exists c', loadFromFile (Some (file_text sample_file)) Config_new = (true, c') /\
    getInt c' "mysql.port" 5 = -12 /\ getBool c' "flag" false = true /\ getInt c' "flag" 5 = 5.
Proof.
  destruct (config_reads_what_is_written sample_file Config_new) as (c'&Hl&Hv&_&Hi&_&Ht&_).
  - repeat constructor; vm_compute; try done; by intros.
  - exists c'. split; [exact Hl|]. split_and!.
    + apply (Hi "mysql.port"%string (-12)); [rewrite Hv; vm_compute; reflexivity|vm_compute; split; discriminate].
    + apply (Ht "flag"%string "True"%string); [rewrite Hv; vm_compute; reflexivity|vm_compute; reflexivity].
    + unfold getInt. rewrite Hv. vm_compute. reflexivity.
Defined.

(** ** Services take turns *)

Lemma pick_from_spec l idx i k :
  (0 < length l)%nat ->
  match pick_from l idx i k with
  | Some (idx', x) => exists j, (i <= j < i + k)%nat /\ l !! ((idx + j) mod length l)%nat = Some x /\ healthy x = true /\
      idx' = ((idx + j + 1) mod length l)%nat /\
      (forall j' y, (i <= j' < j)%nat -> l !! ((idx + j') mod length l)%nat = Some y -> healthy y = false)
  | None => forall j y, (i <= j < i + k)%nat -> l !! ((idx + j) mod length l)%nat = Some y -> healthy y = false
  end.
Proof.
  intros Hn. revert i. induction k as [|k IH]; intros i; cbn [pick_from]; [intros; lia|].
  destruct (lookup_lt_is_Some_2 l ((idx + i) mod length l)) as [x Hx]; [apply Nat.mod_upper_bound; lia|]. rewrite Hx.
  destruct (healthy x) eqn:Hh.
  - exists i. split_and!; [lia|lia|done|done|done|]. intros; lia.
  - specialize (IH (S i)). destruct (pick_from l idx (S i) k) as [[idx' y]|].
    + destruct IH as (j&?&?&?&?&Hb). exists j. split_and!; [lia|lia|done|done|done|]. intros j' z Hj Hz.
      destruct (decide (j' = i)) as [->|]; [congruence|]. apply (Hb j'); [lia|done].
    + intros j z Hj Hz. destruct (decide (j = i)) as [->|]; [congruence|]. apply (IH j); [lia|done].
Qed.

(** Consecutive calls of [pick]. *)
Fixpoint picks (n : nat) (name : string) (r : StaticServiceResolver) : list (ServiceInstance + string) :=
  match n with
  | O => []
  | S n => let (x, r') := pick name r in x :: picks n name r'
  end.

Definition turn (name : string) (r : StaticServiceResolver) : nat := default 0%nat (next_ r !! name).

(** With healthy instances only, the one whose turn it is; then the next. *)
Lemma pick_healthy name r l :
  instances_ r !! name = Some l -> l <> [] -> Forall (fun x => healthy x = true) l ->
  exists x, l !! (turn name r mod length l)%nat = Some x /\
    pick name r = (inl x, mkResolver (instances_ r) (<[name := ((turn name r + 1) mod length l)%nat]> (next_ r))).
Proof.
  intros Hl Hne Hall. assert (0 < length l)%nat as Hn by (destruct l; [done|cbn; lia]).
  destruct (lookup_lt_is_Some_2 l (turn name r mod length l)) as [x Hx]; [apply Nat.mod_upper_bound; lia|].
  exists x. split; [done|]. rewrite Forall_lookup in Hall. pose proof (Hall _ _ Hx) as Hh. unfold pick. rewrite Hl.
  destruct l as [|y l]; [done|]. fold (turn name r). cbn [length pick_from] in *. rewrite Nat.add_0_r, Hx, Hh. done.
Qed.

Lemma mod_add_1 a j n : (0 < n)%nat -> (((a + 1) mod n + j) mod n = (a + S j) mod n)%nat.
Proof. intros Hn. rewrite Nat.Div0.add_mod_idemp_l. f_equal. lia. Qed.

Lemma picks_lookup n name r l :
  instances_ r !! name = Some l -> l <> [] -> Forall (fun x => healthy x = true) l ->
  forall j, (j < n)%nat -> picks n name r !! j = inl <$> l !! ((turn name r + j) mod length l)%nat.
Proof.
  intros Hl Hne Hall. revert r Hl. induction n as [|n IH]; intros r Hl j Hj; [lia|]. cbn [picks].
  destruct (pick_healthy name r l Hl Hne Hall) as (x&Hx&->). destruct j as [|j]; [by rewrite Nat.add_0_r, Hx|].
  change ((?a :: ?b) !! S j) with (b !! j). rewrite IH by (done || lia). unfold turn at 1. cbn [next_]. rewrite lookup_insert_eq.
  change (default 0%nat (Some ?x)) with x. rewrite mod_add_1; [done|]. destruct l; [done|cbn; lia].
Qed.

Lemma length_picks n name r : length (picks n name r) = n.
Proof. revert r. induction n as [|n IH]; intros r; [done|]. cbn [picks]. destruct (pick name r). cbn. by rewrite IH. Qed.

(** From any start, one round through a list is the list in another order. *)
Lemma round_perm {A} (l l' : list A) k :
  length l' = length l -> (forall j, (j < length l)%nat -> l' !! j = l !! ((k + j) mod length l)%nat) -> l' ≡ₚ l.
Proof.
  intros Hlen Hj. destruct (decide (l = [])) as [->|Hne]; [by destruct l'|].
  assert (0 < length l)%nat as Hn by (destruct l; [done|cbn; lia]). pose proof (Nat.mod_upper_bound k (length l)) as Hm.
  set (m := (k mod length l)%nat) in *. assert (l' = drop m l ++ take m l) as ->.
  { apply list_eq_same_length with (length l); [by rewrite length_app, length_drop, length_take; lia|done|].
    intros j x y Hlt Hx Hy. rewrite (Hj j Hlt) in Hx. rewrite <- Nat.Div0.add_mod_idemp_l in Hx. fold m in Hx.
    destruct (decide (j < length l - m)%nat) as [Hb|Hb].
    - rewrite lookup_app_l, lookup_drop in Hy by (rewrite length_drop; lia). rewrite Nat.mod_small in Hx by lia. congruence.
    - rewrite lookup_app_r, length_drop, lookup_take_lt in Hy by (rewrite ?length_drop; lia).
      replace (m + j)%nat with (j - (length l - m) + 1 * length l)%nat in Hx by lia.
      rewrite Nat.Div0.mod_add, Nat.mod_small in Hx by lia. congruence. }
  rewrite Permutation_app_comm. by rewrite take_drop.
Qed.

(** Every place is reached within one round. *)
Lemma round_reaches k n i : (i < n)%nat -> exists j, (j < n)%nat /\ ((k + j) mod n = i)%nat.
Proof.
  intros Hi. pose proof (Nat.mod_upper_bound k n ltac:(lia)) as Hm. exists ((n - k mod n + i) mod n)%nat.
  split; [apply Nat.mod_upper_bound; lia|]. rewrite Nat.Div0.add_mod_idemp_r, <- Nat.Div0.add_mod_idemp_l.
  replace (k mod n + (n - k mod n + i))%nat with (i + 1 * n)%nat by lia. rewrite Nat.Div0.mod_add. by apply Nat.mod_small.
Qed.

(** [pick] gives an instance of the service that is healthy whenever there
    is one, and otherwise fails and keeps whose turn it is; and while all
    instances are healthy, as many calls as there are instances give each of
    them exactly once, from wherever they start. *)
Theorem pick_takes_turns (name : string) (r : StaticServiceResolver) (l : list ServiceInstance) :
  resolve name r = l ->
  match pick name r with
  | (inl x, r') => x ∈ l /\ healthy x = true /\ resolve name r' = l
  | (inr _, r') => Forall (fun x => healthy x = false) l /\ resolve name r' = l /\ turn name r' = turn name r
  end /\
  (Forall (fun x => healthy x = true) l -> picks (length l) name r ≡ₚ inl <$> l).
Proof.
  unfold resolve. intros Hl. split.
  - unfold pick. destruct (instances_ r !! name) as [[|y l']|] eqn:Hi; cbn in Hl; subst l; cbn [instances_]; [by rewrite Hi| |by rewrite Hi].
    fold (turn name r). pose proof (pick_from_spec (y :: l') (turn name r) 0 (length (y :: l')) ltac:(cbn; lia)) as Hp.
    destruct (pick_from _ _ _ _) as [[idx' x]|]; cbn [instances_].
    + destruct Hp as (j&_&Hx&Hh&_). rewrite Hi. eauto using list_elem_of_lookup_2.
    + split_and!; [|by rewrite Hi|by unfold turn; cbn [next_]; rewrite lookup_insert_eq].
      apply Forall_lookup. intros i x Hx. destruct (round_reaches (turn name r) (length (y :: l')) i) as (j&Hj&Hij);
        [by eapply lookup_lt_Some|]. apply (Hp j); [lia|]. by rewrite Hij.
  - intros Hall. destruct (decide (l = [])) as [->|Hne]; [done|].
    destruct (instances_ r !! name) as [l'|] eqn:Hi; cbn in Hl; [subst l'|by subst].
    apply (round_perm _ _ (turn name r)); [by rewrite length_picks, length_fmap|]. rewrite length_fmap. intros j Hj.
    rewrite list_lookup_fmap. by apply picks_lookup.
Qed.

(** Two gateways; the second call starts with the second one. *)
Definition two_gateways : StaticServiceResolver :=
  addAddress "gateway" "10.0.0.2:50055" "gateway-2" (loadFromConfig Config_new StaticServiceResolver_new).

Lemma pick_takes_turns_witness :
  resolve "gateway" (pick "gateway" two_gateways).2 = resolve "gateway" two_gateways /\
  length (resolve "gateway" two_gateways) = 2%nat /\
  picks 2 "gateway" (pick "gateway" two_gateways).2 ≡ₚ inl <$> resolve "gateway" two_gateways.
Proof.
  split; [vm_compute; reflexivity|]. split; [vm_compute; reflexivity|].
  destruct (pick_takes_turns "gateway" (pick "gateway" two_gateways).2 (resolve "gateway" two_gateways)) as [_ Hp]; [vm_compute; reflexivity|].
  apply Hp. vm_compute. repeat constructor.
Defined.
