(* ===== verification/Kafka.v ===== *)
(** * Records sent to Kafka, and how far behind a consumer is

    common/kafka/KafkaProducer.cpp, and [queryLag] of
    common/kafka/KafkaConsumer.cpp.  librdkafka keeps a queue of the records it
    was given; while one of its functions runs on any thread it reports for some
    of them, once each, that the broker stored the record, or that it gave up on
    it, which may be after the broker stored it.  A report goes to [dr_cb] with
    the pointer that was given along with the record: here the number of the
    call, which also names the state that caller and callback share.  Other
    threads use the producer at the same time; what they do between two reads of
    the shared state is part of the next [poll]. *)

From S2P Require Import Prelude Words.
Local Open Scope Z_scope.

(** ** KafkaProducer *)

Record kafka_record := mkRecord { r_topic : string; r_key : string; r_payload : string }.

Record DeliveryState := mkDelivery { done : bool; ok : bool }.

(** [handles]: the pointers to states that were allocated and not deleted;
    [queue]: the records librdkafka has, with their pointers; [stored]: what the
    broker has; [issued]: the number of calls; [clock]: of readings of the time. *)
Record KafkaProducer := mkProducer {
  producer_ : bool; delivery_timeout_ms_ : Z;
  states : gmap nat DeliveryState; handles : gset nat;
  queue : list (nat * kafka_record); stored : list (nat * kafka_record);
  issued : nat; polls : nat; clock : nat
}.

Definition KafkaProducer_new : KafkaProducer := mkProducer false 5000 ∅ ∅ [] [] 0 0 0.

Definition KM (A : Type) : Type := SM KafkaProducer A.

(** A report for the [i]-th record of the queue; or another thread's call, with
    the record that librdkafka accepts or refuses. *)
Inductive delivery := Delivered | GaveUp (stored : bool).
Inductive kafka_event := Report (i : nat) (d : delivery) | OtherCall (r : kafka_record) (accepted : bool).

Record KafkaEnv := mkKafkaEnv {
  kv_accepts : nat -> bool;
  kv_poll : nat -> list kafka_event;
  kv_now : nat -> Z
}.

Section Producer.
Context (E : KafkaEnv).

Definition set_delivery (h : nat) (s : DeliveryState) (k : KafkaProducer) : KafkaProducer :=
  mkProducer (producer_ k) (delivery_timeout_ms_ k) (<[h := s]> (states k)) (handles k) (queue k) (stored k) (issued k) (polls k) (clock k).
Definition set_handles (hs : gset nat) (k : KafkaProducer) : KafkaProducer :=
  mkProducer (producer_ k) (delivery_timeout_ms_ k) (states k) hs (queue k) (stored k) (issued k) (polls k) (clock k).
Definition set_queue (q : list (nat * kafka_record)) (k : KafkaProducer) : KafkaProducer :=
  mkProducer (producer_ k) (delivery_timeout_ms_ k) (states k) (handles k) q (stored k) (issued k) (polls k) (clock k).
Definition set_stored (l : list (nat * kafka_record)) (k : KafkaProducer) : KafkaProducer :=
  mkProducer (producer_ k) (delivery_timeout_ms_ k) (states k) (handles k) (queue k) l (issued k) (polls k) (clock k).

(** [delete]: of a pointer that is not allocated it does not return. *)
Definition delete_handle (h : nat) : KM unit :=
  fun k => if bool_decide (h ∈ handles k) then Some (tt, set_handles (handles k ∖ {[h]}) k) else None.

(** [DeliveryReportCb::dr_cb] *)
Definition dr_cb (h : nat) (err : bool) : KM unit :=
  delete_handle h;;
  modify (set_delivery h (mkDelivery true (negb err))).

(** [new DeliveryHandle(state)] and the call of the library. *)
Definition enqueue (r : kafka_record) (accepted : bool) : KM nat :=
  fun k =>
    let h := issued k in
    Some (h, mkProducer (producer_ k) (delivery_timeout_ms_ k) (<[h := mkDelivery false false]> (states k)) (handles k ∪ {[h]})
               (if accepted then queue k ++ [(h, r)] else queue k) (stored k) (S h) (polls k) (clock k)).

Definition happen (e : kafka_event) : KM unit :=
  match e with
  | Report i d =>
      k ← get_state;
      match queue k !! i with
      | None => mret tt
      | Some (h, r) =>
          modify (set_queue (delete i (queue k)));;
          match d with
          | Delivered => modify (set_stored (stored k ++ [(h, r)]));; dr_cb h false
          | GaveUp late => (if late then modify (set_stored (stored k ++ [(h, r)])) else mret tt);; dr_cb h true
          end
      end
  | OtherCall r accepted =>
      h ← enqueue r accepted;
      if accepted then mret tt else delete_handle h
  end.

Fixpoint happens (es : list kafka_event) : KM unit :=
  match es with [] => mret tt | e :: es => happen e;; happens es end.

(** [producer->poll], of any time-out. *)
Definition poll : KM unit :=
  k ← get_state;
  modify (fun k => mkProducer (producer_ k) (delivery_timeout_ms_ k) (states k) (handles k) (queue k) (stored k) (issued k) (S (polls k)) (clock k));;
  happens (kv_poll E (polls k)).

Definition now : KM Z :=
  fun k => Some (kv_now E (clock k),
    mkProducer (producer_ k) (delivery_timeout_ms_ k) (states k) (handles k) (queue k) (stored k) (issued k) (polls k) (S (clock k))).

(** The answer, once it is there. *)
Definition answer (h : nat) : KM (option bool) :=
  k ← get_state;
  mret (match states k !! h with Some s => if done s then Some (ok s) else None | None => None end).

(** The loop until the deadline: [Some] is a return. *)
Fixpoint wait_delivery (fuel : nat) (h : nat) (deadline : Z) : KM (option bool) :=
  match fuel with
  | O => fun _ => None
  | S fuel =>
      t ← now;
      if t <? deadline then
        poll;;
        a ← answer h;
        match a with
        | Some b => mret (Some b)
        | None => wait_delivery fuel h deadline
        end
      else mret None
  end.

Definition produce_within (fuel : nat) (topic key payload : string) (delivery_timeout_ms : Z) : KM bool :=
  k ← get_state;
  if negb (producer_ k) then mret false
  else
    let accepted := kv_accepts E (issued k) in
    delivery_handle ← enqueue (mkRecord topic key payload) accepted;
    poll;;
    if negb accepted then delete_handle delivery_handle;; mret false
    else
      let timeout_ms := if 0 <? delivery_timeout_ms then delivery_timeout_ms else 5000 in
      t ← now;
      a ← wait_delivery fuel delivery_handle (t + timeout_ms);
      match a with
      | Some b => mret b
      | None =>
          poll;;
          a ← answer delivery_handle;
          mret (default false a)
      end.

Definition produce (fuel : nat) (topic key payload : string) : KM bool :=
  k ← get_state;
  produce_within fuel topic key payload (s32 (delivery_timeout_ms_ k + 250)).

(** [init]: [created] is whether librdkafka takes the settings and makes a
    producer. *)
Definition init (created : bool) (delivery_timeout_ms : Z) : KM bool :=
  if negb created then mret false
  else
    modify (fun k => mkProducer true (if 0 <? delivery_timeout_ms then delivery_timeout_ms else 5000)
                       (states k) (handles k) (queue k) (stored k) (issued k) (polls k) (clock k));;
    mret true.

End Producer.

(** ** How far behind a consumer is *)

Record KafkaLagRecord := mkLag {
  lag_topic : string; lag_consumer_group : string; lag_partition : Z; lag_committed_offset : Z; lag_high_offset : Z; lag : Z
}.

(** What librdkafka says: the topics with an error flag, each with its
    partitions and theirs; the committed offset of a partition, negative if it
    has none; and the first and the next offset of a partition, if it knows. *)
Record LagEnv := mkLagEnv {
  lv_settings : option string;
  lv_create : option string;
  lv_metadata : string + list (bool * string * list (bool * Z));
  lv_committed_error : option string;
  lv_committed : string -> Z -> Z;
  lv_watermarks : string -> Z -> option (Z * Z)
}.

Section QueryLag.
Context (E : LagEnv).

Definition wanted_partitions (topics : list string) (metadata : list (bool * string * list (bool * Z))) : list (string * Z) :=
  concat (map (fun '(err, topic, partitions) =>
    if (err : bool) then []
    else if negb (bool_decide (topics = [])) && negb (bool_decide (topic ∈ topics)) then []
    else omap (fun '(perr, id) => if (perr : bool) then None else Some (topic, id)) partitions) metadata).

Definition lag_record (group_id : string) (partition : string * Z) : option KafkaLagRecord :=
  '(low, high) ← lv_watermarks E partition.1 partition.2;
  let offset := lv_committed E partition.1 partition.2 in
  let committed := if offset <? 0 then low else offset in
  Some (mkLag partition.1 group_id partition.2 committed high (if committed <? high then high - committed else 0)).

(** The records, and the error that is reported. *)
Definition queryLag (group_id : string) (topics : list string) : list KafkaLagRecord * string :=
  match lv_settings E with
  | Some errstr => ([], errstr)
  | None =>
      match lv_create E with
      | Some errstr => ([], errstr)
      | None =>
          match lv_metadata E with
          | inl errstr => ([], errstr)
          | inr metadata =>
              let partitions := wanted_partitions topics metadata in
              if bool_decide (partitions = []) then ([], EmptyString)
              else (omap (lag_record group_id) partitions, default EmptyString (lv_committed_error E))
          end
      end
  end.

(** Every record is of a wanted topic and counts what the group has not read
    from where it stands, which is at least nothing. *)
Theorem lag_counts_unread (group_id : string) (topics : list string) (r : KafkaLagRecord) :
  r ∈ (queryLag group_id topics).1 ->
  (topics <> [] -> lag_topic r ∈ topics) /\ lag_consumer_group r = group_id /\
  exists low, lv_watermarks E (lag_topic r) (lag_partition r) = Some (low, lag_high_offset r) /\
    lag_committed_offset r =
      (if lv_committed E (lag_topic r) (lag_partition r) <? 0 then low else lv_committed E (lag_topic r) (lag_partition r)) /\
    lag r = Z.max 0 (lag_high_offset r - lag_committed_offset r).
Proof.
  unfold queryLag. destruct (lv_settings E); [by intros ?%elem_of_nil|]. destruct (lv_create E); [by intros ?%elem_of_nil|].
  destruct (lv_metadata E) as [?|metadata]; [by intros ?%elem_of_nil|]. case_bool_decide; [by intros ?%elem_of_nil|]. cbn.
  intros ([t p]&Hin&Hr)%list_elem_of_omap. unfold lag_record in Hr. cbn in Hr. destruct (lv_watermarks E t p) as [[low high]|] eqn:Hw; [|done].
  injection Hr as <-. cbn. split_and!; [|done|].
  - intros Hne. apply list_elem_of_In in Hin. apply in_concat in Hin as (l&Hl&Hin). apply in_map_iff in Hl as ([[err t'] ps]&<-&_).
    destruct err; [done|]. rewrite (bool_decide_false (topics = [])) in Hin by done. cbn in Hin. case_bool_decide as Ht; [|done]. cbn in Hin.
    apply list_elem_of_In, list_elem_of_omap in Hin as ([[] id]&_&[= <- _]). done.
  - exists low. split_and!; [done|done|]. destruct (Z.ltb_spec (if lv_committed E t p <? 0 then low else lv_committed E t p) high); lia.
Qed.

End QueryLag.

(** ** What a call that returns true means *)

Definition entries (k : KafkaProducer) : list (nat * kafka_record) := queue k ++ stored k.

(** [X]: pointers that a call has allocated and librdkafka does not have. *)
Record kafka_ok (X : gset nat) (k : KafkaProducer) : Prop := mkKafkaOk {
  ko_handles : forall h, h ∈ handles k <-> (h ∈ (queue k).*1) \/ (h ∈ X);
  ko_apart : forall h, h ∈ X -> (h ∉ (entries k).*1) /\ (h < issued k)%nat;
  ko_once : NoDup (entries k).*1;
  ko_old : forall h, h ∈ (entries k).*1 -> (h < issued k)%nat;
  ko_stored : forall h s, states k !! h = Some s -> done s = true -> ok s = true -> h ∈ (stored k).*1
}.

(** How the producer changes while a call waits: records that were issued
    before keep their contents, or go. *)
Definition evolves (k k' : KafkaProducer) : Prop :=
  (issued k <= issued k')%nat /\ clock k' = clock k /\
  forall h r, (h < issued k)%nat -> (h, r) ∈ entries k' -> (h, r) ∈ entries k.

Lemma evolves_refl k : evolves k k.
Proof. done. Qed.
Lemma evolves_trans k1 k2 k3 : evolves k1 k2 -> evolves k2 k3 -> evolves k1 k3.
Proof.
  intros (H1&C1&E1) (H2&C2&E2). split_and!; [lia|congruence|]. intros h r Hh Hr. apply E1; [done|]. apply E2; [lia|done].
Qed.

Lemma delete_perm {A} i (l : list A) x : l !! i = Some x -> l ≡ₚ x :: delete i l.
Proof. intros Hi. by rewrite (delete_Permutation l i x Hi) at 1. Qed.

Lemma elem_fst h (l : list (nat * kafka_record)) : h ∈ l.*1 <-> exists r, (h, r) ∈ l.
Proof. rewrite list_elem_of_fmap. split; [intros ([h' r]&->&?); eauto|intros [r ?]; by exists (h, r)]. Qed.

(** A record leaves the queue with its report. *)
Lemma report_ok X k i h r (late err : bool) :
  kafka_ok X k -> queue k !! i = Some (h, r) -> (err = false -> late = true) ->
  let k' := set_queue (delete i (queue k)) k in
  wp (dr_cb h err) (fun _ k' => kafka_ok X k' /\ evolves k k')
    (if late then set_stored (stored k ++ [(h, r)]) k' else k').
Proof.
  intros [Hh Ha Ho Hl Hs] Hi Herr k'. pose proof (delete_perm i _ _ Hi) as Hp.
  assert (entries k ≡ₚ (h, r) :: (delete i (queue k) ++ stored k)) as He by (unfold entries; rewrite Hp at 1; done).
  set (kl := if late then set_stored (stored k ++ [(h, r)]) k' else k').
  assert (handles kl = handles k /\ queue kl = delete i (queue k) /\ issued kl = issued k /\ states kl = states k /\ clock kl = clock k /\
          stored kl = if late then stored k ++ [(h, r)] else stored k) as (Eh&Eq&Ei&Es&Ec&Est) by (unfold kl; by destruct late).
  assert (forall g, g ∈ (queue k).*1 <-> g = h \/ g ∈ (delete i (queue k)).*1) as Hq.
  { intros g. assert ((queue k).*1 ≡ₚ h :: (delete i (queue k)).*1) as -> by (by rewrite Hp at 1). by rewrite elem_of_cons. }
  assert (NoDup ((h, r) :: (delete i (queue k) ++ stored k)).*1) as Hn by (by rewrite <- He).
  apply NoDup_cons in Hn as [Hnh Hn].
  assert (entries kl ≡ₚ if late then entries k else delete i (queue k) ++ stored k) as Hkl.
  { unfold entries at 1. rewrite Eq, Est. destruct late; [|done]. rewrite He. solve_Permutation. }
  assert (forall g x, (g, x) ∈ entries kl -> (g, x) ∈ entries k) as Hsub.
  { intros g x. rewrite Hkl. destruct late; [done|]. rewrite He. by right. }
  assert (h ∈ handles kl) as Hin' by (rewrite Eh; apply Hh; left; apply Hq; auto).
  unfold dr_cb. apply wp_bind. eapply wp_exact; [unfold delete_handle; by rewrite bool_decide_true|]. apply wp_modify.
  split; [|unfold evolves, entries; cbn; rewrite Ei, Ec; split_and!; [done|done|intros g x _; apply Hsub]].
  split; unfold entries, set_delivery, set_handles; cbn; fold (entries kl).
  - intros g. rewrite Eh, Eq, elem_of_difference, elem_of_singleton, Hh, Hq.
    split; [tauto|]. intros [Hg|Hg]; (split; [tauto|]); intros ->.
    + apply Hnh. change (h ∈ (delete i (queue k) ++ stored k).*1). rewrite fmap_app. by apply elem_of_app; left.
    + by apply (Ha h Hg); rewrite He; left.
  - intros g Hg. rewrite Ei. destruct (Ha g Hg) as [Hg1 ?]. split; [|done]. rewrite elem_fst in *. intros [x Hx]. apply Hg1. eauto.
  - rewrite Hkl. destruct late; [done|exact Hn].
  - intros g [x Hx]%elem_fst. rewrite Ei. apply Hl, elem_fst. eauto.
  - rewrite Es, Est. intros g s. destruct (decide (g = h)) as [->|Hne].
    + rewrite lookup_insert_eq. intros [= <-] _ Hok. cbn in Hok. apply negb_true_iff in Hok. rewrite (Herr Hok), fmap_app. apply elem_of_app. right. by left.
    + rewrite lookup_insert_ne by done. intros Hg Hd Hok. pose proof (Hs g s Hg Hd Hok) as Hst. destruct late; [|done]. rewrite fmap_app. apply elem_of_app. by left.
Qed.

Lemma enqueue_ok X k r (accepted : bool) :
  kafka_ok X k ->
  wp (enqueue r accepted) (fun h k' => h = issued k /\ issued k' = S h /\ producer_ k' = producer_ k /\ evolves k k' /\
    states k' !! h = Some (mkDelivery false false) /\
    entries k' ≡ₚ (if accepted then [(h, r)] else []) ++ entries k /\
    kafka_ok (if accepted then X else X ∪ {[h]}) k') k.
Proof.
  intros [Hh Ha Ho Hl Hs]. eapply wp_exact; [reflexivity|]. set (h := issued k).
  assert (h ∉ (entries k).*1) as Hnew by (intros Hin%Hl; lia).
  assert (h ∉ X) as HnX by (intros [_ Hx]%Ha; lia).
  set (k' := mkProducer _ _ _ _ _ _ _ _ _).
  assert (entries k' ≡ₚ (if accepted then [(h, r)] else []) ++ entries k) as He
    by (unfold entries; cbn; destruct accepted; [solve_Permutation|done]).
  split_and!; [done..| |by apply lookup_insert_eq|done|].
  - split_and!; [cbn; lia|done|]. intros g x Hg. rewrite He. destruct accepted; [|done]. cbn. intros [[= -> _]|?]%elem_of_cons; [lia|done].
  - assert (forall g, g ∈ (entries k').*1 -> g = h \/ g ∈ (entries k).*1) as Hin.
    { intros g. rewrite He. destruct accepted; cbn; [rewrite elem_of_cons; tauto|tauto]. }
    assert (accepted = false -> h ∉ (entries k').*1) as Hrefused by (intros Hr; by rewrite He, Hr).
    split.
    + intros g. cbn. rewrite elem_of_union, elem_of_singleton, Hh. destruct accepted; [|rewrite elem_of_union, elem_of_singleton; tauto].
      rewrite fmap_app, elem_of_app. cbn. rewrite list_elem_of_singleton. tauto.
    + intros g Hg. cbn. assert (g <> h -> g ∈ X -> (g ∉ (entries k').*1) /\ (g < S h)%nat) as Hold.
      { intros Hne Hx. destruct (Ha g Hx) as [? ?]. split; [intros [?|?]%Hin; contradiction|unfold h in *; lia]. }
      destruct accepted; [apply Hold; [by intros ->|done]|]. apply elem_of_union in Hg as [Hg| ->%elem_of_singleton]; [apply Hold; [by intros ->|done]|].
      split; [by apply Hrefused|unfold h; lia].
    + assert (NoDup (((if accepted then [(h, r)] else []) ++ entries k).*1)) as Hn by (destruct accepted; [by constructor|done]).
      by rewrite <- He in Hn.
    + intros g [->|Hg]%Hin; cbn; [unfold h; lia|]. specialize (Hl g Hg). unfold h. lia.
    + cbn. intros g s. destruct (decide (g = h)) as [->|]; [rewrite lookup_insert_eq; by intros [= <-]|].
      rewrite lookup_insert_ne by done. apply Hs.
Qed.

Lemma delete_handle_ok X k h :
  kafka_ok (X ∪ {[h]}) k -> (h ∉ X) ->
  wp (delete_handle h) (fun _ k' => kafka_ok X k' /\ evolves k k' /\ entries k' = entries k) k.
Proof.
  intros [Hh Ha Ho Hl Hs] HX. assert (h ∈ X ∪ {[h]}) as HhX by (apply elem_of_union_r; by apply elem_of_singleton).
  assert (h ∈ handles k) as Hin by (apply Hh; auto).
  eapply wp_exact; [unfold delete_handle; by rewrite bool_decide_true|]. split_and!; [|done|done].
  split; [|intros g Hg; by apply Ha, elem_of_union_l|done|done|done].
  intros g. cbn. rewrite elem_of_difference, elem_of_singleton, Hh, elem_of_union, elem_of_singleton.
  split; [tauto|]. intros [Hg|Hg]; (split; [tauto|]); intros ->; [|done].
  destruct (Ha h HhX) as [Hn _]. apply Hn. unfold entries. rewrite fmap_app, elem_of_app. auto.
Qed.

Lemma happen_ok X k e : kafka_ok X k -> wp (happen e) (fun _ k' => kafka_ok X k' /\ evolves k k') k.
Proof.
  intros Hk. destruct e as [i d|r accepted]; cbn [happen].
  - apply wp_bind, wp_get. destruct (queue k !! i) as [[h r]|] eqn:Hi; [|by apply wp_ret].
    apply wp_bind, wp_modify. destruct d as [|[]]; apply wp_bind.
    + apply wp_modify. apply (report_ok X k i h r true false Hk Hi). done.
    + apply wp_modify. apply (report_ok X k i h r true true Hk Hi). done.
    + apply wp_ret. apply (report_ok X k i h r false true Hk Hi). done.
  - apply wp_bind. eapply wp_mono; [by apply enqueue_ok|]. intros h k1 (->&_&_&Hev&_&_&Hk1). destruct accepted; [by apply wp_ret|].
    eapply wp_mono; [apply (delete_handle_ok X)|].
    + done.
    + intros [_ Hx]%(ko_apart X k Hk). lia.
    + intros _ k2 (?&?&_). eauto using evolves_trans.
Qed.

Lemma happens_ok X es k : kafka_ok X k -> wp (happens es) (fun _ k' => kafka_ok X k' /\ evolves k k') k.
Proof.
  revert k. induction es as [|e es IH]; intros k Hk; [by apply wp_ret|]. cbn [happens]. apply wp_bind.
  eapply wp_mono; [by apply happen_ok|]. intros _ k1 [Hk1 Hev]. eapply wp_mono; [by apply IH|].
  intros _ k2 [? ?]. eauto using evolves_trans.
Qed.

Section Claims.
Context (E : KafkaEnv).

Lemma poll_ok X k : kafka_ok X k -> wp (poll E) (fun _ k' => kafka_ok X k' /\ evolves k k') k.
Proof.
  intros Hk. unfold poll. apply wp_bind, wp_get, wp_bind, wp_modify.
  eapply wp_mono; [apply happens_ok|]; [|intros _ k' [? Hev]; split; [done|exact Hev]]. by destruct Hk as [? ? ? ? ?].
Qed.

Lemma answer_ok X k h :
  kafka_ok X k -> wp (answer h) (fun a k' => k' = k /\ (a = Some true -> h ∈ (stored k).*1)) k.
Proof.
  intros Hk. unfold answer. apply wp_bind, wp_get, wp_ret. split; [done|]. destruct (states k !! h) as [s|] eqn:Hs; [|done].
  destruct (done s) eqn:Hd; [|done]. intros [= Hok]. by apply (ko_stored X k Hk h s).
Qed.

(** Between the readings of the clock. *)
Definition waits (k k' : KafkaProducer) : Prop :=
  (issued k <= issued k')%nat /\ forall h r, (h < issued k)%nat -> (h, r) ∈ entries k' -> (h, r) ∈ entries k.
Lemma evolves_waits k k' : evolves k k' -> waits k k'.
Proof. by intros (?&_&?). Qed.
Lemma waits_trans k1 k2 k3 : waits k1 k2 -> waits k2 k3 -> waits k1 k3.
Proof. intros [H1 E1] [H2 E2]. split; [lia|]. intros h r Hh Hr. apply E1; [done|]. apply E2; [lia|done]. Qed.

Lemma wait_ok X fuel h deadline m k :
  kafka_ok X k -> (clock k <= m)%nat -> deadline <= kv_now E m -> (m - clock k < fuel)%nat ->
  wp (wait_delivery E fuel h deadline) (fun a k' => kafka_ok X k' /\ waits k k' /\ (a = Some true -> h ∈ (stored k').*1)) k.
Proof.
  revert k. induction fuel as [|fuel IH]; intros k Hk Hm Hd Hf; [lia|]. cbn [wait_delivery]. apply wp_bind.
  eapply wp_exact; [reflexivity|]. set (k1 := mkProducer _ _ _ _ _ _ _ _ _).
  assert (kafka_ok X k1) as Hk1 by (by destruct Hk as [? ? ? ? ?]). apply wp_if; intros Ht.
  - apply wp_bind. eapply wp_mono; [by apply poll_ok|]. intros _ k2 [Hk2 Hev]. apply wp_bind.
    eapply wp_mono; [by apply (answer_ok X)|]. intros a k3 [-> Ha]. destruct a as [b|].
    + apply wp_ret. split_and!; [done|by apply (evolves_waits k1)|done].
    + assert (clock k2 = S (clock k)) as Hc by (by destruct Hev as (_&?&_)).
      assert (clock k <> m) as Hne by (intros <-; apply Z.ltb_lt in Ht; lia).
      eapply wp_mono; [apply IH; [done|lia|done|lia]|]. intros a k3 (?&Hw&?). split_and!; [done| |done].
      by apply (waits_trans k k2); [apply (evolves_waits k1)|].
  - apply wp_ret. split_and!; [done|done|done].
Qed.

(** The time passes every deadline. *)
Definition time_passes : Prop := forall t c, exists m, (c <= m)%nat /\ t <= kv_now E m.

(** The threads of a process and the broker. *)
Inductive kreachable : KafkaProducer -> Prop :=
| kr_new : kreachable KafkaProducer_new
| kr_init k created ms b k' : kreachable k -> init created ms k = Some (b, k') -> kreachable k'
| kr_events k es k' : kreachable k -> happens es k = Some (tt, k') -> kreachable k'
| kr_produce k fuel topic key payload b k' :
    kreachable k -> produce E fuel topic key payload k = Some (b, k') -> kreachable k'.

(** What a call with the number [h] leaves. *)
Definition produced (h : nat) (r : kafka_record) (accepted : bool) (b : bool) (k : KafkaProducer) : Prop :=
  (b = true -> (h, r) ∈ stored k) /\
  (forall r', (h, r') ∈ entries k -> r' = r /\ accepted = true).

Lemma produced_from k0 k1 k2 h r (accepted b : bool) :
  kafka_ok ∅ k0 -> h = issued k0 -> issued k1 = S h -> entries k1 ≡ₚ (if accepted then [(h, r)] else []) ++ entries k0 ->
  waits k1 k2 -> (b = true -> h ∈ (stored k2).*1) -> produced h r accepted b k2.
Proof.
  intros Hk -> Hi He [_ Hw] Hb. assert (forall r', (issued k0, r') ∈ entries k2 -> r' = r /\ accepted = true) as Hr.
  { intros r' Hin%Hw; [|lia]. rewrite He in Hin. destruct accepted; cbn in Hin.
    - apply elem_of_cons in Hin as [[= ->]|Hin]; [done|]. assert (issued k0 < issued k0)%nat; [|lia]. apply (ko_old _ _ Hk), elem_fst. eauto.
    - assert (issued k0 < issued k0)%nat; [|lia]. apply (ko_old _ _ Hk), elem_fst. eauto. }
  split; [|done]. intros [r' Hin]%Hb%elem_fst. destruct (Hr r') as [-> _]; [unfold entries; rewrite elem_of_app; auto|done].
Qed.

(** The end of a call that librdkafka accepted. *)
Lemma await_ok fuel h deadline m k :
  kafka_ok ∅ k -> (clock k <= m)%nat -> deadline <= kv_now E m -> (m - clock k < fuel)%nat ->
  wp (a ← wait_delivery E fuel h deadline;
      match a with Some b => mret b | None => poll E;; a ← answer h; mret (default false a) end)
    (fun b k' => kafka_ok ∅ k' /\ waits k k' /\ (b = true -> h ∈ (stored k').*1)) k.
Proof.
  intros Hk Hm Hd Hf. apply wp_bind. eapply wp_mono; [by apply (wait_ok ∅ _ _ _ m)|]. intros a k1 (Hk1&Hw1&Ha1).
  destruct a as [b|]; [apply wp_ret; split_and!; [done..|by intros ->; apply Ha1]|].
  apply wp_bind. eapply wp_mono; [by apply poll_ok|]. intros _ k2 [Hk2 Hw2%evolves_waits].
  apply wp_bind. eapply wp_mono; [by apply (answer_ok ∅)|]. intros a k3 [-> Ha3]. apply wp_ret.
  split_and!; [done|eauto using waits_trans|]. intros Hb. apply Ha3. by destruct a as [[]|].
Qed.

Lemma produce_ok topic key payload k :
  kafka_ok ∅ k -> time_passes ->
  exists fuel0, forall fuel, (fuel0 <= fuel)%nat ->
  wp (produce E fuel topic key payload) (fun b k' => kafka_ok ∅ k' /\
    if producer_ k then produced (issued k) (mkRecord topic key payload) (kv_accepts E (issued k)) b k' else b = false /\ k' = k) k.
Proof.
  intros Hk Ht. set (timeout := s32 (delivery_timeout_ms_ k + 250)).
  destruct (Ht (kv_now E (clock k) + (if 0 <? timeout then timeout else 5000)) (S (clock k))) as (m&Hm&Hd).
  exists (S (m - S (clock k))). intros fuel Hf. unfold produce, produce_within. apply wp_bind, wp_get. fold timeout. apply wp_bind, wp_get.
  destruct (producer_ k); cbn [negb]; [|by apply wp_ret]. apply wp_bind.
  eapply wp_mono; [by apply (enqueue_ok ∅)|]. intros h k1 (->&Hi&_&(_&Hc1&_)&_&He&Hk1). apply wp_bind.
  eapply wp_mono; [by eapply poll_ok|]. intros _ k2 [Hk2 Hev]. pose proof (evolves_waits _ _ Hev) as Hw. destruct Hev as (_&Hc2&_).
  destruct (kv_accepts E (issued k)) eqn:Hacc; cbn [negb].
  - apply wp_bind. eapply wp_exact; [reflexivity|]. rewrite Hc2, Hc1.
    set (k3 := mkProducer _ _ _ _ _ _ _ _ _). assert (kafka_ok ∅ k3) as Hk3 by (by destruct Hk2 as [? ? ? ? ?]).
    eapply wp_mono; [apply (await_ok _ _ _ m); [done|cbn; lia|done|cbn; lia]|]. intros b k4 (?&Hw4&Hb). split; [done|].
    eapply (produced_from k k1); [done..| |done]. by apply (waits_trans k1 k3).
  - apply wp_bind. eapply wp_mono; [apply (delete_handle_ok ∅)|]; [|apply not_elem_of_empty|].
    + by rewrite union_empty_l_L in *.
    + intros _ k3 (Hk3&Hev3&_). apply wp_ret. split; [done|].
      eapply (produced_from k k1); [done..| |done]. eapply waits_trans; [done|by apply evolves_waits].
Qed.

(** More fuel does not change what is returned. *)
Lemma bind_mono {A B} (m1 m2 : KM A) (f1 f2 : A -> KM B) k x :
  (forall y, m1 k = Some y -> m2 k = Some y) -> (forall a k' y, f1 a k' = Some y -> f2 a k' = Some y) ->
  (m1 ≫= f1) k = Some x -> (m2 ≫= f2) k = Some x.
Proof. unfold mbind, SM_bind. intros Hm Hf. destruct (m1 k) as [[a k']|]; [|done]. rewrite (Hm _ eq_refl). apply Hf. Qed.

Lemma wait_mono fuel fuel' h d k x :
  (fuel <= fuel')%nat -> wait_delivery E fuel h d k = Some x -> wait_delivery E fuel' h d k = Some x.
Proof.
  revert fuel' k x. induction fuel as [|fuel IH]; intros [|fuel'] k x Hle; try done; [lia|]. cbn [wait_delivery].
  apply bind_mono; [done|]. intros t k1 y. destruct (t <? d); [|done]. apply bind_mono; [done|]. intros _ k2 z.
  apply bind_mono; [done|]. intros [b|] k3 w; [done|]. apply IH. lia.
Qed.

Lemma produce_mono fuel fuel' topic key payload k x :
  (fuel <= fuel')%nat -> produce E fuel topic key payload k = Some x -> produce E fuel' topic key payload k = Some x.
Proof.
  intros Hle. unfold produce. apply bind_mono; [done|]. intros k0 k1 y. unfold produce_within. apply bind_mono; [done|].
  intros k2 k3 z. destruct (negb (producer_ k2)); [done|]. do 2 (apply bind_mono; [done|]; intros ? ? ?). destruct (negb _); [done|].
  apply bind_mono; [done|]. intros ? ? ?. apply bind_mono; [|done]. intros ?. by apply wait_mono.
Qed.

Lemma kreachable_ok k : time_passes -> kreachable k -> kafka_ok ∅ k.
Proof.
  intros Ht. induction 1 as [|k created ms b k' _ IH Hs|k es k' _ IH Hs|k fuel topic key payload b k' _ IH Hs].
  - split; cbn; [intros h; rewrite elem_of_nil, !elem_of_empty; tauto|by intros ? ?%elem_of_empty|constructor|by intros ? ?%elem_of_nil|done].
  - unfold init in Hs. destruct created; cbn in Hs; injection Hs as _ <-; [|done]. by destruct IH as [? ? ? ? ?].
  - pose proof (happens_ok ∅ es k IH) as Hw. unfold wp in Hw. rewrite Hs in Hw. apply Hw.
  - destruct (produce_ok topic key payload k IH Ht) as [fuel0 Hp]. specialize (Hp (fuel + fuel0)%nat ltac:(lia)). unfold wp in Hp.
    rewrite (produce_mono fuel (fuel + fuel0)%nat _ _ _ _ _ ltac:(lia) Hs) in Hp. apply Hp.
Qed.


End Claims.

(** ** An evaluation *)

(** The second reading of the queue reports the record, and another thread sends
    one that is refused. *)
Definition kafka_sample : KafkaEnv :=
  mkKafkaEnv (fun _ => true) (fun n => if Nat.eqb n 1 then [OtherCall (mkRecord "t" "x" "y") false; Report 0 Delivered] else [])
    (fun n => 1000 * Z.of_nat n).

Definition kafka_started : KafkaProducer := mkProducer true 5000 ∅ ∅ [] [] 0 0 0.

Lemma kafka_sample_time : time_passes kafka_sample.
Proof. intros t c. exists (c + Z.to_nat t)%nat. split; [lia|]. cbn [kv_now kafka_sample]. lia. Qed.

