(* ===== verification/RateLimit.v ===== *)
(** * Rate limits

    common/ratelimit/TokenBucket.cpp and common/ratelimit/RateLimiter.cpp, with
    the floating point arithmetic of binary64 as the library specifies it.
    Times are nanoseconds of the steady clock.  Buckets are objects that the
    table refers to: [allow] finds one under the lock of the table, and takes a
    token under the bucket's own, so that other threads come in between. *)

From S2P Require Import Prelude Words Text.
From Stdlib Require Import SpecFloat.
Local Open Scope Z_scope.

(** ** Doubles *)

Abbreviation double := spec_float.
Definition prec : Z := 53.
Definition emax : Z := 1024.
(** [static_cast<double>] of an integer. *)
Definition to_double (x : Z) : double := binary_normalize prec emax x 0 false.
Definition dadd : double -> double -> double := SFadd prec emax.
Definition dsub : double -> double -> double := SFsub prec emax.
Definition dmul : double -> double -> double := SFmul prec emax.
Definition ddiv : double -> double -> double := SFdiv prec emax.

(** [std::min] *)
Definition dmin (a b : double) : double := if SFltb b a then b else a.

(** ** TokenBucket *)

Record TokenBucket := mkBucket { capacity_ : double; tokens_ : double; refill_rate_per_sec_ : double; last_refill_ : Z }.

Definition TokenBucket_new (capacity : Z) (refill_rate_per_sec : double) (now : Z) : TokenBucket :=
  let c := if capacity =? 0 then to_double 1 else to_double capacity in
  mkBucket c c (if SFltb (to_double 0) refill_rate_per_sec then refill_rate_per_sec else to_double 1) now.

(** [std::chrono::duration<double>]: seconds. *)
Definition seconds (ns : Z) : double := ddiv (to_double ns) (to_double 1000000000).

Definition refillLocked (now : Z) (b : TokenBucket) : TokenBucket :=
  let elapsed := seconds (now - last_refill_ b) in
  if SFleb elapsed (to_double 0) then b
  else mkBucket (capacity_ b) (dmin (capacity_ b) (dadd (tokens_ b) (dmul elapsed (refill_rate_per_sec_ b)))) (refill_rate_per_sec_ b) now.

Definition bucket_allow (tokens now : Z) (b : TokenBucket) : bool * TokenBucket :=
  if tokens =? 0 then (true, b)
  else
    let b := refillLocked now b in
    if SFltb (tokens_ b) (to_double tokens) then (false, b)
    else (true, mkBucket (capacity_ b) (dsub (tokens_ b) (to_double tokens)) (refill_rate_per_sec_ b) (last_refill_ b)).

(** ** RateLimiter *)

Record RateLimitConfig := mkLimits {
  enabled : bool; login_per_minute : Z; message_per_second : Z; connection_packet_per_second : Z;
  max_bucket_count : Z; bucket_idle_seconds : Z
}.
Definition RateLimitConfig_default : RateLimitConfig := mkLimits true 20 10 50 100000 600.

Record BucketEntry := mkEntry { bucket : nat; last_used : Z }.

(** [objects]: the buckets by address; one whose entry is gone stays as long as a
    thread uses it. *)
Record RateLimiter := mkLimiter {
  config_ : RateLimitConfig; buckets_ : gmap string BucketEntry; operation_count_ : Z; objects : list TokenBucket
}.
Definition RateLimiter_new (config : RateLimitConfig) : RateLimiter := mkLimiter config ∅ 0 [].

Definition table_size (m : gmap string BucketEntry) : Z := Z.of_nat (size m).

Definition pruneLocked (now : Z) (l : RateLimiter) : RateLimiter :=
  let idle_limit := bucket_idle_seconds (config_ l) * 1000000000 in
  mkLimiter (config_ l) (filter (fun kv => now - last_used kv.2 < idle_limit) (buckets_ l)) (operation_count_ l) (objects l).

(** [allow], under the lock of the table: the bucket, unless the table is full.
    [made] is the time at which a new bucket is made. *)
Definition allow_find (key : string) (capacity : Z) (refill_rate_per_sec : double) (now made : Z) (l : RateLimiter) : option nat * RateLimiter :=
  let l := mkLimiter (config_ l) (buckets_ l) (u64 (operation_count_ l + 1)) (objects l) in
  let l := if (operation_count_ l mod 256 =? 0) || (max_bucket_count (config_ l) <=? table_size (buckets_ l)) then pruneLocked now l else l in
  match buckets_ l !! key with
  | Some e => (Some (bucket e), mkLimiter (config_ l) (<[key := mkEntry (bucket e) now]> (buckets_ l)) (operation_count_ l) (objects l))
  | None =>
      if max_bucket_count (config_ l) <=? table_size (buckets_ l) then (None, l)
      else
        let a := length (objects l) in
        (Some a, mkLimiter (config_ l) (<[key := mkEntry a now]> (buckets_ l)) (operation_count_ l)
                   (objects l ++ [TokenBucket_new capacity refill_rate_per_sec made]))
  end.

(** [bucket->allow()] *)
Definition allow_take (a : nat) (now : Z) (l : RateLimiter) : option (bool * RateLimiter) :=
  b ← objects l !! a;
  let (r, b') := bucket_allow 1 now b in
  Some (r, mkLimiter (config_ l) (buckets_ l) (operation_count_ l) (<[a := b']> (objects l))).

(** The kinds of limits, with their keys, capacities and rates. *)
Inductive limit := Login (ip : string) | Message (user_id : Z) | Packet (connection_id : string).

Definition limit_key (k : limit) : string :=
  match k with
  | Login ip => "login:" +:+ ip
  | Message user_id => "message:" +:+ to_string user_id
  | Packet connection_id => "packet:" +:+ connection_id
  end.
Definition limit_capacity (c : RateLimitConfig) (k : limit) : Z :=
  match k with
  | Login _ => login_per_minute c
  | Message _ => message_per_second c
  | Packet _ => connection_packet_per_second c
  end.
Definition limit_rate (c : RateLimitConfig) (k : limit) : double :=
  match k with
  | Login _ => ddiv (to_double (login_per_minute c)) (to_double 60)
  | Message _ => to_double (message_per_second c)
  | Packet _ => to_double (connection_packet_per_second c)
  end.

(** [allowLogin], [allowMessage] and [allowPacket] up to the bucket; [inl] is an
    answer. *)
Definition allowLimit (k : limit) (now made : Z) (l : RateLimiter) : (bool + nat) * RateLimiter :=
  if negb (enabled (config_ l)) then (inl true, l)
  else match allow_find (limit_key k) (limit_capacity (config_ l) k) (limit_rate (config_ l) k) now made l with
       | (None, l') => (inl false, l')
       | (Some a, l') => (inr a, l')
       end.

Definition clearConnection (connection_id : string) (l : RateLimiter) : RateLimiter :=
  mkLimiter (config_ l) (delete ("packet:" +:+ connection_id) (buckets_ l)) (operation_count_ l) (objects l).

(** What the threads do; [waiting]: those that have found a bucket, and for
    whom. *)
Record limiter_state := mkLimiterState { limiter : RateLimiter; waiting : list (limit * nat) }.

Inductive rstep : limiter_state -> limiter_state -> Prop :=
| rs_answer s k now made r l' : allowLimit k now made (limiter s) = (inl r, l') -> rstep s (mkLimiterState l' (waiting s))
| rs_find s k now made a l' : allowLimit k now made (limiter s) = (inr a, l') -> rstep s (mkLimiterState l' (waiting s ++ [(k, a)]))
| rs_take s l' i k a now r :
    waiting s !! i = Some (k, a) -> allow_take a now (limiter s) = Some (r, l') -> rstep s (mkLimiterState l' (delete i (waiting s)))
| rs_clear s c : rstep s (mkLimiterState (clearConnection c (limiter s)) (waiting s)).

Inductive rreachable (config : RateLimitConfig) : limiter_state -> Prop :=
| rr_new : rreachable config (mkLimiterState (RateLimiter_new config) [])
| rr_step s s' : rreachable config s -> rstep s s' -> rreachable config s'.

(** ** One client's requests take no other's tokens *)

(** The key for which each bucket was made. *)
Record limiter_ok (config : RateLimitConfig) (owner : list string) (s : limiter_state) : Prop := mkLimiterOk {
  lo_config : config_ (limiter s) = config;
  lo_size : table_size (buckets_ (limiter s)) <= Z.max 0 (max_bucket_count config);
  lo_owners : length owner = length (objects (limiter s));
  lo_entries : forall key e, buckets_ (limiter s) !! key = Some e -> owner !! bucket e = Some key;
  lo_waiting : forall k a, (k, a) ∈ waiting s -> owner !! a = Some (limit_key k)
}.

Lemma prune_size now l : (table_size (buckets_ (pruneLocked now l)) <= table_size (buckets_ l)).
Proof. unfold table_size, pruneLocked. cbn. apply inj_le, map_subseteq_size, map_filter_subseteq. Qed.

(** The table after the pruning that [allow] begins with. *)
Definition begin_find (now : Z) (l : RateLimiter) : RateLimiter :=
  let l := mkLimiter (config_ l) (buckets_ l) (u64 (operation_count_ l + 1)) (objects l) in
  if (operation_count_ l mod 256 =? 0) || (max_bucket_count (config_ l) <=? table_size (buckets_ l)) then pruneLocked now l else l.

Lemma begin_find_spec now l :
  config_ (begin_find now l) = config_ l /\ objects (begin_find now l) = objects l /\
  table_size (buckets_ (begin_find now l)) <= table_size (buckets_ l) /\
  (forall key e, buckets_ (begin_find now l) !! key = Some e -> buckets_ l !! key = Some e) /\
  (forall key e, buckets_ l !! key = Some e -> now - last_used e < bucket_idle_seconds (config_ l) * 1000000000 ->
     buckets_ (begin_find now l) !! key = Some e).
Proof.
  unfold begin_find. cbv zeta. destruct (_ || _); [|split_and!; try done; lia].
  split_and!; [done|done|apply (prune_size now (mkLimiter (config_ l) (buckets_ l) (u64 (operation_count_ l + 1)) (objects l)))|..]; intros key e; cbn; rewrite map_lookup_filter_Some; cbn; [tauto|done].
Qed.

Lemma allow_find_spec key capacity rate now made l :
  allow_find key capacity rate now made l =
  let l1 := begin_find now l in
  match buckets_ l1 !! key with
  | Some e => (Some (bucket e), mkLimiter (config_ l1) (<[key := mkEntry (bucket e) now]> (buckets_ l1)) (operation_count_ l1) (objects l1))
  | None =>
      if max_bucket_count (config_ l1) <=? table_size (buckets_ l1) then (None, l1)
      else (Some (length (objects l1)), mkLimiter (config_ l1) (<[key := mkEntry (length (objects l1)) now]> (buckets_ l1)) (operation_count_ l1)
              (objects l1 ++ [TokenBucket_new capacity rate made]))
  end.
Proof. done. Qed.

Lemma find_ok config owner s k now made r l' :
  limiter_ok config owner s -> allow_find (limit_key k) (limit_capacity config k) (limit_rate config k) now made (limiter s) = (r, l') ->
  exists owner', limiter_ok config owner' (mkLimiterState l' (waiting s ++ match r with Some a => [(k, a)] | None => [] end)).
Proof.
  intros [H1 H2 H3 H4 H5]. rewrite allow_find_spec. cbv zeta. destruct (begin_find_spec now (limiter s)) as (B1&B2&B3&B4&_).
  set (l1 := begin_find now (limiter s)) in *. clearbody l1.
  destruct (buckets_ l1 !! limit_key k) as [e|] eqn:Hk; [|destruct (Z.leb_spec (max_bucket_count (config_ l1)) (table_size (buckets_ l1))) as [|Hroom]];
    intros [= <- <-].
  - exists owner. split; cbn; [congruence| |congruence| |].
    + unfold table_size. rewrite map_size_insert_Some by eauto. unfold table_size in *. lia.
    + intros key e'. destruct (decide (key = limit_key k)) as [->|]; [rewrite lookup_insert_eq; intros [= <-]; cbn; eauto|].
      rewrite lookup_insert_ne by done. eauto.
    + intros k' a. rewrite elem_of_app, list_elem_of_singleton. intros [?|[= -> ->]]; eauto.
  - exists owner. rewrite app_nil_r. split; cbn; [congruence|lia|congruence|eauto|done].
  - exists (owner ++ [limit_key k]). split; cbn; [congruence| |rewrite !length_app; cbn; congruence| |].
    + unfold table_size in *. rewrite map_size_insert_None by done. rewrite B1, H1 in *. lia.
    + intros key e'. destruct (decide (key = limit_key k)) as [->|].
      * rewrite lookup_insert_eq. intros [= <-]. cbn. rewrite B2, <- H3. by apply list_lookup_middle.
      * rewrite lookup_insert_ne by done. intros He. apply lookup_app_l_Some. eauto.
    + intros k' a. rewrite elem_of_app, list_elem_of_singleton. intros [?|[= -> ->]]; [apply lookup_app_l_Some; eauto|].
      rewrite B2, <- H3. by apply list_lookup_middle.
Qed.

Lemma rstep_ok config owner s s' : limiter_ok config owner s -> rstep s s' -> exists owner', limiter_ok config owner' s'.
Proof.
  intros Hok Hs. pose proof Hok as [H1 H2 H3 H4 H5]. destruct Hs as [s k now made r l' Hf|s k now made a l' Hf|s l' i k a now r Hi Ht|s c].
  - unfold allowLimit in Hf. destruct (negb _); [injection Hf as _ <-; exists owner; by destruct s|].
    rewrite H1 in Hf. destruct (allow_find _ _ _ _ _ _) as [[a|] l1] eqn:Ha; [done|]. injection Hf as _ <-.
    destruct (find_ok _ _ _ _ _ _ _ _ Hok Ha) as [o' Ho]. exists o'. by rewrite app_nil_r in Ho.
  - unfold allowLimit in Hf. destruct (negb _); [done|].
    rewrite H1 in Hf. destruct (allow_find _ _ _ _ _ _) as [[a'|] l1] eqn:Ha; [|done]. injection Hf as -> <-.
    by apply (find_ok _ _ _ _ _ _ _ _ Hok Ha).
  - unfold allow_take in Ht. destruct (objects (limiter s) !! a) as [b|] eqn:Hb; [|done]. cbn [mbind option_bind] in Ht. destruct (bucket_allow 1 now b) as [r' b'].
    injection Ht as _ <-. exists owner. split; cbn; [done|done|by rewrite length_insert|done|].
    intros k' a' Hin. apply H5. rewrite (delete_Permutation _ _ _ Hi). by right.
  - exists owner. split; cbn; [done| |done| |done].
    + unfold table_size in *. transitivity (Z.of_nat (size (buckets_ (limiter s)))); [|done]. apply inj_le, map_subseteq_size, delete_subseteq.
    + intros key e. rewrite lookup_delete_Some. intros [_ ?]. eauto.
Qed.

Lemma rreachable_ok config s : rreachable config s -> exists owner, limiter_ok config owner s.
Proof.
  induction 1 as [|s s' _ [owner IH] Hs]; [|by eapply rstep_ok]. exists []. split; cbn; [done| |done|done|by intros k a ?%elem_of_nil].
  unfold table_size. rewrite map_size_empty. lia.
Qed.

(** Different clients have different keys. *)
Lemma limit_key_inj k k' : limit_key k = limit_key k' -> k = k'.
Proof.
  destruct k, k'; cbn [limit_key]; try done; intros Heq; f_equal; [by apply app_inj_l in Heq| |by apply app_inj_l in Heq].
  by apply to_string_inj, (app_inj_l "message:").
Qed.


(** ** Evaluations *)

(** Requests at the given times. *)
Fixpoint burst (times : list Z) (b : TokenBucket) : list bool :=
  match times with [] => [] | t :: times => let (r, b) := bucket_allow 1 t b in r :: burst times b end.

(** With the limits that are preset, as many requests as the capacity says are
    allowed at once, and no more; after a tenth of a second there is room for
    one more message, not for two. *)
Example preset_bursts :
  let burst_of k times := burst times (TokenBucket_new (limit_capacity RateLimitConfig_default k) (limit_rate RateLimitConfig_default k) 0) in
  burst_of (Login "ip") (replicate 22 0) = replicate 20 true ++ [false; false] /\
  burst_of (Message 7) (replicate 11 0 ++ [100000000; 100000000]) = replicate 10 true ++ [false; true; false] /\
  burst_of (Packet "c") (replicate 52 0) = replicate 50 true ++ [false; false].
Proof. vm_compute. done. Qed.

Definition limiter_at (k : limit) (now : Z) (s : limiter_state) : limiter_state :=
  match allowLimit k now now (limiter s) with (inl _, l) => mkLimiterState l (waiting s) | (inr a, l) => mkLimiterState l (waiting s ++ [(k, a)]) end.

Lemma limiter_at_reachable config k now s : rreachable config s -> rreachable config (limiter_at k now s).
Proof.
  intros Hs. unfold limiter_at. destruct (allowLimit k now now (limiter s)) as [[r|a] l] eqn:Ha; (eapply rr_step; [exact Hs|]);
    [by eapply rs_answer|by eapply rs_find].
Qed.

(** Two clients ask; the token of the first leaves the second's bucket alone. *)
Definition limiter_two : limiter_state :=
  limiter_at (Message 8) 5 (limiter_at (Message 7) 0 (mkLimiterState (RateLimiter_new RateLimitConfig_default) [])).

