(* ===== verification/Lifecycle.v ===== *)
(** * Threads that end

    common/net/EventLoopThread.cpp, common/app/ShutdownSignal.cpp, and the end of
    the gateway's main function, over the event loop of EventLoop.v.  That model
    starts inside of [loop], which has set [quit_] to false; here is what happens
    to a [quit] that comes before. *)

From S2P Require Import Prelude EventLoop.
Local Open Scope Z_scope.

(** ** One loop and its thread *)

(** The assignments at the start of [loop]. *)
Definition loop_begin (l : EventLoop) : EventLoop :=
  mkLoop Polling false (pending_functors_ l) (eventfd l) (waking l) (queued l) (executed l).

(** Where [threadFunc] is: not started; before it has published [loop_]; between
    that and [loop.loop()]; inside; after, with [loop_] still set; at its end. *)
Inductive func_phase := Absent | Starting | Published | Looping | Left | Over.

(** Where the owner is: nothing called; in the wait of [startLoop]; past it; in
    the destructor, before the [quit] on the loop it saw; before the join; past
    it. *)
Inductive owner_phase := Fresh | Awaiting | Started | Quitting | Joining | Destroyed.

(** [et_loop] is the local of [threadFunc], which lives from [Published] to
    [Left]; [et_set] says whether [loop_] points to it. *)
Record EventLoopThread := mkThread { et_func : func_phase; et_loop : EventLoop; et_set : bool; et_owner : owner_phase }.

Definition EventLoopThread_new : EventLoopThread := mkThread Absent EventLoop_new false Fresh.

(** [startLoop], up to its wait and after it. *)
Definition startLoop (t : EventLoopThread) : option EventLoopThread :=
  match et_owner t with
  | Fresh => Some (mkThread Starting (et_loop t) (et_set t) Awaiting)
  | Awaiting => if et_set t then Some (mkThread (et_func t) (et_loop t) (et_set t) Started) else None
  | _ => None
  end.

(** [threadFunc] outside of [loop]. *)
Definition threadFunc (t : EventLoopThread) : option EventLoopThread :=
  match et_func t with
  | Starting => Some (mkThread Published (et_loop t) true (et_owner t))
  | Published => Some (mkThread Looping (loop_begin (et_loop t)) (et_set t) (et_owner t))
  | Looping => match phase (et_loop t) with
               | Returned => Some (mkThread Left (et_loop t) (et_set t) (et_owner t))
               | _ => None
               end
  | Left => Some (mkThread Over (et_loop t) false (et_owner t))
  | _ => None
  end.

(** The destructor, part by part; [None]: it waits, or uses a loop that is gone. *)
Definition destroy_thread (t : EventLoopThread) : option EventLoopThread :=
  match et_owner t with
  | Fresh => Some (mkThread (et_func t) (et_loop t) (et_set t) Destroyed)
  | Started => Some (mkThread (et_func t) (et_loop t) (et_set t) (if et_set t then Quitting else Joining))
  | Quitting => match et_func t with
                | Published | Looping | Left => Some (mkThread (et_func t) (quit false (et_loop t)) (et_set t) Joining)
                | _ => None
                end
  | Joining => match et_func t with Over => Some (mkThread (et_func t) (et_loop t) (et_set t) Destroyed) | _ => None end
  | _ => None
  end.

(** A step inside of [loop] or of a thread that queues functors; nobody but the
    destructor quits the loop of an [EventLoopThread]. *)
Definition loop_step (l l' : EventLoop) : Prop := lstep l l' /\ quit_ l' = quit_ l.

Inductive et_step : EventLoopThread -> EventLoopThread -> Prop :=
| es_start t t' : startLoop t = Some t' -> et_step t t'
| es_func t t' : threadFunc t = Some t' -> et_step t t'
| es_destroy t t' : destroy_thread t = Some t' -> et_step t t'
| es_loop t l : et_func t = Looping -> loop_step (et_loop t) l -> et_step t (mkThread (et_func t) l (et_set t) (et_owner t)).

(** ** What is always so *)

Record thread_ok (t : EventLoopThread) : Prop := {
  to_set : et_set t = match et_func t with Published | Looping | Left => true | _ => false end;
  to_fresh : et_owner t = Fresh -> et_func t = Absent;
  to_alive : et_owner t = Awaiting \/ et_owner t = Started \/ et_owner t = Quitting ->
             match et_func t with
             | Absent | Left | Over => False
             | Starting => et_owner t = Awaiting
             | Published => True
             | Looping => quit_ (et_loop t) = false /\ phase (et_loop t) <> Returned
             end;
  to_joining : et_owner t = Joining -> et_func t <> Absent /\ et_func t <> Starting;
  to_looping : et_func t = Looping -> phase (et_loop t) = Returned -> quit_ (et_loop t) = true
}.

Lemma call_functor_phase fs : forall l, phase (foldl (fun l f => queueInLoop true f l) l fs) = phase l.
Proof. induction fs as [|f fs IH]; intros l; [done|]. cbn [foldl]. rewrite IH. unfold queueInLoop. cbn. by destruct (calling_pending_functors_ _). Qed.

Lemma lstep_returns l l' : lstep l l' -> phase l' = Returned -> phase l = Returned \/ quit_ l = true.
Proof.
  intros Hs. destruct Hs as [f l|l|l Hk|l Hp|l Hp|f l Hp|l Hp|l Hp|f rest fs l Hp|l Hp]; cbn; try (intros; congruence); auto.
  - unfold queueInLoop. cbn. destruct (calling_pending_functors_ _); cbn; auto.
  - unfold call_functor. rewrite call_functor_phase. done.
  - unfold next_round. destruct (quit_ l); cbn; auto. done.
Qed.

Lemma loop_step_returns l l' : loop_step l l' -> (phase l = Returned -> quit_ l = true) -> phase l' = Returned -> quit_ l' = true.
Proof. intros [Hs Hq] Hl Hr. rewrite Hq. destruct (lstep_returns l l' Hs Hr); auto. Qed.

Lemma thread_step_ok t t' : et_step t t' -> thread_ok t -> thread_ok t'.
Proof.
  intros Hs [H1 H2 H3 H4 H5]. destruct Hs as [t t' H|t t' H|t t' H|t l Hf Hl].
  - destruct t as [p l b o]; cbn in *. unfold startLoop in H. cbn in H. destruct o; try done.
    + injection H as <-. rewrite (H2 eq_refl) in *. subst b. by split; cbn.
    + destruct b; [|done]. injection H as <-. split; cbn; try done. intros _. specialize (H3 (or_introl eq_refl)). by destruct p.
  - destruct t as [p l b o]; cbn in *. unfold threadFunc in H. cbn in H. destruct p; try done.
    + injection H as <-. split; cbn; try done. intros ->. by specialize (H2 eq_refl).
    + injection H as <-. split; cbn; try done. intros ->. by specialize (H2 eq_refl).
    + destruct (phase l) eqn:Hp; try done. injection H as <-. split; cbn; try done; [intros ->; by specialize (H2 eq_refl)|].
      intros Ho. by destruct (H3 Ho).
    + injection H as <-. split; cbn; try done. intros ->. by specialize (H2 eq_refl).
  - destruct t as [p l b o]; cbn in *. unfold destroy_thread in H. cbn in H. destruct o; try done.
    + injection H as <-. split; cbn; try done. intros [|[|]]; done.
    + injection H as <-. specialize (H3 (or_intror (or_introl eq_refl))). destruct p; try done; subst b; split; cbn; try done; by intros _.
    + destruct p; try done; injection H as <-; split; cbn; try done; by intros [|[|]].
    + destruct p; try done. injection H as <-. split; cbn; try done. by intros [|[|]].
  - cbn in *. rewrite Hf in *. split; cbn; rewrite ?Hf; try done.
    + intros Ho. destruct (H3 Ho) as [Hq Hp]. split; [by rewrite (proj2 Hl)|]. intros Hr.
      pose proof (loop_step_returns _ _ Hl (H5 eq_refl) Hr). destruct Hl as [_ Hl]. congruence.
    + intros _ Hr. by apply (loop_step_returns _ _ Hl (H5 eq_refl)).
Qed.

Inductive thread_reachable : EventLoopThread -> Prop :=
| er_new : thread_reachable EventLoopThread_new
| er_step t t' : thread_reachable t -> et_step t t' -> thread_reachable t'.

Lemma thread_always_ok t : thread_reachable t -> thread_ok t.
Proof.
  induction 1 as [|t t' _ IH Hs]; [|by eapply thread_step_ok]. split; cbn; try done. intros [|[|]]; done.
Qed.

(** ** A quit that is seen ends the loop *)

Lemma calls_end fs : forall l, phase l = Calling fs -> quit_ l = true ->
  exists l', nsteps loop_step (length fs + 1) l l' /\ phase l' = Returned.
Proof.
  induction fs as [|f fs IH]; intros l Hp Hq.
  - exists (next_round l). split; [|unfold next_round; by rewrite Hq]. eapply nsteps_l; [|constructor]. split; [by apply ls_round|done].
  - destruct (IH (call_functor f fs [] l) eq_refl Hq) as (l'&Hn&Hr). exists l'. split; [|done].
    eapply nsteps_l; [|exact Hn]. split; [by apply ls_call|done].
Qed.

Lemma quit_loop_ends l : quit_ l = true ->
  exists n l', nsteps loop_step n l l' /\ phase l' = Returned /\ (n <= length (taken_functors l) + length (pending_functors_ l) + 3)%nat.
Proof.
  intros Hq. assert (forall l, quit_ l = true -> phase l = Handling ->
    exists l', nsteps loop_step (length (pending_functors_ l) + 2) l l' /\ phase l' = Returned) as Hh.
  { clear. intros l Hq Hp. destruct (calls_end (pending_functors_ l) (swap_functors l) eq_refl Hq) as (l'&Hn&Hr). exists l'. split; [|done].
    replace (length (pending_functors_ l) + 2)%nat with (S (length (pending_functors_ l) + 1)) by lia.
    eapply nsteps_l; [|exact Hn]. split; [by apply ls_swap|done]. }
  unfold taken_functors. destruct (phase l) as [| |fs|] eqn:Hp.
  - destruct (Hh (set_phase Handling l) Hq eq_refl) as (l'&Hn&Hr). exists (S (length (pending_functors_ l) + 2)), l'. split_and!; [|done|cbn; lia].
    eapply nsteps_l; [|exact Hn]. split; [by apply ls_polled|done].
  - destruct (Hh l Hq Hp) as (l'&Hn&Hr). exists (length (pending_functors_ l) + 2)%nat, l'. split_and!; [done..|lia].
  - destruct (calls_end fs l Hp Hq) as (l'&Hn&Hr). exists (length fs + 1)%nat, l'. split_and!; [done..|lia].
  - exists 0%nat, l. split_and!; [constructor|done|lia].
Qed.

Lemma loop_runs n : forall t l', et_func t = Looping -> nsteps loop_step n (et_loop t) l' ->
  nsteps et_step n t (mkThread Looping l' (et_set t) (et_owner t)).
Proof.
  induction n as [|n IH]; intros [p l b o] l' Hf H; cbn in *; subst p; inversion H; subst; [constructor|].
  eapply nsteps_l; [by apply es_loop|]. by apply (IH (mkThread Looping _ b o)).
Qed.

(** Whether the loop has seen, or will see, the [quit] of the destructor. *)
Definition quit_in_time (t : EventLoopThread) : bool :=
  match et_func t with Looping => quit_ (et_loop t) | Left | Over => true | _ => false end.

Definition hanging (t : EventLoopThread) : Prop :=
  et_owner t = Joining /\ (et_func t = Published \/ et_func t = Looping /\ quit_ (et_loop t) = false /\ phase (et_loop t) <> Returned).

Lemma hanging_step t t' : et_step t t' -> hanging t -> hanging t'.
Proof.
  intros Hs [Ho Hh]. destruct Hs as [t t' H|t t' H|t t' H|t l Hf [Hl Hq]].
  - unfold startLoop in H. by rewrite Ho in H.
  - unfold threadFunc in H. destruct Hh as [Hf|(Hf&_&Hp)]; rewrite Hf in H.
    + injection H as <-. by split; [|right].
    + by destruct (phase (et_loop t)).
  - unfold destroy_thread in H. rewrite Ho in H. by destruct Hh as [Hf|(Hf&_)]; rewrite Hf in H.
  - destruct Hh as [|(_&H1&H2)]; [congruence|]. split; [done|]. right. cbn. split_and!; [done|congruence|]. intros Hr.
    destruct (lstep_returns _ _ Hl Hr); congruence.
Qed.

(** The destructor of an [EventLoopThread] never touches a loop that is gone.
    Once it waits, the thread ends exactly if the loop sees the [quit]: then
    after the functors at hand and a few steps; but when [quit] comes before
    [loop.loop()] has begun, [loop] clears [quit_], and the destructor waits for
    ever. *)
Theorem loop_thread_destruction (t : EventLoopThread) :
  thread_reachable t ->
  (et_owner t = Quitting -> is_Some (destroy_thread t)) /\
  (et_owner t = Joining ->
     if quit_in_time t
     then exists n t', nsteps et_step n t t' /\ et_owner t' = Destroyed /\
            (n <= length (taken_functors (et_loop t)) + length (pending_functors_ (et_loop t)) + 6)%nat
     else forall t', rtc et_step t t' -> et_owner t' = Joining).
Proof.
  intros [H1 H2 H3 H4 H5]%thread_always_ok. split.
  { intros Ho. unfold destroy_thread. rewrite Ho in *. specialize (H3 (or_intror (or_intror eq_refl))). destruct (et_func t); done. }
  intros Ho. assert (forall l b, exists t', nsteps et_step 1 (mkThread Over l b Joining) t' /\ et_owner t' = Destroyed) as Hover.
  { intros l b. eexists. split; [eapply nsteps_l; [by apply es_destroy|constructor]|done]. }
  assert (forall l b, exists t', nsteps et_step 2 (mkThread Left l b Joining) t' /\ et_owner t' = Destroyed) as Hleft.
  { intros l b. destruct (Hover l false) as (t'&Hn&Hd). exists t'. split; [|done]. eapply nsteps_l; [by apply es_func|done]. }
  destruct t as [p l b o]; cbn in Ho; subst o. destruct (H4 eq_refl) as [Hn1 Hn2]. unfold quit_in_time. cbn in *. destruct p; try done.
  - intros t' Ht. assert (hanging (mkThread Published l b Joining)) as Hh by (by split; [|left]).
    revert Hh. induction Ht as [|t1 t2 t3 Hs _ IH]; intros Hh; [by destruct Hh|]. apply IH. by eapply hanging_step.
  - destruct (quit_ l) eqn:Hq.
    + destruct (quit_loop_ends l Hq) as (n&l'&Hn&Hr&Hle). destruct (Hleft l' b) as (t'&Ht&Hd). exists (n + 3)%nat, t'. split_and!; [|done|lia].
      eapply nsteps_trans; [by apply (loop_runs n (mkThread Looping l b Joining))|]. eapply nsteps_l; [|exact Ht]. apply es_func. cbn. by rewrite Hr.
    + intros t' Ht. assert (hanging (mkThread Looping l b Joining)) as Hh.
      { split; [done|]. right. split_and!; [done..|]. cbn. intros Hr. specialize (H5 eq_refl Hr). congruence. }
      revert Hh. induction Ht as [|t1 t2 t3 Hs _ IH]; intros Hh; [by destruct Hh|]. apply IH. by eapply hanging_step.
  - destruct (Hleft l b) as (t'&Hn&Hd). exists 2%nat, t'. split_and!; [done..|lia].
  - destruct (Hover l b) as (t'&Hn&Hd). exists 1%nat, t'. split_and!; [done..|lia].
Qed.

Lemma er_via (f : EventLoopThread -> option EventLoopThread) t t' :
  (forall a b, f a = Some b -> et_step a b) -> thread_reachable t -> f t = Some t' -> thread_reachable t'.
Proof. intros Hf Ht E. eapply er_step; [exact Ht|by apply Hf]. Qed.

(** A thread that is destroyed right after it has been started. *)
Definition hasty : option EventLoopThread :=
  t ← startLoop EventLoopThread_new; t ← threadFunc t; t ← startLoop t; t ← destroy_thread t; destroy_thread t.

Lemma loop_thread_destruction_witness :
  exists t, hasty = Some t /\ thread_reachable t /\ forall t', rtc et_step t t' -> et_owner t' = Joining.
Proof.
  pose proof (er_via startLoop _ _ es_start er_new eq_refl) as R1. pose proof (er_via threadFunc _ _ es_func R1 eq_refl) as R2.
  pose proof (er_via startLoop _ _ es_start R2 eq_refl) as R3. pose proof (er_via destroy_thread _ _ es_destroy R3 eq_refl) as R4.
  pose proof (er_via destroy_thread _ _ es_destroy R4 eq_refl) as R5.
  eexists. split; [reflexivity|]. split; [exact R5|]. exact (proj2 (loop_thread_destruction _ R5) eq_refl).
Defined.

(** ** The signal watcher, and the gateway's main loop *)

(** Where the watcher's thread is: at the test of [stop_], at the test of
    [requested], in the sleep, or at its end. *)
Inductive watch_phase := AtStop | AtRequested | Asleep | Ended.

(** [g_shutdown_requested], with [stop_], the thread, and the callbacks made. *)
Record ShutdownSignalWatcher := mkWatcher { sw_requested : bool; sw_stop : bool; sw_thread : watch_phase; sw_calls : nat }.

(** The constructor; a signal that an earlier watcher saw is still requested. *)
Definition ShutdownSignalWatcher_new (requested : bool) : ShutdownSignalWatcher := mkWatcher requested false AtStop 0.

Definition handleSignal (w : ShutdownSignalWatcher) : ShutdownSignalWatcher := mkWatcher true (sw_stop w) (sw_thread w) (sw_calls w).

(** One part of the thread, and whether it made the callback. *)
Definition watch (w : ShutdownSignalWatcher) : bool * ShutdownSignalWatcher :=
  match sw_thread w with
  | AtStop => (false, mkWatcher (sw_requested w) (sw_stop w) (if sw_stop w then Ended else AtRequested) (sw_calls w))
  | AtRequested => if sw_requested w then (true, mkWatcher (sw_requested w) (sw_stop w) Ended (S (sw_calls w)))
                   else (false, mkWatcher (sw_requested w) (sw_stop w) Asleep (sw_calls w))
  | Asleep => (false, mkWatcher (sw_requested w) (sw_stop w) AtStop (sw_calls w))
  | Ended => (false, w)
  end.

(** The destructor up to its join. *)
Definition stop_watching (w : ShutdownSignalWatcher) : ShutdownSignalWatcher := mkWatcher (sw_requested w) true (sw_thread w) (sw_calls w).

(** [main] of the gateway once its servers run: before [loop.loop()], inside of it,
    or past it.  The callback shuts the RPC server down and quits the loop. *)
Inductive main_phase := BeforeLoop | InLoop | AfterLoop.
#[export] Instance main_phase_eq_dec : EqDecision main_phase.
Proof. solve_decision. Defined.
Record GatewayMain := mkMain { gm_phase : main_phase; gm_loop : EventLoop; gm_watcher : ShutdownSignalWatcher; gm_rpc_up : bool }.

Definition GatewayMain_new : GatewayMain := mkMain BeforeLoop EventLoop_new (ShutdownSignalWatcher_new false) true.

Definition main_go (m : GatewayMain) : option GatewayMain :=
  match gm_phase m with
  | BeforeLoop => Some (mkMain InLoop (loop_begin (gm_loop m)) (gm_watcher m) (gm_rpc_up m))
  | InLoop => match phase (gm_loop m) with
              | Returned => Some (mkMain AfterLoop (gm_loop m) (gm_watcher m) false)
              | _ => None
              end
  | AfterLoop => None
  end.

Definition main_watch (m : GatewayMain) : GatewayMain :=
  let '(called, w) := watch (gm_watcher m) in
  if (called : bool) then mkMain (gm_phase m) (quit false (gm_loop m)) w false else mkMain (gm_phase m) (gm_loop m) w (gm_rpc_up m).

Inductive mstep : GatewayMain -> GatewayMain -> Prop :=
| ms_go m m' : main_go m = Some m' -> mstep m m'
| ms_signal m : mstep m (mkMain (gm_phase m) (gm_loop m) (handleSignal (gm_watcher m)) (gm_rpc_up m))
| ms_watch m : mstep m (main_watch m)
| ms_loop m l : gm_phase m = InLoop -> loop_step (gm_loop m) l -> mstep m (mkMain (gm_phase m) l (gm_watcher m) (gm_rpc_up m)).

Inductive main_reachable : GatewayMain -> Prop :=
| mr_new : main_reachable GatewayMain_new
| mr_step m m' : main_reachable m -> mstep m m' -> main_reachable m'.

(** ** What a signal does *)

Record main_ok (m : GatewayMain) : Prop := {
  mk_calls : sw_calls (gm_watcher m) = match sw_thread (gm_watcher m) with Ended => 1%nat | _ => 0%nat end;
  mk_stop : sw_stop (gm_watcher m) = false;
  mk_rpc : sw_calls (gm_watcher m) = 1%nat -> gm_rpc_up m = false;
  mk_called : sw_calls (gm_watcher m) = 1%nat -> sw_requested (gm_watcher m) = true;
  mk_quit : gm_phase m = InLoop -> quit_ (gm_loop m) = true -> sw_calls (gm_watcher m) = 1%nat;
  mk_rest : gm_phase m = InLoop -> phase (gm_loop m) = Returned -> quit_ (gm_loop m) = true
}.

Lemma main_step_ok m m' : mstep m m' -> main_ok m -> main_ok m'.
Proof.
  intros Hs [H1 H2 Hu H3 H4 H5]. destruct Hs as [m m' H|m|m|m l Hp Hl].
  - unfold main_go in H. destruct (gm_phase m) eqn:Hp; [|destruct (phase (gm_loop m))|]; try done; injection H as <-; by split; cbn.
  - by split; cbn.
  - destruct m as [p l [rq st th n] up]; cbn in *. subst st. unfold main_watch, watch. cbn.
    destruct th; cbn; try (by split; cbn). destruct rq; split; cbn; try done; subst n; try done; intros; lia.
  - cbn in *. specialize (H4 Hp). specialize (H5 Hp). split; cbn; try done; [by intros _; rewrite (proj2 Hl)|].
    intros _. by apply (loop_step_returns _ _ Hl).
Qed.

Lemma main_always_ok m : main_reachable m -> main_ok m.
Proof. induction 1 as [|m m' _ IH Hs]; [by split|by eapply main_step_ok]. Qed.

(** The signal has been used up, and the loop does not know of it. *)
Definition deaf (m : GatewayMain) : Prop :=
  sw_thread (gm_watcher m) = Ended /\
  (gm_phase m = BeforeLoop \/ gm_phase m = InLoop /\ quit_ (gm_loop m) = false /\ phase (gm_loop m) <> Returned).

Lemma deaf_step m m' : mstep m m' -> deaf m -> deaf m'.
Proof.
  intros Hs [He Hd]. destruct Hs as [m m' H|m|m|m l Hp [Hl Hq]].
  - unfold main_go in H. destruct Hd as [Hp|(Hp&_&Hr)]; rewrite Hp in H.
    + injection H as <-. split; [done|]. by right.
    + by destruct (phase (gm_loop m)).
  - done.
  - unfold main_watch, watch. rewrite He. by split.
  - destruct Hd as [|(_&H1&H2)]; [congruence|]. split; [done|]. right. cbn. split_and!; [done|congruence|]. intros Hr.
    destruct (lstep_returns _ _ Hl Hr); congruence.
Qed.

Lemma main_loop_runs n : forall m l', gm_phase m = InLoop -> nsteps loop_step n (gm_loop m) l' ->
  nsteps mstep n m (mkMain InLoop l' (gm_watcher m) (gm_rpc_up m)).
Proof.
  induction n as [|n IH]; intros [p l w u] l' Hp H; cbn in *; subst p; inversion H; subst; [constructor|].
  eapply nsteps_l; [by apply ms_loop|]. by apply (IH (mkMain InLoop _ w u)).
Qed.

Lemma callback_comes m : main_ok m -> sw_requested (gm_watcher m) = true ->
  exists n m', nsteps mstep n m m' /\ (n <= 3)%nat /\ sw_calls (gm_watcher m') = 1%nat.
Proof.
  intros [H1 H2 _ _ _ _] Hr. assert (forall k m, sw_calls (gm_watcher (Nat.iter k main_watch m)) = 1%nat ->
    exists m', nsteps mstep k m m' /\ sw_calls (gm_watcher m') = 1%nat) as Hk.
  { clear. intros k. induction k as [|k IH]; intros m Hc; [by exists m; split; [constructor|]|]. rewrite Nat.iter_succ_r in Hc.
    destruct (IH _ Hc) as (m'&Hn&Hm). exists m'. split; [|done]. eapply nsteps_l; [apply ms_watch|done]. }
  set (k := match sw_thread (gm_watcher m) with Ended => 0%nat | AtRequested => 1%nat | AtStop => 2%nat | Asleep => 3%nat end).
  destruct (Hk k m) as (m'&Hn&Hm); [|exists k, m'; split_and!; [done|unfold k; by destruct (sw_thread _); lia|done]].
  destruct m as [p l [rq st th c] u]; cbn in *. subst rq st c k. by destruct th.
Qed.

(** A signal ends the gateway exactly if its callback finds the loop running:
    the callback is made once at most, only after a signal, and soon after it;
    made inside of [loop], it ends the loop after the functors at hand; made
    before, it is lost, since [loop] clears [quit_]: the RPC server is down, but
    the process never gets past its loop, and no further signal is noticed. *)
Theorem signal_ends_gateway_or_is_lost (m : GatewayMain) :
  main_reachable m ->
  (sw_calls (gm_watcher m) <= 1)%nat /\ (sw_calls (gm_watcher m) = 1%nat -> sw_requested (gm_watcher m) = true) /\
  (sw_requested (gm_watcher m) = true -> exists n m', nsteps mstep n m m' /\ (n <= 3)%nat /\ sw_calls (gm_watcher m') = 1%nat) /\
  (sw_calls (gm_watcher m) = 1%nat -> gm_phase m <> AfterLoop ->
     if bool_decide (gm_phase m = InLoop) && quit_ (gm_loop m)
     then exists n m', nsteps mstep n m m' /\ gm_phase m' = AfterLoop /\
            (n <= length (taken_functors (gm_loop m)) + length (pending_functors_ (gm_loop m)) + 4)%nat
     else gm_rpc_up m = false /\ forall m', rtc mstep m m' -> gm_phase m' <> AfterLoop).
Proof.
  intros Hm%main_always_ok. pose proof (callback_comes m Hm) as Hcall. destruct Hm as [H1 H2 Hu H3 H4 H5]. split_and!; try done.
  { rewrite H1. destruct (sw_thread _); lia. }
  intros Hc Hp. destruct (bool_decide (gm_phase m = InLoop) && quit_ (gm_loop m)) eqn:E.
  - apply andb_prop in E as [Hi%bool_decide_eq_true Hq]. destruct (quit_loop_ends _ Hq) as (n&l'&Hn&Hr&Hle).
    eexists (n + 1)%nat, (mkMain AfterLoop l' (gm_watcher m) false). split_and!; [|done|lia].
    eapply nsteps_trans; [by apply (main_loop_runs n m l')|]. eapply nsteps_l; [|constructor]. apply ms_go. unfold main_go. cbn. by rewrite Hr.
  - split; [auto|]. assert (deaf m) as Hd.
    { split; [rewrite H1 in Hc; by destruct (sw_thread _)|]. destruct (gm_phase m); [by left| |done]. right.
      rewrite bool_decide_eq_true_2 in E by done. cbn in E. split_and!; [done..|]. intros Hr. specialize (H5 eq_refl Hr). congruence. }
    intros m' Hs. assert (deaf m') as [_ [->|[-> _]]]; [|done..]. clear -Hd Hs. induction Hs as [|m1 m2 m3 Hs _ IH]; [done|].
    apply IH. by eapply deaf_step.
Qed.

(** The destructor of the watcher returns: the thread ends within three parts. *)
Lemma watcher_joins w : sw_thread (Nat.iter 3 (fun w => (watch w).2) (stop_watching w)) = Ended.
Proof. destruct w as [[] st [] n]; reflexivity. Qed.

(** A signal that arrives while the gateway is on its way to its loop. *)
Definition early_signal : GatewayMain :=
  main_watch (main_watch (mkMain BeforeLoop EventLoop_new (handleSignal (ShutdownSignalWatcher_new false)) true)).

Lemma signal_ends_gateway_or_is_lost_witness :
  main_reachable early_signal /\ gm_rpc_up early_signal = false /\ forall m', rtc mstep early_signal m' -> gm_phase m' <> AfterLoop.
Proof.
  assert (main_reachable early_signal) as Hr.
  { eapply mr_step; [|apply ms_watch]. eapply mr_step; [|apply ms_watch]. exact (mr_step _ _ mr_new (ms_signal GatewayMain_new)). }
  destruct (signal_ends_gateway_or_is_lost early_signal Hr) as (_&_&_&H). split; [exact Hr|]. by apply H.
Defined.
