(* ===== verification/Spans.v ===== *)
(** * Spans: trace identifiers and the thread's context

    common/trace/TraceId.cpp, TraceContext.cpp and the data of TraceSpan.h.
    The clock, the random engines and the counters of the process are the
    answers [te_*] of the environment. *)

From S2P Require Import Prelude Words Text Rpc.
Local Open Scope Z_scope.

(** ** TraceId *)

(** An unsigned number on a stream with [std::hex], [setfill('0')] and
    [setw(width)], for numbers below [16 ^ width]. *)
Definition hex_char (n : Z) : ascii := ascii_of_N (Z.to_N (if n <? 10 then 48 + n else 87 + n)).

Fixpoint put_hex (width : nat) (x : Z) (rest : string) : string :=
  match width with
  | O => rest
  | S w => put_hex w (Z.shiftr x 4) (String (hex_char (Z.land x 15)) rest)
  end.

Definition generate (now rnd seq : Z) : string :=
  put_hex 16 (u64 now) (put_hex 16 (Z.lxor (u64 rnd) (u64 seq)) EmptyString).

Definition generateSpanId (rnd seq : Z) : string := put_hex 16 (Z.lxor (u64 rnd) (u64 seq)) EmptyString.

Definition span_char (c : ascii) : bool :=
  let n := N_of_ascii c in
  ((48 <=? n) && (n <=? 57))%N || ((97 <=? n) && (n <=? 102))%N || ((65 <=? n) && (n <=? 70))%N.

Definition isValidSpanId (span_id : string) : bool :=
  if negb (Nat.eqb (String.length span_id) 16) then false else string_all span_char span_id.

(** ** Completed spans *)

Inductive TraceSpanKind := INTERNAL | SERVER | CLIENT | PRODUCER | CONSUMER.

(** [sp_attributes] is the [std::map]: sorted by key, one entry per key. *)
Record CompletedSpan := mkSpan {
  sp_trace_id : string; sp_span_id : string; sp_parent_span_id : string; sp_name : string;
  sp_kind : TraceSpanKind; sp_start : Z; sp_end : Z;
  sp_attributes : list (string * string); sp_status_code : string; sp_status_message : string
}.

Definition CompletedSpan_default : CompletedSpan :=
  mkSpan EmptyString EmptyString EmptyString EmptyString INTERNAL 0 0 [] "STATUS_CODE_OK" EmptyString.

(** [m[key] = value] on a [std::map] with string keys. *)
Fixpoint map_assign (key value : string) (m : list (string * string)) : list (string * string) :=
  match m with
  | [] => [(key, value)]
  | (k, v) :: m' =>
      match String.compare key k with
      | Lt => (key, value) :: m
      | Eq => (key, value) :: m'
      | Gt => (k, v) :: map_assign key value m'
      end
  end.

(** ** TraceContext: the thread-local identifiers *)

Record TraceContext := mkTls { tls_trace_id : string; tls_span_id : string }.

Definition setTraceId (trace_id : string) (c : TraceContext) : TraceContext := mkTls trace_id (tls_span_id c).
Definition setSpanId (span_id : string) (c : TraceContext) : TraceContext := mkTls (tls_trace_id c) span_id.
Definition clear_context (c : TraceContext) : TraceContext := mkTls EmptyString EmptyString.

(** [Scope]: the constructor gives the id it saves; the destructor puts it back. *)
Definition Scope_begin (trace_id : string) (c : TraceContext) : string * TraceContext :=
  (tls_trace_id c, setTraceId trace_id c).
Definition Scope_end (previous : string) (c : TraceContext) : TraceContext := setTraceId previous c.

(** [ensureTraceId]; [generated] is what [TraceId::generate] answers. *)
Definition ensure (generated candidate : string) (c : TraceContext) : string * TraceContext :=
  let id := ensureTraceId generated candidate (tls_trace_id c) in (id, setTraceId id c).

(** [Scope trace(ensureTraceId(candidate))], [body], and the end of the block. *)
Definition traced (generated candidate : string) (body : TraceContext -> TraceContext) (c : TraceContext) : TraceContext :=
  let '(id, c) := ensure generated candidate c in
  let '(previous, c) := Scope_begin id c in
  Scope_end previous (body c).

(** ** Identifiers are well formed *)

Lemma land_15 x : 0 <= Z.land x 15 < 16.
Proof. change 15 with (Z.ones 4). rewrite Z.land_ones by lia. apply Z.mod_pos_bound. lia. Qed.

Lemma hex_char_all (P : ascii -> bool) n :
  string_all P "0123456789abcdef" = true -> 0 <= n < 16 -> P (hex_char n) = true.
Proof.
  cbn [string_all]. intros H Hn. bools. rewrite <- (Z2Nat.id n) by lia. assert (Z.to_nat n < 16)%nat as Hk by lia. clear Hn.
  generalize dependent (Z.to_nat n). intros k Hk. do 16 (destruct k as [|k]; [done|]). lia.
Qed.

Lemma put_hex_all (P : ascii -> bool) w x s :
  (forall n, 0 <= n < 16 -> P (hex_char n) = true) -> string_all P (put_hex w x s) = string_all P s.
Proof.
  intros HP. revert x s. induction w as [|w IH]; intros x s; [done|]. cbn [put_hex]. rewrite IH. cbn [string_all].
  by rewrite HP by apply land_15.
Qed.

Lemma put_hex_length w x s : String.length (put_hex w x s) = (w + String.length s)%nat.
Proof. revert x s. induction w as [|w IH]; intros x s; [done|]. cbn [put_hex]. rewrite IH. cbn [String.length]. lia. Qed.

Lemma generate_valid now rnd seq : isValid (generate now rnd seq) = true.
Proof.
  unfold isValid, generate. rewrite !put_hex_length. cbn [String.length]. simpl Z.of_nat. cbn [Z.ltb Z.compare orb].
  rewrite !put_hex_all by (intros n; by apply hex_char_all). done.
Qed.

Lemma generateSpanId_valid rnd seq : isValidSpanId (generateSpanId rnd seq) = true.
Proof.
  unfold isValidSpanId, generateSpanId. rewrite put_hex_length.
  rewrite put_hex_all by (intros n; by apply hex_char_all). done.
Qed.

(** The digits are the number. *)
Lemma put_hex_inj w x y s : 0 <= x < 16 ^ Z.of_nat w -> 0 <= y < 16 ^ Z.of_nat w ->
  put_hex w x s = put_hex w y s -> x = y.
Proof.
  assert (forall w x y s t, String.length s = String.length t -> 0 <= x < 16 ^ Z.of_nat w -> 0 <= y < 16 ^ Z.of_nat w ->
    put_hex w x s = put_hex w y t -> x = y /\ s = t) as H; [|intros Hx Hy E; by destruct (H w x y s s)].
  clear. induction w as [|w IH]; intros x y s t Hl Hx Hy E; [cbn in *; split; [lia|done]|].
  rewrite Nat2Z.inj_succ, Z.pow_succ_r in Hx, Hy by lia. cbn [put_hex] in E.
  assert (forall z, z = 16 * Z.shiftr z 4 + Z.land z 15) as Hsplit.
  { intros z. rewrite Z.shiftr_div_pow2 by lia. change 15 with (Z.ones 4). rewrite Z.land_ones by lia. apply Z.div_mod. lia. }
  pose proof (Hsplit x) as Sx. pose proof (Hsplit y) as Sy. pose proof (land_15 x) as Lx. pose proof (land_15 y) as Ly.
  apply IH in E as [E1 E2]; [|cbn [String.length]; lia|lia..]. injection E2 as E2 ->. split; [|done].
  assert (Z.land x 15 = Z.land y 15); [|lia].
  unfold hex_char in E2. apply (f_equal N_of_ascii) in E2. rewrite !N_ascii_embedding in E2; split_ifs; lia.
Qed.

Lemma log2_u64 a : Z.log2 (u64 a) < 64.
Proof.
  pose proof (Z.mod_pos_bound a 18446744073709551616). unfold u64. destruct (Z.eq_dec (a mod 18446744073709551616) 0) as [->|]; [done|].
  apply Z.log2_lt_pow2; [lia|]. change (2 ^ 64) with 18446744073709551616. lia.
Qed.

(** Ids of one instant differ when the engine's numbers, as mixed with the
    counter, differ. *)
Lemma generateSpanId_inj r s r' s' :
  generateSpanId r s = generateSpanId r' s' -> Z.lxor (u64 r) (u64 s) = Z.lxor (u64 r') (u64 s').
Proof.
  assert (forall a b, 0 <= Z.lxor (u64 a) (u64 b) < 16 ^ Z.of_nat 16) as Hr.
  { intros a b. change (16 ^ Z.of_nat 16) with (2 ^ 64).
    assert (0 <= Z.lxor (u64 a) (u64 b)) by (apply Z.lxor_nonneg; split; intros _; apply Z.mod_pos_bound; lia). split; [done|].
    destruct (Z.eq_dec (Z.lxor (u64 a) (u64 b)) 0) as [->|]; [done|].
    apply Z.log2_lt_cancel. rewrite Z.log2_pow2 by lia.
    eapply Z.le_lt_trans; [apply Z.log2_lxor; apply Z.mod_pos_bound; lia|]. apply Z.max_lub_lt; apply log2_u64. }
  intros E. by eapply put_hex_inj.
Qed.

(** ** The scope of a trace id *)

(** A scope given an id of its own leaves the thread's id as it found it. *)
Lemma scope_restores id body c :
  let '(previous, c1) := Scope_begin id c in tls_trace_id (Scope_end previous (body c1)) = tls_trace_id c.
Proof. done. Qed.

(** But the handlers pass the result of [ensureTraceId], which has changed the
    thread's id by then: the id of a request outlives it, and the next request
    without an id of its own on the thread is recorded under it. *)
Theorem trace_id_outlives_request (generated generated' first other : string) (body body' : TraceContext -> TraceContext) (c : TraceContext) :
  isValid first = true -> isValid other = false ->
  tls_trace_id (traced generated first body c) = first /\
  (ensure generated' other (traced generated first body c)).1 = first /\
  tls_trace_id (traced generated' other body' (traced generated first body c)) = first.
Proof.
  intros Hf Ho. assert (first <> EmptyString) as Hne by (intros ->; done).
  unfold traced, ensure, Scope_begin, Scope_end, ensureTraceId. cbn. rewrite Hf. cbn. rewrite Ho.
  by rewrite bool_decide_eq_false_2.
Qed.
