(* ===== verification/Otlp.v ===== *)
(** * Export of spans

    common/trace/OtlpTraceExporter.cpp: the body of a request in JSON, the
    endpoint, and the call over a socket.  The name service, the sockets and
    the collector are a parameter: what each call of one export answers. *)

From S2P Require Import Prelude Words Text Spans Config.
Local Open Scope Z_scope.

(** ** JSON text *)

Definition dquote : ascii := ascii_of_N 34.
Definition backslash : ascii := ascii_of_N 92.

(** A literal of the source, with apostrophes in place of its quotes. *)
Definition lit (s : string) : string := string_map (fun c => if Ascii.eqb c "'" then dquote else c) s.

Definition escape_char (c : ascii) (out : string) : string :=
  if Ascii.eqb c backslash then String backslash (String backslash out)
  else if Ascii.eqb c dquote then String backslash (String dquote out)
  else if Ascii.eqb c (ascii_of_N 10) then String backslash (String "n" out)
  else if Ascii.eqb c (ascii_of_N 13) then String backslash (String "r" out)
  else if Ascii.eqb c (ascii_of_N 9) then String backslash (String "t" out)
  else String c out.

Fixpoint jsonEscape (value : string) : string :=
  match value with
  | EmptyString => EmptyString
  | String c rest => escape_char c (jsonEscape rest)
  end.

Definition spanKindValue (kind : TraceSpanKind) : Z :=
  match kind with INTERNAL => 1 | SERVER => 2 | CLIENT => 3 | PRODUCER => 4 | CONSUMER => 5 end.

(** The loops over attributes and spans, from an index. *)
Fixpoint put_attributes (attr_index : nat) (attributes : list (string * string)) (out : string) : string :=
  match attributes with
  | [] => out
  | (key, value) :: rest =>
      let out := if Nat.ltb 0 attr_index then out +:+ "," else out in
      let out := out +:+ lit "{'key':'" +:+ jsonEscape key +:+ lit "','value':{'stringValue':'" +:+ jsonEscape value +:+ lit "'}}" in
      put_attributes (S attr_index) rest out
  end.

Fixpoint put_spans (i : nat) (spans : list CompletedSpan) (out : string) : string :=
  match spans with
  | [] => out
  | span :: rest =>
      let out := if Nat.ltb 0 i then out +:+ "," else out in
      let out := out +:+ lit "{'traceId':'" +:+ jsonEscape (sp_trace_id span) +:+ lit "','spanId':'" +:+ jsonEscape (sp_span_id span) +:+ lit "'" in
      let out := if bool_decide (sp_parent_span_id span = EmptyString) then out
                 else out +:+ lit ",'parentSpanId':'" +:+ jsonEscape (sp_parent_span_id span) +:+ lit "'" in
      let out := out +:+ lit ",'name':'" +:+ jsonEscape (sp_name span) +:+ lit "','kind':" +:+ to_string (spanKindValue (sp_kind span)) +:+
                 lit ",'startTimeUnixNano':'" +:+ to_string (sp_start span) +:+ lit "','endTimeUnixNano':'" +:+ to_string (sp_end span) +:+ lit "'" in
      let out := out +:+ lit ",'attributes':[" in
      let out := put_attributes 0 (sp_attributes span) out in
      let out := out +:+ lit "],'status':{'code':'" +:+ jsonEscape (sp_status_code span) +:+ lit "'" in
      let out := if bool_decide (sp_status_message span = EmptyString) then out
                 else out +:+ lit ",'message':'" +:+ jsonEscape (sp_status_message span) +:+ lit "'" in
      put_spans (S i) rest (out +:+ "}}")
  end.

Definition buildJson (spans : list CompletedSpan) (service_name : string) : string :=
  let out := lit "{'resourceSpans':[{'resource':{'attributes':[{'key':'service.name','value':{'stringValue':'" +:+
             jsonEscape (if bool_decide (service_name = EmptyString) then "nebulaim" else service_name) +:+
             lit "'}}]},'scopeSpans':[{'scope':{'name':'nebulaim'},'spans':[" in
  put_spans 0 spans out +:+ "]}]}]}]}".

(** ** The endpoint *)

Record EndpointParts := mkParts { ep_host : string; ep_port : Z; ep_path : string }.

(** The text before and after the last [sep]. *)
Fixpoint rcut (sep : ascii) (s : string) : option (string * string) :=
  match s with
  | EmptyString => None
  | String c rest =>
      match rcut sep rest with
      | Some (before, after) => Some (String c before, after)
      | None => if bool_decide (c = sep) then Some (EmptyString, rest) else None
      end
  end.

Fixpoint strip (prefix s : string) : option string :=
  match prefix, s with
  | EmptyString, _ => Some s
  | String a prefix, String b s => if bool_decide (a = b) then strip prefix s else None
  | String _ _, EmptyString => None
  end.

(** The parts, or the error. *)
Definition parseEndpoint (endpoint : string) : EndpointParts + string :=
  match strip "http://" endpoint with
  | None => inr "only http:// OTLP endpoints are supported by the lightweight exporter"%string
  | Some rest =>
      let '(host_port, path) := match cut "/" rest with
                                | None => (rest, "/v1/traces"%string)
                                | Some (before, after) => (before, String "/" after)
                                end in
      let parts := match rcut ":" host_port with
                   | None => Some (mkParts host_port 4318 path)
                   | Some (host, port) => '(n, _) ← stoi port; Some (mkParts host n path)
                   end in
      match parts with
      | None => inr "invalid OTLP endpoint port"%string
      | Some parts =>
          if bool_decide (ep_host parts = EmptyString) || bool_decide (ep_path parts = EmptyString)
          then inr "invalid OTLP endpoint"%string
          else inl parts
      end
  end.

(** ** The call *)

(** What the system answers during one export: the name service, with the
    addresses found; for each address the descriptor of [socket], if any, and
    whether [connect] succeeds; the answers of [send] in turn (the number of
    bytes taken; an interruption; any other answer that is not positive, with
    the text for [errno]); of [select]; and the bytes that [read] gives, if
    any. *)
Inductive send_answer := Sent (n : positive) | SendInterrupted | SendFailed (error : string).

Record OtlpNet := mkNet {
  on_getaddrinfo : string -> string -> list (option (Z * bool)) + string;
  on_send : list send_answer;
  on_select : Z -> Z;
  on_read : option string
}.

(** The loop over the addresses: a descriptor that is connected. *)
Fixpoint connect_first (addresses : list (option (Z * bool))) : option Z :=
  match addresses with
  | [] => None
  | None :: rest => connect_first rest
  | Some (fd, connected) :: rest => if (connected : bool) then Some fd else connect_first rest
  end.

Fixpoint string_drop (n : nat) (s : string) : string :=
  match n, s with O, _ => s | S n, String _ s => string_drop n s | S _, EmptyString => EmptyString end.

(** The loop of [send]: what is left to write, and the error of the call that
    ends it; [None]: it is still at it when the answers end. *)
Fixpoint send_loop (answers : list send_answer) (left : string) : option (string * option string) :=
  match left with
  | EmptyString => Some (EmptyString, None)
  | _ =>
      match answers with
      | [] => None
      | SendInterrupted :: answers => send_loop answers left
      | SendFailed e :: _ => Some (left, Some e)
      | Sent n :: answers => send_loop answers (string_drop (Pos.to_nat n) left)
      end
  end.

(** [std::string text(response)] ends at a NUL; [read] is given 255 bytes. *)
Fixpoint c_string (limit : nat) (s : string) : string :=
  match limit, s with
  | S limit, String c s => if Ascii.eqb c (ascii_of_N 0) then EmptyString else String c (c_string limit s)
  | _, _ => EmptyString
  end.

Fixpoint contains (pattern s : string) : bool :=
  String.prefix pattern s || match s with EmptyString => false | String _ s => contains pattern s end.

(** The request of [exportSpans]. *)
Definition otlp_request (parts : EndpointParts) (body : string) : string :=
  let crlf := String (ascii_of_N 13) (String (ascii_of_N 10) EmptyString) in
  "POST " +:+ ep_path parts +:+ " HTTP/1.1" +:+ crlf +:+
  "Host: " +:+ ep_host parts +:+ ":" +:+ to_string (ep_port parts) +:+ crlf +:+
  "Content-Type: application/json" +:+ crlf +:+
  "Content-Length: " +:+ to_string (Z.of_nat (String.length body)) +:+ crlf +:+
  "Connection: close" +:+ crlf +:+ crlf +:+ body.

(** [exportSpans]: whether it succeeded, else the error; [None]: it does not
    return, or sets a bit outside of the [fd_set], which has room for 1024
    descriptors. *)
Definition exportSpans (net : OtlpNet) (endpoint service_name : string) (timeout_ms : Z) (spans : list CompletedSpan)
    : option (unit + string) :=
  if bool_decide (length spans = 0%nat) then Some (inl tt)
  else
    match parseEndpoint endpoint with
    | inr error => Some (inr error)
    | inl parts =>
        match on_getaddrinfo net (ep_host parts) (to_string (ep_port parts)) with
        | inr error => Some (inr ("getaddrinfo failed: " +:+ error))
        | inl addresses =>
            match connect_first addresses with
            | None => Some (inr "failed to connect OTLP endpoint"%string)
            | Some fd =>
                match send_loop (on_send net) (otlp_request parts (buildJson spans service_name)) with
                | None => None
                | Some (_, Some error) => Some (inr ("failed to write OTLP request: " +:+ error))
                | Some (_, None) =>
                    if 1024 <=? fd then None
                    else if on_select net timeout_ms <=? 0 then Some (inr "timeout waiting for OTLP response"%string)
                    else
                      match on_read net with
                      | None | Some EmptyString => Some (inr "empty OTLP response"%string)
                      | Some response =>
                          let text := c_string 255 response in
                          if contains " 200 " text || contains " 202 " text || contains " 204 " text then Some (inl tt)
                          else Some (inr ("OTLP collector rejected spans: " +:+ text))
                      end
                end
            end
        end
    end.

(** ** What JSON is

    The grammar of RFC 8259, where [raw] says which characters may stand in a
    string without an escape. *)

Definition json_space (s : string) : Prop :=
  string_all (fun c => let n := N_of_ascii c in (n =? 32)%N || (n =? 9)%N || (n =? 10)%N || (n =? 13)%N) s = true.

Definition rfc8259 (c : ascii) : bool := (32 <=? N_of_ascii c)%N.
Definition lenient (c : ascii) : bool := true.

Section Grammar.
Context (raw : ascii -> bool).

Definition plain_char (c : ascii) : bool :=
  raw c && negb (Ascii.eqb c dquote) && negb (Ascii.eqb c backslash).
Definition escape_letter (c : ascii) : bool :=
  Ascii.eqb c dquote || Ascii.eqb c backslash || Ascii.eqb c "/" || Ascii.eqb c "b" || Ascii.eqb c "f" ||
  Ascii.eqb c "n" || Ascii.eqb c "r" || Ascii.eqb c "t".

Inductive string_body : string -> Prop :=
| sb_nil : string_body EmptyString
| sb_char c s : plain_char c = true -> string_body s -> string_body (String c s)
| sb_escape c s : escape_letter c = true -> string_body s -> string_body (String backslash (String c s))
| sb_unicode h s : String.length h = 4%nat -> string_all span_char h = true -> string_body s ->
    string_body (String backslash (String "u" (h +:+ s))).

Definition json_string (t : string) : Prop :=
  exists s, string_body s /\ t = String dquote (s +:+ String dquote EmptyString).

Definition digits (s : string) : Prop := s <> EmptyString /\ string_all is_digit s = true.
Definition json_number (t : string) : Prop :=
  exists sign int frac exp, t = sign +:+ int +:+ frac +:+ exp /\
    (sign = EmptyString \/ sign = "-"%string) /\
    digits int /\ (int = "0"%string \/ String.prefix "0" int = false) /\
    (frac = EmptyString \/ exists d, frac = String "." d /\ digits d) /\
    (exp = EmptyString \/ exists e sg d, exp = String e (sg +:+ d) /\ (e = "e"%char \/ e = "E"%char) /\
      (sg = EmptyString \/ sg = "+"%string \/ sg = "-"%string) /\ digits d).

Inductive json_text : string -> Prop :=
| jt_string t : json_string t -> json_text t
| jt_number t : json_number t -> json_text t
| jt_literal t : t = "true"%string \/ t = "false"%string \/ t = "null"%string -> json_text t
| jt_array_empty w : json_space w -> json_text ("[" +:+ w +:+ "]")
| jt_array t : json_items t -> json_text ("[" +:+ t +:+ "]")
| jt_object_empty w : json_space w -> json_text ("{" +:+ w +:+ "}")
| jt_object t : json_members t -> json_text ("{" +:+ t +:+ "}")
| jt_space w t w' : json_space w -> json_space w' -> json_text t -> json_text (w +:+ t +:+ w')
with json_items : string -> Prop :=
| ji_one t : json_text t -> json_items t
| ji_more t ts : json_text t -> json_items ts -> json_items (t +:+ "," +:+ ts)
with json_members : string -> Prop :=
| jm_one w k w' t : json_space w -> json_string k -> json_space w' -> json_text t -> json_members (w +:+ k +:+ w' +:+ ":" +:+ t)
| jm_more w k w' t ts : json_space w -> json_string k -> json_space w' -> json_text t -> json_members ts ->
    json_members (w +:+ k +:+ w' +:+ ":" +:+ t +:+ "," +:+ ts).

Scheme json_text_mut := Minimality for json_text Sort Prop
  with json_items_mut := Minimality for json_items Sort Prop
  with json_members_mut := Minimality for json_members Sort Prop.

(** ** Brackets outside of strings *)

Inductive mode := Outside | Inside | Escaped.

Definition scan_char (c : ascii) (st : mode * Z) : mode * Z :=
  let '(m, d) := st in
  match m with
  | Escaped => (Inside, d)
  | Inside => if Ascii.eqb c dquote then (Outside, d) else if Ascii.eqb c backslash then (Escaped, d) else (Inside, d)
  | Outside =>
      if Ascii.eqb c dquote then (Inside, d)
      else if Ascii.eqb c "[" || Ascii.eqb c "{" then (Outside, d + 1)
      else if Ascii.eqb c "]" || Ascii.eqb c "}" then (Outside, d - 1)
      else (Outside, d)
  end.

Fixpoint scan (s : string) (st : mode * Z) : mode * Z :=
  match s with EmptyString => st | String c s => scan s (scan_char c st) end.

Lemma scan_app a b st : scan (a +:+ b) st = scan b (scan a st).
Proof. revert st. induction a as [|c a IH]; intros st; [done|]. exact (IH (scan_char c st)). Qed.

(** Characters that are neither quotes nor brackets. *)
Definition quiet (c : ascii) : bool :=
  negb (Ascii.eqb c dquote || Ascii.eqb c "[" || Ascii.eqb c "{" || Ascii.eqb c "]" || Ascii.eqb c "}").

Lemma scan_quiet s d : string_all quiet s = true -> scan s (Outside, d) = (Outside, d).
Proof.
  induction s as [|c s IH]; cbn [string_all scan]; [done|]. intros [Hc Hs]%andb_prop.
  assert (scan_char c (Outside, d) = (Outside, d)) as ->; [|by apply IH].
  unfold quiet in Hc. cbn [scan_char]. destruct (Ascii.eqb c dquote), (Ascii.eqb c "["), (Ascii.eqb c "{"), (Ascii.eqb c "]"), (Ascii.eqb c "}"); done.
Qed.

Lemma string_all_app P a b : string_all P (a +:+ b) = string_all P a && string_all P b.
Proof. induction a as [|c a IH]; [done|]. change (P c && string_all P (a +:+ b) = (P c && string_all P a) && string_all P b). by rewrite IH, andb_assoc. Qed.

Lemma quiet_space w : json_space w -> string_all quiet w = true.
Proof. apply string_all_impl. intros c. destruct c as [[] [] [] [] [] [] [] []]; done. Qed.

Lemma quiet_digits s : digits s -> string_all quiet s = true.
Proof. intros [_ H]. revert H. apply string_all_impl. intros c. destruct c as [[] [] [] [] [] [] [] []]; done. Qed.

Lemma quiet_number t : json_number t -> string_all quiet t = true.
Proof.
  intros (sign&int&frac&exp&->&Hs&Hi&_&Hf&He). rewrite !string_all_app, (quiet_digits int Hi).
  assert (string_all quiet sign = true) as -> by (by destruct Hs as [-> | ->]).
  assert (string_all quiet frac = true) as ->.
  { destruct Hf as [->|(d&->&Hd)]; [done|]. cbn [string_all]. by rewrite (quiet_digits d Hd). }
  destruct He as [->|(e&sg&d&->&He&Hg&Hd)]; [done|]. cbn [string_all]. rewrite string_all_app, (quiet_digits d Hd).
  by destruct He as [-> | ->], Hg as [->|[->| ->]].
Qed.

Lemma scan_inside s d :
  string_all (fun c => negb (Ascii.eqb c dquote || Ascii.eqb c backslash)) s = true -> scan s (Inside, d) = (Inside, d).
Proof.
  induction s as [|c s IH]; cbn [string_all scan]; [done|]. intros [Hc Hs]%andb_prop.
  assert (scan_char c (Inside, d) = (Inside, d)) as ->; [|by apply IH].
  cbn [scan_char]. by destruct (Ascii.eqb c dquote), (Ascii.eqb c backslash).
Qed.

Lemma scan_body s d : string_body s -> scan s (Inside, d) = (Inside, d).
Proof.
  induction 1 as [|c s Hc _ IH|c s Hc _ IH|h s Hl Hh _ IH]; [done| | |].
  - cbn [scan]. unfold plain_char in Hc. bools. cbn [scan_char]. by destruct (Ascii.eqb c dquote), (Ascii.eqb c backslash).
  - exact IH.
  - cbn [scan]. rewrite scan_app. change (scan_char "u" (scan_char backslash (Inside, d))) with (Inside, d).
    rewrite scan_inside; [done|]. revert Hh. apply string_all_impl. intros c. destruct c as [[] [] [] [] [] [] [] []]; done.
Qed.

Lemma scan_string t d : json_string t -> scan t (Outside, d) = (Outside, d).
Proof.
  intros (s&Hs&->). cbn [scan]. change (scan_char dquote (Outside, d)) with (Inside, d).
  by rewrite scan_app, scan_body.
Qed.

Lemma scan_quiet_space w d : json_space w -> scan w (Outside, d) = (Outside, d).
Proof. intros. by apply scan_quiet, quiet_space. Qed.

Lemma scan_brackets t d : (forall d, scan t (Outside, d) = (Outside, d)) ->
  scan ("[" +:+ t +:+ "]") (Outside, d) = (Outside, d) /\ scan ("{" +:+ t +:+ "}") (Outside, d) = (Outside, d).
Proof.
  intros H. rewrite !scan_app. change (scan "[" (Outside, d)) with (Outside, d + 1). change (scan "{" (Outside, d)) with (Outside, d + 1).
  rewrite H. split; cbn; f_equal; lia.
Qed.

(** JSON text closes what it opens. *)
Lemma json_balanced t : json_text t -> forall d, scan t (Outside, d) = (Outside, d).
Proof.
  apply (json_text_mut (fun t => forall d, scan t (Outside, d) = (Outside, d)) (fun t => forall d, scan t (Outside, d) = (Outside, d))
    (fun t => forall d, scan t (Outside, d) = (Outside, d))); intros.
  - by apply scan_string.
  - by apply scan_quiet, quiet_number.
  - destruct_or!; by subst.
  - apply scan_brackets. intros. by apply scan_quiet_space.
  - by apply scan_brackets.
  - apply scan_brackets. intros. by apply scan_quiet_space.
  - by apply scan_brackets.
  - rewrite !scan_app, scan_quiet_space by done. rewrite H2. by apply scan_quiet_space.
  - done.
  - rewrite !scan_app, H0. exact (H2 d).
  - rewrite !scan_app, scan_quiet_space, scan_string, scan_quiet_space by done. exact (H3 d).
  - rewrite !scan_app, scan_quiet_space, scan_string, scan_quiet_space by done. change (scan ":" (Outside, d)) with (Outside, d).
    rewrite H3. exact (H5 d).
Qed.

End Grammar.

(** ** The document *)

Definition jstr (s : string) : string := lit "'" +:+ jsonEscape s +:+ lit "'".
Definition jarr (l : list string) : string := "[" +:+ String.concat "," l +:+ "]".
Definition jmember (m : string * string) : string := jstr m.1 +:+ ":" +:+ m.2.
Definition jobj (l : list (string * string)) : string := "{" +:+ String.concat "," (jmember <$> l) +:+ "}".

Definition attribute_json (a : string * string) : string :=
  jobj [("key"%string, jstr a.1); ("value"%string, jobj [("stringValue"%string, jstr a.2)])].

Definition span_json (s : CompletedSpan) : string :=
  jobj ([("traceId"%string, jstr (sp_trace_id s)); ("spanId"%string, jstr (sp_span_id s))] ++
        (if bool_decide (sp_parent_span_id s = EmptyString) then [] else [("parentSpanId"%string, jstr (sp_parent_span_id s))]) ++
        [("name"%string, jstr (sp_name s)); ("kind"%string, to_string (spanKindValue (sp_kind s)));
         ("startTimeUnixNano"%string, jstr (to_string (sp_start s))); ("endTimeUnixNano"%string, jstr (to_string (sp_end s)));
         ("attributes"%string, jarr (attribute_json <$> sp_attributes s));
         ("status"%string, jobj (("code"%string, jstr (sp_status_code s)) ::
            (if bool_decide (sp_status_message s = EmptyString) then [] else [("message"%string, jstr (sp_status_message s))])))]).

(** What an export of the spans should say. *)
Definition document (spans : list CompletedSpan) (service_name : string) : string :=
  jobj [("resourceSpans"%string, jarr [jobj [
    ("resource"%string, jobj [("attributes"%string, jarr [attribute_json
       ("service.name"%string, if bool_decide (service_name = EmptyString) then "nebulaim"%string else service_name)])]);
    ("scopeSpans"%string, jarr [jobj [
       ("scope"%string, jobj [("name"%string, jstr "nebulaim")]);
       ("spans"%string, jarr (span_json <$> spans))]])]])].

(** *** The code writes the document, and two brackets *)

Lemma string_app_nil_r s : s +:+ EmptyString = s.
Proof. induction s as [|c s IH]; [done|]. exact (f_equal (String c) IH). Qed.

Lemma concat_cons x l : String.concat "," (x :: l) = x +:+ foldr (fun y r => "," +:+ y +:+ r) EmptyString l.
Proof.
  revert x. induction l as [|y l IH]; intros x; [cbn; by rewrite string_app_nil_r|].
  change (x +:+ "," +:+ String.concat "," (y :: l) = x +:+ "," +:+ y +:+ foldr (fun y r => "," +:+ y +:+ r) EmptyString l). by rewrite IH.
Qed.

(** Equations between texts made of literals and unknown parts. *)
Ltac text_eq := unfold jobj, jarr, jmember, jstr; cbn [fmap list_fmap app fst snd String.concat];
  rewrite ?string_app_assoc; reflexivity.

Lemma attribute_text key value :
  lit "{'key':'" +:+ jsonEscape key +:+ lit "','value':{'stringValue':'" +:+ jsonEscape value +:+ lit "'}}" = attribute_json (key, value).
Proof. unfold attribute_json. text_eq. Qed.

Lemma put_attributes_more i l out : put_attributes (S i) l out = out +:+ foldr (fun y r => "," +:+ y +:+ r) EmptyString (attribute_json <$> l).
Proof.
  revert i out. induction l as [|[k v] l IH]; intros i out; [cbn; by rewrite string_app_nil_r|].
  cbn [put_attributes Nat.ltb Nat.leb]. rewrite IH, attribute_text. cbn [fmap list_fmap foldr]. by rewrite !string_app_assoc.
Qed.

Lemma put_attributes_text l out : put_attributes 0 l out = out +:+ String.concat "," (attribute_json <$> l).
Proof.
  destruct l as [|[k v] l]; [cbn; by rewrite string_app_nil_r|]. cbn [put_attributes Nat.ltb Nat.leb fmap list_fmap].
  by rewrite put_attributes_more, attribute_text, concat_cons, string_app_assoc.
Qed.

Lemma jsonEscape_plain s : string_all (plain_char rfc8259) s = true -> jsonEscape s = s.
Proof.
  induction s as [|c s IH]; cbn [string_all jsonEscape]; [done|]. intros [Hc Hs]%andb_prop. rewrite (IH Hs). unfold escape_char.
  destruct c as [[] [] [] [] [] [] [] []]; done.
Qed.

Lemma plain_number x : string_all (plain_char rfc8259) (to_string x) = true.
Proof.
  assert (forall y, 0 <= y -> string_all (plain_char rfc8259) (to_string y) = true) as H.
  { intros y Hy. eapply string_all_impl, (to_string_digits y Hy). intros c. destruct c as [[] [] [] [] [] [] [] []]; done. }
  destruct (decide (0 <= x)) as [?|]; [auto|]. destruct x; [lia..|]. exact (H (Z.pos p) ltac:(lia)).
Qed.

(** One round of the loop over the spans writes one span. *)
Lemma put_spans_cons i s l out :
  put_spans i (s :: l) out = put_spans (S i) l ((if Nat.ltb 0 i then out +:+ "," else out) +:+ span_json s).
Proof.
  cbn [put_spans]. f_equal. rewrite <- (jsonEscape_plain (to_string (sp_start s))), <- (jsonEscape_plain (to_string (sp_end s))) by apply plain_number.
  generalize (if Nat.ltb 0 i then out +:+ "," else out). clear out. intros out.
  rewrite put_attributes_text. unfold span_json. generalize (attribute_json <$> sp_attributes s) as attributes. intros attributes.
  destruct (bool_decide (sp_parent_span_id s = EmptyString)), (bool_decide (sp_status_message s = EmptyString)); text_eq.
Qed.

Lemma put_spans_more i l out : put_spans (S i) l out = out +:+ foldr (fun y r => "," +:+ y +:+ r) EmptyString (span_json <$> l).
Proof.
  revert i out. induction l as [|s l IH]; intros i out; [cbn; by rewrite string_app_nil_r|].
  rewrite put_spans_cons, IH. cbn [fmap list_fmap foldr Nat.ltb Nat.leb]. by rewrite !string_app_assoc.
Qed.

Lemma put_spans_text l out : put_spans 0 l out = out +:+ String.concat "," (span_json <$> l).
Proof.
  destruct l as [|s l]; [cbn; by rewrite string_app_nil_r|].
  rewrite put_spans_cons, put_spans_more. cbn [fmap list_fmap Nat.ltb Nat.leb]. by rewrite concat_cons, string_app_assoc.
Qed.

Lemma buildJson_document spans service_name : buildJson spans service_name = document spans service_name +:+ "]}".
Proof.
  unfold buildJson, document, attribute_json. rewrite put_spans_text.
  generalize (span_json <$> spans) (if bool_decide (service_name = EmptyString) then "nebulaim"%string else service_name). intros l name. text_eq.
Qed.

(** *** The document is JSON *)

(** Text whose characters may stand in a string, or are escaped by the code. *)
Section Clean.
Context (raw : ascii -> bool).

Definition clean_char (c : ascii) : bool :=
  raw c || let n := N_of_ascii c in (n =? 9)%N || (n =? 10)%N || (n =? 13)%N || (n =? 34)%N || (n =? 92)%N.
Definition clean (s : string) : bool := string_all clean_char s.
Definition span_clean (s : CompletedSpan) : bool :=
  clean (sp_trace_id s) && clean (sp_span_id s) && clean (sp_parent_span_id s) && clean (sp_name s) &&
  forallb (fun a => clean a.1 && clean a.2) (sp_attributes s) && clean (sp_status_code s) && clean (sp_status_message s).

Lemma escape_body s : clean s = true -> string_body raw (jsonEscape s).
Proof.
  unfold clean. induction s as [|c s IH]; cbn [string_all jsonEscape]; [constructor|]. intros [Hc Hs]%andb_prop.
  specialize (IH Hs). unfold escape_char. repeat case_match; try (by apply sb_escape). apply sb_char; [|done].
  unfold plain_char. unfold clean_char in Hc. destruct (raw c); [by rewrite H, H0|].
  destruct c as [[] [] [] [] [] [] [] []]; done.
Qed.

Lemma jstr_json_string s : clean s = true -> json_string raw (jstr s).
Proof. intros H. exists (jsonEscape s). split; [by apply escape_body|done]. Qed.

Lemma jstr_json s : clean s = true -> json_text raw (jstr s).
Proof. intros. by apply jt_string, jstr_json_string. Qed.

Lemma json_items_concat x l : json_text raw x -> Forall (json_text raw) l -> json_items raw (String.concat "," (x :: l)).
Proof.
  intros Hx Hl. revert x Hx. induction Hl as [|y l Hy _ IH]; intros x Hx; [by apply ji_one|].
  change (json_items raw (x +:+ "," +:+ String.concat "," (y :: l))). apply ji_more; auto.
Qed.

Lemma jarr_json l : Forall (json_text raw) l -> json_text raw (jarr l).
Proof.
  intros H. destruct H as [|x l Hx Hl]; [by apply (jt_array_empty _ EmptyString)|]. apply jt_array. by apply json_items_concat.
Qed.

Lemma jobj_json l : Forall (fun m => clean m.1 = true /\ json_text raw m.2) l -> json_text raw (jobj l).
Proof.
  intros H. destruct H as [|[k v] l [Hk Hv] Hl]; [by apply (jt_object_empty _ EmptyString)|]. apply jt_object. revert k v Hk Hv.
  induction Hl as [|[k' v'] l [Hk' Hv'] _ IH]; intros k v Hk Hv; cbn [fst snd] in *.
  - by apply (jm_one _ EmptyString (jstr k) EmptyString v); [|apply jstr_json_string|..].
  - change (json_members raw ((jstr k +:+ ":" +:+ v) +:+ "," +:+ String.concat "," (jmember <$> (k', v') :: l))). rewrite !string_app_assoc.
    by apply (jm_more _ EmptyString (jstr k) EmptyString v); [|apply jstr_json_string| | |apply IH].
Qed.

Context (printable : forall c, rfc8259 c = true -> raw c = true).

Lemma clean_printable s : string_all rfc8259 s = true -> clean s = true.
Proof. apply string_all_impl. intros c Hc. unfold clean_char. by rewrite printable. Qed.

Lemma clean_number x : clean (to_string x) = true.
Proof.
  apply clean_printable. eapply string_all_impl, (plain_number x). unfold plain_char. intros c H. by bools.
Qed.

Lemma kind_json k : json_text raw (to_string (spanKindValue k)).
Proof.
  apply jt_number. exists EmptyString, (to_string (spanKindValue k)), EmptyString, EmptyString.
  unfold digits. destruct k; split_and!; auto.
Qed.

(** The keys of the documents are printable. *)
Ltac members := repeat (apply Forall_cons; split; [split; [by apply clean_printable|cbn [snd]]|]); try apply Forall_nil_2.

Lemma attribute_json_text a : clean a.1 = true -> clean a.2 = true -> json_text raw (attribute_json a).
Proof.
  intros H1 H2. apply jobj_json. members; [by apply jstr_json|]. apply jobj_json. members. by apply jstr_json.
Qed.

Lemma span_json_text s : span_clean s = true -> json_text raw (span_json s).
Proof.
  unfold span_clean. intros H. bools. apply jobj_json. apply Forall_app_2; [members; by apply jstr_json|].
  apply Forall_app_2; [case_bool_decide; members; by apply jstr_json|].
  members; try (apply jstr_json; done || apply clean_number); [apply kind_json| |].
  - apply jarr_json, Forall_fmap, Forall_forall. intros a Ha. cbn. rewrite forallb_forall in *.
    match goal with H : forall x, _ -> _ && _ = true |- _ => specialize (H a); rewrite <- list_elem_of_In in H; specialize (H Ha) end.
    bools. by apply attribute_json_text.
  - apply jobj_json. apply Forall_cons. split; [split; [by apply clean_printable|by apply jstr_json]|].
    case_bool_decide; members. by apply jstr_json.
Qed.

Lemma document_json spans service_name :
  forallb span_clean spans = true -> clean service_name = true -> json_text raw (document spans service_name).
Proof.
  intros Hs Hn. apply jobj_json. members. apply jarr_json, Forall_singleton, jobj_json. members; [apply jobj_json|apply jarr_json, Forall_singleton, jobj_json].
  - members. apply jarr_json, Forall_singleton. apply attribute_json_text; cbn [fst snd]; [by apply clean_printable|].
    case_bool_decide; [by apply clean_printable|done].
  - members; [apply jobj_json; members; apply jstr_json; by apply clean_printable|].
    apply jarr_json, Forall_fmap, Forall_forall. intros s Hin. apply span_json_text. rewrite forallb_forall in Hs. apply Hs. by apply list_elem_of_In.
Qed.

End Clean.

Lemma lenient_clean s : clean lenient s = true.
Proof. unfold clean. by induction s. Qed.

(** C40: the body of an export is the document that describes the spans,
    followed by a bracket and a brace that close nothing.  The document alone is
    JSON when its texts have no control characters besides tabs and line ends;
    the body is never JSON, not even for a reader that takes any character
    inside of a string. *)
Theorem otlp_body_is_not_json (spans : list CompletedSpan) (service_name : string) :
  buildJson spans service_name = document spans service_name +:+ "]}" /\
  (forallb (span_clean rfc8259) spans && clean rfc8259 service_name = true -> json_text rfc8259 (document spans service_name)) /\
  ~ json_text rfc8259 (buildJson spans service_name) /\
  ~ json_text lenient (buildJson spans service_name).
Proof.
  assert (forall raw, ~ json_text raw (buildJson spans service_name)) as Hno.
  { intros raw H. pose proof (json_balanced raw _ H 0) as Hs. clear H. rewrite buildJson_document, scan_app in Hs.
    rewrite (json_balanced lenient) in Hs; [done|]. apply document_json; [done|..].
    - apply forallb_forall. intros s _. unfold span_clean. rewrite !lenient_clean, !andb_true_r.
      apply forallb_forall. intros a _. by rewrite !lenient_clean.
    - apply lenient_clean. }
  split_and!; [apply buildJson_document| |apply Hno..]. intros [Hs Hn]%andb_prop. by apply document_json.
Qed.

Definition one_span : CompletedSpan :=
  mkSpan "000102030405060708090a0b0c0d0e0f" "0102030405060708" EmptyString "message.SendSingleMessage" SERVER 1 2
    [("user"%string, "7"%string)] "STATUS_CODE_OK" EmptyString.

(** ** Strings of the body are read as they were written *)

Definition escaped_char (c : ascii) : ascii :=
  if Ascii.eqb c "n" then ascii_of_N 10 else if Ascii.eqb c "r" then ascii_of_N 13 else if Ascii.eqb c "t" then ascii_of_N 9
  else if Ascii.eqb c "b" then ascii_of_N 8 else if Ascii.eqb c "f" then ascii_of_N 12 else c.

(** What a reader of JSON takes a string without [\u] escapes for. *)
Fixpoint unescape (s : string) : string :=
  match s with
  | EmptyString => EmptyString
  | String c rest =>
      if Ascii.eqb c backslash then
        match rest with String e rest => String (escaped_char e) (unescape rest) | EmptyString => EmptyString end
      else String c (unescape rest)
  end.

Lemma unescape_char c out : unescape (escape_char c out) = String c (unescape out).
Proof. destruct c as [[] [] [] [] [] [] [] []]; reflexivity. Qed.

Lemma unescape_jsonEscape s : unescape (jsonEscape s) = s.
Proof. induction s as [|c s IH]; [done|]. cbn [jsonEscape]. by rewrite unescape_char, IH. Qed.

(** ** Endpoints *)

Lemma strip_app p s : strip p (p +:+ s) = Some s.
Proof. induction p as [|c p IH]; [done|]. simpl. by rewrite bool_decide_eq_true_2. Qed.

Lemma rcut_free sep s : free_of sep s = true -> rcut sep s = None.
Proof.
  induction s as [|c s IH]; [done|]. cbn [free_of rcut]. intros [Hc Hs]%andb_prop. rewrite (IH Hs).
  by apply negb_true_iff in Hc as ->.
Qed.

Lemma rcut_app sep a b : free_of sep b = true -> rcut sep (a +:+ String sep b) = Some (a, b).
Proof.
  intros Hb. induction a as [|c a IH]; simpl; [rewrite (rcut_free sep b Hb); by rewrite bool_decide_eq_true_2|]. by rewrite IH.
Qed.

Lemma number_free sep x : is_digit sep = false -> sep <> "-"%char -> free_of sep (to_string x) = true.
Proof.
  intros Hd Hm. assert (forall y, 0 <= y -> free_of sep (to_string y) = true) as H.
  { intros y Hy. pose proof (to_string_digits y Hy) as Hs. induction (to_string y) as [|c s IH]; [done|]. cbn [string_all free_of] in *.
    apply andb_prop in Hs as [Hc Hs]. rewrite (IH Hs), andb_true_r, bool_decide_eq_false_2; [done|]. intros ->. congruence. }
  destruct (decide (0 <= x)) as [?|]; [auto|]. rewrite to_string_neg by lia. cbn [free_of]. rewrite H by lia.
  by rewrite bool_decide_eq_false_2 by congruence.
Qed.

(** A host, a port and a path written as an endpoint are read back. *)
Lemma endpoint_reads_back host port path :
  host <> EmptyString -> free_of "/" host = true -> is_int port ->
  parseEndpoint ("http://" +:+ host +:+ ":" +:+ to_string port +:+ "/" +:+ path) = inl (mkParts host port ("/" +:+ path)).
Proof.
  intros Hh Hf Hp. unfold parseEndpoint. rewrite strip_app.
  assert (free_of "/" (host +:+ ":" +:+ to_string port) = true) as Hfree.
  { rewrite !free_of_app, Hf. cbn. by rewrite number_free. }
  change (host +:+ ":" +:+ to_string port +:+ "/" +:+ path) with (host +:+ ":" +:+ to_string port +:+ String "/" path).
  rewrite <- (string_app_assoc ":"), <- string_app_assoc, cut_app by done.
  change (host +:+ ":" +:+ to_string port) with (host +:+ String ":" (to_string port)).
  rewrite rcut_app by (by rewrite number_free). unfold stoi. rewrite sto_to_string by exact Hp. cbn.
  by rewrite bool_decide_eq_false_2.
Qed.

(** ** Control characters *)

Definition json_char (c : ascii) : bool :=
  rfc8259 c || let n := N_of_ascii c in (n =? 9)%N || (n =? 10)%N || (n =? 13)%N.

Lemma rfc8259_json_char s : string_all rfc8259 s = true -> string_all json_char s = true.
Proof. apply string_all_impl. intros c H. unfold json_char. by rewrite H. Qed.

Lemma space_chars w : json_space w -> string_all json_char w = true.
Proof. apply string_all_impl. intros c. destruct c as [[] [] [] [] [] [] [] []]; done. Qed.

Lemma body_chars s : string_body rfc8259 s -> string_all json_char s = true.
Proof.
  induction 1 as [|c s Hc _ IH|c s Hc _ IH|h s _ Hh _ IH]; [done| | |].
  - cbn [string_all]. rewrite IH. unfold plain_char in Hc. bools. unfold json_char. by rewrite H.
  - cbn [string_all]. rewrite IH. by destruct c as [[] [] [] [] [] [] [] []].
  - cbn [string_all]. rewrite string_all_app, IH, andb_true_r. apply andb_true_intro. split; [done|].
    apply andb_true_intro. split; [done|]. revert Hh. apply string_all_impl. intros c. by destruct c as [[] [] [] [] [] [] [] []].
Qed.

Lemma string_chars t : json_string rfc8259 t -> string_all json_char t = true.
Proof. intros (s&Hs&->). cbn [string_all]. rewrite string_all_app, body_chars by done. done. Qed.

Lemma number_chars t : json_number t -> string_all json_char t = true.
Proof.
  assert (forall s, digits s -> string_all json_char s = true) as Hd.
  { intros s [_ H]. revert H. apply string_all_impl. intros c. by destruct c as [[] [] [] [] [] [] [] []]. }
  intros (sign&int&frac&exp&->&Hs&Hi&_&Hf&He). rewrite !string_all_app, (Hd int Hi).
  assert (string_all json_char sign = true) as -> by (by destruct Hs as [-> | ->]).
  assert (string_all json_char frac = true) as -> by (destruct Hf as [->|(d&->&H)]; [done|]; cbn [string_all]; by rewrite (Hd d H)).
  destruct He as [->|(e&sg&d&->&He&Hg&H)]; [done|]. cbn [string_all]. rewrite string_all_app, (Hd d H).
  by destruct He as [-> | ->], Hg as [->|[->| ->]].
Qed.

Lemma json_chars t : json_text rfc8259 t -> string_all json_char t = true.
Proof.
  apply (json_text_mut rfc8259 (fun t => string_all json_char t = true) (fun t => string_all json_char t = true)
    (fun t => string_all json_char t = true)); intros; rewrite ?string_all_app, ?andb_true_iff;
    eauto using string_chars, number_chars, space_chars; try (split_and!; by eauto using string_chars, space_chars).
  by destruct_or!; subst.
Qed.

(** The name of a span may hold a control character that the code copies: then
    the document is not JSON either. *)
Lemma control_character_kept :
  ~ json_text rfc8259 (document [mkSpan "a" "b" EmptyString (String (ascii_of_N 1) EmptyString) INTERNAL 0 0 [] "STATUS_CODE_OK" EmptyString] EmptyString).
Proof. intros H%json_chars. vm_compute in H. done. Qed.
