(* ===== verification/Tracing.v ===== *)
(** * The trace manager and its spans

    common/trace/TraceManager.cpp: a bounded queue of completed spans, a worker
    that exports them in batches, and calls of [flush] that do the same;
    common/trace/TraceSpan.cpp: spans that record themselves when they end.
    Every critical section of the manager is one step; between them other
    threads run.  [shutdown] is called by one thread at a time, and waits for
    the worker between its two parts. *)

From S2P Require Import Prelude Words Text Rpc Config Spans Otlp.
Local Open Scope Z_scope.

(** ** Configuration *)

Record TraceManagerConfig := mkTraceConfig {
  tc_enabled : bool; tc_service_name : string; tc_otlp_endpoint : string; tc_export_timeout_ms : Z;
  tc_batch_size : Z; tc_flush_interval_ms : Z; tc_max_queue_size : Z
}.

Definition TraceManagerConfig_default : TraceManagerConfig :=
  mkTraceConfig false "nebulaim" "http://127.0.0.1:4318/v1/traces" 2000 64 1000 4096.

Definition configFrom (config : Config) (default_service_name : string) : TraceManagerConfig :=
  let trace := TraceManagerConfig_default in
  mkTraceConfig (getBool config "trace.enabled" false)
    (getString config "trace.service_name" default_service_name)
    (getString config "trace.otlp_endpoint" (tc_otlp_endpoint trace))
    (getInt config "trace.export_timeout_ms" (tc_export_timeout_ms trace))
    (getInt config "trace.batch_size" (tc_batch_size trace))
    (getInt config "trace.flush_interval_ms" (tc_flush_interval_ms trace))
    (u64 (getInt64 config "trace.max_queue_size" (tc_max_queue_size trace))).

(** ** The manager *)

(** Where the worker, or a call of [flush], is: about to take a batch, or
    exporting one under the configuration it copied. *)
Inductive exporter_state :=
| Taking
| Exporting (config : TraceManagerConfig) (batch : list CompletedSpan)
| Returned.

(** [tm_worker] is [None] when there is no thread; [joining]: [shutdown] waits.
    The last fields are histories: the spans taken over, those dropped because
    the queue was full, those exported, those whose export failed, those taken
    while tracing was off, and the largest queue that was configured. *)
Record TraceManager := mkManager {
  tm_config : TraceManagerConfig; tm_queue : list CompletedSpan; tm_worker : option exporter_state;
  tm_stopping : bool; tm_started : bool; tm_dropped_spans : Z;
  tm_joining : bool; tm_flushes : list exporter_state;
  h_accepted : list CompletedSpan; h_dropped : list CompletedSpan; h_exported : list CompletedSpan;
  h_failed : list CompletedSpan; h_discarded : list CompletedSpan; h_largest : Z
}.

Definition TraceManager_new : TraceManager :=
  mkManager TraceManagerConfig_default [] None false false 0 false [] [] [] [] [] [] 4096.

Definition startWorkerLocked (m : TraceManager) : TraceManager :=
  if tm_started m then m
  else mkManager (tm_config m) (tm_queue m) (Some Taking) false true (tm_dropped_spans m) (tm_joining m) (tm_flushes m)
         (h_accepted m) (h_dropped m) (h_exported m) (h_failed m) (h_discarded m) (h_largest m).

Definition configure (config : TraceManagerConfig) (m : TraceManager) : TraceManager :=
  let config := mkTraceConfig (tc_enabled config) (tc_service_name config) (tc_otlp_endpoint config) (tc_export_timeout_ms config)
                  (if tc_batch_size config <=? 0 then 64 else tc_batch_size config)
                  (if tc_flush_interval_ms config <=? 0 then 1000 else tc_flush_interval_ms config)
                  (if tc_max_queue_size config =? 0 then 1 else tc_max_queue_size config) in
  let m := mkManager config (tm_queue m) (tm_worker m) (tm_stopping m) (tm_started m) (tm_dropped_spans m) (tm_joining m) (tm_flushes m)
             (h_accepted m) (h_dropped m) (h_exported m) (h_failed m) (h_discarded m) (Z.max (h_largest m) (tc_max_queue_size config)) in
  if tc_enabled config then startWorkerLocked m else m.

(** [shutdown] up to the join, and after it. *)
Definition shutdown_begin (m : TraceManager) : TraceManager :=
  if negb (tm_started m) then m
  else mkManager (tm_config m) (tm_queue m) (tm_worker m) true (tm_started m) (tm_dropped_spans m) true (tm_flushes m)
         (h_accepted m) (h_dropped m) (h_exported m) (h_failed m) (h_discarded m) (h_largest m).

Definition shutdown_end (m : TraceManager) : option TraceManager :=
  match tm_worker m with
  | Some Returned =>
      Some (mkManager (tm_config m) (tm_queue m) None (tm_stopping m) false (tm_dropped_spans m) false (tm_flushes m)
              (h_accepted m) (h_dropped m) (h_exported m) (h_failed m) (h_discarded m) (h_largest m))
  | _ => None
  end.

Definition record (span : CompletedSpan) (m : TraceManager) : TraceManager :=
  if negb (tc_enabled (tm_config m)) then m
  else
    let full := tc_max_queue_size (tm_config m) <=? Z.of_nat (length (tm_queue m)) in
    mkManager (tm_config m) ((if full then tail (tm_queue m) else tm_queue m) ++ [span]) (tm_worker m) (tm_stopping m) (tm_started m)
      (if full then u64 (tm_dropped_spans m + 1) else tm_dropped_spans m) (tm_joining m) (tm_flushes m)
      (h_accepted m ++ [span]) (if full then h_dropped m ++ take 1 (tm_queue m) else h_dropped m)
      (h_exported m) (h_failed m) (h_discarded m) (h_largest m).

Definition takeBatchLocked (max_items : Z) (queue : list CompletedSpan) : list CompletedSpan * list CompletedSpan :=
  let count := Z.to_nat (Z.min max_items (Z.of_nat (length queue))) in (take count queue, drop count queue).

(** What a thread that takes a batch does in its critical section and up to
    the export; [leave batch] says whether it returns, [next] where it is when
    it neither returns nor exports. *)
Definition take_batch (leave : list CompletedSpan -> bool) (next : exporter_state) (m : TraceManager) : exporter_state * TraceManager :=
  let config := tm_config m in
  let '(batch, queue) := if bool_decide (tm_queue m = []) then ([], []) else takeBatchLocked (u64 (tc_batch_size config)) (tm_queue m) in
  let off := negb (tc_enabled config) in
  (if leave batch then Returned else if off || bool_decide (batch = []) then next else Exporting config batch,
   mkManager config queue (tm_worker m) (tm_stopping m) (tm_started m) (tm_dropped_spans m) (tm_joining m) (tm_flushes m)
     (h_accepted m) (h_dropped m) (h_exported m) (h_failed m) (if off then h_discarded m ++ batch else h_discarded m) (h_largest m)).

(** The export of a batch, by an exporter that asks the manager for the name of
    the service when it is made. *)
Definition export_batch (net : OtlpNet) (config : TraceManagerConfig) (batch : list CompletedSpan) (m : TraceManager)
    : option (bool * TraceManager) :=
  match exportSpans net (tc_otlp_endpoint config) (tc_service_name (tm_config m)) (tc_export_timeout_ms config) batch with
  | None => None
  | Some r =>
      let ok := if r is inl _ then true else false in
      Some (ok, mkManager (tm_config m) (tm_queue m) (tm_worker m) (tm_stopping m) (tm_started m) (tm_dropped_spans m) (tm_joining m) (tm_flushes m)
                  (h_accepted m) (h_dropped m) (if ok then h_exported m ++ batch else h_exported m)
                  (if ok then h_failed m else h_failed m ++ batch) (h_discarded m) (h_largest m))
  end.

Definition set_worker (w : exporter_state) (m : TraceManager) : TraceManager :=
  mkManager (tm_config m) (tm_queue m) (Some w) (tm_stopping m) (tm_started m) (tm_dropped_spans m) (tm_joining m) (tm_flushes m)
    (h_accepted m) (h_dropped m) (h_exported m) (h_failed m) (h_discarded m) (h_largest m).
Definition set_flushes (l : list exporter_state) (m : TraceManager) : TraceManager :=
  mkManager (tm_config m) (tm_queue m) (tm_worker m) (tm_stopping m) (tm_started m) (tm_dropped_spans m) (tm_joining m) l
    (h_accepted m) (h_dropped m) (h_exported m) (h_failed m) (h_discarded m) (h_largest m).

(** One part of [workerLoop]: the wait, which may end at any time, and what
    follows it; or the export. *)
Definition workerLoop (net : OtlpNet) (m : TraceManager) : option TraceManager :=
  match tm_worker m with
  | Some Taking =>
      let '(w, m) := take_batch (fun batch => tm_stopping m && bool_decide (batch = [])) Taking m in Some (set_worker w m)
  | Some (Exporting config batch) =>
      '(_, m) ← export_batch net config batch m; Some (set_worker Taking m)
  | _ => None
  end.

(** One part of the [i]-th call of [flush]. *)
Definition flush (net : OtlpNet) (i : nat) (m : TraceManager) : option TraceManager :=
  match tm_flushes m !! i with
  | Some Taking =>
      let '(w, m) := take_batch (fun batch => bool_decide (tm_queue m = [])) Returned m in
      Some (set_flushes (<[i := w]> (tm_flushes m)) m)
  | Some (Exporting config batch) =>
      '(ok, m) ← export_batch net config batch m;
      Some (set_flushes (<[i := if (ok : bool) then Taking else Returned]> (tm_flushes m)) m)
  | _ => None
  end.

Definition flush_begin (m : TraceManager) : TraceManager := set_flushes (tm_flushes m ++ [Taking]) m.

(** The fields of a configuration are of their C++ types. *)
Definition config_typed (c : TraceManagerConfig) : Prop := is_int (tc_batch_size c) /\ is_u64 (tc_max_queue_size c).

Inductive tstep : TraceManager -> TraceManager -> Prop :=
| ts_configure m c : config_typed c -> tstep m (configure c m)
| ts_record m s : tstep m (record s m)
| ts_work m net m' : workerLoop net m = Some m' -> tstep m m'
| ts_flush_begin m : tstep m (flush_begin m)
| ts_flush m net i m' : flush net i m = Some m' -> tstep m m'
| ts_shutdown_begin m : tm_joining m = false -> tstep m (shutdown_begin m)
| ts_shutdown_end m m' : tm_joining m = true -> shutdown_end m = Some m' -> tstep m m'.

Inductive treachable : TraceManager -> Prop :=
| tr_new : treachable TraceManager_new
| tr_step m m' : treachable m -> tstep m m' -> treachable m'.

(** ** Every span is accounted for *)

Definition batch_of (w : exporter_state) : list CompletedSpan := if w is Exporting _ batch then batch else [].
Definition inflight (m : TraceManager) : list CompletedSpan :=
  default [] (batch_of <$> tm_worker m) ++ mjoin (batch_of <$> tm_flushes m).

(** The spans that have left the queue, and are not at an exporter. *)
Definition settled (m : TraceManager) : list CompletedSpan := h_dropped m ++ h_exported m ++ h_failed m ++ h_discarded m.

Record manager_ok (m : TraceManager) : Prop := {
  mo_batch : 0 < tc_batch_size (tm_config m) /\ is_int (tc_batch_size (tm_config m));
  mo_spans : h_accepted m ≡ₚ settled m ++ inflight m ++ tm_queue m;
  mo_order : exists gone, h_accepted m = gone ++ tm_queue m;
  mo_dropped : tm_dropped_spans m = u64 (Z.of_nat (length (h_dropped m)));
  mo_bound : Z.of_nat (length (tm_queue m)) <= h_largest m /\ 1 <= tc_max_queue_size (tm_config m) <= h_largest m;
  mo_started : tm_started m = is_some (tm_worker m);
  mo_joining : tm_joining m = true -> tm_stopping m = true /\ tm_started m = true;
  mo_returned : tm_worker m = Some Returned -> tm_stopping m = true
}.

Lemma takeBatch_spec n q batch rest :
  0 < n -> takeBatchLocked n q = (batch, rest) -> q = batch ++ rest /\ (q <> [] -> batch <> []).
Proof.
  unfold takeBatchLocked. intros Hn [= <- <-]. rewrite take_drop. split; [done|]. intros Hq Ht.
  apply (f_equal length) in Ht. rewrite length_take in Ht. destruct q; [done|]. cbn [length] in Ht. lia.
Qed.

Lemma u64_batch c : 0 < tc_batch_size c -> is_int (tc_batch_size c) -> 0 < u64 (tc_batch_size c).
Proof. unfold is_int, u64. intros ? ?. rewrite Z.mod_small; lia. Qed.

(** What [take_batch] moves, and what it leaves alone. *)
Lemma take_batch_spec leave next m w m' :
  manager_ok m -> batch_of next = [] -> (forall batch rest, leave batch = true -> tm_queue m = batch ++ rest -> (tm_queue m <> [] -> batch <> []) -> batch = []) ->
  take_batch leave next m = (w, m') ->
  exists batch, tm_queue m = batch ++ tm_queue m' /\ (tm_queue m <> [] -> batch <> []) /\
    batch_of w ++ h_discarded m' ≡ₚ h_discarded m ++ batch /\
    (w = Returned \/ w = next \/ exists c, w = Exporting c batch /\ batch <> []) /\
    tm_config m' = tm_config m /\ tm_worker m' = tm_worker m /\ tm_stopping m' = tm_stopping m /\ tm_started m' = tm_started m /\
    tm_dropped_spans m' = tm_dropped_spans m /\ tm_joining m' = tm_joining m /\ tm_flushes m' = tm_flushes m /\
    h_accepted m' = h_accepted m /\ h_dropped m' = h_dropped m /\ h_exported m' = h_exported m /\ h_failed m' = h_failed m /\
    h_largest m' = h_largest m /\ (next <> Returned -> (w = Returned -> leave batch = true) /\ (w = next -> leave batch = false)).
Proof.
  intros Hm Hn Hleave. destruct (mo_batch _ Hm) as [Hb Hi]. unfold take_batch.
  destruct (if bool_decide (tm_queue m = []) then _ else _) as [batch queue] eqn:Hq. intros [= <- <-].
  assert (tm_queue m = batch ++ queue /\ (tm_queue m <> [] -> batch <> [])) as [Hs Hne].
  { case_bool_decide as He; [simplify_eq; by rewrite He|]. eapply takeBatch_spec; [|done]. by apply u64_batch. }
  clear Hq. exists batch. cbn [tm_queue h_discarded]. split; [done|]. split; [done|]. split; [|split; [|split_and!; try done]].
  - destruct (leave batch) eqn:Hl.
    + rewrite (Hleave batch queue Hl Hs Hne). cbn. by destruct (negb _); rewrite app_nil_r.
    + destruct (negb (tc_enabled (tm_config m))); cbn [orb]; [by rewrite Hn|].
      destruct (bool_decide (batch = [])) eqn:Hbe; bools; [by rewrite Hn, Hbe, app_nil_r|]. cbn. by rewrite Permutation_app_comm.
  - destruct (leave batch); [auto|]. destruct (negb _); cbn [orb]; [auto|]. case_bool_decide; [auto|]. right. right. by exists (tm_config m).
  - intros Hnr. destruct (leave batch); [by split; [|congruence]|]. split; [destruct (_ || _)|]; done.
Qed.

Lemma export_batch_spec net config batch m ok m' :
  export_batch net config batch m = Some (ok, m') ->
  h_exported m' ++ h_failed m' ≡ₚ (h_exported m ++ h_failed m) ++ batch /\
  tm_config m' = tm_config m /\ tm_queue m' = tm_queue m /\ tm_worker m' = tm_worker m /\ tm_stopping m' = tm_stopping m /\
  tm_started m' = tm_started m /\ tm_dropped_spans m' = tm_dropped_spans m /\ tm_joining m' = tm_joining m /\
  tm_flushes m' = tm_flushes m /\ h_accepted m' = h_accepted m /\ h_dropped m' = h_dropped m /\ h_discarded m' = h_discarded m /\
  h_largest m' = h_largest m.
Proof.
  unfold export_batch. destruct (exportSpans _ _ _ _ _) as [r|]; [|done]. intros [= <- <-]. cbn. split_and!; try done.
  destruct r; [|by rewrite app_assoc]. rewrite <- !app_assoc. by rewrite (Permutation_app_comm batch).
Qed.

Lemma manager_new_ok : manager_ok TraceManager_new.
Proof. split; cbn; try done. by exists []. Qed.

Lemma startWorker_ok m : manager_ok m -> tm_joining m = false \/ tm_started m = true -> manager_ok (startWorkerLocked m).
Proof.
  intros [] Hj. unfold startWorkerLocked. destruct (tm_started m) eqn:Hs; [by split; rewrite ?Hs|].
  destruct (tm_worker m) as [w|] eqn:Hw; [done|]. unfold settled, inflight in *. rewrite Hw in *. cbn in *.
  split; cbn; auto; try done. intros Hj'. destruct Hj; congruence.
Qed.

Lemma configure_ok c m : config_typed c -> manager_ok m -> manager_ok (configure c m).
Proof.
  intros [Hi Hu] Hm. destruct Hm. unfold is_int, is_u64 in *.
  assert (1 <= (if tc_max_queue_size c =? 0 then 1 else tc_max_queue_size c)) by (destruct (Z.eqb_spec (tc_max_queue_size c) 0); lia).
  assert (0 < (if tc_batch_size c <=? 0 then 64 else tc_batch_size c) <= 2147483647) by (destruct (Z.leb_spec (tc_batch_size c) 0); lia).
  unfold configure. cbn [tc_enabled]. match goal with |- manager_ok (if _ then startWorkerLocked ?m' else _) => assert (manager_ok m') end.
  { split; cbn; auto; [unfold is_int; lia|lia]. }
  destruct (tc_enabled c); [|done]. apply startWorker_ok; [done|]. cbn.
  destruct (tm_joining m); [right; by apply mo_joining0|by left].
Qed.

Lemma record_ok s m : manager_ok m -> manager_ok (record s m).
Proof.
  intros []. unfold record. destruct (negb _) eqn:He; [done|]. destruct mo_order0 as [gone Ho].
  destruct (Z.leb_spec (tc_max_queue_size (tm_config m)) (Z.of_nat (length (tm_queue m)))) as [Hf|Hf].
  - destruct (tm_queue m) as [|x q] eqn:Hq; [cbn in Hf; lia|]. cbn [tail]. change (take 1 (x :: q)) with [x]. unfold settled, inflight in *.
    split; cbn; auto.
    + rewrite mo_spans0. rewrite (Permutation_app_comm (h_dropped m) [x]), <- !app_assoc. cbn. solve_Permutation.
    + exists (gone ++ [x]). rewrite Ho, <- !app_assoc. done.
    + rewrite mo_dropped0, length_app. cbn. unfold u64. rewrite Zplus_mod_idemp_l. f_equal. lia.
    + rewrite length_app. cbn in *. lia.
  - unfold settled, inflight in *. split; cbn; auto.
    + rewrite mo_spans0. solve_Permutation.
    + exists gone. by rewrite Ho, <- app_assoc.
    + rewrite length_app. cbn. lia.
Qed.

(** A thread that was at [w] and held no batch takes one. *)
Lemma trace_work_ok net m m' : manager_ok m -> workerLoop net m = Some m' -> manager_ok m'.
Proof.
  intros Hm. unfold workerLoop. destruct (tm_worker m) as [[|config batch|]|] eqn:Hw; try done.
  - destruct (take_batch _ _ m) as [w m1] eqn:Ht. intros [= <-].
    apply take_batch_spec in Ht as (batch&Hq&Hne&Hd&Hcase&E1&E2&E3&E4&E5&E6&E7&E8&E9&E10&E11&E12&Hl); try done;
      [|by intros batch rest [_ ?]%andb_prop _ _; bools].
    destruct Hm. unfold settled, inflight in *. rewrite Hw in *. split; cbn in *; rewrite ?E1, ?E3, ?E4, ?E5, ?E6, ?E7, ?E8, ?E9, ?E10, ?E11, ?E12; auto.
    + rewrite mo_spans0, Hq. transitivity (h_dropped m ++ h_exported m ++ h_failed m ++ (h_discarded m ++ batch) ++ mjoin (batch_of <$> tm_flushes m) ++ tm_queue m1);
        [solve_Permutation|]. rewrite <- Hd. solve_Permutation.
    + destruct mo_order0 as [gone ->]. exists (gone ++ batch). by rewrite Hq, app_assoc.
    + rewrite Hq, length_app in mo_bound0. lia.
    + intros [= ->]. destruct (Hl ltac:(done)) as [Hl' _]. specialize (Hl' eq_refl). by apply andb_prop in Hl' as [? _].
  - destruct (export_batch net config batch m) as [[ok m1]|] eqn:He; [|done]. intros [= <-].
    apply export_batch_spec in He as (Hx&E1&E2&E3&E4&E5&E6&E7&E8&E9&E10&E11&E12).
    destruct Hm. unfold settled, inflight in *. rewrite Hw in *. split; cbn in *; rewrite ?E1, ?E2, ?E4, ?E5, ?E6, ?E7, ?E8, ?E9, ?E10, ?E11, ?E12; auto; try done.
    rewrite mo_spans0. transitivity (h_dropped m ++ ((h_exported m ++ h_failed m) ++ batch) ++ h_discarded m ++ mjoin (batch_of <$> tm_flushes m) ++ tm_queue m);
      [solve_Permutation|]. rewrite <- Hx. solve_Permutation.
Qed.

(** The batches of the calls of [flush], one of which changes. *)
Lemma flush_changes l i (w w' : exporter_state) :
  l !! i = Some w -> exists rest, mjoin (batch_of <$> l) ≡ₚ batch_of w ++ rest /\ mjoin (batch_of <$> <[i := w']> l) ≡ₚ batch_of w' ++ rest.
Proof.
  intros Hi. exists (mjoin (batch_of <$> take i l) ++ mjoin (batch_of <$> drop (S i) l)).
  rewrite insert_take_drop by (by eapply lookup_lt_Some). rewrite <- (take_drop_middle l i w Hi) at 1.
  rewrite !fmap_app, !join_app. cbn. split; solve_Permutation.
Qed.

Lemma flush_ok net i m m' : manager_ok m -> flush net i m = Some m' -> manager_ok m'.
Proof.
  intros Hm. unfold flush. destruct (tm_flushes m !! i) as [[|config batch|]|] eqn:Hi; try done.
  - destruct (take_batch _ _ m) as [w m1] eqn:Ht. intros [= <-].
    apply take_batch_spec in Ht as (batch&Hq&Hne&Hd&Hcase&E1&E2&E3&E4&E5&E6&E7&E8&E9&E10&E11&E12&_); try done;
      [|intros batch rest Hl Hq _; bools; rewrite Hl in Hq; by destruct batch].
    destruct (flush_changes _ _ _ w Hi) as (rest&F1&F2). cbn in F1.
    destruct Hm. unfold settled, inflight in *. split; cbn in *; rewrite ?E1, ?E2, ?E3, ?E4, ?E5, ?E6, ?E7, ?E8, ?E9, ?E10, ?E11, ?E12; auto.
    + rewrite F1 in mo_spans0. rewrite F2, mo_spans0, Hq.
      transitivity (h_dropped m ++ h_exported m ++ h_failed m ++ (h_discarded m ++ batch) ++ default [] (batch_of <$> tm_worker m) ++ rest ++ tm_queue m1);
        [solve_Permutation|]. rewrite <- Hd. solve_Permutation.
    + destruct mo_order0 as [gone ->]. exists (gone ++ batch). by rewrite Hq, app_assoc.
    + rewrite Hq, length_app in mo_bound0. lia.
  - destruct (export_batch net config batch m) as [[ok m1]|] eqn:He; [|done]. intros [= <-].
    apply export_batch_spec in He as (Hx&E1&E2&E3&E4&E5&E6&E7&E8&E9&E10&E11&E12).
    destruct (flush_changes _ _ _ (if ok then Taking else Returned) Hi) as (rest&F1&F2). cbn in F1.
    assert (batch_of (if ok then Taking else Returned) = []) as Hb by (by destruct ok). rewrite Hb in F2.
    destruct Hm. unfold settled, inflight in *. split; cbn in *; rewrite ?E1, ?E2, ?E3, ?E4, ?E5, ?E6, ?E7, ?E8, ?E9, ?E10, ?E11, ?E12; auto.
    rewrite F1 in mo_spans0. rewrite F2, mo_spans0.
    transitivity (h_dropped m ++ ((h_exported m ++ h_failed m) ++ batch) ++ h_discarded m ++ default [] (batch_of <$> tm_worker m) ++ rest ++ tm_queue m);
      [solve_Permutation|]. rewrite <- Hx. solve_Permutation.
Qed.

Lemma manager_always_ok m : treachable m -> manager_ok m.
Proof.
  induction 1 as [|m m' _ Hm Hs]; [apply manager_new_ok|]. destruct Hs as [m c Hc|m s|m net m' Hs|m|m net i m' Hs|m Hj|m m' Hj Hs].
  - by apply configure_ok.
  - by apply record_ok.
  - by eapply trace_work_ok.
  - destruct Hm. unfold flush_begin, settled, inflight in *. split; cbn in *; auto. by rewrite fmap_app, join_app, app_nil_r.
  - by eapply flush_ok.
  - unfold shutdown_begin. destruct (tm_started m) eqn:Hst; [|done]. destruct Hm. split; cbn; auto. congruence.
  - unfold shutdown_end in Hs. destruct (tm_worker m) as [[]|] eqn:Hw; try done. injection Hs as <-.
    destruct Hm. unfold settled, inflight in *. rewrite Hw in *. split; cbn in *; auto; done.
Qed.

(** C34: every span the manager took over is in exactly one place: in the queue,
    with the worker or a call of [flush], exported, in a batch whose export
    failed, dropped because the queue was full, or taken from the queue while
    tracing was off.  The queue holds the newest ones in the order they came,
    never more than the largest size configured, and [dropped_spans_] counts
    those dropped. *)
Theorem spans_accounted_for (m : TraceManager) :
  treachable m ->
  h_accepted m ≡ₚ h_exported m ++ h_failed m ++ h_dropped m ++ h_discarded m ++ inflight m ++ tm_queue m /\
  (exists gone, h_accepted m = gone ++ tm_queue m) /\
  Z.of_nat (length (tm_queue m)) <= h_largest m /\
  tm_dropped_spans m = u64 (Z.of_nat (length (h_dropped m))).
Proof.
  intros []%manager_always_ok. split_and!; [|done|lia|done]. rewrite mo_spans0. unfold settled. solve_Permutation.
Qed.

(** ** Shutting down *)

(** Every part of the worker's loop makes this smaller. *)
Definition exporter_weight (w : exporter_state) : nat := match w with Taking => 1 | Exporting _ _ => 2 | Returned => 0 end.
Definition to_export (m : TraceManager) : nat := (2 * length (tm_queue m) + default 0%nat (exporter_weight <$> tm_worker m))%nat.

(** The worker alone, until its thread ends. *)
Fixpoint run_worker (fuel : nat) (nets : nat -> OtlpNet) (m : TraceManager) : option TraceManager :=
  match tm_worker m, fuel with
  | Some Returned, _ => Some m
  | _, O => None
  | _, S fuel => m' ← workerLoop (nets fuel) m; run_worker fuel nets m'
  end.

Lemma work_step net m m' :
  manager_ok m -> tm_stopping m = true -> workerLoop net m = Some m' ->
  (to_export m' < to_export m)%nat /\ tm_stopping m' = true /\ tm_joining m' = tm_joining m /\ is_some (tm_worker m') = true /\
  tm_flushes m' = tm_flushes m /\ (tm_worker m' = Some Returned -> tm_queue m' = []).
Proof.
  intros Hm Hst. unfold workerLoop, to_export. destruct (tm_worker m) as [[|config batch|]|] eqn:Hw; try done.
  - destruct (take_batch _ _ m) as [w m1] eqn:Ht. intros [= <-].
    apply take_batch_spec in Ht as (batch&Hq&Hne&Hd&Hcase&_&_&E3&_&_&E6&E7&_&_&_&_&_&Hl); try done;
      [|by intros batch rest [_ ?]%andb_prop _ _; bools].
    cbn -[Nat.mul]. rewrite E3, E6, E7, Hq, length_app. split_and!; try done.
    + assert (batch = [] -> tm_queue m1 = []) as He. { intros ->. destruct (tm_queue m); [by rewrite Hq|]. by destruct Hne. }
      destruct Hcase as [->|[->|(c&->&Hb)]]; cbn [exporter_weight].
      * lia.
      * assert (batch <> []); [|destruct batch; [done|cbn; lia]]. intros ->. destruct (Hl ltac:(done)) as [_ Hl']. specialize (Hl' eq_refl). by rewrite Hst in Hl'.
      * destruct batch; [done|]. cbn. lia.
    + intros [= ->]. destruct (Hl ltac:(done)) as [Hl' _]. specialize (Hl' eq_refl). apply andb_prop in Hl' as [_ Hl']. bools. subst batch.
      destruct (tm_queue m); [by rewrite Hq|]. by destruct Hne.
  - destruct (export_batch net config batch m) as [[ok m1]|] eqn:He; [|done]. intros [= <-].
    apply export_batch_spec in He as (Hx&E1&E2&E3&E4&E5&E6&E7&E8&_). cbn. rewrite E2, E4, E7, E8. split_and!; try done. lia.
Qed.

Section Shutdown.
Context (nets : nat -> OtlpNet).
(** Calls of the system end, and descriptors are small. *)
Context (nets_answer : forall i endpoint name timeout batch, is_some (exportSpans (nets i) endpoint name timeout batch) = true).

Lemma work_defined i m w : tm_worker m = Some w -> w <> Returned -> exists m', workerLoop (nets i) m = Some m'.
Proof.
  intros Hw Hr. unfold workerLoop. rewrite Hw. destruct w as [|config batch|]; [destruct (take_batch _ _ _); by eexists| |done].
  unfold export_batch. specialize (nets_answer i (tc_otlp_endpoint config) (tc_service_name (tm_config m)) (tc_export_timeout_ms config) batch).
  destruct (exportSpans _ _ _ _ _); [by eexists|done].
Qed.

Lemma run_worker_ends fuel m :
  manager_ok m -> tm_stopping m = true -> is_some (tm_worker m) = true -> (to_export m <= fuel)%nat ->
  exists m', run_worker fuel nets m = Some m' /\ manager_ok m' /\ tm_worker m' = Some Returned /\ tm_joining m' = tm_joining m /\
    tm_flushes m' = tm_flushes m /\ (tm_worker m <> Some Returned -> tm_queue m' = []).
Proof.
  revert m. induction fuel as [|fuel IH]; intros m Hm Hst Hw Hf.
  - unfold to_export in Hf. destruct (tm_worker m) as [[| |]|] eqn:Hwk; cbn in *; [lia..| |done].
    exists m. unfold run_worker. rewrite Hwk. split_and!; try done.
  - destruct (tm_worker m) as [w|] eqn:Hwk; [|done]. destruct (exporter_weight w) as [|k] eqn:Hk.
    { destruct w; try done. exists m. cbn [run_worker]. rewrite Hwk. by split_and!. }
    assert (w <> Returned) as Hr by (by intros ->). destruct (work_defined fuel m w Hwk Hr) as [m1 H1].
    destruct (work_step _ _ _ Hm Hst H1) as (Hlt&Hst1&Hj1&Hs1&Hf1&Hq1).
    destruct (IH m1) as (m'&E&Hok&Hw'&Hj'&Hf'&Hq'); [by eapply trace_work_ok|done..|lia|].
    exists m'. assert (run_worker (S fuel) nets m = run_worker fuel nets m1) as ->.
    { cbn [run_worker]. rewrite Hwk. by destruct w; rewrite ?H1. }
    split_and!; [done..|congruence|congruence|]. intros _.
    destruct (decide (exporter_weight <$> tm_worker m1 = Some 0%nat)) as [Hd|Hd].
    + assert (tm_worker m1 = Some Returned) as Hret by (by destruct (tm_worker m1) as [[]|]).
      assert (m' = m1) as -> by (destruct fuel; cbn in E; rewrite Hret in E; congruence). auto.
    + apply Hq'. intros Hret. by rewrite Hret in Hd.
Qed.

End Shutdown.

(** A manager that was switched on, got three spans and is shut down; no
    collector is found. *)
Definition unreachable_net : OtlpNet := mkNet (fun _ _ => inr "Name or service not known"%string) [] (fun _ => 0) None.

Lemma unreachable_answers endpoint name timeout batch : is_some (exportSpans unreachable_net endpoint name timeout batch) = true.
Proof. unfold exportSpans. case_bool_decide; [done|]. by destruct (parseEndpoint endpoint). Qed.

Definition small_config : TraceManagerConfig := mkTraceConfig true "nebula-gateway" "http://127.0.0.1:4318/v1/traces" 2000 2 1000 2.
Definition busy_manager : TraceManager :=
  shutdown_begin (record one_span (record one_span (record one_span (configure small_config TraceManager_new)))).

Lemma busy_manager_reachable : treachable busy_manager.
Proof.
  assert (config_typed small_config) by (by split).
  repeat (eapply tr_step; [|by econstructor]). apply tr_new.
Qed.


Lemma spans_accounted_for_witness :
  h_accepted busy_manager = [one_span; one_span; one_span] /\
  h_accepted busy_manager ≡ₚ h_exported busy_manager ++ h_failed busy_manager ++ h_dropped busy_manager ++ h_discarded busy_manager ++
    inflight busy_manager ++ tm_queue busy_manager.
Proof. split; [reflexivity|]. apply (spans_accounted_for busy_manager busy_manager_reachable). Defined.
