(* ===== verification/SpanTrees.v ===== *)
(** * Spans of nested blocks

    common/trace/TraceSpan.cpp: a span is an object of a block; it takes the
    thread's span for its parent, is the thread's span while the block runs,
    and records itself when the block ends.  The identifiers, the engines and
    the clock are answers of the environment, numbered by the call. *)

From S2P Require Import Prelude Words Text Rpc Config Spans Otlp Tracing.
Local Open Scope Z_scope.

(** [te_generate]: the time in nanoseconds, the random number and the counter
    of the [n]-th call of [TraceId::generate]; [te_span]: the random number and
    the counter of [generateSpanId]; [te_now]: the clock of [TimeUtil::nowMs]. *)
Record TraceEnv := mkTraceEnv { te_generate : nat -> Z * Z * Z; te_span : nat -> Z * Z; te_now : nat -> Z }.

(** A thread, with the manager it shares; the counters number its calls. *)
Record TraceThread := mkThread {
  th_tls : TraceContext; th_manager : TraceManager; th_generated : nat; th_spans : nat; th_clock : nat
}.

Record TraceSpan := mkTraceSpan { ts_active : bool; ts_previous_span_id : string; ts_span : CompletedSpan }.

Section Spans.
Context (E : TraceEnv).
Implicit Types w : TraceThread.

Definition nowNs : SM TraceThread Z := fun w =>
  Some (te_now E (th_clock w) * 1000000, mkThread (th_tls w) (th_manager w) (th_generated w) (th_spans w) (S (th_clock w))).

(** [TraceContext::ensureTraceId()] with its empty candidate. *)
Definition ensure_trace_id : SM TraceThread string := fun w =>
  let '(now, rnd, seq) := te_generate E (th_generated w) in
  let '(id, tls) := ensure (generate now rnd seq) EmptyString (th_tls w) in
  Some (id, mkThread tls (th_manager w) (if bool_decide (tls_trace_id (th_tls w) = EmptyString) then S (th_generated w) else th_generated w)
              (th_spans w) (th_clock w)).

Definition generate_span_id : SM TraceThread string := fun w =>
  let '(rnd, seq) := te_span E (th_spans w) in
  Some (generateSpanId rnd seq, mkThread (th_tls w) (th_manager w) (th_generated w) (S (th_spans w)) (th_clock w)).

Definition set_tls (f : TraceContext -> TraceContext) : SM TraceThread unit :=
  modify (fun w => mkThread (f (th_tls w)) (th_manager w) (th_generated w) (th_spans w) (th_clock w)).

Definition record_span (span : CompletedSpan) : SM TraceThread unit :=
  modify (fun w => mkThread (th_tls w) (record span (th_manager w)) (th_generated w) (th_spans w) (th_clock w)).

Definition TraceSpan_new (name : string) (kind : TraceSpanKind) : SM TraceThread TraceSpan :=
  w ← get_state;
  let previous := tls_span_id (th_tls w) in
  trace_id ← ensure_trace_id;
  span_id ← generate_span_id;
  start ← nowNs;
  set_tls (setSpanId span_id);;
  mret (mkTraceSpan true previous (mkSpan trace_id span_id previous name kind start 0 [] "STATUS_CODE_OK" EmptyString)).

Definition setAttribute (key value : string) (t : TraceSpan) : TraceSpan :=
  if negb (ts_active t) then t
  else let s := ts_span t in
       mkTraceSpan true (ts_previous_span_id t)
         (mkSpan (sp_trace_id s) (sp_span_id s) (sp_parent_span_id s) (sp_name s) (sp_kind s) (sp_start s) (sp_end s)
            (map_assign key value (sp_attributes s)) (sp_status_code s) (sp_status_message s)).

Definition setError (message : string) (t : TraceSpan) : TraceSpan :=
  if negb (ts_active t) then t
  else let s := ts_span t in
       mkTraceSpan true (ts_previous_span_id t)
         (mkSpan (sp_trace_id s) (sp_span_id s) (sp_parent_span_id s) (sp_name s) (sp_kind s) (sp_start s) (sp_end s)
            (sp_attributes s) "STATUS_CODE_ERROR" message).

Definition with_end (t : Z) (s : CompletedSpan) : CompletedSpan :=
  mkSpan (sp_trace_id s) (sp_span_id s) (sp_parent_span_id s) (sp_name s) (sp_kind s) (sp_start s) t
    (sp_attributes s) (sp_status_code s) (sp_status_message s).

(** [finish], which the destructor calls.  What moving leaves in [span_] is
    kept; an inactive span is not recorded again. *)
Definition finish (t : TraceSpan) : SM TraceThread TraceSpan :=
  if negb (ts_active t) then mret t
  else
    now ← nowNs;
    set_tls (setSpanId (ts_previous_span_id t));;
    record_span (with_end now (ts_span t));;
    mret (mkTraceSpan false (ts_previous_span_id t) (with_end now (ts_span t))).

(** [moveFrom]: the new object and what is left of the other. *)
Definition moveFrom (other : TraceSpan) : TraceSpan * TraceSpan :=
  (other, mkTraceSpan false (ts_previous_span_id other) (ts_span other)).

(** [this = std::move(other)], for two objects. *)
Definition move_assign (this other : TraceSpan) : SM TraceThread (TraceSpan * TraceSpan) :=
  finish this;; mret (moveFrom other).

(** ** Blocks *)

(** Code as far as spans see it: blocks in sequence, each with a span, what is
    set on it, and the blocks inside of it. *)
Inductive blocks :=
| Nothing
| Block (name : string) (kind : TraceSpanKind) (attributes : list (string * string)) (error : option string) (inner next : blocks).

Definition annotate (attributes : list (string * string)) (error : option string) (t : TraceSpan) : TraceSpan :=
  let t := foldl (fun t a => setAttribute a.1 a.2 t) t attributes in
  if error is Some message then setError message t else t.

Fixpoint run_blocks (b : blocks) : SM TraceThread unit :=
  match b with
  | Nothing => mret tt
  | Block name kind attributes error inner next =>
      t ← TraceSpan_new name kind;
      run_blocks inner;;
      finish (annotate attributes error t);;
      run_blocks next
  end.

(** ** The tree of the blocks

    [tree trace parent b n t]: the spans of the blocks [b] inside of [parent], an
    inner one before the one around it, when [n] span ids were handed out and
    the clock was read [t] times before. *)

Fixpoint count (b : blocks) : nat := match b with Nothing => 0 | Block _ _ _ _ inner next => S (count inner + count next) end.

Definition attributes_of (attributes : list (string * string)) : list (string * string) :=
  foldl (fun m a => map_assign a.1 a.2 m) [] attributes.

Fixpoint tree (trace parent : string) (b : blocks) (n t : nat) : list CompletedSpan :=
  match b with
  | Nothing => []
  | Block name kind attributes error inner next =>
      let id := let '(rnd, seq) := te_span E n in generateSpanId rnd seq in
      let n1 := (S n + count inner)%nat in
      let t1 := (S t + 2 * count inner)%nat in
      tree trace id inner (S n) (S t) ++
      mkSpan trace id parent name kind (te_now E t * 1000000) (te_now E t1 * 1000000) (attributes_of attributes)
        (if error is Some _ then "STATUS_CODE_ERROR" else "STATUS_CODE_OK") (default EmptyString error) ::
      tree trace parent next n1 (S t1)
  end.

(** The trace id that the first span of a thread finds or makes. *)
Definition trace_of (w : TraceThread) : string :=
  if bool_decide (tls_trace_id (th_tls w) = EmptyString)
  then let '(now, rnd, seq) := te_generate E (th_generated w) in generate now rnd seq
  else tls_trace_id (th_tls w).

Lemma foldl_attributes l t : ts_active t = true ->
  foldl (fun t a => setAttribute a.1 a.2 t) t l =
  let s := ts_span t in
  mkTraceSpan true (ts_previous_span_id t)
    (mkSpan (sp_trace_id s) (sp_span_id s) (sp_parent_span_id s) (sp_name s) (sp_kind s) (sp_start s) (sp_end s)
       (foldl (fun m a => map_assign a.1 a.2 m) (sp_attributes s) l) (sp_status_code s) (sp_status_message s)).
Proof.
  revert t. induction l as [|[k v] l IH]; intros [a p []] Ha; cbn in *; subst; [done|]. by rewrite IH.
Qed.

Lemma record_on s m : tc_enabled (tm_config m) = true ->
  h_accepted (record s m) = h_accepted m ++ [s] /\ tm_config (record s m) = tm_config m.
Proof. unfold record. by intros ->. Qed.

(** What a new span is, and what it does to the thread. *)
Lemma new_span name kind w :
  exists w', TraceSpan_new name kind w =
    Some (mkTraceSpan true (tls_span_id (th_tls w))
            (mkSpan (trace_of w) (let '(rnd, seq) := te_span E (th_spans w) in generateSpanId rnd seq) (tls_span_id (th_tls w)) name kind
               (te_now E (th_clock w) * 1000000) 0 [] "STATUS_CODE_OK" EmptyString), w') /\
    th_tls w' = mkTls (trace_of w) (let '(rnd, seq) := te_span E (th_spans w) in generateSpanId rnd seq) /\
    th_manager w' = th_manager w /\ th_spans w' = S (th_spans w) /\ th_clock w' = S (th_clock w).
Proof.
  unfold TraceSpan_new, ensure_trace_id, generate_span_id, nowNs, set_tls, modify, get_state, ensure, ensureTraceId, trace_of.
  unfold mbind, SM_bind. cbn. destruct (te_generate E (th_generated w)) as [[now rnd] seq]. cbn.
  destruct (te_span E (th_spans w)) as [rnd' seq']. cbn. eexists. split; [reflexivity|]. by case_bool_decide.
Qed.

Lemma trace_of_nonempty w : trace_of w <> EmptyString.
Proof.
  unfold trace_of. case_bool_decide as H; [|done]. destruct (te_generate E (th_generated w)) as [[now rnd] seq]. intros Hg.
  pose proof (generate_valid now rnd seq) as Hv. by rewrite Hg in Hv.
Qed.

Lemma trace_of_kept w w' : tls_trace_id (th_tls w') = trace_of w -> trace_of w' = trace_of w.
Proof. intros H. unfold trace_of at 1. rewrite H, bool_decide_eq_false_2; [done|]. apply trace_of_nonempty. Qed.

(** The end of a block whose span was set up by [new_span]. *)
Lemma finish_block attributes error s previous w :
  sp_attributes s = [] -> sp_status_code s = "STATUS_CODE_OK"%string -> sp_status_message s = EmptyString ->
  tc_enabled (tm_config (th_manager w)) = true ->
  exists t w', finish (annotate attributes error (mkTraceSpan true previous s)) w = Some (t, w') /\
    th_tls w' = mkTls (tls_trace_id (th_tls w)) previous /\ th_spans w' = th_spans w /\ th_clock w' = S (th_clock w) /\
    tm_config (th_manager w') = tm_config (th_manager w) /\
    h_accepted (th_manager w') = h_accepted (th_manager w) ++
      [mkSpan (sp_trace_id s) (sp_span_id s) (sp_parent_span_id s) (sp_name s) (sp_kind s) (sp_start s) (te_now E (th_clock w) * 1000000)
         (attributes_of attributes) (if error is Some _ then "STATUS_CODE_ERROR" else "STATUS_CODE_OK") (default EmptyString error)].
Proof.
  intros Ha Hc Hm He. unfold annotate. rewrite foldl_attributes by done. cbn [ts_span ts_previous_span_id]. rewrite Ha, Hc, Hm.
  destruct error as [message|]; unfold finish, setError, nowNs, set_tls, record_span, modify, mbind, SM_bind; cbn;
    eexists _, _; (split; [reflexivity|]); cbn; split_and!; try done; by apply record_on.
Qed.

Lemma blocks_recorded (b : blocks) : forall w, tc_enabled (tm_config (th_manager w)) = true ->
  exists w', run_blocks b w = Some (tt, w') /\
    tls_span_id (th_tls w') = tls_span_id (th_tls w) /\
    tls_trace_id (th_tls w') = (if b is Nothing then tls_trace_id (th_tls w) else trace_of w) /\
    tm_config (th_manager w') = tm_config (th_manager w) /\
    h_accepted (th_manager w') = h_accepted (th_manager w) ++ tree (trace_of w) (tls_span_id (th_tls w)) b (th_spans w) (th_clock w) /\
    th_spans w' = (th_spans w + count b)%nat /\ th_clock w' = (th_clock w + 2 * count b)%nat.
Proof.
  induction b as [|name kind attributes error inner IHi next IHn]; intros w He.
  { exists w. cbn. rewrite app_nil_r. split_and!; try done; lia. }
  cbn [run_blocks]. destruct (new_span name kind w) as (w1&E1&T1&M1&S1&C1). rewrite run_bind, E1.
  destruct (IHi w1) as (w2&E2&P2&T2&K2&A2&S2&C2); [by rewrite M1|]. rewrite run_bind, E2.
  assert (trace_of w1 = trace_of w) as Hw1 by (apply trace_of_kept; by rewrite T1).
  assert (tls_trace_id (th_tls w2) = trace_of w) as Hw2 by (rewrite T2; destruct inner; [by rewrite T1|done]).
  match goal with |- context [annotate _ _ (mkTraceSpan true ?p ?s)] => destruct (finish_block attributes error s p w2) as (t&w3&E3&T3&S3&C3&K3&A3) end;
    [done..|by rewrite K2, M1|]. rewrite run_bind, E3.
  assert (tls_trace_id (th_tls w3) = trace_of w) as Hw3 by (by rewrite T3).
  destruct (IHn w3) as (w4&E4&P4&T4&K4&A4&S4&C4); [by rewrite K3, K2, M1|]. exists w4.
  rewrite (trace_of_kept w w3 Hw3) in *. split; [done|].
  split; [by rewrite P4, T3|]. split; [rewrite T4; by destruct next|]. split; [by rewrite K4, K3, K2, M1|].
  split; [|cbn [count]; split; lia].
  rewrite A4, A3, A2, M1, Hw1, T1, T3, S3, S2, S1, C3, C2, C1. cbn [tls_span_id sp_trace_id sp_span_id sp_parent_span_id sp_name sp_kind sp_start tree].
  rewrite <- !app_assoc. cbn. done.
Qed.

(** The spans of nested blocks are recorded as the tree of the blocks: each
    block once, when it ends, with its name, times, attributes and error, under
    the trace id of the thread and with the block around it as its parent; and
    the thread's span afterwards is the one before.  Each id is well formed. *)
Theorem nested_spans_recorded (b : blocks) (w : TraceThread) :
  tc_enabled (tm_config (th_manager w)) = true ->
  exists w', run_blocks b w = Some (tt, w') /\
    h_accepted (th_manager w') = h_accepted (th_manager w) ++ tree (trace_of w) (tls_span_id (th_tls w)) b (th_spans w) (th_clock w) /\
    tls_span_id (th_tls w') = tls_span_id (th_tls w) /\
    Forall (fun s => isValidSpanId (sp_span_id s) = true /\ sp_trace_id s = trace_of w)
      (tree (trace_of w) (tls_span_id (th_tls w)) b (th_spans w) (th_clock w)).
Proof.
  intros He. destruct (blocks_recorded b w He) as (w'&E1&P&_&_&A&_). exists w'. split_and!; [done..|].
  generalize (trace_of w) as trace, (tls_span_id (th_tls w)) as parent, (th_spans w) as n, (th_clock w) as t.
  clear. induction b as [|name kind attributes error inner IHi next IHn]; intros trace parent n t; [constructor|].
  cbn [tree]. apply Forall_app_2; [apply IHi|]. constructor; [|apply IHn]. cbn. split; [|done].
  destruct (te_span E n) as [rnd seq]. apply generateSpanId_valid.
Qed.

(** A span that was moved is recorded by its new owner only. *)
Lemma moved_from_silent other w : finish (moveFrom other).2 w = Some ((moveFrom other).2, w).
Proof. done. Qed.
End Spans.

Definition sample_trace_env : TraceEnv :=
  mkTraceEnv (fun n => (1700000000000000000, 81985529216486895, Z.of_nat n)) (fun n => (4294967296 * Z.of_nat n, Z.of_nat n)) (fun n => 1700000000000 + Z.of_nat n).
Definition sample_thread : TraceThread :=
  mkThread (mkTls EmptyString EmptyString) (configure small_config TraceManager_new) 0 0 0.
Definition sample_blocks : blocks :=
  Block "gateway.Login" SERVER [("user"%string, "7"%string)] None (Block "user.Login" CLIENT [] (Some "timeout"%string) Nothing Nothing) Nothing.

Lemma nested_spans_recorded_witness :
  (sp_parent_span_id <$> tree sample_trace_env (trace_of sample_trace_env sample_thread) EmptyString sample_blocks 0 0) =
    [generateSpanId 0 0; EmptyString] /\
  exists w', run_blocks sample_trace_env sample_blocks sample_thread = Some (tt, w') /\
    h_accepted (th_manager w') = tree sample_trace_env (trace_of sample_trace_env sample_thread) EmptyString sample_blocks 0 0.
Proof.
  split; [vm_compute; reflexivity|].
  destruct (nested_spans_recorded sample_trace_env sample_blocks sample_thread) as (w'&E&A&_); [reflexivity|]. by exists w'.
Defined.
