(* ===== verification/RedisConn.v ===== *)
(** * The connection of the Redis client

    The part of common/redis/RedisClient.cpp that Redis leaves out: connecting,
    authenticating, the state of the connection behind [command], and the
    commands no service uses.  hiredis is a parameter: [Hiredis] is its
    interface, [HiredisLaws] what its documentation says of a context after an
    error.  Redis has an arbitrary outcome for every command instead. *)

From S2P Require Import Prelude Words Text Config Redis.
Local Open Scope Z_scope.

(** [h_err]: the text of the error of a context, empty when it has none.  The
    calls of one run are numbered. *)
Class Hiredis := {
  redisContext : Type;
  h_err : redisContext -> string;
  redisConnectWithTimeout : nat -> string -> Z -> Z * Z -> option redisContext;
  redisvCommand : nat -> list string -> redisContext -> option redis_reply * redisContext
}.

(** A command that gives no reply sets the error of the context; a context
    with an error gives no reply any more, and has to be connected anew. *)
Class HiredisLaws (H : Hiredis) : Prop := {
  no_reply_error n argv c c' : redisvCommand n argv c = (None, c') -> h_err c' <> EmptyString;
  error_stays n argv c : h_err c <> EmptyString -> redisvCommand n argv c = (None, c)
}.

Section Client.
Context `{Hiredis}.

(** The client; [rd_calls] numbers the calls of the library, and [rd_sent] is the
    history of the commands handed to it. *)
Record RedisClient := mkClient {
  context_ : option redisContext; config_ : RedisConfig; last_error_ : string;
  rd_calls : nat; rd_sent : list (list string)
}.

Definition RedisClient_new : RedisClient := mkClient None RedisConfig_default EmptyString 0 [].

Definition set_error (e : string) (r : RedisClient) : RedisClient :=
  mkClient (context_ r) (config_ r) e (rd_calls r) (rd_sent r).

Definition close (r : RedisClient) : RedisClient :=
  if context_ r is Some _ then mkClient None (config_ r) (last_error_ r) (rd_calls r) (rd_sent r) else r.

Definition command_on (argv : list string) (r : RedisClient) : option redis_reply * RedisClient :=
  match context_ r with
  | None => (None, set_error "Redis is not connected" r)
  | Some c =>
      let '(reply, c) := redisvCommand (rd_calls r) argv c in
      let r := mkClient (Some c) (config_ r) (last_error_ r) (S (rd_calls r)) (rd_sent r ++ [argv]) in
      match reply with
      | Some _ => (reply, r)
      | None => (None, set_error (if bool_decide (h_err c = EmptyString) then "redis command failed" else h_err c) r)
      end
  end.

(** [checkStatus] with the error it leaves. *)
Definition check_status (reply : option redis_reply) (r : RedisClient) : bool * RedisClient :=
  match reply with
  | None => (false, r)
  | Some (ReplyStatus text) => (bool_decide (text = "OK"%string), r)
  | Some (ReplyError text) => (false, set_error text r)
  | Some _ => (false, r)
  end.

(** The division and the remainder of C++ round towards zero. *)
Definition connect (config : RedisConfig) (r : RedisClient) : bool * RedisClient :=
  let r := close r in
  let r := mkClient (context_ r) config (last_error_ r) (S (rd_calls r)) (rd_sent r) in
  let timeout := (Z.quot (re_timeout_ms config) 1000, Z.rem (re_timeout_ms config) 1000 * 1000) in
  match redisConnectWithTimeout (pred (rd_calls r)) (re_host config) (re_port config) timeout with
  | None => (false, set_error "redisConnectWithTimeout returned null" r)
  | Some ctx =>
      if negb (bool_decide (h_err ctx = EmptyString)) then (false, set_error (h_err ctx) r)
      else
        let r := mkClient (Some ctx) (config_ r) (last_error_ r) (rd_calls r) (rd_sent r) in
        if negb (bool_decide (re_password config = EmptyString)) then
          let '(reply, r) := command_on ["AUTH"; re_password config]%string r in
          let '(ok, r) := check_status reply r in
          if negb ok then (false, close r) else (true, r)
        else (true, r)
  end.

Definition reconnect (r : RedisClient) : bool * RedisClient := connect (config_ r) r.

Definition integer_reply (reply : option redis_reply) : bool :=
  match reply with Some (ReplyInteger n) => 0 <=? n | _ => false end.

Definition hset (key field value : string) (r : RedisClient) : bool * RedisClient :=
  let '(reply, r) := command_on ["HSET"%string; key; field; value] r in (integer_reply reply, r).
Definition hget (key field : string) (r : RedisClient) : option string * RedisClient :=
  let '(reply, r) := command_on ["HGET"%string; key; field] r in (stringReply reply, r).
Definition hdel (key field : string) (r : RedisClient) : bool * RedisClient :=
  let '(reply, r) := command_on ["HDEL"%string; key; field] r in (integer_reply reply, r).
(** [score]: the text that the format [%f] gives. *)
Definition zadd (key score member : string) (r : RedisClient) : bool * RedisClient :=
  let '(reply, r) := command_on ["ZADD"%string; key; score; member] r in (integer_reply reply, r).
Definition zrange (key : string) (start stop : Z) (r : RedisClient) : list string * RedisClient :=
  let '(reply, r) := command_on ["ZRANGE"%string; key; to_string start; to_string stop] r in (arrayReply reply, r).

(** ** Authentication *)

(** With a password, a client that [connect] reports as connected has had its
    [AUTH] accepted, as the only command so far; and one that it reports as not
    connected sends nothing any more. *)
Lemma connect_authenticates config r ok r' :
  connect config r = (ok, r') ->
  if ok then exists c, context_ r' = Some c /\
      (re_password config <> EmptyString ->
         rd_sent r' = rd_sent r ++ [["AUTH"%string; re_password config]] /\
         exists n c0, redisvCommand n ["AUTH"%string; re_password config] c0 = (Some (ReplyStatus "OK"), c))
  else context_ r' = None /\ forall argv, rd_sent (command_on argv r').2 = rd_sent r' /\ (command_on argv r').1 = None.
Proof.
  assert (forall r0 argv, context_ r0 = None -> rd_sent (command_on argv r0).2 = rd_sent r0 /\ (command_on argv r0).1 = None) as Hn.
  { intros r0 argv H0. unfold command_on. by rewrite H0. }
  assert (context_ (close r) = None /\ rd_sent (close r) = rd_sent r) as [Hc Hs] by (unfold close; destruct (context_ r) eqn:Hcr; by rewrite ?Hcr).
  unfold connect. destruct (redisConnectWithTimeout _ _ _ _) as [ctx|]; [|intros [= <- <-]; cbn; rewrite Hc; auto].
  destruct (negb (bool_decide (h_err ctx = EmptyString))); [intros [= <- <-]; cbn; rewrite Hc; auto|].
  case_bool_decide as Hp; cbn [negb]; [intros [= <- <-]; cbn; eauto; by eexists|].
  destruct (command_on _ _) as [reply r1] eqn:Hcmd. unfold command_on in Hcmd. cbn in Hcmd.
  destruct (redisvCommand _ _ ctx) as [rep c] eqn:Hrv.
  destruct rep as [rep|]; [injection Hcmd as <- <-|injection Hcmd as <- <-; intros [= <- <-]; cbn; auto].
  destruct (check_status (Some rep) _) as [ok1 r2] eqn:Hck. destruct ok1; cbn [negb]; intros [= <- <-].
  - destruct rep; cbn in Hck; try done. injection Hck as Ht <-. apply bool_decide_eq_true in Ht as ->. exists c. cbn. split; [done|].
    intros _. rewrite Hs. split; [done|]. by exists (S (rd_calls (close r))), ctx.
  - assert (context_ r2 = Some c) as H2 by (destruct rep; cbn in Hck; by simplify_eq).
    unfold close. rewrite H2. cbn. auto.
Qed.

(** ** A lost connection *)

(** The commands, one after the other. *)
Fixpoint commands (l : list (list string)) (r : RedisClient) : list (option redis_reply) * RedisClient :=
  match l with
  | [] => ([], r)
  | argv :: l => let '(reply, r) := command_on argv r in let '(replies, r) := commands l r in (reply :: replies, r)
  end.

Context `{!HiredisLaws _}.

Definition dead (r : RedisClient) : Prop := match context_ r with Some c => h_err c <> EmptyString | None => True end.

Lemma dead_command argv r : dead r -> (command_on argv r).1 = None /\ dead (command_on argv r).2.
Proof.
  unfold dead, command_on. destruct (context_ r) as [c|] eqn:Hc; [|cbn; by rewrite Hc]. intros He.
  by rewrite (error_stays _ _ _ He).
Qed.

(** After a command that got no reply, no command gets one: the client does
    not connect again by itself. *)
Theorem lost_connection_stays_lost (argv : list string) (later : list (list string)) (r r1 : RedisClient) :
  command_on argv r = (None, r1) -> (commands later r1).1 = replicate (length later) None.
Proof.
  intros H1. assert (dead r1) as Hd.
  { unfold command_on in H1. destruct (context_ r) as [c|] eqn:Hc; [|by injection H1 as <-; unfold dead; cbn; rewrite Hc].
    destruct (redisvCommand _ _ c) as [[rep|] c'] eqn:Hr; [done|]. injection H1 as <-. unfold dead. cbn. by eapply no_reply_error. }
  clear H1. revert r1 Hd. induction later as [|a later IH]; intros r1 Hd; [done|]. cbn [commands length replicate].
  destruct (dead_command a r1 Hd) as [Hn Hd']. destruct (command_on a r1) as [reply r2]. cbn in *. subst reply.
  specialize (IH r2 Hd'). destruct (commands later r2). cbn in *. by rewrite IH.
Qed.
End Client.

(** ** A library for which the laws hold: the connection breaks at the second
    command. *)
Definition breaking : Hiredis := {|
  redisContext := string;
  h_err := fun c => c;
  redisConnectWithTimeout _ _ _ _ := Some EmptyString;
  redisvCommand n _ c :=
    if negb (bool_decide (c = EmptyString)) then (None, c)
    else if Nat.eqb n 2 then (None, "Server closed the connection"%string) else (Some (ReplyStatus "OK"), c)
|}.

#[global] Instance breaking_laws : HiredisLaws breaking.
Proof.
  split; cbn; intros n argv c; [|intros Hc; by rewrite bool_decide_eq_false_2].
  intros c' Hr. case_bool_decide; cbn in Hr; [destruct (Nat.eqb n 2); by simplify_eq|by simplify_eq].
Qed.

Definition connected : RedisClient (H := breaking) := (connect (H := breaking) (mkRedisConfig "redis" 6379 3000 "secret") RedisClient_new).2.

Lemma lost_connection_stays_lost_witness :
  context_ connected = Some EmptyString /\
  (commands [["GET"; "b"]; ["PING"]]%string (command_on ["GET"; "a"]%string connected).2).1 = [None; None].
Proof.
  split; [reflexivity|].
  apply (lost_connection_stays_lost (H := breaking) ["GET"; "a"]%string [["GET"; "b"]; ["PING"]]%string connected). reflexivity.
Defined.
