(* ===== verification/Results.v ===== *)
(** * Rows of a query

    common/db/MySqlResult.cpp: a cursor over the rows the library has stored, and
    the columns of the current row read as text or as numbers.  The tables of
    this development hold numbers where the database sends text; here is why
    nothing is lost on the way. *)

From S2P Require Import Prelude Words Text Config.
Local Open Scope Z_scope.

(** What [mysql_store_result] hands over: the names of the columns, and rows
    with a text or [NULL] for each. *)
Record MYSQL_RES := mkRes { res_fields : list string; res_rows : list (list (option string)) }.

(** [rest]: the rows [mysql_fetch_row] has not given yet. *)
Record MySqlResult := mkResult {
  result_ : option MYSQL_RES; current_row_ : option (list (option string)); rest : list (list (option string));
  field_index_ : gmap string nat
}.

(** A name that occurs twice stands for its last column. *)
Fixpoint index_fields (i : nat) (fields : list string) (index : gmap string nat) : gmap string nat :=
  match fields with [] => index | f :: fields => index_fields (S i) fields (<[f := i]> index) end.

Definition buildFieldIndex (result : option MYSQL_RES) : gmap string nat :=
  match result with None => ∅ | Some r => index_fields 0 (res_fields r) ∅ end.

Definition MySqlResult_new (result : option MYSQL_RES) : MySqlResult :=
  mkResult result None (match result with Some r => res_rows r | None => [] end) (buildFieldIndex result).

Definition next (r : MySqlResult) : bool * MySqlResult :=
  match result_ r with
  | None => (false, r)
  | Some _ =>
      match rest r with
      | [] => (false, mkResult (result_ r) None [] (field_index_ r))
      | row :: rest => (true, mkResult (result_ r) (Some row) rest (field_index_ r))
      end
  end.

(** A null pointer is [None]; the library gives rows as long as the fields. *)
Definition value (r : MySqlResult) (column : string) : option string :=
  row ← current_row_ r; i ← field_index_ r !! column; v ← row !! i; v.

Definition column_string (r : MySqlResult) (column : string) : string := default EmptyString (value r column).
Definition isNull (r : MySqlResult) (column : string) : bool := negb (is_some (value r column)).
Definition rowCount (r : MySqlResult) : nat := match result_ r with None => 0 | Some res => length (res_rows res) end.

(** [strtoll] and [strtoull]: the value of the digits after blanks and a sign,
    the nearest number of the type when it does not fit, and 0 without digits. *)
Definition signed_text (s : string) : bool * string :=
  match skip_spaces s with String "-" s' => (true, s') | String "+" s' => (false, s') | s' => (false, s') end.

Definition strtoll (s : string) : Z :=
  let '(neg, s) := signed_text s in
  let v := if neg then - dec_value 0 s else dec_value 0 s in
  Z.max (-9223372036854775808) (Z.min 9223372036854775807 v).

Definition strtoull (s : string) : Z :=
  let '(neg, s) := signed_text s in
  let v := dec_value 0 s in
  if 18446744073709551615 <? v then 18446744073709551615 else if neg then u64 (- v) else v.

Definition column_int (r : MySqlResult) (column : string) : Z := s32 (strtoll (column_string r column)).
Definition column_uint64 (r : MySqlResult) (column : string) : Z := strtoull (column_string r column).
Definition column_int64 (r : MySqlResult) (column : string) : Z := strtoll (column_string r column).

(** ** Numbers come back *)

Lemma digit_first s c s' : string_all is_digit s = true -> s = String c s' -> signed_text s = (false, s).
Proof.
  intros Hs ->. cbn [string_all] in Hs. apply andb_prop in Hs as [Hc _]. destruct (is_digit_cases c Hc) as (Hsp&Hm&Hp&_).
  unfold signed_text. cbn [skip_spaces]. rewrite Hsp. by destruct c as [[] [] [] [] [] [] [] []].
Qed.

Lemma signed_nonneg x : 0 <= x -> signed_text (to_string x) = (false, to_string x) /\ dec_value 0 (to_string x) = x.
Proof.
  intros Hx. split; [|by apply dec_value_to_string]. pose proof (to_string_digits x Hx) as Hd. pose proof (to_string_nonempty x).
  destruct (to_string x) as [|c s] eqn:E; [done|]. by eapply digit_first.
Qed.

Lemma strtoull_back x : is_u64 x -> strtoull (to_string x) = x.
Proof.
  intros [H0 H1]. unfold strtoull. destruct (signed_nonneg x H0) as [-> ->]. destruct (Z.ltb_spec 18446744073709551615 x); lia.
Qed.

Lemma strtoll_back x : is_int64 x -> strtoll (to_string x) = x.
Proof.
  unfold is_int64. intros Hx. unfold strtoll. destruct (decide (0 <= x)) as [H0|H0].
  - destruct (signed_nonneg x H0) as [-> ->]. lia.
  - rewrite to_string_neg by lia. change (signed_text (String "-" (to_string (- x)))) with (true, to_string (- x)). cbv beta iota zeta.
    rewrite dec_value_to_string by lia. lia.
Qed.

Lemma s32_int x : is_int x -> s32 x = x.
Proof. unfold is_int, s32. intros. rewrite Z.mod_small; lia. Qed.

(** ** Rows come in order *)

(** The rows that repeated [next] makes current, and the cursor afterwards. *)
Fixpoint walk_rows (fuel : nat) (r : MySqlResult) : list (option (list (option string))) * MySqlResult :=
  match fuel with
  | O => ([], r)
  | S fuel => let '(more, r) := next r in
              if more then let '(rows, r') := walk_rows fuel r in (current_row_ r :: rows, r') else ([], r)
  end.

Lemma walk_all_rows res index cur l fuel : (length l < fuel)%nat ->
  walk_rows fuel (mkResult (Some res) cur l index) = (Some <$> l, mkResult (Some res) None [] index).
Proof.
  revert cur fuel. induction l as [|row l IH]; intros cur [|fuel] Hf; try (cbn in Hf; lia); [done|].
  cbn [walk_rows next result_ rest]. rewrite IH by (cbn in Hf; lia). done.
Qed.

Lemma index_fields_other i fields index f : f ∉ fields -> index_fields i fields index !! f = index !! f.
Proof.
  revert i index. induction fields as [|g fields IH]; intros i index Hf; [done|]. cbn. rewrite not_elem_of_cons in Hf. destruct Hf.
  rewrite IH by done. by rewrite lookup_insert_ne.
Qed.

Lemma index_fields_lookup i fields index j f : NoDup fields -> fields !! j = Some f -> index_fields i fields index !! f = Some (i + j)%nat.
Proof.
  intros Hd. revert i index j. induction Hd as [|g fields Hg _ IH]; intros i index [|j] Hj; try done; cbn in *.
  - simplify_eq. rewrite index_fields_other, lookup_insert_eq by done. f_equal. lia.
  - rewrite (IH (S i) _ j Hj). f_equal. lia.
Qed.

(** A cursor goes through the rows once and in order; in each, a column that
    was written as a number is read as that number, whether signed or unsigned,
    text is read as it is, and NULL as the empty text. *)
Theorem rows_read_as_written (res : MYSQL_RES) (fuel : nat) (j : nat) (column : string) (row : list (option string)) :
  NoDup (res_fields res) -> (length (res_rows res) < fuel)%nat -> res_fields res !! j = Some column ->
  walk_rows fuel (MySqlResult_new (Some res)) = (Some <$> res_rows res, mkResult (Some res) None [] (buildFieldIndex (Some res))) /\
  let r := mkResult (Some res) (Some row) [] (buildFieldIndex (Some res)) in
  (forall s, row !! j = Some (Some s) -> column_string r column = s /\ isNull r column = false) /\
  (row !! j = Some None -> column_string r column = EmptyString /\ isNull r column = true) /\
  (forall x, row !! j = Some (Some (to_string x)) ->
     (is_u64 x -> column_uint64 r column = x) /\ (is_int64 x -> column_int64 r column = x) /\ (is_int x -> column_int r column = x)).
Proof.
  intros Hd Hf Hj. split; [by apply walk_all_rows|]. cbn zeta.
  assert (forall v, row !! j = Some v -> value (mkResult (Some res) (Some row) [] (buildFieldIndex (Some res))) column = v) as Hv.
  { intros v H. unfold value. cbn. rewrite (index_fields_lookup 0 _ _ j column Hd Hj). cbn. by rewrite H. }
  split_and!.
  - intros s Hs. unfold column_string, isNull. by rewrite (Hv _ Hs).
  - intros Hs. unfold column_string, isNull. by rewrite (Hv _ Hs).
  - intros x Hx. unfold column_uint64, column_int64, column_int, column_string. rewrite (Hv _ Hx). cbn [default from_option id].
    split_and!; [apply strtoull_back|apply strtoll_back|]. intros Hi. rewrite strtoll_back by (unfold is_int, is_int64 in *; lia). by apply s32_int.
Qed.

Definition two_rows : MYSQL_RES := mkRes ["id"; "name"]%string [[Some "7"%string; Some "ann"%string]; [Some "18446744073709551615"%string; None]].

Lemma rows_read_as_written_witness :
  walk_rows 3 (MySqlResult_new (Some two_rows)) = (Some <$> res_rows two_rows, mkResult (Some two_rows) None [] (buildFieldIndex (Some two_rows))).
Proof.
  apply (rows_read_as_written two_rows 3 0%nat "id" []); [vm_compute; repeat constructor; by set_solver|cbn; lia|reflexivity].
Defined.
