(* ===== verification/Credentials.v ===== *)
(** * Credentials: who may connect to whom, and how

    common/rpc/GrpcTlsCredentials.cpp, GrpcClient.cpp and GrpcServer.cpp,
    common/tls/TlsConfig.cpp and TlsContext.cpp, the inits of
    GatewayBackendClients.cpp and GatewayClientManager.cpp, and the internal
    token of InternalRpcAuth.cpp as it travels with RpcMetadata.cpp.  The files
    are a parameter: what the [n]-th attempt to read a path gives; so are gRPC's
    builder and OpenSSL. *)

From S2P Require Import Prelude Words Text Rpc Spans Config Breaker Push.
Local Open Scope Z_scope.

(** ** Files *)

Section Files.
(** The content that the [n]-th open of a path finds, if any. *)
Context (files : nat -> string -> option string).

(** [readFile]: the content or the error; the state counts the opens. *)
Definition readFile (path : string) : SM nat (string + string) := fun n =>
  if bool_decide (path = EmptyString) then Some (inr "empty certificate path"%string, n)
  else match files n path with
       | None => Some (inr ("failed to open certificate file: " +:+ path), S n)
       | Some content => Some (inl content, S n)
       end.

(** [readFile] where the result is not looked at: the text stays empty. *)
Definition read_or_empty (path : string) : SM nat string :=
  r ← readFile path; mret (match r with inl content => content | inr _ => EmptyString end).

(** [if (error && error->empty()) *error = text] *)
Definition unless_set (error text : string) : string := if bool_decide (error = EmptyString) then text else error.

(** ** GrpcTlsCredentials *)

Record GrpcTlsConfig := mkGrpcTls {
  gt_enabled : bool; gt_require_client_auth : bool; gt_ca_cert_path : string; gt_server_cert_path : string;
  gt_server_key_path : string; gt_client_cert_path : string; gt_client_key_path : string; gt_target_name_override : string
}.

Definition GrpcTlsConfig_default : GrpcTlsConfig :=
  mkGrpcTls false false EmptyString EmptyString EmptyString EmptyString EmptyString EmptyString.

Definition grpc_fromConfig (config : Config) (prefix : string) : GrpcTlsConfig :=
  mkGrpcTls (getBool config (prefix +:+ "enabled") false) (getBool config (prefix +:+ "require_client_auth") false)
    (getString config (prefix +:+ "ca_cert_path") EmptyString) (getString config (prefix +:+ "server_cert_path") EmptyString)
    (getString config (prefix +:+ "server_key_path") EmptyString) (getString config (prefix +:+ "client_cert_path") EmptyString)
    (getString config (prefix +:+ "client_key_path") EmptyString) (getString config (prefix +:+ "target_name_override") EmptyString).

(** The error, if the configuration is refused. *)
Definition validateForServer (c : GrpcTlsConfig) : SM nat (option string) :=
  if negb (gt_enabled c) then mret None
  else
    cert ← readFile (gt_server_cert_path c);
    match cert with
    | inr e => mret (Some (unless_set e "grpc tls server certificate is not readable"))
    | inl _ =>
        key ← readFile (gt_server_key_path c);
        match key with
        | inr e => mret (Some (unless_set e "grpc tls server private key is not readable"))
        | inl _ =>
            if gt_require_client_auth c then
              ca ← readFile (gt_ca_cert_path c);
              match ca with
              | inr e => mret (Some (unless_set e "grpc tls CA certificate is required for client auth"))
              | inl _ => mret None
              end
            else mret None
        end
    end.

Definition validateForClient (c : GrpcTlsConfig) : SM nat (option string) :=
  if negb (gt_enabled c) then mret None
  else
    ca ← (if bool_decide (gt_ca_cert_path c = EmptyString) then mret (inl EmptyString) else readFile (gt_ca_cert_path c));
    match ca with
    | inr e => mret (Some e)
    | inl _ =>
        let has_client_cert := negb (bool_decide (gt_client_cert_path c = EmptyString)) || negb (bool_decide (gt_client_key_path c = EmptyString)) in
        if has_client_cert then
          cert ← readFile (gt_client_cert_path c);
          match cert with
          | inr e => mret (Some (unless_set e "grpc tls client certificate is not readable"))
          | inl _ =>
              key ← readFile (gt_client_key_path c);
              match key with
              | inr e => mret (Some (unless_set e "grpc tls client private key is not readable"))
              | inl _ => mret None
              end
          end
        else mret None
    end.

Inductive ServerCredentials :=
| InsecureServerCredentials
| SslServerCredentials (private_key cert_chain root_certs : string) (require_client_certificate : bool).

Definition serverCredentials (c : GrpcTlsConfig) : SM nat (option ServerCredentials) :=
  if negb (gt_enabled c) then mret (Some InsecureServerCredentials)
  else
    error ← validateForServer c;
    match error with
    | Some _ => mret None
    | None =>
        cert_chain ← read_or_empty (gt_server_cert_path c);
        private_key ← read_or_empty (gt_server_key_path c);
        root_certs ← (if bool_decide (gt_ca_cert_path c = EmptyString) then mret EmptyString else read_or_empty (gt_ca_cert_path c));
        mret (Some (SslServerCredentials private_key cert_chain root_certs (gt_require_client_auth c)))
    end.

Inductive ChannelCredentials :=
| InsecureChannelCredentials
| SslCredentials (root_certs cert_chain private_key : string).

Definition channelCredentials (c : GrpcTlsConfig) : SM nat (option ChannelCredentials) :=
  if negb (gt_enabled c) then mret (Some InsecureChannelCredentials)
  else
    error ← validateForClient c;
    match error with
    | Some _ => mret None
    | None =>
        roots ← (if bool_decide (gt_ca_cert_path c = EmptyString) then mret EmptyString else read_or_empty (gt_ca_cert_path c));
        cert ← (if bool_decide (gt_client_cert_path c = EmptyString) then mret EmptyString else read_or_empty (gt_client_cert_path c));
        key ← (if bool_decide (gt_client_key_path c = EmptyString) then mret EmptyString else read_or_empty (gt_client_key_path c));
        mret (Some (SslCredentials roots cert key))
    end.

(** A channel: its address, credentials and the name expected in the
    certificate, if one is set. *)
Record Channel := mkChannel { ch_address : string; ch_credentials : ChannelCredentials; ch_override : option string }.

Definition createChannel (address : string) (c : GrpcTlsConfig) : SM nat (option Channel) :=
  credentials ← channelCredentials c;
  match credentials with
  | None => mret None
  | Some credentials =>
      mret (Some (mkChannel address credentials
        (if gt_enabled c && negb (bool_decide (gt_target_name_override c = EmptyString)) then Some (gt_target_name_override c) else None)))
  end.

(** ** GrpcServer *)

(** [start]: the address and credentials it listens with; [build] says whether
    [BuildAndStart] succeeds. *)
Definition GrpcServer_start (build : string -> ServerCredentials -> bool) (service_ : bool) (address_ : string) (c : GrpcTlsConfig)
    : SM nat (option (string * ServerCredentials)) :=
  if negb service_ then mret None
  else
    credentials ← serverCredentials c;
    match credentials with
    | None => mret None
    | Some credentials => mret (if build address_ credentials then Some (address_, credentials) else None)
    end.

(** ** The backend clients of the gateway *)

Record GatewayBackendClients := mkBackends { user_stub_ : Channel; message_stub_ : Channel; relation_stub_ : Channel; push_stub_ : Channel }.

Definition init_addresses (user message relation push : string) (c : GrpcTlsConfig) : SM nat (option GatewayBackendClients) :=
  user_channel ← createChannel user c;
  message_channel ← createChannel message c;
  relation_channel ← createChannel relation c;
  push_channel ← createChannel push c;
  mret (match user_channel, message_channel, relation_channel, push_channel with
        | Some u, Some m, Some r, Some p => Some (mkBackends u m r p)
        | _, _, _, _ => None
        end).

(** An exception of [pick] makes [init] answer false; in which order the four
    services are picked is not said, and makes no difference. *)
Definition backends_init (resolver : StaticServiceResolver) (c : GrpcTlsConfig) : SM nat (option GatewayBackendClients * StaticServiceResolver) :=
  let '(user, r) := pick "user_service" resolver in
  let '(message, r) := pick "message_service" r in
  let '(relation, r) := pick "relation_service" r in
  let '(push, r) := pick "push_service" r in
  match user, message, relation, push with
  | inl user, inl message, inl relation, inl push =>
      result ← init_addresses (address user) (address message) (address relation) (address push) c; mret (result, r)
  | _, _, _, _ => mret (None, r)
  end.

(** ** GatewayClientManager *)

(** The constructor of [GatewayClient], with the default circuit breaker. *)
Definition GatewayClient_new (address : string) (c : GrpcTlsConfig) : SM nat GatewayClient :=
  channel ← createChannel address c; mret (mkGatewayClient (is_some channel) (CircuitBreaker_new 5 30000)).

Definition addGateway (gateway_id address : string) (c : GrpcTlsConfig) (clients : gmap string GatewayClient) : SM nat (gmap string GatewayClient) :=
  client ← GatewayClient_new address c; mret (<[gateway_id := client]> clients).

Fixpoint add_healthy (instances : list ServiceInstance) (c : GrpcTlsConfig) (clients : gmap string GatewayClient) : SM nat (gmap string GatewayClient) :=
  match instances with
  | [] => mret clients
  | instance :: rest =>
      clients ← (if healthy instance
                 then addGateway (if bool_decide (instance_id instance = EmptyString) then service_name instance else instance_id instance)
                        (address instance) c clients
                 else mret clients);
      add_healthy rest c clients
  end.

Definition initFromResolver (resolver : StaticServiceResolver) (c : GrpcTlsConfig) (clients : gmap string GatewayClient)
    : SM nat (bool * gmap string GatewayClient) :=
  clients ← add_healthy (resolve "gateway" resolver) c clients;
  mret (negb (bool_decide (clients = ∅)), clients).

Definition getClient (gateway_id : string) (clients : gmap string GatewayClient) : option GatewayClient := clients !! gateway_id.
End Files.

(** ** TLS of the gateway's TCP port *)

Record TlsConfig := mkTls { tl_enabled : bool; tl_require_client_auth : bool; tl_ca_cert_path : string; tl_cert_path : string; tl_key_path : string }.

Definition tls_fromConfig (config : Config) (prefix : string) : TlsConfig :=
  mkTls (getBool config (prefix +:+ "enabled") false) (getBool config (prefix +:+ "require_client_auth") false)
    (getString config (prefix +:+ "ca_cert_path") EmptyString) (getString config (prefix +:+ "cert_path") EmptyString)
    (getString config (prefix +:+ "key_path") EmptyString).

Section Tls.
(** Whether the [n]-th open of a path succeeds. *)
Context (opens : nat -> string -> bool).

Definition canReadFile (path : string) : SM nat (option string) := fun n =>
  if bool_decide (path = EmptyString) then Some (Some "empty file path"%string, n)
  else if opens n path then Some (None, S n) else Some (Some ("failed to open file: " +:+ path), S n).

Definition validateServerConfig (c : TlsConfig) : SM nat (option string) :=
  if negb (tl_enabled c) then mret None
  else
    cert ← canReadFile (tl_cert_path c);
    match cert with
    | Some e => mret (Some (unless_set e "server certificate is not readable"))
    | None =>
        key ← canReadFile (tl_key_path c);
        match key with
        | Some e => mret (Some (unless_set e "server private key is not readable"))
        | None =>
            if tl_require_client_auth c then
              ca ← canReadFile (tl_ca_cert_path c);
              mret (match ca with Some e => Some (unless_set e "CA certificate is required for client authentication") | None => None end)
            else mret None
        end
    end.

(** What OpenSSL answers to each call: the text of its error queue when it
    fails. *)
Record OpenSsl := mkOpenSsl {
  ssl_ctx_new : option string; ssl_use_certificate : string -> option string; ssl_use_key : string -> option string;
  ssl_check_key : bool; ssl_load_ca : string -> option string
}.

(** A server context as the calls of [createServer] configure it. *)
Record SSL_CTX := mkCtx {
  cx_min_proto : Z; cx_no_compression : bool; cx_cert : string; cx_key : string; cx_ca : option string;
  cx_verify_peer : bool; cx_fail_if_no_peer_cert : bool
}.

(** [TLS1_2_VERSION] *)
Definition tls12 : Z := 771.

(** [createServer]: the context, or the error ([EmptyString] when TLS is off). *)
Definition createServer (ssl : OpenSsl) (c : TlsConfig) : SM nat (SSL_CTX + string) :=
  if negb (tl_enabled c) then mret (inr EmptyString)
  else
    invalid ← validateServerConfig c;
    mret (match invalid with
          | Some e => inr e
          | None =>
              match ssl_ctx_new ssl with
              | Some e => inr ("SSL_CTX_new failed: " +:+ e)
              | None =>
                  match ssl_use_certificate ssl (tl_cert_path c), ssl_use_key ssl (tl_key_path c) with
                  | Some e, _ => inr ("failed to load TLS certificate: " +:+ e)
                  | None, Some e => inr ("failed to load TLS private key: " +:+ e)
                  | None, None =>
                      if negb (ssl_check_key ssl) then inr "TLS certificate and private key do not match"%string
                      else
                        let ca := if bool_decide (tl_ca_cert_path c = EmptyString) then inl None
                                  else match ssl_load_ca ssl (tl_ca_cert_path c) with
                                       | Some e => inr ("failed to load TLS CA certificate: " +:+ e)
                                       | None => inl (Some (tl_ca_cert_path c))
                                       end in
                        match ca with
                        | inr e => inr e
                        | inl ca => inl (mkCtx tls12 true (tl_cert_path c) (tl_key_path c) ca (tl_require_client_auth c) (tl_require_client_auth c))
                        end
                  end
              end
          end).
End Tls.

(** ** The internal token *)

(** [configureFromConfig] *)
Definition configureFromConfig (config : Config) : InternalRpcAuth :=
  mkInternalRpcAuth (getBool config "internal_rpc.auth.enabled" false) (getString config "internal_rpc.auth.token" EmptyString)
    (getString config "internal_rpc.auth.token_sha256" EmptyString).

(** The metadata of a call, as [AddMetadata] collects it. *)
Definition inject_metadata (key value : string) (context : list (string * string)) : list (string * string) :=
  if negb (bool_decide (value = EmptyString)) then context ++ [(key, value)] else context.
Definition injectTraceId (trace_id : string) := inject_metadata "x-nebula-trace-id" trace_id.
Definition injectAdminToken (token : string) := inject_metadata "x-nebula-admin-token" token.
Definition injectInternalToken (token : string) := inject_metadata "x-nebula-internal-token" token.

Definition inject (auth : InternalRpcAuth) (context : list (string * string)) : list (string * string) :=
  if negb (ira_enabled auth) || bool_decide (ira_token auth = EmptyString) then context else injectInternalToken (ira_token auth) context.

(** [sha256Hex] over the digest that OpenSSL computes; [None]: a call failed. *)
Definition sha256Hex (digest : string -> option (list Z)) (value : string) : string :=
  match digest value with
  | None => EmptyString
  | Some bytes => foldr (fun b out => put_hex 2 (u8 b) out) EmptyString bytes
  end.

(** ** No plaintext where TLS is configured *)

Definition secure (ch : Channel) : Prop := exists roots cert key, ch_credentials ch = SslCredentials roots cert key.

Section Exact.
Context (files : nat -> string -> option string).

Lemma server_credentials_secure c n cr n' :
  gt_enabled c = true -> serverCredentials files c n = Some (Some cr, n') ->
  exists key cert roots, cr = SslServerCredentials key cert roots (gt_require_client_auth c).
Proof.
  unfold serverCredentials. intros -> H. cbn [negb] in H. apply run_bind_Some in H as (error&n1&_&H).
  destruct error; [done|]. apply run_bind_Some in H as (cert&n2&_&H). apply run_bind_Some in H as (key&n3&_&H).
  apply run_bind_Some in H as (roots&n4&_&H). injection H as <- _. eauto.
Qed.

Lemma channel_secure address c n ch n' :
  gt_enabled c = true -> createChannel files address c n = Some (Some ch, n') -> secure ch /\ ch_address ch = address.
Proof.
  unfold createChannel, channelCredentials. intros -> H. cbn [negb] in H. apply run_bind_Some in H as (cr&n1&H1&H).
  apply run_bind_Some in H1 as (error&n2&_&H1). destruct error; [injection H1 as <- _; done|].
  apply run_bind_Some in H1 as (roots&n3&_&H1). apply run_bind_Some in H1 as (cert&n4&_&H1). apply run_bind_Some in H1 as (key&n5&_&H1).
  injection H1 as <- _. injection H as <- _. split; [by exists roots, cert, key|done].
Qed.

Lemma backends_secure resolver c n b r n' :
  gt_enabled c = true -> backends_init files resolver c n = Some ((Some b, r), n') ->
  secure (user_stub_ b) /\ secure (message_stub_ b) /\ secure (relation_stub_ b) /\ secure (push_stub_ b).
Proof.
  intros He. unfold backends_init. destruct (pick _ _) as [[u|] r1], (pick _ r1) as [[m|] r2], (pick _ r2) as [[l|] r3], (pick _ r3) as [[p|] r4]; try done.
  intros H. apply run_bind_Some in H as (res&n1&H1&H). injection H as -> _ _. unfold init_addresses in H1.
  apply run_bind_Some in H1 as (c1&m1&E1&H1). apply run_bind_Some in H1 as (c2&m2&E2&H1).
  apply run_bind_Some in H1 as (c3&m3&E3&H1). apply run_bind_Some in H1 as (c4&m4&E4&H1).
  destruct c1, c2, c3, c4; try done. injection H1 as <- _. cbn. split_and!; by eapply channel_secure.
Qed.

(** While the files do not change, a path has one content. *)
Section Stable.
Context (f : string -> option string) (stable : forall i p, files i p = f p).
Let readable p := if bool_decide (p = EmptyString) then None else f p.

Lemma readFile_stable p n : exists e n', readFile files p n = Some (match readable p with Some x => inl x | None => inr e end, n').
Proof.
  unfold readFile, readable. case_bool_decide; [by eexists _, _|]. rewrite stable.
  exists ("failed to open certificate file: " +:+ p), (S n). by destruct (f p).
Qed.

Lemma read_or_empty_stable p n : exists n', read_or_empty files p n = Some (default EmptyString (readable p), n').
Proof.
  unfold read_or_empty. destruct (readFile_stable p n) as (e&n1&E1). rewrite run_bind, E1. exists n1. by destruct (readable p).
Qed.

Lemma stable_validate c n : gt_enabled c = true ->
  exists e n', validateForServer files c n =
    Some (if is_some (readable (gt_server_cert_path c)) && is_some (readable (gt_server_key_path c)) &&
             (negb (gt_require_client_auth c) || is_some (readable (gt_ca_cert_path c))) then None else Some e, n').
Proof.
  intros He. unfold validateForServer. rewrite He. cbn [negb]. destruct (readFile_stable (gt_server_cert_path c) n) as (e1&n1&E1).
  rewrite run_bind, E1. destruct (readable (gt_server_cert_path c)); [|by eexists _, _].
  destruct (readFile_stable (gt_server_key_path c) n1) as (e2&n2&E2). rewrite run_bind, E2. destruct (readable (gt_server_key_path c)); [|by eexists _, _].
  destruct (gt_require_client_auth c); [|by exists EmptyString, n2].
  destruct (readFile_stable (gt_ca_cert_path c) n2) as (e3&n3&E3). rewrite run_bind, E3. destruct (readable (gt_ca_cert_path c)); [by exists EmptyString, n3|by eexists _, _].
Qed.

Lemma stable_credentials c n : gt_enabled c = true ->
  fst <$> serverCredentials files c n =
  Some (match readable (gt_server_cert_path c), readable (gt_server_key_path c) with
        | Some cert, Some key =>
            if gt_require_client_auth c && negb (is_some (readable (gt_ca_cert_path c))) then None
            else Some (SslServerCredentials key cert (default EmptyString (readable (gt_ca_cert_path c))) (gt_require_client_auth c))
        | _, _ => None
        end).
Proof.
  intros He. unfold serverCredentials. destruct (stable_validate c n He) as (e&n1&E1). rewrite He. cbn [negb]. rewrite run_bind, E1.
  destruct (read_or_empty_stable (gt_server_cert_path c) n1) as (n2&E2). destruct (read_or_empty_stable (gt_server_key_path c) n2) as (n3&E3).
  assert (exists n4, (if bool_decide (gt_ca_cert_path c = EmptyString) then mret EmptyString else read_or_empty files (gt_ca_cert_path c)) n3 =
    Some (default EmptyString (readable (gt_ca_cert_path c)), n4)) as (n4&E4).
  { case_bool_decide as Hc; [|apply read_or_empty_stable]. exists n3. unfold readable. by rewrite Hc. }
  destruct (readable (gt_server_cert_path c)) as [cert|]; [|done]. destruct (readable (gt_server_key_path c)) as [key|]; [|done]. cbn [is_some andb].
  destruct (gt_require_client_auth c), (readable (gt_ca_cert_path c)); cbn [is_some negb andb orb]; try done; by rewrite !run_bind, E2, !run_bind, E3, !run_bind, E4.
Qed.
End Stable.

(** With TLS switched on, nothing falls back to plaintext, whatever happens
    to the files: a server that starts listens with a key and a certificate and
    asks for client certificates as configured, and the channels to the
    backends use TLS.  While the files do not change, the credentials are made
    of their contents, and refused exactly when a file that is needed cannot
    be read. *)
Theorem tls_is_not_downgraded (c : GrpcTlsConfig) (n : nat) :
  gt_enabled c = true ->
  (forall build service addr r n', GrpcServer_start files build service addr c n = Some (Some r, n') ->
     exists key cert roots, r = (addr, SslServerCredentials key cert roots (gt_require_client_auth c))) /\
  (forall resolver b r n', backends_init files resolver c n = Some ((Some b, r), n') ->
     secure (user_stub_ b) /\ secure (message_stub_ b) /\ secure (relation_stub_ b) /\ secure (push_stub_ b)) /\
  (forall f, (forall i p, files i p = f p) ->
     let readable p := if bool_decide (p = EmptyString) then None else f p in
     fst <$> serverCredentials files c n =
     Some (match readable (gt_server_cert_path c), readable (gt_server_key_path c) with
           | Some cert, Some key =>
               if gt_require_client_auth c && negb (is_some (readable (gt_ca_cert_path c))) then None
               else Some (SslServerCredentials key cert (default EmptyString (readable (gt_ca_cert_path c))) (gt_require_client_auth c))
           | _, _ => None
           end)).
Proof.
  intros He. split; [|split].
  - intros build service addr r n' H. unfold GrpcServer_start in H. destruct service; [|done]. cbn [negb] in H.
    apply run_bind_Some in H as (cr&n1&H1&H). destruct cr as [cr|]; [|done]. injection H as H _.
    destruct (server_credentials_secure c n cr n1 He H1) as (key&cert&roots&->). destruct (build _ _); [|done]. injection H as <-. eauto.
  - intros. by eapply backends_secure.
  - intros f Hf readable. by apply stable_credentials.
Qed.
End Exact.

Definition sample_tls : GrpcTlsConfig := mkGrpcTls true true "ca.pem" "server.pem" "server.key" EmptyString EmptyString EmptyString.
Definition sample_files (n : nat) (p : string) : option string := if bool_decide (p = "ca.pem"%string) then None else Some ("content of " +:+ p).

Lemma tls_is_not_downgraded_witness :
  gt_enabled sample_tls = true /\ fst <$> serverCredentials sample_files sample_tls 0%nat = Some None.
Proof.
  split; [reflexivity|]. destruct (tls_is_not_downgraded sample_files sample_tls 0%nat eq_refl) as (_&_&H).
  exact (H (sample_files 0%nat) (fun _ _ => eq_refl)).
Defined.

(** A context for the TCP port refuses old protocols, and peers without a
    certificate when one is required; it has an authority to check them
    against then. *)
Lemma tls_context_checks opens ssl c n ctx n' :
  createServer opens ssl c n = Some (inl ctx, n') ->
  cx_min_proto ctx = tls12 /\ cx_cert ctx = tl_cert_path c /\ cx_key ctx = tl_key_path c /\ ssl_check_key ssl = true /\
  cx_verify_peer ctx = tl_require_client_auth c /\ cx_fail_if_no_peer_cert ctx = tl_require_client_auth c /\
  (tl_require_client_auth c = true -> cx_ca ctx = Some (tl_ca_cert_path c)).
Proof.
  unfold createServer. destruct (tl_enabled c) eqn:He; [|done]. cbn [negb]. intros H. apply run_bind_Some in H as (invalid&n1&H1&H).
  injection H as H _. destruct invalid; [done|]. destruct (ssl_ctx_new ssl); [done|]. destruct (ssl_use_certificate ssl _); [done|].
  destruct (ssl_use_key ssl _); [done|]. destruct (ssl_check_key ssl); [|done].
  cbn [negb] in H. assert (tl_require_client_auth c = true -> tl_ca_cert_path c <> EmptyString) as Hca.
  { intros Hr. unfold validateServerConfig in H1. rewrite He, Hr in H1. cbn [negb] in H1.
    apply run_bind_Some in H1 as ([e|]&m1&_&H1); [done|]. apply run_bind_Some in H1 as ([e|]&m2&_&H1); [done|].
    apply run_bind_Some in H1 as (ca&m3&H2&H1). unfold canReadFile in H2. case_bool_decide; [|done]. injection H2 as <- _. done. }
  destruct (bool_decide (tl_ca_cert_path c = EmptyString)) eqn:Hb.
  - injection H as <-. cbn. bools. split_and!; try done. intros Hr. by destruct (Hca Hr).
  - destruct (ssl_load_ca ssl _); [done|]. injection H as <-. done.
Qed.

(** The manager of the gateway clients takes a gateway it cannot talk to for
    a client: with unreadable credentials it reports success, and every call
    of its clients fails. *)
Lemma clients_without_channels :
  let resolver := loadFromConfig Config_new StaticServiceResolver_new in
  let tls := mkGrpcTls true false "missing.pem" EmptyString EmptyString EmptyString EmptyString EmptyString in
  exists clients n, initFromResolver (fun _ _ => None) resolver tls ∅ 0%nat = Some ((true, clients), n) /\
    map_Forall (fun _ client => gc_stub client = false) clients /\
    backends_init (fun _ _ => None) resolver tls 0%nat ≫= (fun r => r.1.1) = None.
Proof.
  exists {["gateway-1"%string := mkGatewayClient false (CircuitBreaker_new 5 30000)]}, 1%nat.
  split; [vm_compute; reflexivity|]. split; [by apply map_Forall_singleton|vm_compute; reflexivity].
Qed.

(** ** The token travels *)

Lemma injected_token token context :
  Forall (fun kv => kv.1 <> "x-nebula-internal-token"%string) context -> token <> EmptyString ->
  extractInternalToken (mkContext (injectInternalToken token context)) = token /\
  extractInternalToken (mkContext context) = EmptyString.
Proof.
  intros Hc Ht. assert (list_find (fun kv : string * string => kv.1 = "x-nebula-internal-token"%string) context = None) as Hn.
  { apply list_find_None. eapply Forall_impl; [done|]. by intros kv H. }
  unfold extractInternalToken, getMetadata, injectInternalToken, inject_metadata. cbn [client_metadata].
  rewrite bool_decide_eq_false_2 by done. cbn [negb]. rewrite Hn. split; [|done].
  rewrite list_find_app_r by done. done.
Qed.

(** A call with the injected token is accepted exactly by a service that was
    given the same token, or its hash. *)
Lemma internal_token_accepted sha (caller callee : InternalRpcAuth) context :
  Forall (fun kv => kv.1 <> "x-nebula-internal-token"%string) context -> ira_enabled callee = true ->
  authorize sha callee (mkContext (inject caller context)) = true <->
  ira_enabled caller = true /\ ira_token caller <> EmptyString /\
  (if bool_decide (ira_token_sha256_hex callee = EmptyString) then ira_token caller = ira_token callee
   else sha (ira_token caller) = ira_token_sha256_hex callee).
Proof.
  intros Hc He. unfold authorize, inject. rewrite He. cbn [negb]. destruct (decide (ira_token caller = EmptyString)) as [Ht|Ht].
  - rewrite Ht, (bool_decide_eq_true_2 (EmptyString = EmptyString)), orb_true_r by done. rewrite (proj2 (injected_token "x" context Hc ltac:(done))), bool_decide_eq_true_2 by done.
    split; [done|]. by intros (_&?&_).
  - destruct (injected_token (ira_token caller) context Hc Ht) as [H1 H2]. rewrite (bool_decide_eq_false_2 _ Ht), orb_false_r.
    destruct (ira_enabled caller); cbn [negb].
    + rewrite H1, (bool_decide_eq_false_2 _ Ht). destruct (bool_decide (ira_token_sha256_hex callee = EmptyString)); cbn [negb].
      * rewrite andb_true_iff, negb_true_iff, bool_decide_eq_true, bool_decide_eq_false. split; [by intros [? ?]|]. intros (_&?&E). split; congruence.
      * rewrite bool_decide_eq_true. split; [done|]. by intros (_&_&?).
    + rewrite H2, bool_decide_eq_true_2 by done. split; [done|]. by intros [? _].
Qed.
