(* ===== verification/Startup.v ===== *)
(** * Processes: how they start and stop

    The inits of the contexts (gateway/src/GatewayContext.cpp,
    push_service/src/PushServiceContext.cpp,
    message_service/src/MessageServiceContext.cpp,
    admin_service/src/AdminServiceContext.cpp), the main function of the gateway,
    the life of the workers of the push service (PushWorker.cpp,
    KafkaConsumer.cpp), and the options they read.  What the parts answer to
    their init is a parameter where another file has their model. *)

From S2P Require Import Prelude Words Text Config.
Local Open Scope Z_scope.

(** ** KafkaConsumer *)

Record KafkaConsumerConfig := mkConsumerConfig {
  kc_brokers : string; kc_group_id : string; kc_client_id : string; kc_auto_offset_reset : string; kc_enable_auto_commit : bool;
  kc_session_timeout_ms : Z; kc_heartbeat_interval_ms : Z; kc_max_poll_interval_ms : Z; kc_fetch_wait_max_ms : Z
}.

Definition KafkaConsumerConfig_default : KafkaConsumerConfig :=
  mkConsumerConfig "127.0.0.1:9092" "nebula-consumer" "nebula-consumer-client" "earliest" false 6000 2000 300000 50.

(** The settings that [init] gives to the library, in turn. *)
Definition consumer_settings (c : KafkaConsumerConfig) : list (string * string) :=
  let auto := if kc_enable_auto_commit c then "true"%string else "false"%string in
  [("bootstrap.servers"%string, kc_brokers c); ("group.id"%string, kc_group_id c); ("client.id"%string, kc_client_id c);
   ("enable.auto.commit"%string, auto); ("enable.auto.offset.store"%string, auto);
   ("session.timeout.ms"%string, to_string (kc_session_timeout_ms c)); ("heartbeat.interval.ms"%string, to_string (kc_heartbeat_interval_ms c));
   ("max.poll.interval.ms"%string, to_string (kc_max_poll_interval_ms c)); ("fetch.wait.max.ms"%string, to_string (kc_fetch_wait_max_ms c));
   ("auto.offset.reset"%string, kc_auto_offset_reset c)].

(** librdkafka: whether it takes a setting, creates a consumer, subscribes. *)
Record RdKafka := mkRdKafka {
  rd_set : string -> string -> bool; rd_create : list (string * string) -> bool; rd_subscribe : list (string * string) -> list string -> bool
}.

(** A consumer is what was given to the library, if it is open. *)
Abbreviation KafkaConsumer := (option (list (string * string))).

Definition consumer_init (rd : RdKafka) (config : KafkaConsumerConfig) (c : KafkaConsumer) : bool * KafkaConsumer :=
  let settings := consumer_settings config in
  if negb (forallb (fun s => rd_set rd s.1 s.2) settings) then (false, c)
  else if negb (rd_create rd settings) then (false, c)
  else (true, Some settings).

Definition subscribe (rd : RdKafka) (topics : list string) (c : KafkaConsumer) : bool :=
  match c with None => false | Some settings => rd_subscribe rd settings topics end.

Definition close_consumer (c : KafkaConsumer) : KafkaConsumer := None.

(** ** PushWorker: its thread *)

(** [Live]: the thread runs [run]; [Over]: [run] has returned, nobody has joined
    the thread. *)
Inductive thread := NoThread | Live | Over.

Record PushWorker := mkPushWorker { pw_client_id : string; pw_running : bool; pw_thread : thread }.

Definition joinable (t : thread) : bool := match t with NoThread => false | _ => true end.

(** [None]: [std::terminate], for a thread that is replaced or destroyed while
    it is joinable.  The pointers it is made of are not null. *)
Definition worker_start (w : PushWorker) : option (bool * PushWorker) :=
  if pw_running w then Some (true, w)
  else if joinable (pw_thread w) then None
  else Some (true, mkPushWorker (pw_client_id w) true Live).

(** [join] returns: [run] leaves its loop after the poll it is at. *)
Definition worker_stop (w : PushWorker) : PushWorker :=
  if negb (pw_running w) then w
  else mkPushWorker (pw_client_id w) false (if joinable (pw_thread w) then NoThread else pw_thread w).

Definition worker_destroy (w : PushWorker) : option unit :=
  if joinable (pw_thread (worker_stop w)) then None else Some tt.

(** [run] ends by itself when the consumer cannot be rewound. *)
Definition worker_gives_up (w : PushWorker) : PushWorker := mkPushWorker (pw_client_id w) false Over.

(** ** PushServiceContext *)

Record PushServiceOptions := mkPushServiceOptions {
  ps_worker_num : Z; ps_poll_timeout_ms : Z; ps_max_retry_count : Z; ps_retry_ttl_seconds : Z; ps_skip_sender_for_group : bool;
  ps_topic_single : string; ps_topic_group : string; ps_topic_offline : string; ps_topic_retry : string; ps_topic_dlq : string
}.

Record PushServiceContext := mkPushContext {
  px_options : PushServiceOptions; px_consumer_config : KafkaConsumerConfig;
  px_consumers : list KafkaConsumer; px_workers : list PushWorker
}.

(** [stopWorkers]: every worker is stopped, then all are destroyed. *)
Definition stopWorkers (x : PushServiceContext) : option PushServiceContext :=
  let workers := worker_stop <$> px_workers x in
  if forallb (fun w => is_some (worker_destroy w)) workers
  then Some (mkPushContext (px_options x) (px_consumer_config x) [] [])
  else None.

(** The loop of [startWorkers] from [i], with [k] workers to go; [rd i] is the
    library as the [i]-th consumer meets it. *)
Fixpoint start_from (rd : nat -> RdKafka) (i k : nat) (x : PushServiceContext) : option (bool * PushServiceContext) :=
  match k with
  | O => Some (true, x)
  | S k =>
      let stop := x ← stopWorkers x; Some (false, x) in
      let base := px_consumer_config x in
      let config := mkConsumerConfig (kc_brokers base) (kc_group_id base) (kc_client_id base +:+ "-" +:+ to_string (Z.of_nat i))
                      (kc_auto_offset_reset base) (kc_enable_auto_commit base) (kc_session_timeout_ms base) (kc_heartbeat_interval_ms base)
                      (kc_max_poll_interval_ms base) (kc_fetch_wait_max_ms base) in
      let '(ok, consumer) := consumer_init (rd i) config None in
      if negb ok then stop
      else if negb (subscribe (rd i) [ps_topic_single (px_options x); ps_topic_group (px_options x); ps_topic_retry (px_options x)] consumer) then stop
      else
        match worker_start (mkPushWorker (kc_client_id config) false NoThread) with
        | None => None
        | Some (false, _) => stop
        | Some (true, worker) =>
            start_from rd (S i) k (mkPushContext (px_options x) base (px_consumers x ++ [consumer]) (px_workers x ++ [worker]))
        end
  end.

Definition startWorkers (rd : nat -> RdKafka) (x : PushServiceContext) : option (bool * PushServiceContext) :=
  if negb (bool_decide (length (px_workers x) = 0%nat)) then Some (true, x)
  else start_from rd 0 (Z.to_nat (if 0 <? ps_worker_num (px_options x) then ps_worker_num (px_options x) else 1)) x.

(** ** Workers start together, and stop unless one has given up *)

Definition alive (w : PushWorker) : Prop := pw_running w = true /\ pw_thread w = Live.

Lemma stop_returns_iff x : is_some (stopWorkers x) = true <-> Forall (fun w => pw_running w = true \/ pw_thread w = NoThread) (px_workers x).
Proof.
  unfold stopWorkers. assert (forallb (fun w => is_some (worker_destroy w)) (worker_stop <$> px_workers x) = true <->
    Forall (fun w => pw_running w = true \/ pw_thread w = NoThread) (px_workers x)) as Hiff; [|by destruct (forallb _ _)].
  induction (px_workers x) as [|w l IH]; [done|]. cbn [fmap list_fmap forallb]. rewrite andb_true_iff, Forall_cons. rewrite IH.
  apply and_iff_compat_r. unfold worker_destroy, worker_stop. destruct w as [id [] []]; cbn; intuition congruence.
Qed.

Lemma stop_alive x : Forall alive (px_workers x) -> stopWorkers x = Some (mkPushContext (px_options x) (px_consumer_config x) [] []).
Proof.
  intros H. assert (is_some (stopWorkers x) = true) as Hs. { apply stop_returns_iff. eapply Forall_impl; [exact H|]. intros w []. by left. }
  revert Hs. unfold stopWorkers. by destruct (forallb _ _).
Qed.

Lemma client_ids_differ base i j : base +:+ "-" +:+ to_string (Z.of_nat i) = base +:+ "-" +:+ to_string (Z.of_nat j) -> i = j.
Proof. intros E%app_inj_l. apply app_inj_l, to_string_inj in E. lia. Qed.

Lemma start_from_spec rd k : forall i x,
  Forall alive (px_workers x) -> length (px_workers x) = i -> length (px_consumers x) = i -> Forall is_Some (px_consumers x) ->
  pw_client_id <$> px_workers x = (fun j => kc_client_id (px_consumer_config x) +:+ "-" +:+ to_string (Z.of_nat j)) <$> seq 0 i ->
  exists ok x', start_from rd i k x = Some (ok, x') /\
    if ok then Forall alive (px_workers x') /\ length (px_workers x') = (i + k)%nat /\ length (px_consumers x') = (i + k)%nat /\
      Forall is_Some (px_consumers x') /\ px_consumer_config x' = px_consumer_config x /\ px_options x' = px_options x /\
      pw_client_id <$> px_workers x' = (fun j => kc_client_id (px_consumer_config x) +:+ "-" +:+ to_string (Z.of_nat j)) <$> seq 0 (i + k)
    else px_workers x' = [] /\ px_consumers x' = [].
Proof.
  induction k as [|k IH]; intros i x Ha Hl Hc Ho Hid.
  { exists true, x. rewrite Nat.add_0_r. done. }
  cbn [start_from]. rewrite (stop_alive x Ha). cbn [mbind option_bind].
  match goal with |- context [consumer_init ?r ?c None] => destruct (consumer_init r c None) as [ok consumer] eqn:Hi end.
  destruct ok; cbn [negb]; [|by eexists _, _]. destruct (subscribe _ _ _) eqn:Hs; cbn [negb]; [|by eexists _, _].
  cbn [worker_start pw_running pw_thread joinable pw_client_id kc_client_id]. rewrite <- Nat.add_succ_comm.
  match goal with |- context [start_from rd (S i) k ?y] => destruct (IH (S i) y) as (ok&x'&E&Hx) end; [..|by exists ok, x'].
  - cbn. by apply Forall_app_2; [|repeat constructor].
  - cbn. rewrite length_app. cbn. lia.
  - cbn. rewrite length_app. cbn. lia.
  - cbn. apply Forall_app_2; [done|]. repeat constructor. by destruct consumer.
  - cbn [px_workers px_consumer_config]. rewrite fmap_app, Hid, seq_S, fmap_app. done.
Qed.

(** The workers of the push service start all or not at all: when a consumer
    cannot be made or subscribed, those started before are stopped and their
    consumers closed; otherwise the configured number runs, at least one, each
    with a client id of its own, and stopping them returns.  But a worker that has
    given up (its consumer could not be rewound) is never joined: stopping the
    workers then ends the process by [std::terminate]. *)
Theorem push_workers_start_and_stop (rd : nat -> RdKafka) (x : PushServiceContext) :
  px_workers x = [] -> px_consumers x = [] ->
  exists ok x', startWorkers rd x = Some (ok, x') /\
    if ok then
      Forall alive (px_workers x') /\ Z.of_nat (length (px_workers x')) = Z.max 1 (ps_worker_num (px_options x)) /\
      NoDup (pw_client_id <$> px_workers x') /\ Forall is_Some (px_consumers x') /\
      stopWorkers x' = Some (mkPushContext (px_options x) (px_consumer_config x) [] []) /\
      (forall i, (i < length (px_workers x'))%nat ->
         stopWorkers (mkPushContext (px_options x') (px_consumer_config x') (px_consumers x') (alter worker_gives_up i (px_workers x'))) = None)
    else px_workers x' = [] /\ px_consumers x' = [].
Proof.
  intros Hw Hc. unfold startWorkers. rewrite Hw. cbn [length bool_decide negb].
  match goal with |- context [start_from rd 0 ?k x] => destruct (start_from_spec rd k 0 x) as (ok&x'&E&Hx) end; [by rewrite ?Hw, ?Hc..|].
  exists ok, x'. split; [done|]. destruct ok; [|done]. destruct Hx as (Ha&Hl&_&Ho&Hcfg&Hopt&Hid). split_and!; try done.
  - rewrite Hl. cbn. destruct (Z.ltb_spec 0 (ps_worker_num (px_options x))); lia.
  - rewrite Hid. apply NoDup_fmap_2_strong; [|apply NoDup_seq]. intros i j _ _. apply client_ids_differ.
  - by rewrite stop_alive, Hcfg, Hopt.
  - intros i Hi. match goal with |- stopWorkers ?y = None => destruct (stopWorkers y) as [z|] eqn:Hs end; [|done]. exfalso.
    assert (is_some (stopWorkers (mkPushContext (px_options x') (px_consumer_config x') (px_consumers x') (alter worker_gives_up i (px_workers x')))) = true) as Hst by (by rewrite Hs).
    apply stop_returns_iff in Hst. cbn in Hst. apply lookup_lt_is_Some_2 in Hi as [w Hi].
    rewrite Forall_lookup in Hst. specialize (Hst i (worker_gives_up w)). rewrite list_lookup_alter in Hst.
    destruct (Hst) as [H|H]; [by rewrite decide_True, Hi|done..].
Qed.

Definition sample_push : PushServiceContext :=
  mkPushContext (mkPushServiceOptions 2 1000 3 86400 true "single" "group" "offline" "retry" "dlq") KafkaConsumerConfig_default [] [].
Definition willing : RdKafka := mkRdKafka (fun _ _ => true) (fun _ => true) (fun _ _ => true).

Lemma push_workers_start_and_stop_witness :
  exists x', startWorkers (fun _ => willing) sample_push = Some (true, x') /\ length (px_workers x') = 2%nat /\
    stopWorkers (mkPushContext (px_options x') (px_consumer_config x') (px_consumers x') (alter worker_gives_up 1%nat (px_workers x'))) = None.
Proof.
  destruct (push_workers_start_and_stop (fun _ => willing) sample_push eq_refl eq_refl) as (ok&x'&E&H).
  vm_compute in E. injection E as <- <-. destruct H as (_&_&_&_&_&H). eexists. split; [vm_compute; reflexivity|]. split; [reflexivity|].
  apply (H 1%nat). vm_compute. lia.
Defined.
