(* ===== verification/Contexts.v ===== *)
(** * Contexts: a process made from its configuration

    [init] of gateway/src/GatewayContext.cpp, push_service/src/PushServiceContext.cpp,
    message_service/src/MessageServiceContext.cpp and
    admin_service/src/AdminServiceContext.cpp, and the main function of the
    gateway.  The configuration file, the environment variables and the files of
    the credentials are parameters; whether MySQL, Redis and Kafka can be
    reached is what [Reach] says. *)

From S2P Require Import Admin.
From S2P Require Import Prelude Words Text Rpc Config Spans Otlp Tracing RateLimit Workers Breaker MessageId Outbox Push Credentials Startup.
Import MessageIdGenerator.
Local Open Scope Z_scope.

(** Whether the pool can be filled, Redis connected, and a producer made. *)
Record Reach := mkReach {
  reach_mysql : MySqlConfig -> Z -> bool; reach_redis : RedisConfig -> bool; reach_kafka : string -> string -> Z -> bool
}.

Section Contexts.
Context (getenv : string -> option string) (files : nat -> string -> option string) (ssl : OpenSsl) (reach : Reach).

(** The text of an address. *)
Definition host_port (host : string) (port : Z) : string := host +:+ ":" +:+ to_string port.

(** What every service makes of its configuration: the check of internal calls,
    the manager of its spans, the credentials and the address of its port. *)
Record ServiceBase := mkBase { sb_internal_auth : InternalRpcAuth; sb_trace : TraceManager; sb_grpc_tls : GrpcTlsConfig; sb_listen : string }.

Definition service_base (config : Config) (trace_name key : string) (port : Z) (trace : TraceManager) : ServiceBase :=
  mkBase (configureFromConfig config) (configure (configFrom config trace_name) trace) (grpc_fromConfig config "grpc.tls.")
    (host_port (getString config (key +:+ ".host") "0.0.0.0") (getInt config (key +:+ ".port") port)).

(** ** GatewayContext *)

Record GatewayOptions := mkGatewayOptions {
  go_gateway_id : string; go_tcp_host : string; go_tcp_port : Z; go_tcp_worker_threads : Z; go_rpc_worker_threads : Z;
  go_rpc_max_queue_size : Z; go_rpc_host : string; go_rpc_port : Z; go_heartbeat_timeout_ms : Z; go_online_ttl_seconds : Z;
  go_rate_limit : RateLimitConfig; go_tcp_tls : TlsConfig; go_user_service_addr : string; go_message_service_addr : string;
  go_relation_service_addr : string; go_push_service_addr : string
}.

Definition getPositiveSize (config : Config) (key : string) (default_value : Z) : Z :=
  let value := getInt config key (s32 default_value) in
  if 0 <? value then u64 value else default_value.

Definition gateway_options (config : Config) : GatewayOptions :=
  let limits := RateLimitConfig_default in
  mkGatewayOptions (getString config "gateway.id" "gateway-1") (getString config "gateway.tcp.host" "0.0.0.0")
    (getInt config "gateway.tcp.port" 9000) (getInt config "gateway.tcp.worker_threads" 4) (getInt config "gateway.rpc_worker_threads" 4)
    (getInt config "gateway.rpc_max_queue_size" 10000) (getString config "gateway.rpc.host" "0.0.0.0") (getInt config "gateway.rpc.port" 50055)
    (getInt config "gateway.heartbeat_timeout_ms" 30000) (getInt config "gateway.online_ttl_seconds" 60)
    (mkLimits (getBool config "rate_limit.enabled" (RateLimit.enabled limits))
       (getPositiveSize config "rate_limit.login_per_minute" (login_per_minute limits))
       (getPositiveSize config "rate_limit.message_per_second" (message_per_second limits))
       (getPositiveSize config "rate_limit.connection_packet_per_second" (connection_packet_per_second limits))
       (getPositiveSize config "rate_limit.max_bucket_count" (max_bucket_count limits))
       (getPositiveSize config "rate_limit.bucket_idle_seconds" (bucket_idle_seconds limits)))
    (tls_fromConfig config "gateway.tls.")
    (getString config "user_service.addr" "127.0.0.1:50051") (getString config "message_service.addr" "127.0.0.1:50052")
    (getString config "relation_service.addr" "127.0.0.1:50053") (getString config "push_service.addr" "127.0.0.1:50054").

Record GatewayContext := mkGatewayContext {
  gx_options : GatewayOptions; gx_internal_auth : InternalRpcAuth; gx_trace : TraceManager; gx_grpc_tls : GrpcTlsConfig;
  gx_tcp_tls : option SSL_CTX; gx_backends : GatewayBackendClients; gx_executor : RpcExecutor
}.

Definition GatewayContext_init (input : option string) (trace : TraceManager) : SM nat (option GatewayContext) :=
  let '(loaded, config) := loadFromFile input Config_new in
  if negb loaded then mret None
  else
    let auth := configureFromConfig config in
    let options := gateway_options config in
    let grpc_tls := grpc_fromConfig config "grpc.tls." in
    let trace := configure (configFrom config "nebula-gateway") trace in
    tls ← (if tl_enabled (go_tcp_tls options)
           then r ← createServer (fun n p => is_some (files n p)) ssl (go_tcp_tls options);
                mret (match r with inl ctx => inl (Some ctx) | inr error => inr error end)
           else mret (inl None));
    match tls with
    | inr _ => mret None
    | inl tls =>
        if negb (reach_redis reach (loadRedisConfig getenv config)) then mret None
        else
          r ← backends_init files (loadFromConfig config StaticServiceResolver_new) grpc_tls;
          match r.1 with
          | None => mret None
          | Some backends =>
              let executor := RpcExecutor_new (Z.to_nat (u64 (go_rpc_worker_threads options))) (Z.to_nat (u64 (go_rpc_max_queue_size options))) in
              mret (Some (mkGatewayContext options auth trace grpc_tls tls backends (on_pool start executor)))
          end
    end.

(** [main]: the exit code, or what it listens with. *)
Definition gateway_main (input : option string) (build : string -> ServerCredentials -> bool) : SM nat (Z + GatewayContext * ServerCredentials) :=
  context ← GatewayContext_init input TraceManager_new;
  match context with
  | None => mret (inl 1)
  | Some context =>
      credentials ← serverCredentials files (gx_grpc_tls context);
      match credentials with
      | None => mret (inl 1)
      | Some credentials =>
          let address := host_port (go_rpc_host (gx_options context)) (go_rpc_port (gx_options context)) in
          mret (if build address credentials then inr (context, credentials) else inl 1)
      end
  end.

(** [parseConfigPath] on the arguments after the name of the program. *)
Fixpoint parse_arguments (args : list string) (config_path : string) : string :=
  match args with
  | [] => config_path
  | arg :: rest =>
      match rest with
      | value :: rest' => if bool_decide (arg = "--config"%string) then parse_arguments rest' value else parse_arguments rest arg
      | [] => arg
      end
  end.
Definition parseConfigPath (args : list string) : string := parse_arguments args "../config/nebula.conf".

(** ** PushServiceContext *)

Definition push_options (config : Config) : PushServiceOptions :=
  mkPushServiceOptions (getInt config "push_service.worker_num" 1) (getInt config "push_service.poll_timeout_ms" 1000)
    (getInt config "push_service.max_retry_count" 3) (getInt config "push_service.retry_ttl_seconds" 86400)
    (getBool config "push_service.skip_sender_for_group" true)
    (getString config "kafka.topic.single" "nebula.message.single") (getString config "kafka.topic.group" "nebula.message.group")
    (getString config "kafka.topic.offline" "nebula.message.offline") (getString config "kafka.topic.retry" "nebula.message.retry")
    (getString config "kafka.topic.dlq" "nebula.message.dlq").

Definition consumer_config (config : Config) (group_id client_id : string) (auto_commit : bool) : KafkaConsumerConfig :=
  let d := KafkaConsumerConfig_default in
  mkConsumerConfig (getString config "kafka.brokers" (kc_brokers d)) (getString config "kafka.consumer.group_id" group_id)
    (getString config "kafka.consumer.client_id" client_id) (getString config "kafka.consumer.auto_offset_reset" (kc_auto_offset_reset d))
    auto_commit
    (getInt config "kafka.consumer.session_timeout_ms" (kc_session_timeout_ms d)) (getInt config "kafka.consumer.heartbeat_interval_ms" (kc_heartbeat_interval_ms d))
    (getInt config "kafka.consumer.max_poll_interval_ms" (kc_max_poll_interval_ms d)) (getInt config "kafka.consumer.fetch_wait_max_ms" (kc_fetch_wait_max_ms d)).

(** The context, the clients of the gateways and the options of the dispatcher. *)
Definition PushServiceContext_init (input : option string) (trace : TraceManager)
    : SM nat (option (PushServiceContext * gmap string GatewayClient * PushOptions * ServiceBase)) :=
  let '(loaded, config) := loadFromFile input Config_new in
  if negb loaded then mret None
  else if negb (reach_mysql reach (loadMySqlConfig getenv config) (u64 (getInt config "mysql.pool_size" 4))) then mret None
  else if negb (reach_redis reach (loadRedisConfig getenv config)) then mret None
  else if negb (reach_kafka reach (getString config "kafka.brokers" "127.0.0.1:9092") (getString config "kafka.producer.client_id" "nebula-push-producer")
                  (getInt config "kafka.producer.delivery_timeout_ms" 5000)) then mret None
  else
    let consumer := consumer_config config "nebula-push-service" "nebula-push-consumer"
                      (getBool config "kafka.consumer.enable_auto_commit" (kc_enable_auto_commit KafkaConsumerConfig_default)) in
    let options := push_options config in
    r ← initFromResolver files (loadFromConfig config StaticServiceResolver_new) (grpc_fromConfig config "grpc.tls.") ∅;
    if negb r.1 then mret None
    else mret (Some (mkPushContext options consumer [] [], r.2,
                     mkPushOptions (ps_topic_retry options) (ps_topic_dlq options) (ps_skip_sender_for_group options),
                     service_base config "nebula-push-service" "push_service" 50054 trace)).

(** ** MessageServiceContext *)

Record MessageServiceOptions := mkMessageOptions {
  mo_max_content_length : Z; mo_dedup_ttl_seconds : Z; mo_offline_pull_limit : Z; mo_recall_window_seconds : Z;
  mo_outbox_worker_interval_ms : Z; mo_outbox_batch_size : Z; mo_outbox_max_retry_count : Z; mo_outbox_retry_backoff_ms : Z;
  mo_topic_single : string; mo_topic_group : string; mo_topic_offline : string; mo_topic_retry : string; mo_topic_dlq : string
}.

Definition message_options (config : Config) : MessageServiceOptions :=
  mkMessageOptions (getInt config "message.max_content_length" 4096) (getInt config "message.dedup_ttl_seconds" 86400)
    (getInt config "message.offline_pull_limit" 100) (getInt config "message.recall_window_seconds" 120)
    (getInt config "outbox.worker_interval_ms" 1000) (getInt config "outbox.batch_size" 100)
    (getInt config "outbox.max_retry_count" 5) (getInt config "outbox.retry_backoff_ms" 1000)
    (getString config "kafka.topic.single" "nebula.message.single") (getString config "kafka.topic.group" "nebula.message.group")
    (getString config "kafka.topic.offline" "nebula.message.offline") (getString config "kafka.topic.retry" "nebula.message.retry")
    (getString config "kafka.topic.dlq" "nebula.message.dlq").

(** The outbox worker, whose options are [mx_outbox], has been started. *)
Record MessageServiceContext := mkMessageContext {
  mx_options : MessageServiceOptions; mx_generator : MessageIdGenerator; mx_outbox : OutboxWorkerOptions; mx_base : ServiceBase
}.

Definition MessageServiceContext_init (input : option string) (trace : TraceManager) : option MessageServiceContext :=
  let '(loaded, config) := loadFromFile input Config_new in
  if negb loaded then None
  else if negb (reach_mysql reach (loadMySqlConfig getenv config) (u64 (getInt config "mysql.pool_size" 4))) then None
  else if negb (reach_redis reach (loadRedisConfig getenv config)) then None
  else if negb (reach_kafka reach (getString config "kafka.brokers" "127.0.0.1:9092") (getString config "kafka.producer.client_id" "nebula-message-service")
                  (getInt config "kafka.producer.delivery_timeout_ms" 5000)) then None
  else
    let options := message_options config in
    Some (mkMessageContext options (MessageIdGenerator_new (u16 (getInt config "message.node_id" 1)))
            (mkOptions (Z.to_nat (u64 (mo_outbox_batch_size options))) (mo_outbox_max_retry_count options) (mo_outbox_retry_backoff_ms options)
               (getInt config "outbox.claim_lease_ms" 30000) (mo_topic_dlq options))
            (service_base config "nebula-message-service" "message_service" 50052 trace)).

(** ** AdminServiceContext *)

Definition default_cleanup : Admin.AdminCleanupOptions := Admin.mkCleanupOptions 604800000 604800000 2592000000 7776000000 1000.

Definition cleanup_options (config : Config) : Admin.AdminCleanupOptions :=
  let d := default_cleanup in
  Admin.mkCleanupOptions
    (getInt64 config "admin.cleanup.outbox_published_retention_ms" (Admin.outbox_published_retention_ms d))
    (getInt64 config "admin.cleanup.offline_acked_retention_ms" (Admin.offline_acked_retention_ms d))
    (getInt64 config "admin.cleanup.friend_request_retention_ms" (Admin.friend_request_retention_ms d))
    (getInt64 config "admin.cleanup.message_receipt_retention_ms" (Admin.message_receipt_retention_ms d))
    (getInt config "admin.cleanup.batch_size" (Admin.cleanup_batch_size d)).

(** The entry of a service: its name, and the address under a key. *)
Definition service_entry (config : Config) (name key : string) (port : Z) : string * string :=
  (name, host_port (getString config (key +:+ ".host") "127.0.0.1") (getInt config (key +:+ ".port") port)).

(** The runtime configuration the service shows; [mysql_host] and
    [gateway_tcp_port] are not shown on their own. *)
Definition runtime_config (config : Config) (auth : Admin.AdminAuth.AdminAuth) (mysql : MySqlConfig) (redis : RedisConfig) : Admin.AdminRuntimeConfig :=
  let host := getString config "admin_service.host" "0.0.0.0" in
  let port := getInt config "admin_service.port" 50057 in
  Admin.mkRuntimeConfig (negb (bool_decide (auth = []))) (gt_enabled (grpc_fromConfig config "grpc.tls."))
    (getBool config "gateway.tls.enabled" false) (getBool config "internal_rpc.auth.enabled" false)
    (getBool config "trace.enabled" false) (getString config "trace.otlp_endpoint" EmptyString)
    [service_entry config "gateway-tcp" "gateway.tcp" 9000; service_entry config "gateway-rpc" "gateway.rpc" 50055;
     service_entry config "user-service" "user_service" 50051; service_entry config "relation-service" "relation_service" 50053;
     service_entry config "conversation-service" "conversation_service" 50056; service_entry config "device-service" "device_service" 50058;
     service_entry config "message-service" "message_service" 50052; service_entry config "push-service" "push_service" 50054;
     ("admin-service"%string, host_port host port)]
    (getString config "gateway.tcp.host" "127.0.0.1") (my_password mysql) (re_host redis) (re_password redis)
    (getString config "kafka.brokers" "127.0.0.1:9092").

(** The service, with what it asks Kafka about. *)
Definition AdminServiceContext_init (input : option string) (trace : TraceManager)
    : option (Admin.AdminServiceImpl * KafkaConsumerConfig * list string * ServiceBase) :=
  let '(loaded, config) := loadFromFile input Config_new in
  if negb loaded then None
  else
    let auth := Admin.AdminAuth.fromConfig (getString config "admin_service.admin_tokens" EmptyString) in
    let mysql := loadMySqlConfig getenv config in
    let redis := loadRedisConfig getenv config in
    if negb (reach_mysql reach mysql (u64 (getInt config "mysql.pool_size" 4))) then None
    else if negb (reach_redis reach redis) then None
    else
      let d := KafkaConsumerConfig_default in
      let kafka := consumer_config config (kc_group_id d) (kc_client_id d) false in
      Some (Admin.mkAdminService auth (runtime_config config auth mysql redis) false false (cleanup_options config) (kc_group_id kafka), kafka,
            [getString config "kafka.topic.single" "nebula.message.single"; getString config "kafka.topic.group" "nebula.message.group";
             getString config "kafka.topic.retry" "nebula.message.retry"; getString config "kafka.topic.dlq" "nebula.message.dlq"],
            service_base config "nebula-admin-service" "admin_service" 50057 trace).

(** ** What runs is what was configured *)

Lemma getPositiveSize_positive config key d : 0 < d < 2147483648 -> 0 < getPositiveSize config key d.
Proof.
  intros Hd. unfold getPositiveSize. destruct (Z.ltb_spec 0 (getInt config key (s32 d))) as [H|]; [|lia].
  assert (is_int (getInt config key (s32 d))) as Hi. { apply getInt_int. unfold is_int, s32. rewrite Z.mod_small; lia. }
  unfold is_int in Hi. unfold u64. rewrite Z.mod_small; lia.
Qed.

Lemma rate_limits_positive config : let l := go_rate_limit (gateway_options config) in
  0 < login_per_minute l /\ 0 < message_per_second l /\ 0 < connection_packet_per_second l /\ 0 < max_bucket_count l /\ 0 < bucket_idle_seconds l.
Proof. cbn. split_and!; apply getPositiveSize_positive; lia. Qed.

Lemma gateway_init_inv input trace n g n' :
  GatewayContext_init input trace n = Some (Some g, n') ->
  exists config, loadFromFile input Config_new = (true, config) /\ gx_options g = gateway_options config /\
    gx_internal_auth g = configureFromConfig config /\ gx_grpc_tls g = grpc_fromConfig config "grpc.tls." /\
    (tl_enabled (go_tcp_tls (gx_options g)) = true -> exists ctx m m', gx_tcp_tls g = Some ctx /\
       createServer (fun n p => is_some (files n p)) ssl (go_tcp_tls (gx_options g)) m = Some (inl ctx, m')) /\
    (exists m r m', backends_init files (loadFromConfig config StaticServiceResolver_new) (gx_grpc_tls g) m = Some ((Some (gx_backends g), r), m')).
Proof.
  unfold GatewayContext_init. destruct (loadFromFile input Config_new) as [[] config]; [|done]. cbn [negb]. intros H.
  apply run_bind_Some in H as (tls&n1&Ht&H). destruct tls as [tls|e]; [|done].
  destruct (reach_redis reach _); [|done]. cbn [negb] in H. apply run_bind_Some in H as ([b r]&n2&Hb&H). cbn in H.
  destruct b as [b|]; [|done]. injection H as <- _. exists config. cbn. split_and!; try done; [|by eexists _, _, _].
  intros He. cbn in Ht. rewrite He in Ht. apply run_bind_Some in Ht as (res&m1&H1&Ht). destruct res as [ctx|]; [|done]. injection Ht as <- <-.
  by exists ctx, n, m1.
Qed.

End Contexts.

(** Node numbers that do not fit are all taken for the largest one: services
    configured as nodes 1023 and 2000 number messages alike. *)
Lemma node_ids_collapse : MessageIdGenerator_new (u16 1023) = MessageIdGenerator_new (u16 2000).
Proof. reflexivity. Qed.

Definition lines (l : list string) : string := foldr (fun line rest => line +:+ String newline rest) EmptyString l.
Definition secure_conf : string :=
  lines ["gateway.tls.enabled=true"; "gateway.tls.cert_path=tcp.pem"; "gateway.tls.key_path=tcp.key"; "grpc.tls.enabled=true";
         "grpc.tls.server_cert_path=rpc.pem"; "grpc.tls.server_key_path=rpc.key"; "rate_limit.message_per_second=0"]%string.
Definition gateway_run : option ((Z + GatewayContext * ServerCredentials) * nat) :=
  gateway_main (fun _ => None) (fun _ p => Some ("content of " +:+ p)) (mkOpenSsl None (fun _ => None) (fun _ => None) true (fun _ => None))
    (mkReach (fun _ _ => true) (fun _ => true) (fun _ _ _ => true)) (Some secure_conf) (fun _ _ => true) 0%nat.

