(* ===== verification/Services.v ===== *)
(** * Services: their contexts and main functions

    [init] of the contexts of the user, relation, conversation and device
    services, [main] of all seven services (<name>_service/src/main.cpp), and
    common/monitor/MetricsRuntime.cpp.  As in Contexts.v the configuration, the
    environment and the files are parameters, and [Reach] says what can be
    connected to. *)

From S2P Require Import Admin.
From S2P Require Import UserService RelationService DeviceService ConversationService MessageService.
From S2P Require Import Prelude Words Text Rpc Config Spans Otlp Tracing Outbox Push Credentials Startup Contexts.
Local Open Scope Z_scope.

(** ** Computations that return *)

Definition returns {S A} (m : SM S A) : Prop := forall s, exists a s', m s = Some (a, s').

Lemma returns_ret {S A} (a : A) : returns (mret a : SM S A).
Proof. intros s. by exists a, s. Qed.

Lemma returns_bind {S A B} (m : SM S A) (f : A -> SM S B) : returns m -> (forall a, returns (f a)) -> returns (m ≫= f).
Proof. intros Hm Hf s. destruct (Hm s) as (a&s1&E). destruct (Hf a s1) as (b&s2&E2). exists b, s2. by rewrite run_bind, E. Qed.

Lemma returns_if {S A} (b : bool) (m1 m2 : SM S A) : returns m1 -> returns m2 -> returns (if b then m1 else m2).
Proof. by destruct b. Qed.

Create HintDb returns.
#[export] Hint Resolve returns_ret : returns.

Ltac returning :=
  repeat first
    [ by eauto with returns
    | apply returns_if
    | apply returns_bind; [|intros]
    | match goal with |- returns (match ?x with _ => _ end) => destruct x end ].

Section Files.
Context (files : nat -> string -> option string).

Lemma readFile_returns path : returns (readFile files path).
Proof. intros n. unfold readFile. case_bool_decide; [by eexists _, _|]. destruct (files n path); by eexists _, _. Qed.
#[local] Hint Resolve readFile_returns : returns.

Lemma read_or_empty_returns path : returns (read_or_empty files path).
Proof. unfold read_or_empty. returning. Qed.
#[local] Hint Resolve read_or_empty_returns : returns.

Lemma serverCredentials_returns c : returns (serverCredentials files c).
Proof. unfold serverCredentials, validateForServer, unless_set. returning. Qed.

Lemma createChannel_returns address c : returns (createChannel files address c).
Proof. unfold createChannel, channelCredentials, validateForClient, unless_set. returning. Qed.
#[local] Hint Resolve createChannel_returns : returns.

Lemma initFromResolver_returns resolver c clients : returns (initFromResolver files resolver c clients).
Proof.
  unfold initFromResolver. apply returns_bind; [|eauto with returns]. revert clients.
  induction (resolve "gateway" resolver) as [|i l IH]; intros clients; cbn [add_healthy]; [eauto with returns|].
  apply returns_bind; [|by intros; apply IH]. apply returns_if; [|eauto with returns]. unfold addGateway, GatewayClient_new. returning.
Qed.
End Files.

Section Services.
Context (getenv : string -> option string) (files : nat -> string -> option string) (reach : Reach)
        (digest : string -> option (list Z)) (serialize : MessageData -> string) (deserialize : string -> option MessageData).

(** ** The contexts *)

(** [mysql_pool_.init] and [connect] of the Redis client, as each context has
    them. *)
Definition mysql_up (config : Config) : bool := reach_mysql reach (loadMySqlConfig getenv config) (u64 (getInt config "mysql.pool_size" 4)).
Definition redis_up (config : Config) : bool := reach_redis reach (loadRedisConfig getenv config).

Definition UserServiceContext_init (input : option string) (trace : TraceManager) : option (UserServiceImpl * ServiceBase) :=
  let '(loaded, config) := loadFromFile input Config_new in
  if negb loaded then None
  else if negb (mysql_up config) then None
  else if negb (redis_up config) then None
  else
    let base := service_base config "nebula-user-service" "user_service" 50051 trace in
    Some (mkUserService (sb_internal_auth base) (sha256Hex digest) false false false
            (Some (TokenManager_new (getInt config "auth.token_ttl_seconds" (7 * 24 * 3600)))) (getInt config "auth.password_min_length" 6), base).

Definition RelationServiceContext_init (input : option string) (trace : TraceManager) : option (RelationServiceImpl * ServiceBase) :=
  let '(loaded, config) := loadFromFile input Config_new in
  if negb loaded then None
  else if negb (mysql_up config) then None
  else
    let base := service_base config "nebula-relation-service" "relation_service" 50053 trace in
    Some (mkRelationService (sb_internal_auth base) (sha256Hex digest) false false false false, base).

Definition ConversationServiceContext_init (input : option string) (trace : TraceManager) : option (ConversationServiceImpl * ServiceBase) :=
  let '(loaded, config) := loadFromFile input Config_new in
  if negb loaded then None
  else if negb (mysql_up config) then None
  else
    let base := service_base config "nebula-conversation-service" "conversation_service" 50056 trace in
    Some (mkConversationService (sb_internal_auth base) (sha256Hex digest) false, base).

Definition DeviceServiceContext_init (input : option string) (trace : TraceManager)
    : SM nat (option (DeviceServiceImpl * gmap string GatewayClient * ServiceBase)) :=
  let '(loaded, config) := loadFromFile input Config_new in
  if negb loaded then mret None
  else if negb (mysql_up config) then mret None
  else if negb (redis_up config) then mret None
  else
    let base := service_base config "nebula-device-service" "device_service" 50058 trace in
    r ← initFromResolver files (loadFromConfig config StaticServiceResolver_new) (sb_grpc_tls base) ∅;
    if negb r.1 then mret None
    else mret (Some (mkDeviceService (sb_internal_auth base) (sha256Hex digest) false false false false, r.2, base)).

(** ** The main functions *)

(** What runs in a process: the service, and for the push service its workers. *)
Inductive Service :=
| SUser (s : UserServiceImpl)
| SRelation (s : RelationServiceImpl)
| SConversation (s : ConversationServiceImpl)
| SDevice (s : DeviceServiceImpl) (gateways : gmap string GatewayClient)
| SMessage (s : MessageServiceImpl) (x : MessageServiceContext)
| SPush (x : PushServiceContext) (gateways : gmap string GatewayClient) (o : PushOptions)
| SAdmin (s : AdminServiceImpl) (kafka : KafkaConsumerConfig) (topics : list string).

Definition Running : Type := Service * ServiceBase * ServerCredentials.

(** The end of each [main]: the credentials, and the server on its address;
    [stop] is what the push service does before it gives up. *)
Definition serve (build : string -> ServerCredentials -> bool) (stop : SM nat ()) (x : Service) (base : ServiceBase) : SM nat (Z + Running) :=
  credentials ← serverCredentials files (sb_grpc_tls base);
  match credentials with
  | None => stop;; mret (inl 1)
  | Some credentials => if build (sb_listen base) credentials then mret (inr (x, base, credentials)) else stop;; mret (inl 1)
  end.

Definition main_from (build : string -> ServerCredentials -> bool) (context : option (Service * ServiceBase)) : SM nat (Z + Running) :=
  match context with None => mret (inl 1) | Some (x, base) => serve build (mret tt) x base end.

Definition user_main (input : option string) (build : string -> ServerCredentials -> bool) : SM nat (Z + Running) :=
  main_from build ('(s, base) ← UserServiceContext_init input TraceManager_new; Some (SUser s, base)).
Definition relation_main (input : option string) (build : string -> ServerCredentials -> bool) : SM nat (Z + Running) :=
  main_from build ('(s, base) ← RelationServiceContext_init input TraceManager_new; Some (SRelation s, base)).
Definition conversation_main (input : option string) (build : string -> ServerCredentials -> bool) : SM nat (Z + Running) :=
  main_from build ('(s, base) ← ConversationServiceContext_init input TraceManager_new; Some (SConversation s, base)).
Definition admin_main (input : option string) (build : string -> ServerCredentials -> bool) : SM nat (Z + Running) :=
  main_from build ('(s, kafka, topics, base) ← AdminServiceContext_init getenv reach input TraceManager_new; Some (SAdmin s kafka topics, base)).

Definition device_main (input : option string) (build : string -> ServerCredentials -> bool) : SM nat (Z + Running) :=
  context ← DeviceServiceContext_init input TraceManager_new;
  main_from build ('(s, gateways, base) ← context; Some (SDevice s gateways, base)).

Definition message_main (input : option string) (build : string -> ServerCredentials -> bool) : SM nat (Z + Running) :=
  main_from build
    (x ← MessageServiceContext_init getenv reach input TraceManager_new;
     let o := mx_options x in
     Some (SMessage (mkMessageService (sb_internal_auth (mx_base x)) (sha256Hex digest) false false (mo_max_content_length o) (mo_offline_pull_limit o)
             (mo_recall_window_seconds o) (mo_topic_single o) (mo_topic_group o) (mo_dedup_ttl_seconds o) serialize deserialize) x, mx_base x)).

(** [None] of the workers is the end of the process by [std::terminate]. *)
Definition or_terminate {A} (o : option A) : SM nat A := fun n => a ← o; Some (a, n).

Definition push_main (rd : nat -> RdKafka) (input : option string) (build : string -> ServerCredentials -> bool) : SM nat (Z + Running) :=
  context ← PushServiceContext_init getenv files reach input TraceManager_new;
  match context with
  | None => mret (inl 1)
  | Some (x, gateways, options, base) =>
      started ← or_terminate (startWorkers rd x);
      if negb started.1 then mret (inl 1)
      else serve build (stopped ← or_terminate (stopWorkers started.2); mret tt) (SPush started.2 gateways options) base
  end.

(** [startMetricsServerFromConfig]: where it listens; [listens] says whether
    [start] succeeds. *)
Definition startMetricsServerFromConfig (input : option string) (listens : string -> Z -> bool) (service_key : string) (default_port : Z)
    : option (string * Z) :=
  let '(loaded, config) := loadFromFile input Config_new in
  if negb loaded then None
  else if negb (getBool config "metrics.enabled" true) then None
  else
    let host := getString config "metrics.host" "127.0.0.1" in
    let port := getInt config ("metrics." +:+ service_key +:+ ".port") default_port in
    if listens host port then Some (host, port) else None.

(** ** Every service runs as configured *)

Inductive ServiceId := UserId | RelationId | ConversationId | DeviceId | MessageId | PushId | AdminId.

(** The name for spans, the key in the configuration and the default port. *)
Definition trace_name (id : ServiceId) : string :=
  match id with
  | UserId => "nebula-user-service" | RelationId => "nebula-relation-service" | ConversationId => "nebula-conversation-service"
  | DeviceId => "nebula-device-service" | MessageId => "nebula-message-service" | PushId => "nebula-push-service" | AdminId => "nebula-admin-service"
  end.
Definition config_key (id : ServiceId) : string :=
  match id with
  | UserId => "user_service" | RelationId => "relation_service" | ConversationId => "conversation_service" | DeviceId => "device_service"
  | MessageId => "message_service" | PushId => "push_service" | AdminId => "admin_service"
  end.
Definition default_port (id : ServiceId) : Z :=
  match id with UserId => 50051 | MessageId => 50052 | RelationId => 50053 | PushId => 50054 | ConversationId => 50056 | AdminId => 50057 | DeviceId => 50058 end.
Definition needs_redis (id : ServiceId) : bool := match id with RelationId | ConversationId => false | _ => true end.

Definition main_of (id : ServiceId) (rd : nat -> RdKafka) : option string -> (string -> ServerCredentials -> bool) -> SM nat (Z + Running) :=
  match id with
  | UserId => user_main | RelationId => relation_main | ConversationId => conversation_main | DeviceId => device_main
  | MessageId => message_main | PushId => push_main rd | AdminId => admin_main
  end.

(** A service of the right kind that checks internal calls as configured and has
    all it depends on, so that no handler answers that a dependency is missing. *)
Definition ready (id : ServiceId) (auth : InternalRpcAuth) (x : Service) : Prop :=
  match id, x with
  | UserId, SUser s => us_auth s = auth /\ us_no_users s = false /\ us_no_devices s = false /\ us_no_redis s = false /\
      exists tm, us_tokens s = Some tm /\ 0 < tm_ttl_seconds tm
  | RelationId, SRelation s => rl_auth s = auth /\ RelationService.invalidDeps s = false
  | ConversationId, SConversation s => cs_auth s = auth /\ cs_no_dao s = false
  | DeviceId, SDevice s gateways => ds_auth s = auth /\ ds_no_users s = false /\ ds_no_devices s = false /\ ds_no_redis s = false /\
      ds_no_gateways s = false /\ gateways <> ∅
  | MessageId, SMessage s _ => ms_auth s = auth /\ ms_invalidDeps s = false /\ ms_no_receipt_dao s = false
  | PushId, SPush x gateways _ => Forall alive (px_workers x) /\ px_workers x <> [] /\ gateways <> ∅
  | AdminId, SAdmin s _ _ => as_no_mysql s = false /\ as_no_redis s = false
  | _, _ => False
  end.

Definition runs_as (id : ServiceId) (input : option string) (build : string -> ServerCredentials -> bool) (r : Z + Running) : Prop :=
  match r with
  | inl code => code = 1
  | inr (x, base, cr) => exists config, loadFromFile input Config_new = (true, config) /\
      base = service_base config (trace_name id) (config_key id) (default_port id) TraceManager_new /\
      mysql_up config = true /\ (needs_redis id = true -> redis_up config = true) /\
      build (sb_listen base) cr = true /\
      (gt_enabled (sb_grpc_tls base) = true ->
         exists key cert roots, cr = SslServerCredentials key cert roots (gt_require_client_auth (sb_grpc_tls base))) /\
      ready id (configureFromConfig config) x
  end.

(** What [init] has to establish for [main] to run the service. *)
Definition made (id : ServiceId) (input : option string) (x : Service) (base : ServiceBase) : Prop :=
  exists config, loadFromFile input Config_new = (true, config) /\
    base = service_base config (trace_name id) (config_key id) (default_port id) TraceManager_new /\
    mysql_up config = true /\ (needs_redis id = true -> redis_up config = true) /\ ready id (configureFromConfig config) x.

Lemma serve_runs id input build stop x base n : returns stop -> made id input x base ->
  exists r n', serve build stop x base n = Some (r, n') /\ runs_as id input build r.
Proof.
  intros Hstop (config&Hl&Hb&Hm&Hr&Hx). unfold serve. rewrite run_bind.
  destruct (serverCredentials_returns files (sb_grpc_tls base) n) as (cr&n1&E). rewrite E.
  destruct cr as [cr|]; [destruct (build (sb_listen base) cr) eqn:Hbuild|].
  - eexists _, _. split; [reflexivity|]. exists config. split_and!; try done. intros He. by eapply server_credentials_secure.
  - destruct (Hstop n1) as ([]&n2&E2). rewrite run_bind, E2. by eexists _, _.
  - destruct (Hstop n1) as ([]&n2&E2). rewrite run_bind, E2. by eexists _, _.
Qed.

Lemma main_from_runs id input build context n :
  (forall x base, context = Some (x, base) -> made id input x base) ->
  exists r n', main_from build context n = Some (r, n') /\ runs_as id input build r.
Proof.
  intros H. destruct context as [[x base]|]; [|by eexists _, _]. apply serve_runs; [apply returns_ret|by apply H].
Qed.

(** The guards of an [init] that has succeeded. *)
Ltac guards H :=
  repeat match type of H with
         | context [loadFromFile ?i ?c] => destruct (loadFromFile i c) as [[] ?] eqn:?; [|discriminate H]; cbn [negb] in H
         | (if negb ?b then None else _) = Some _ => destruct b eqn:?; [|discriminate H]; cbn [negb] in H
         end.

Lemma token_ttl_positive ttl : 0 < tm_ttl_seconds (TokenManager_new ttl).
Proof. unfold TokenManager_new. cbn. destruct (Z.ltb_spec 0 ttl); lia. Qed.

Lemma user_made input s base : UserServiceContext_init input TraceManager_new = Some (s, base) -> made UserId input (SUser s) base.
Proof.
  unfold UserServiceContext_init. intros H. guards H. injection H as <- <-. eexists. split_and!; try done. cbn. split_and!; try done.
  eexists. split; [done|]. apply token_ttl_positive.
Qed.

Lemma relation_made input s base : RelationServiceContext_init input TraceManager_new = Some (s, base) -> made RelationId input (SRelation s) base.
Proof. unfold RelationServiceContext_init. intros H. guards H. injection H as <- <-. by eexists; split_and!. Qed.

Lemma conversation_made input s base :
  ConversationServiceContext_init input TraceManager_new = Some (s, base) -> made ConversationId input (SConversation s) base.
Proof. unfold ConversationServiceContext_init. intros H. guards H. injection H as <- <-. by eexists; split_and!. Qed.

Lemma admin_made input s kafka topics base :
  AdminServiceContext_init getenv reach input TraceManager_new = Some (s, kafka, topics, base) -> made AdminId input (SAdmin s kafka topics) base.
Proof. unfold AdminServiceContext_init. intros H. guards H. injection H as <- <- <- <-. by eexists; split_and!. Qed.

Lemma message_made input x s : MessageServiceContext_init getenv reach input TraceManager_new = Some x ->
  ms_auth s = sb_internal_auth (mx_base x) -> ms_invalidDeps s = false -> ms_no_receipt_dao s = false -> made MessageId input (SMessage s x) (mx_base x).
Proof. unfold MessageServiceContext_init. intros H. guards H. injection H as <-. intros. by eexists; split_and!. Qed.

Lemma device_made input n : exists c n', DeviceServiceContext_init input TraceManager_new n = Some (c, n') /\
  forall s gateways base, c = Some (s, gateways, base) -> made DeviceId input (SDevice s gateways) base.
Proof.
  unfold DeviceServiceContext_init. destruct (loadFromFile input Config_new) as [[] config] eqn:Hl; [|by eexists _, _]. cbn [negb].
  destruct (mysql_up config) eqn:Hm; [|by eexists _, _]. destruct (redis_up config) eqn:Hr; [|by eexists _, _]. cbn [negb]. rewrite run_bind.
  match goal with |- context [initFromResolver ?f ?r ?c ?m n] => destruct (initFromResolver_returns f r c m n) as ([ok cl]&n1&E) end. rewrite E.
  unfold initFromResolver in E. apply run_bind_Some in E as (cl'&n2&_&E). injection E as <- <- _. cbn.
  case_bool_decide; [by eexists _, _|]. eexists _, _. split; [reflexivity|]. intros s g base [= <- <- <-].
  exists config. by split_and!.
Qed.

Lemma push_made input n : exists c n', PushServiceContext_init getenv files reach input TraceManager_new n = Some (c, n') /\
  forall x gateways o base, c = Some (x, gateways, o, base) -> px_workers x = [] /\ px_consumers x = [] /\
    forall x', Forall alive (px_workers x') -> px_workers x' <> [] -> made PushId input (SPush x' gateways o) base.
Proof.
  unfold PushServiceContext_init. destruct (loadFromFile input Config_new) as [[] config] eqn:Hl; [|by eexists _, _]. cbn [negb].
  destruct (reach_mysql reach _ _) eqn:Hm; [|by eexists _, _]. destruct (reach_redis reach _) eqn:Hr; [|by eexists _, _].
  destruct (reach_kafka reach _ _ _); [|by eexists _, _]. cbn [negb]. rewrite run_bind.
  match goal with |- context [initFromResolver ?f ?r ?c ?m n] => destruct (initFromResolver_returns f r c m n) as ([ok cl]&n1&E) end. rewrite E.
  unfold initFromResolver in E. apply run_bind_Some in E as (cl'&n2&_&E). injection E as <- <- _. cbn.
  case_bool_decide; [by eexists _, _|]. eexists _, _. split; [reflexivity|]. intros x g o base [= <- <- <- <-].
  split_and!; [done..|]. intros x' Ha Hne. exists config. by split_and!.
Qed.

Lemma workers_started rd x : px_workers x = [] -> px_consumers x = [] ->
  exists ok x', startWorkers rd x = Some (ok, x') /\
    (ok = true -> Forall alive (px_workers x') /\ px_workers x' <> [] /\ is_Some (stopWorkers x')).
Proof.
  intros Hw Hc. unfold startWorkers. rewrite Hw. cbn [length bool_decide negb].
  match goal with |- context [start_from rd 0 ?k x] => destruct (start_from_spec rd k 0 x) as (ok&x'&E&Hx); [by rewrite ?Hw, ?Hc..|]; assert (0 < k)%nat as Hk end.
  { destruct (Z.ltb_spec 0 (ps_worker_num (px_options x))); lia. }
  exists ok, x'. split; [done|]. intros ->. destruct Hx as (Ha&Hlen&_). split_and!; [done| |].
  - intros E0. rewrite E0 in Hlen. cbn in Hlen. lia.
  - by rewrite (stop_alive x' Ha).
Qed.

End Services.
