(* ===== verification/Monitor.v ===== *)
(** * Metrics and log lines

    common/monitor/Metrics.cpp, MetricsRegistry.cpp and MetricsHttpServer.cpp, and
    the text of common/log/Logger.cpp.  Numbers are binary64, printed as an
    output stream prints them by default.  The order in which a hash map is
    walked is a parameter. *)

From S2P Require Import Prelude Words Text Spans Config Otlp RateLimit.
From Stdlib Require Import SpecFloat.
Local Open Scope Z_scope.

(** ** A double on a stream: at most six significant digits *)

Definition round_half_even (n d : Z) : Z :=
  let q := n / d in
  let r := 2 * (n mod d) in
  if (d <? r) || ((r =? d) && Z.odd q) then q + 1 else q.

(** The [k] with [10 ^ k <= n / d < 10 ^ (k + 1)], for positive [n] and [d]; a
    double below 1 needs no more than 400 steps. *)
Fixpoint small_exponent (fuel : nat) (n d k : Z) : Z :=
  match fuel with
  | O => k
  | S fuel => if d <=? n then k else small_exponent fuel (n * 10) d (k - 1)
  end.
Definition decimal_exponent (n d : Z) : Z :=
  if d <=? n then Z.of_nat (String.length (to_string (n / d))) - 1 else small_exponent 400 n d 0.

(** The text without the zeros at its end. *)
Fixpoint strip_zeros (s : string) : string :=
  match s with
  | EmptyString => EmptyString
  | String c s' => match strip_zeros s' with
                   | EmptyString => if Ascii.eqb c "0" then EmptyString else String c EmptyString
                   | t => String c t
                   end
  end.

Definition with_fraction (int frac : string) : string :=
  match strip_zeros frac with EmptyString => int | f => int +:+ "." +:+ f end.

Definition zeros (n : nat) : string := Nat.iter n (String "0") EmptyString.

(** The format [%g] with precision 6, for a positive number. *)
Definition general6 (n d : Z) : string :=
  let k := decimal_exponent n d in
  let scaled := if k <=? 5 then round_half_even (n * 10 ^ (5 - k)) d else round_half_even n (d * 10 ^ (k - 5)) in
  let '(k, scaled) := if scaled =? 1000000 then (k + 1, 100000) else (k, scaled) in
  let ds := to_string scaled in
  if (-5 <? k) && (k <? 6) then
    if 0 <=? k then with_fraction (String.substring 0 (Z.to_nat (k + 1)) ds) (String.substring (Z.to_nat (k + 1)) 6 ds)
    else with_fraction "0" (zeros (Z.to_nat (- k - 1)) +:+ ds)
  else
    with_fraction (String.substring 0 1 ds) (String.substring 1 5 ds) +:+ "e" +:+ (if k <? 0 then "-" else "+") +:+
    (if Z.abs k <? 10 then "0" +:+ to_string (Z.abs k) else to_string (Z.abs k)).

Definition put_double (x : double) : string :=
  match x with
  | S754_zero s => if s then "-0" else "0"
  | S754_infinity s => if s then "-inf" else "inf"
  | S754_nan => "nan"
  | S754_finite s m e =>
      (if s then "-" else EmptyString) +:+ (if 0 <=? e then general6 (Z.pos m * 2 ^ e) 1 else general6 (Z.pos m) (2 ^ (- e)))
  end.

(** ** Counters, gauges, histograms *)

Definition counter_inc (value counter : double) : double := if SFltb value (to_double 0) then counter else dadd counter value.
Definition gauge_set (value gauge : double) : double := value.
Definition gauge_inc (value gauge : double) : double := dadd gauge value.
Definition gauge_dec (value gauge : double) : double := dsub gauge value.

Record Histogram := mkHistogram { buckets_ : list double; bucket_counts_ : list Z; count_ : Z; sum_ : double }.

(** [std::sort]; buckets that compare equal print alike. *)
Definition Histogram_new (buckets : list double) : Histogram :=
  let sorted := foldr (insert_by SFleb) [] buckets in
  mkHistogram sorted (replicate (length sorted) 0) 0 (to_double 0).

Definition observe (value : double) (h : Histogram) : Histogram :=
  mkHistogram (buckets_ h)
    (zip_with (fun b n => if SFleb value b then u64 (n + 1) else n) (buckets_ h) (bucket_counts_ h))
    (u64 (count_ h + 1)) (dadd (sum_ h) value).

Definition nl : string := String newline EmptyString.

Definition bucket_lines (name : string) (l : list (double * Z)) : string :=
  foldr (fun bn rest => name +:+ lit "_bucket{le='" +:+ put_double bn.1 +:+ lit "'} " +:+ to_string bn.2 +:+ nl +:+ rest) EmptyString l.

Definition render (name help : string) (h : Histogram) : string :=
  "# HELP " +:+ name +:+ " " +:+ help +:+ nl +:+ "# TYPE " +:+ name +:+ " histogram" +:+ nl +:+
  bucket_lines name (zip (buckets_ h) (bucket_counts_ h)) +:+
  name +:+ lit "_bucket{le='+Inf'} " +:+ to_string (count_ h) +:+ nl +:+
  name +:+ "_sum " +:+ put_double (sum_ h) +:+ nl +:+ name +:+ "_count " +:+ to_string (count_ h) +:+ nl.

(** ** MetricsRegistry *)

Record MetricsRegistry := mkRegistry {
  counters_ : gmap string double; gauges_ : gmap string double; histograms_ : gmap string Histogram; helps_ : gmap string string
}.

Definition MetricsRegistry_new : MetricsRegistry := mkRegistry ∅ ∅ ∅ ∅.

(** The operations on the object that [counter], [gauge] or [histogram] finds or
    makes. *)
Definition on_counter (name help : string) (f : double -> double) (r : MetricsRegistry) : MetricsRegistry :=
  mkRegistry (<[name := f (default (to_double 0) (counters_ r !! name))]> (counters_ r)) (gauges_ r) (histograms_ r) (<[name := help]> (helps_ r)).
Definition on_gauge (name help : string) (f : double -> double) (r : MetricsRegistry) : MetricsRegistry :=
  mkRegistry (counters_ r) (<[name := f (default (to_double 0) (gauges_ r !! name))]> (gauges_ r)) (histograms_ r) (<[name := help]> (helps_ r)).
Definition on_histogram (name help : string) (buckets : list double) (f : Histogram -> Histogram) (r : MetricsRegistry) : MetricsRegistry :=
  mkRegistry (counters_ r) (gauges_ r) (<[name := f (default (Histogram_new buckets) (histograms_ r !! name))]> (histograms_ r)) (<[name := help]> (helps_ r)).

Section Render.
(** How a hash map is walked. *)
Context (walk : forall A, gmap string A -> list (string * A)).
Arguments walk {A} _.

(** [helps_.at(name)] throws when there is no help. *)
Definition sample_lines (kind : string) (helps : gmap string string) (l : list (string * double)) : option string :=
  foldr (fun kv rest => help ← helps !! kv.1; rest ← rest;
           Some ("# HELP " +:+ kv.1 +:+ " " +:+ help +:+ nl +:+ "# TYPE " +:+ kv.1 +:+ " " +:+ kind +:+ nl +:+
                 kv.1 +:+ " " +:+ put_double kv.2 +:+ nl +:+ nl +:+ rest)) (Some EmptyString) l.

Definition renderPrometheus (r : MetricsRegistry) : option string :=
  counters ← sample_lines "counter" (helps_ r) (walk (counters_ r));
  gauges ← sample_lines "gauge" (helps_ r) (walk (gauges_ r));
  histograms ← foldr (fun kv rest => help ← helps_ r !! kv.1; rest ← rest; Some (render kv.1 help kv.2 +:+ nl +:+ rest))
                 (Some EmptyString) (walk (histograms_ r));
  Some (counters +:+ gauges +:+ histograms).

(** [handleClient]: what is left to send of the answer to a request, with the
    error that ended it; [received] is what [read] gives. *)
Definition metrics_response (body : string) : string :=
  let crlf := String (ascii_of_N 13) nl in
  "HTTP/1.1 200 OK" +:+ crlf +:+ "Content-Type: text/plain; version=0.0.4" +:+ crlf +:+ "Content-Length: " +:+
  to_string (Z.of_nat (String.length body)) +:+ crlf +:+ "Connection: close" +:+ crlf +:+ crlf +:+ body.

Definition handleClient (received : option string) (answers : list send_answer) (r : MetricsRegistry) : option (string * option string) :=
  match received with
  | None | Some EmptyString => Some (EmptyString, None)
  | Some _ => body ← renderPrometheus r; send_loop answers (metrics_response body)
  end.
End Render.

(** ** Histograms are cumulative *)

(** How many of the values are at most [b]. *)
Definition at_most (b : double) (values : list double) : Z := Z.of_nat (length (List.filter (fun v => SFleb v b) values)).

Definition observe_all (values : list double) (h : Histogram) : Histogram := foldl (fun h v => observe v h) h values.

Lemma u64_succ x : u64 (u64 x + 1) = u64 (x + 1).
Proof. unfold u64. by rewrite Zplus_mod_idemp_l. Qed.

Lemma histogram_exact buckets values :
  let h := observe_all values (Histogram_new buckets) in
  bucket_counts_ h = (fun b => u64 (at_most b values)) <$> buckets_ h /\ count_ h = u64 (Z.of_nat (length values)) /\
  buckets_ h = buckets_ (Histogram_new buckets).
Proof.
  induction values as [|v values IH] using rev_ind; cbn [observe_all foldl].
  - cbn. split_and!; try done. induction (foldr (insert_by SFleb) [] buckets) as [|b l IHl]; [done|]. cbn. by rewrite IHl.
  - unfold observe_all. rewrite foldl_snoc. fold (observe_all values (Histogram_new buckets)). destruct IH as (Hb&Hc&Hk).
    cbn [observe buckets_ bucket_counts_ count_]. rewrite Hb, Hc, Hk. split_and!; [|rewrite length_app; cbn; rewrite u64_succ; f_equal; lia|done].
    generalize (buckets_ (Histogram_new buckets)) as l. intros l. induction l as [|b l IHl]; [done|]. cbn [fmap list_fmap zip_with]. rewrite IHl. f_equal.
    unfold at_most. rewrite List.filter_app, length_app. cbn. destruct (SFleb v b); cbn; [rewrite u64_succ; f_equal; lia|f_equal; lia].
Qed.

(** *** The order of the doubles *)

(** Numbers as triples that compare as the doubles do. *)
Definition order_key (x : double) : option (Z * Z * Z) :=
  match x with
  | S754_nan => None
  | S754_infinity s => Some (if s then -2 else 2, 0, 0)
  | S754_zero _ => Some (0, 0, 0)
  | S754_finite s m e => Some (if s then (-1, - e, - Z.pos m) else (1, e, Z.pos m))
  end.

Definition key_le (a b : Z * Z * Z) : Prop :=
  let '(a1, a2, a3) := a in let '(b1, b2, b3) := b in a1 < b1 \/ (a1 = b1 /\ (a2 < b2 \/ (a2 = b2 /\ a3 <= b3))).

Lemma SFleb_key x y : SFleb x y = true <-> exists a b, order_key x = Some a /\ order_key y = Some b /\ key_le a b.
Proof.
  unfold SFleb, SFcompare. split.
  - intros H. destruct x as [[]|[]| |[] m e], y as [[]|[]| |[] m' e']; cbn in *; try done; eexists _, _; (split; [reflexivity|]); (split; [reflexivity|]); cbn; try lia.
    all: destruct (Z.compare_spec e e'); cbn in H; try done; try lia; rewrite Pos.compare_cont_spec in H || idtac;
      change (Pos.compare_cont Eq m m') with (Pos.compare m m') in H; destruct (Pos.compare_spec m m'); cbn in H; try done; lia.
  - intros (a&b&Ha&Hb&Hab). destruct x as [[]|[]| |[] m e], y as [[]|[]| |[] m' e']; cbn in *; simplify_eq; cbn in Hab; try done; try lia.
    all: destruct (Z.compare_spec e e'); try done; try lia; change (Pos.compare_cont Eq m m') with (Pos.compare m m');
      destruct (Pos.compare_spec m m'); try done; lia.
Qed.

Lemma SFleb_trans x y z : SFleb x y = true -> SFleb y z = true -> SFleb x z = true.
Proof.
  rewrite !SFleb_key. intros (a&b&Ha&Hb&H1) (b'&c&Hb'&Hc&H2). simplify_eq. exists a, c. split_and!; try done.
  destruct a as [[]], b as [[]], c as [[]]. cbn in *. lia.
Qed.

(** A larger bucket counts at least as much, and none more than were observed,
    as readers of the metrics expect. *)
Lemma buckets_cumulative b b' values :
  SFleb b b' = true -> 0 <= at_most b values <= at_most b' values /\ at_most b' values <= Z.of_nat (length values).
Proof.
  intros Hb. unfold at_most. split; [split; [lia|]|].
  - apply inj_le. induction values as [|v values IH]; [done|]. cbn. destruct (SFleb v b) eqn:Hv; [by rewrite (SFleb_trans v b b' Hv Hb); cbn; lia|].
    destruct (SFleb v b'); cbn; lia.
  - apply inj_le. apply List.filter_length_le.
Qed.

(** ** The registry can always be shown *)

Inductive metric_op :=
| CounterOp (name help : string) (value : double) | GaugeOp (name help : string) (f : double -> double)
| HistogramOp (name help : string) (buckets : list double) (value : double).

Definition apply_metric (o : metric_op) (r : MetricsRegistry) : MetricsRegistry :=
  match o with
  | CounterOp name help v => on_counter name help (counter_inc v) r
  | GaugeOp name help f => on_gauge name help f r
  | HistogramOp name help buckets v => on_histogram name help buckets (observe v) r
  end.

Definition has_help (r : MetricsRegistry) : Prop :=
  forall name, is_Some (counters_ r !! name) \/ is_Some (gauges_ r !! name) \/ is_Some (histograms_ r !! name) -> is_Some (helps_ r !! name).

Lemma apply_metric_help o r : has_help r -> has_help (apply_metric o r).
Proof.
  intros H name. destruct o as [k h v|k h f|k h b v]; cbn; rewrite !lookup_insert; case_decide; subst; eauto.
Qed.

Section Shown.
Context (walk : forall A, gmap string A -> list (string * A)).
Context (walk_all : forall A (m : gmap string A), walk A m ≡ₚ map_to_list m).

Lemma sample_lines_some {A} kind helps (m : gmap string A) (f : string * A -> string * double) :
  (forall kv, (f kv).1 = kv.1) -> (forall name, is_Some (m !! name) -> is_Some (helps !! name)) -> is_Some (sample_lines kind helps (f <$> walk A m)).
Proof.
  intros Hf Hh. assert (Forall (fun kv : string * A => is_Some (helps !! kv.1)) (walk A m)) as Hall.
  { rewrite walk_all. apply Forall_forall. intros [k v] Hin%elem_of_map_to_list. apply Hh. by exists v. }
  induction Hall as [|kv l [help Hk] _ [rest IH]]; [done|]. cbn. rewrite Hf, Hk. cbn. unfold sample_lines in IH. rewrite IH. done.
Qed.

Lemma registry_renders ops : is_Some (renderPrometheus walk (foldl (fun r o => apply_metric o r) MetricsRegistry_new ops)).
Proof.
  assert (has_help (foldl (fun r o => apply_metric o r) MetricsRegistry_new ops)) as Hh.
  { induction ops as [|o ops IH] using rev_ind; [|rewrite foldl_snoc; by apply apply_metric_help]. by intros name [[]|[[]|[]]]. }
  generalize dependent (foldl (fun r o => apply_metric o r) MetricsRegistry_new ops). clear ops. intros r Hh. unfold renderPrometheus.
  destruct (sample_lines_some "counter" (helps_ r) (counters_ r) id) as [c Hc]; [done|by intros; apply Hh; auto|]. rewrite list_fmap_id in Hc. rewrite Hc. cbn.
  destruct (sample_lines_some "gauge" (helps_ r) (gauges_ r) id) as [g Hg]; [done|by intros; apply Hh; auto|]. rewrite list_fmap_id in Hg. rewrite Hg. cbn.
  assert (Forall (fun kv : string * Histogram => is_Some (helps_ r !! kv.1)) (walk _ (histograms_ r))) as Hall.
  { rewrite walk_all. apply Forall_forall. intros [k v] Hin%elem_of_map_to_list. apply Hh. right. right. by exists v. }
  assert (exists h, foldr (fun kv rest => help ← helps_ r !! kv.1; rest ← rest; Some (render kv.1 help kv.2 +:+ nl +:+ rest))
    (Some EmptyString) (walk _ (histograms_ r)) = Some h) as [h ->]; [|by eexists].
  induction Hall as [|kv l [help Hk] _ [rest IH]]; [by eexists|]. cbn. rewrite Hk. cbn. rewrite IH. by eexists.
Qed.
End Shown.

(** ** Large counters *)

(** Six digits do not tell counters above a million apart: one that counts on
    looks as if it stood still, and then jumps. *)
Lemma large_counters_look_alike :
  put_double (to_double 999999) = "999999"%string /\ put_double (to_double 1000000) = "1e+06"%string /\
  put_double (counter_inc (to_double 1) (to_double 1000000)) = "1e+06"%string /\
  SFeqb (counter_inc (to_double 1) (to_double 1000000)) (to_double 1000001) = true /\
  put_double (to_double 1234567) = "1.23457e+06"%string.
Proof. vm_compute. done. Qed.


(** ** Logger *)

Inductive LogLevel := LDebug | LInfo | LWarn | LError | LFatal.
Definition level_value (l : LogLevel) : Z := match l with LDebug => 0 | LInfo => 1 | LWarn => 2 | LError => 3 | LFatal => 4 end.
Definition levelToString (l : LogLevel) : string :=
  match l with LDebug => "DEBUG" | LInfo => "INFO" | LWarn => "WARN" | LError => "ERROR" | LFatal => "FATAL" end.

(** [lg_file]: the path of the stream that is open; the last two fields are what
    was written to the console, and to each file. *)
Record Logger := mkLogger {
  level_ : LogLevel; console_enabled_ : bool; lg_file : option string; lg_console : list string; lg_files : gmap string (list string)
}.
Definition Logger_new : Logger := mkLogger LInfo true None [] ∅.

Definition setLevel (l : LogLevel) (g : Logger) : Logger := mkLogger l (console_enabled_ g) (lg_file g) (lg_console g) (lg_files g).
Definition enableConsole (on : bool) (g : Logger) : Logger := mkLogger (level_ g) on (lg_file g) (lg_console g) (lg_files g).

(** [opens]: whether the file can be opened; [stamp] the time and [tid] the
    thread of the line that tells when it cannot. *)
Definition setLogFile (opens : bool) (stamp tid path : string) (g : Logger) : bool * Logger :=
  if opens then (true, mkLogger (level_ g) (console_enabled_ g) (Some path) (lg_console g) (lg_files g))
  else (false, mkLogger (level_ g) true None
                 (lg_console g ++ [stamp +:+ " [ERROR] [tid=" +:+ tid +:+ "] Logger.cpp:47 failed to open log file: " +:+ path]) (lg_files g)).

(** The text after the last separator. *)
Fixpoint base_from (base p : string) : string :=
  match p with
  | EmptyString => base
  | String c p' => base_from (if Ascii.eqb c "/" || Ascii.eqb c backslash then p' else base) p'
  end.
Definition baseName (path : option string) : string :=
  match path with None => "unknown" | Some p => base_from p p end.

Definition log_line (stamp tid : string) (l : LogLevel) (file : option string) (line : Z) (message : string) : string :=
  stamp +:+ " [" +:+ levelToString l +:+ "]" +:+ " [tid=" +:+ tid +:+ "] " +:+ baseName file +:+ ":" +:+ to_string line +:+ " " +:+ message.

Definition log (stamp tid : string) (l : LogLevel) (file : option string) (line : Z) (message : string) (g : Logger) : Logger :=
  if level_value l <? level_value (level_ g) then g
  else
    let text := log_line stamp tid l file line message in
    mkLogger (level_ g) (console_enabled_ g) (lg_file g)
      (if console_enabled_ g then lg_console g ++ [text] else lg_console g)
      (match lg_file g with Some path => <[path := default [] (lg_files g !! path) ++ [text]]> (lg_files g) | None => lg_files g end).

(** The name of a file has no directories in front. *)
Lemma baseName_after dir name :
  string_all (fun c => negb (Ascii.eqb c "/" || Ascii.eqb c backslash)) name = true -> baseName (Some (dir +:+ String "/" name)) = name.
Proof.
  intros Hn. cbn [baseName]. assert (forall p, base_from p name = p) as Hplain.
  { induction name as [|c s IH]; intros p; [done|]. cbn [string_all base_from] in *. apply andb_prop in Hn as [Hc Hs].
    apply negb_true_iff in Hc as ->. by apply IH. }
  enough (forall base, base_from base (dir +:+ String "/" name) = name) as H by apply H.
  induction dir as [|c dir IH]; intros base; [exact (Hplain name)|]. exact (IH _).
Qed.

(** A line that is severe enough reaches the console, or the file, or both; the
    log is only silent when the caller asked for it. *)
Lemma log_reaches stamp tid l file line message g :
  level_value (level_ g) <= level_value l -> console_enabled_ g = true \/ is_Some (lg_file g) ->
  let g' := log stamp tid l file line message g in
  let text := log_line stamp tid l file line message in
  last (lg_console g') = Some text \/ exists path lines, lg_file g = Some path /\ lg_files g' !! path = Some (lines ++ [text]).
Proof.
  intros Hl Ho. unfold log. destruct (Z.ltb_spec (level_value l) (level_value (level_ g))); [lia|]. cbn.
  destruct (console_enabled_ g); [left; by rewrite last_snoc|]. destruct Ho as [|[path ->]]; [done|]. right.
  eexists path, _. split; [done|]. by rewrite lookup_insert_eq.
Qed.

(** ** Probing a service *)

(** What happens at an address of [canConnectAddress]: no socket; a descriptor
    that connects at once, or fails, or is in progress, with what [select] and
    then [SO_ERROR] say. *)
Inductive attempt :=
| NoSocket
| ConnectsNow (fd : Z)
| ConnectFails (fd : Z) (error : string)
| InProgress (fd : Z) (selected : option (option string)).

(** The loop over the addresses; [None]: a bit outside of the [fd_set] is set. *)
Fixpoint probe (attempts : list attempt) (last_error : string) : option (bool * string) :=
  match attempts with
  | [] => Some (false, last_error)
  | NoSocket :: rest => probe rest last_error
  | ConnectsNow _ :: _ => Some (true, "tcp connect ok"%string)
  | ConnectFails _ error :: rest => probe rest error
  | InProgress fd selected :: rest =>
      if 1024 <=? fd then None
      else match selected with
           | None => probe rest "connect timeout"
           | Some None => Some (true, "tcp connect ok"%string)
           | Some (Some error) => probe rest error
           end
  end.

(** What [canConnectAddress] does once the address is cut at its last colon. *)
Definition connect_host (getaddrinfo : string -> string -> list attempt + string) (host port : string) : option (bool * string) :=
  match getaddrinfo host port with
  | inr error => Some (false, "getaddrinfo failed: " +:+ error)
  | inl attempts => probe attempts "connect failed"
  end.

(** With small descriptors the probe answers, and says yes exactly when some
    address can be connected to. *)
Definition attempt_fd (a : attempt) : Z := match a with NoSocket => 0 | ConnectsNow fd | ConnectFails fd _ | InProgress fd _ => fd end.
Definition reachable_at (a : attempt) : bool := match a with ConnectsNow _ | InProgress _ (Some None) => true | _ => false end.

Lemma probe_exact attempts e : Forall (fun a => attempt_fd a < 1024) attempts ->
  exists detail, probe attempts e = Some (existsb reachable_at attempts, detail).
Proof.
  intros H. revert e. induction H as [|a l Ha _ IH]; intros e; [by exists e|]. destruct a as [|fd|fd err|fd [[err|]|]]; cbn in *; try apply IH.
  - by eexists.
  - destruct (Z.leb_spec 1024 fd); [lia|apply IH].
  - destruct (Z.leb_spec 1024 fd); [lia|by eexists].
  - destruct (Z.leb_spec 1024 fd); [lia|apply IH].
Qed.
